(* ===== verification/_CoqProject ===== *)
-Q . S2P
Prelude.v
Words.v
Doubles.v
Yuyv.v
Fsfw.v
LinuxApi.v
LinuxModel.v
WebcamTest.v
WebcamTestProperties.v
FsfwModel.v
FsfwConfig.v
WebcamDefinitions.v
MessageTypes.v
WebcamDeviceHandler.v
CommandArbiter.v
HandlerRefinement.v
HandlerProperties.v
DeviceCycles.v
WebcamCommandingService.v
CommandingProperties.v
TmtcInfrastructure.v
TmtcProperties.v
Uplink.v
Downlink.v
EndToEnd.v
CommandPath.v
CommandPathSteps.v
CommandPathProperties.v
PeriodicTasks.v
FrameworkTasks.v
SharedCounter.v
IntExchange.v
Mission.v
StartUp.v
Telecommanding.v
TelecommandingProperties.v
MainCommands.v
MainProgram.v
