(* ===== verification/Prelude.v ===== *)
(** * A verified model of the FSFW webcam demo

    The program (under [src/]) is a small satellite application on the Flight
    Software Framework: a webcam that is commanded by telecommands. Its parts:

    - the device handler ([mission/webcam/WebcamDeviceHandler.cpp]) keeps the
      requests for the webcam and hands them out when the framework polls it;
    - the commanding service ([mission/tmtc/WebcamCommandingService.cpp]) turns a
      telecommand into a message for the handler, with its data in the IPC store,
      and the handler's replies into telemetry;
    - the TM/TC objects ([mission/tmtc/TmtcInfrastructure.cpp]) send telecommands
      to the service and print telemetry and verification reports;
    - the message helpers ([mission/messaging]), the definitions, the communication
      interface and the cookie ([mission/webcam]), the factory that assembles all
      this ([mission/ObjectFactory.cpp]) and [main.cpp], with the configuration of
      the framework in [FSFWConfig.h];
    - a stand-alone hardware test of the camera on the Linux video API
      ([test/webcam.cpp]);
    - the solutions of the exercises: threads that share data ([ws-ipc]), periodic
      tasks ([ws-tasks]), system objects ([ws-objects]).

    Flow of a command: [main] - [sendCommand] - TC store and request queue - (base
    class of the service) - [prepareCommand] - IPC store and message - (base class
    of the handler) - [letChildHandleMessage] - (action helper) -
    [buildCommandFromCommand] - pending flag - [buildNormalDeviceCommand] -
    [scanForReply] - [interpretDeviceReply]. And of a reply with data: (base class of
    the service) - [handleReply] - IPC store - (telemetry packet) - TM store and the
    sink's queue - [StubTelemetrySink] - console. The parts in parentheses are the
    framework's.

    ** What is modelled, and how

    The framework is a submodule that is not part of the repository. [Fsfw] states
    what the mission code uses of it as type classes: constants, messages, stores,
    queues, packets, the base classes and the object manager, over an abstract
    framework state [W]. Properties that rely on its behaviour use the law classes
    beside them, which say only what its documentation says (a store hands out
    unused addresses, a queue is first in first out, and so on). [FsfwModel] gives
    one concrete instance with its laws; it serves to run the code on examples.

    A member function is a computation in the state monad [M] below, on an [env]:
    the object, the console and the framework state. An outcome is a result, or
    undefined behaviour (a null pointer is dereferenced or a buffer overrun), or
    exhausted fuel. Pointer arguments are [option]s; output pointers return their
    new contents. Properties use [wp], total correctness: the call returns, without
    undefined behaviour and with enough fuel, and its result satisfies the
    postcondition.

    - [Prelude]: outcomes, the monad, [wp], record update, tactics.
    - [Words]: integers of fixed width, bytes, byte orders, doubles as 64 bits with
      the round trip through [memcpy].
    - [Doubles]: the double arithmetic of the pixel conversion and its rounding error.
    - [Fsfw], [FsfwModel]: the framework's interfaces, and an instance of them.
      [FsfwConfig]: the macros that configure it.
    - [LinuxApi], [LinuxModel]: the same for the operating system under the hardware
      test: V4L2 requests, descriptors, mappings, files.
    - [WebcamDefinitions], [MessageTypes]: identifiers and their codecs. The class
      [EnumCodec] is what the handler's dispatch uses of them.
    - [WebcamDeviceHandler]: the record [Handler] has the members of the class, and
      each member function is the definition of the same name.
    - [CommandArbiter]: the abstract specification of the handler, a set of pending
      commands with two frame rates. [HandlerRefinement]: every framework call
      of the handler is simulated by a step of the arbiter, and keeps the object's
      invariant. [HandlerProperties]: what follows for whole runs, and the
      functional behaviour of the member functions on every branch. [DeviceCycles]:
      in the rhythm of poll and reply every pending command is served and reported.
    - [WebcamCommandingService], [CommandingProperties]: the service. Telecommands
      store exactly their bytes or change nothing; replies release what they send.
    - [TmtcInfrastructure], [TmtcProperties]: the sink, the receiver and the
      distributor. The loops over a queue end and empty it, dumps can be read back,
      store elements are accounted for, the sequence counter wraps around. [Uplink]:
      whole runs of the distributor and the service's queue; telecommands arrive as
      they were sent, in order, and the TC store is accounted for.
    - [EndToEnd]: service and handler over one framework; a telecommand reaches the
      handler with its rate and leaves no store element behind. [CommandPath]: whole
      runs of the two as a step relation, and their specification: a first-in
      first-out queue of accepted commands in front of the arbiter.
      [CommandPathSteps]: each call of a run is a step of the specification.
      [CommandPathProperties]: so is every run; no call of a run fails, the IPC store
      is accounted for, every kind of command accepted is served, with the rate commanded
      last. [StartUp]: what this means for the commands that [main] sends.
    - [Telecommanding], [TelecommandingProperties]: the runs of [Uplink] and
      [CommandPath] put together, from [sendCommand] to the frame rate of the device.
      Each run is one of either when looked at from its end, so what is known of the
      two holds together: telecommands are handled in the order and with the data they
      were sent with, the device works with the rate sent last, and the system never
      gets stuck. [MainCommands]: the commands of [main] on this way.
    - [Downlink]: whole runs of the service and the telemetry sink. Each piece of
      telemetry sent for a reply is printed once, in order, and the TM store is
      accounted for.
    - [SharedCounter], [IntExchange]: the two thread programs as step relations, one
      step per access to a shared variable, so that the theorems range over all
      interleavings.
    - [Mission]: the communication interface, the cookie, the factory and the loop
      of [main]. The factory makes and connects the same objects over any framework, and
      a second call does nothing. The global pointers are the record [Globals]; the
      distributor's state is kept with its pointer, and the loop works on it there.
      [MainProgram]: all of [main], from nothing to its loop; it boots with every object
      in place and both tasks started, and sends its three commands once.
    - [Yuyv]: the conversion of camera pixels, which equals exact arithmetic but for
      the green of a pixel whose exact value is an integer, where rounding may cost
      one; it overruns for an odd number of pixels.
      [WebcamTest], [WebcamTestProperties]: the hardware test. What it acquires it
      gives back, on every error path of start-up; a dequeued frame is offered back to
      the driver on every path; the file holds the frame when no write is short. These
      properties assume frames that lie in their buffer, with an even number of pixels
      when they are uncompressed; for others the conversion overruns.
    - [PeriodicTasks], [FrameworkTasks]: the exercises. Threads are a step relation
      with a clock, so the theorems range over all schedules; tasks and objects of the
      framework are reached through the interfaces of [Fsfw].

    ** Fuel

    The two [while] loops over a message queue have fuel. Each iteration takes a
    message, so any fuel above the number of waiting messages is enough; the theorems
    state this bound. A loop runs without interruption: messages that other tasks
    send while it runs are left to the next call. The pixel loop has fuel as well; it
    takes two pixels at a time, so half their number and one more is enough. The other
    loops run over lists. The endless loop of [main] is given as the list of what the
    other tasks do to the framework between its iterations, of any length.

    ** What the modelling showed

    [IntExchange.exchange_loses_and_repeats]: the receiving thread reads the newest
    element and removes the oldest. [TmtcProperties.undelivered_packet_leaks]: a
    telecommand that cannot be delivered keeps its store element.
    [Yuyv.yuyv_to_rgb_correct]: with an odd number of pixels the conversion writes
    behind the end of its output. The hardware test unmaps a buffer whose mapping
    failed, leaves the device open when start-up fails, and says it wrote the file
    without looking at the results of its writes. Two lines of the periodic
    threads can run into each other. Also worth knowing, though not wrong by any
    document: snapshots are served before frame rate commands without fairness, a
    parameter write takes effect only with the next set-frame-rate command, and that
    command is accepted without data.

    ** What is assumed

    Doubles are IEEE binary64, rounded to nearest at every operation, without
    contraction or excess precision. An exception that nobody catches (a vector of
    negative size) counts as undefined behaviour. A conversion's input and output do
    not overlap. Streams keep their descriptors apart from those the test opens.
    [ObjectManager::initialize] calls what is registered in an unknown order and, of
    the mission's objects, is assumed only to initialise the distributor.

    In [CommandPath] a message that the service has prepared waits in the handler's
    queue, which takes it and keeps the order; a parameter dump goes to the framework's
    parameter helper instead. In [Uplink] the service takes the packets of its queue in
    order and deletes each from the store. In both, calls of different tasks do not
    overlap, and other objects leave alone the store elements that waiting messages
    name. [Telecommanding] also assumes that the stores are separate pools, that the
    framework's packet reader finds what a packet was built from, and that calls to the
    handler leave the TC store alone; the service may reject any packet it takes.
    [Downlink] assumes that telemetry the base class could send is in the TM store and
    in the sink's queue, with a header that parses.

    ** What is not modelled

    The framework itself, including the base classes' own state machines (modes,
    scheduling, time-outs); destruction beyond the queues' release; real time beyond
    the promise of [sleep_for] to sleep no less than told. The loops that only sleep at
    the end of the exercises' [main] have no body to model, and [ws-tasks] [main-04]
    repeats two classes of the exercises before it without using them. The mission's
    code copies doubles without computing with them, so there they are 64-bit values;
    how a double is printed is left as the argument that is printed. *)

From stdpp Require Export base list strings gmap fin_maps numbers.
From Stdlib Require Export ZArith Lia.

#[export] Set Default Goal Selector "!".
#[export] Set Warnings "-clear-no-such-hyp".

(** * Outcomes of a run

    A C++ function either returns, or runs into undefined behaviour (a null
    pointer is dereferenced, a buffer is read past its end), or, for a loop run
    with fuel, has not finished when the fuel is used up. *)

Inductive outcome (A : Type) : Type :=
| Done (a : A)
| Undefined
| OutOfFuel.
Arguments Done {_} _.
Arguments Undefined {_}.
Arguments OutOfFuel {_}.

(** The state monad over outcomes in which every member function is written. *)
Definition M (S A : Type) : Type := S → outcome (A * S).

#[export] Instance M_ret {S} : MRet (M S) := λ _ a s, Done (a, s).
#[export] Instance M_bind {S} : MBind (M S) := λ _ _ f m s,
  match m s with
  | Done (a, s') => f a s'
  | Undefined => Undefined
  | OutOfFuel => OutOfFuel
  end.

Definition undefined {S A} : M S A := λ _, Undefined.
Definition out_of_fuel {S A} : M S A := λ _, OutOfFuel.
Definition get {S} : M S S := λ s, Done (s, s).
Definition put {S} (s : S) : M S unit := λ _, Done ((), s).
Definition modify {S} (f : S → S) : M S unit := λ s, Done ((), f s).

(** A pointer argument is [None] for [nullptr] and [Some v] when it points at an
    object holding [v]. Reading through it, and storing through it; a function
    that stores through a pointer returns the new content of the pointee. *)
Definition deref {S A} (p : option A) : M S A :=
  match p with Some a => mret a | None => undefined end.
Definition assign {S A} (p : option A) (v : A) : M S (option A) :=
  match p with Some _ => mret (Some v) | None => undefined end.
(** [if (p != nullptr) { *p = v; }] *)
Definition assign_if {A} (p : option A) (v : A) : option A := (λ _, v) <$> p.

(** [memcpy(dst, p, n)] as a read of the first [n] elements of a buffer. *)
Definition read_prefix {S A} (p : option (list A)) (n : nat) : M S (list A) :=
  match p with
  | Some bs => if decide (n ≤ length bs) then mret (take n bs) else undefined
  | None => undefined
  end.

(** * Total correctness

    [wp m s Q]: run from [s], [m] returns (no undefined behaviour, no exhausted
    fuel) with a result and a state that satisfy [Q]. *)
Definition wp {S A} (m : M S A) (s : S) (Q : A → S → Prop) : Prop :=
  match m s with Done (a, s') => Q a s' | _ => False end.

Section wp_rules.
Context {S : Type}.

Lemma wp_ret {A} (a : A) (s : S) (Q : A → S → Prop) : Q a s → wp (mret a) s Q.
Proof. done. Qed.

Lemma wp_bind {A B} (m : M S A) (f : A → M S B) s (Q : B → S → Prop) :
  wp m s (λ a s', wp (f a) s' Q) → wp (m ≫= f) s Q.
Proof. unfold wp, mbind, M_bind. by destruct (m s) as [[a s']| |]. Qed.

Lemma wp_bind_inv {A B} (m : M S A) (f : A → M S B) s (Q : B → S → Prop) :
  wp (m ≫= f) s Q → wp m s (λ a s', wp (f a) s' Q).
Proof. unfold wp, mbind, M_bind. by destruct (m s) as [[a s']| |]. Qed.

Lemma wp_mono {A} (m : M S A) s (P Q : A → S → Prop) :
  wp m s P → (∀ a s', P a s' → Q a s') → wp m s Q.
Proof. unfold wp. destruct (m s) as [[a s']| |]; eauto. Qed.

Lemma wp_done {A} (m : M S A) s a s' (Q : A → S → Prop) :
  m s = Done (a, s') → Q a s' → wp m s Q.
Proof. unfold wp. by intros ->. Qed.

Lemma wp_inv {A} (m : M S A) s (Q : A → S → Prop) :
  wp m s Q → ∃ a s', m s = Done (a, s') ∧ Q a s'.
Proof. unfold wp. destruct (m s) as [[a s']| |]; naive_solver. Qed.

Lemma wp_get s (Q : S → S → Prop) : Q s s → wp get s Q.
Proof. done. Qed.

Lemma wp_modify f s (Q : unit → S → Prop) : Q () (f s) → wp (modify f) s Q.
Proof. done. Qed.

Lemma wp_deref {A} (p : option A) a s (Q : A → S → Prop) :
  p = Some a → Q a s → wp (deref p) s Q.
Proof. by intros ->. Qed.

Lemma wp_assign {A} (p : option A) a v s (Q : option A → S → Prop) :
  p = Some a → Q (Some v) s → wp (assign p v) s Q.
Proof. by intros ->. Qed.

Lemma wp_read_prefix {A} (p : option (list A)) bs n s (Q : list A → S → Prop) :
  p = Some bs → n ≤ length bs → Q (take n bs) s → wp (read_prefix p n) s Q.
Proof. intros -> Hn HQ. unfold read_prefix. by rewrite decide_True. Qed.
End wp_rules.

Create HintDb wp_db discriminated.
#[export] Hint Resolve wp_ret wp_bind wp_get wp_modify : wp_db.

(** * Elements of a store

    [tracks rest c l]: the map [c] is [rest] and, beyond it, exactly the elements with the
    addresses [l], all distinct. *)
Section tracks.
Context {A : Type}.
Implicit Types (c rest : gmap Z A) (l : list Z).

Lemma foldr_delete_comm c a l :
  foldr delete (delete a c) l = delete a (foldr delete c l).
Proof. induction l as [|b l IH]; simpl; [done|]. by rewrite IH, delete_delete. Qed.

Lemma foldr_delete_lookup c l a :
  foldr delete c l !! a = if decide (a ∈ l) then None else c !! a.
Proof.
  induction l as [|b l IH]; simpl; [done|].
  destruct (decide (a = b)) as [->|Hne].
  - rewrite lookup_delete_eq, decide_True by set_solver. done.
  - rewrite lookup_delete_ne, IH by done. repeat case_decide; set_solver.
Qed.

Lemma foldr_delete_size c l :
  NoDup l → (∀ a, a ∈ l → is_Some (c !! a)) → size c = size (foldr delete c l) + length l.
Proof.
  induction 1 as [|a l Ha Hl IH]; intros Hin; simpl; [lia|].
  rewrite map_size_delete, foldr_delete_lookup, decide_False by done.
  destruct (Hin a) as [x Hx]; [set_solver|]. rewrite Hx.
  assert (size (foldr delete c l) ≠ 0).
  { apply map_size_ne_0_lookup. exists a. rewrite foldr_delete_lookup, decide_False by done. by eexists. }
  rewrite IH by set_solver. lia.
Qed.

Definition tracks rest c l : Prop :=
  NoDup l ∧ (∀ a, a ∈ l → is_Some (c !! a)) ∧ foldr delete c l = rest.

Lemma tracks_perm rest c l l' : l ≡ₚ l' → tracks rest c l → tracks rest c l'.
Proof.
  intros Hl (Hd & Hin & Hrest). split_and!.
  - by rewrite <- Hl.
  - intros a Ha. apply Hin. by rewrite Hl.
  - rewrite <- Hrest. apply map_eq. intros a. rewrite !foldr_delete_lookup.
    apply decide_ext. by rewrite Hl.
Qed.

Lemma tracks_insert rest c l a x :
  c !! a = None → tracks rest c l → tracks rest (<[a:=x]> c) (a :: l).
Proof.
  intros Hnone (Hd & Hin & Hrest).
  assert (a ∉ l) by (intros Ha; destruct (Hin a Ha); congruence). split_and!.
  - by constructor.
  - intros b [-> | Hb]%elem_of_cons; [rewrite lookup_insert_eq; by eexists|].
    rewrite lookup_insert_ne by congruence. by apply Hin.
  - simpl. by rewrite <- foldr_delete_comm, delete_insert_id.
Qed.

Lemma tracks_delete rest c l a : tracks rest c (a :: l) → tracks rest (delete a c) l.
Proof.
  intros (Hd & Hin & Hrest). apply list_relations.list.NoDup_cons in Hd as [Ha Hd]. split_and!; [done| |].
  - intros b Hb. rewrite lookup_delete_ne by congruence. apply Hin. set_solver.
  - by rewrite foldr_delete_comm.
Qed.

Lemma tracks_size rest c l : tracks rest c l → size c = size rest + length l.
Proof. intros (Hd & Hin & <-). by apply foldr_delete_size. Qed.
End tracks.

(** * Lists of present values *)

Lemma sublist_fmap_Some {A} (l1 l2 : list A) :
  Some <$> l1 `sublist_of` Some <$> l2 → l1 `sublist_of` l2.
Proof.
  revert l1. induction l2 as [|x l2 IH]; intros l1 Hsub.
  - apply sublist_nil_r, fmap_nil_inv in Hsub. by subst.
  - apply sublist_cons_r in Hsub as [Hsub | (l & Hl & Hsub)]; [by apply sublist_cons, IH|].
    destruct l1 as [|y l1]; simplify_eq/=. by apply sublist_skip, IH.
Qed.

Lemma omap_take_Some {A B} (f : A → option B) n l :
  Forall (λ x, is_Some (f x)) l → omap f (take n l) = take n (omap f l).
Proof.
  intros Hall. revert n. induction Hall as [|x l [y Hy] _ IH]; intros [|n]; simpl; try done.
  rewrite Hy. simpl. by rewrite IH.
Qed.

(** * Record update

    [r <| f := v |>] is [r] with field [f] replaced. A record becomes updatable by
    an instance of [Settable], its eta-expansion; the setter of each field is then
    found by abstracting that field in the eta-expansion. *)
Class Settable (R : Type) := settable_eta : R → R.
Class Setter {R A : Type} (f : R → A) := set_field : (A → A) → R → R.
#[export] Hint Mode Setter - - ! : typeclass_instances.
Arguments set_field {_ _} _ {_} _ _.

Ltac build_setter :=
  match goal with
  | |- @Setter ?R ?A ?f =>
      let r := fresh "r" in let g := fresh "g" in
      intros g r;
      let e := eval hnf in (@settable_eta R _ r) in
      let e := eval pattern (f r) in e in
      lazymatch e with
      | (λ _, ?b) _ => fail "no such field"
      | ?k _ => let b := eval cbv beta in (k (g (f r))) in exact b
      end
  end.
#[export] Hint Extern 0 (Setter _) => build_setter : typeclass_instances.

Notation "r <| f := v |>" := (set_field f (λ _, v) r)
  (at level 1, f at level 10, v at level 99, left associativity,
   format "r  <|  f  :=  v  |>").

(** Case analysis on every test in the goal, keeping the equations. *)
Ltac split_tests :=
  repeat (case_match; try case_decide; simplify_eq/=).

(** Evaluates the tests whose outcome is known. *)
Ltac eval_tests :=
  repeat first
    [ rewrite decide_True by done
    | rewrite decide_False by (done || (intros [= ?]; done) || (intros Hx; by apply Hx)
                               || (by intros (_ & _ & ?))) ].

(** Runs a straight-line computation on a symbolic state. Call-by-need keeps the
    shared intermediate states shared. *)
Ltac run_monad :=
  lazy beta iota zeta delta [mbind M_bind mret M_ret get put modify deref assign
    assign_if read_prefix undefined out_of_fuel set_field settable_eta wp].
