(* ===== verification/Words.v ===== *)
(** Machine words, bytes and doubles: unsigned integers with their wrap-around,
    the byte representation of multi-byte words in either byte order, and the
    IEEE doubles of the program as their 64-bit object representation, the only
    thing [memcpy] and assignment can see. *)

From S2P Require Import Prelude.
From Stdlib Require Export Strings.Byte.

#[export] Instance byte_eq_dec : EqDecision byte := Byte.byte_eq_dec.

(** Unsigned integers of [w] bits, as the remainder modulo [2 ^ w]. *)
Definition wrap (w z : Z) : Z := (z `mod` 2 ^ w)%Z.
Definition uint8 : Z → Z := wrap 8.
Definition uint16 : Z → Z := wrap 16.
Definition uint32 : Z → Z := wrap 32.

(** Conversion of a [uint32_t] to [int]. *)
Definition int_of_uint32 (z : Z) : Z :=
  (if decide (z < 2 ^ 31) then z else z - 2 ^ 32)%Z.

Definition byte_unsigned (b : byte) : Z := Z.of_N (Byte.to_N b).
Definition byte_of_Z (z : Z) : byte :=
  default Byte.x00 (Byte.of_N (Z.to_N (z `mod` 256)%Z)).

Fixpoint le_combine (bs : list byte) : Z :=
  match bs with
  | [] => 0
  | b :: bs' => byte_unsigned b + 256 * le_combine bs'
  end%Z.

Fixpoint le_split (n : nat) (z : Z) : list byte :=
  match n with
  | O => []
  | S n' => byte_of_Z z :: le_split n' (z `div` 256)%Z
  end.

(** The byte order of the host: [memcpy] between a double and a buffer follows
    it. *)
Inductive byte_order := LittleEndian | BigEndian.
#[export] Instance byte_order_eq_dec : EqDecision byte_order.
Proof. solve_decision. Defined.

(** [double]: 64 bits that the mission's code copies and never computes with. *)
Record double := Double { double_bits : Z }.
#[export] Instance double_eq_dec : EqDecision double.
Proof. solve_decision. Defined.

Definition sizeof_double : nat := 8.
Definition double_zero : double := Double 0.
(** A C++ [double] object holds exactly eight bytes. *)
Definition double_wf (d : double) : Prop := (0 ≤ double_bits d < 2 ^ 64)%Z.

Definition double_of_bytes (o : byte_order) (bs : list byte) : double :=
  Double (le_combine (match o with LittleEndian => bs | BigEndian => rev bs end)).
Definition bytes_of_double (o : byte_order) (d : double) : list byte :=
  let bs := le_split sizeof_double (double_bits d) in
  match o with LittleEndian => bs | BigEndian => rev bs end.

Section facts.
Local Open Scope Z_scope.

Lemma wrap_range w z : 0 ≤ w → 0 ≤ wrap w z < 2 ^ w.
Proof. intros. unfold wrap. apply Z.mod_pos_bound. lia. Qed.

Lemma wrap_small w z : 0 ≤ z < 2 ^ w → wrap w z = z.
Proof. intros. unfold wrap. by apply Z.mod_small. Qed.

Lemma wrap_wrap w z : wrap w (wrap w z) = wrap w z.
Proof. unfold wrap. apply Zmod_mod. Qed.

Lemma wrap_succ w z : wrap w (wrap w z + 1) = wrap w (z + 1).
Proof. unfold wrap. by rewrite Zplus_mod_idemp_l. Qed.

Lemma byte_unsigned_range b : 0 ≤ byte_unsigned b < 256.
Proof. unfold byte_unsigned. pose proof (Byte.to_N_bounded b). lia. Qed.

Lemma byte_unsigned_of_Z z : byte_unsigned (byte_of_Z z) = z `mod` 256.
Proof.
  unfold byte_unsigned, byte_of_Z.
  pose proof (Z.mod_pos_bound z 256 ltac:(lia)) as Hz.
  destruct (Byte.of_N (Z.to_N (z `mod` 256))) as [b|] eqn:Hb; simpl.
  - apply Byte.to_of_N in Hb. rewrite Hb. lia.
  - apply Byte.of_N_None_iff in Hb. lia.
Qed.

Lemma byte_of_Z_unsigned b : byte_of_Z (byte_unsigned b) = b.
Proof.
  unfold byte_of_Z. rewrite Z.mod_small by apply byte_unsigned_range.
  unfold byte_unsigned. by rewrite N2Z.id, Byte.of_to_N.
Qed.

Lemma byte_of_Z_mod z k : byte_of_Z (z + 256 * k) = byte_of_Z z.
Proof. unfold byte_of_Z. by rewrite (Z.mul_comm 256), Z_mod_plus_full. Qed.

#[export] Instance byte_unsigned_inj : Inj (=) (=) byte_unsigned.
Proof.
  intros b1 b2 H. by rewrite <- (byte_of_Z_unsigned b1), H, byte_of_Z_unsigned.
Qed.

Lemma length_le_split n z : length (le_split n z) = n.
Proof. revert z. induction n as [|n IH]; intros z; simpl; [done|by rewrite IH]. Qed.

Lemma le_combine_split n z : le_combine (le_split n z) = z `mod` 256 ^ Z.of_nat n.
Proof.
  revert z. induction n as [|n IH]; intros z; cbn [le_split le_combine].
  - by rewrite Z.mod_1_r.
  - rewrite IH, byte_unsigned_of_Z, Nat2Z.inj_succ, Z.pow_succ_r by lia.
    rewrite Z.rem_mul_r; lia.
Qed.

Lemma le_split_combine bs : le_split (length bs) (le_combine bs) = bs.
Proof.
  induction bs as [|b bs IH]; [done|]. cbn [le_combine length le_split].
  f_equal.
  - by rewrite byte_of_Z_mod, byte_of_Z_unsigned.
  - rewrite (Z.mul_comm 256), Z.div_add by lia.
    by rewrite Z.div_small, Z.add_0_l by apply byte_unsigned_range.
Qed.

Lemma le_combine_range bs : 0 ≤ le_combine bs < 256 ^ Z.of_nat (length bs).
Proof.
  induction bs as [|b bs IH]; cbn [le_combine length]; [lia|].
  pose proof (byte_unsigned_range b).
  rewrite Nat2Z.inj_succ, Z.pow_succ_r by lia. lia.
Qed.

Lemma length_bytes_of_double o d : length (bytes_of_double o d) = sizeof_double.
Proof.
  destruct o; unfold bytes_of_double; rewrite ?length_rev; apply length_le_split.
Qed.

Lemma double_of_bytes_of_double o d :
  double_wf d → double_of_bytes o (bytes_of_double o d) = d.
Proof.
  intros Hd. destruct d as [z].
  assert (Double (le_combine (le_split sizeof_double z)) = Double z) as Hz.
  { rewrite le_combine_split, Z.mod_small; [done|]. by unfold double_wf in Hd. }
  unfold double_of_bytes, bytes_of_double.
  destruct o; [done|]. by rewrite rev_involutive.
Qed.

Lemma bytes_of_double_of_bytes o bs :
  length bs = sizeof_double → bytes_of_double o (double_of_bytes o bs) = bs.
Proof.
  intros Hbs. destruct o; unfold double_of_bytes, bytes_of_double; simpl double_bits.
  - rewrite <- Hbs. apply le_split_combine.
  - rewrite <- Hbs, <- length_rev, le_split_combine. apply rev_involutive.
Qed.

Lemma double_of_bytes_wf o bs :
  length bs = sizeof_double → double_wf (double_of_bytes o bs).
Proof.
  intros Hbs. unfold double_wf, double_of_bytes, double_bits.
  change (2 ^ 64) with (256 ^ Z.of_nat 8).
  pose proof (le_combine_range bs). pose proof (le_combine_range (rev bs)).
  rewrite length_rev in *. rewrite Hbs in *. by destruct o.
Qed.
End facts.

Create Rewrite HintDb words.
#[export] Hint Rewrite wrap_wrap wrap_succ length_le_split length_bytes_of_double : words.
