(* ===== verification/Doubles.v ===== *)
(** IEEE double arithmetic as far as the pixel conversion of [test/webcam.cpp] uses
    it: the operations of the Standard Library's [SpecFloat] at 53 bits, and a
    bound on the rounding error of sums and differences of moderate size. The
    value of a double is counted in units of 2^-1074, the smallest positive one,
    so that it is an integer. *)

From Stdlib Require Export SpecFloat.
From S2P Require Import Prelude.
Local Open Scope Z_scope.

Definition dmul : spec_float → spec_float → spec_float := SFmul 53 1024.
Definition dadd : spec_float → spec_float → spec_float := SFadd 53 1024.
Definition dsub : spec_float → spec_float → spec_float := SFsub 53 1024.
Definition ddiv : spec_float → spec_float → spec_float := SFdiv 53 1024.

(** Conversion of an integer to [double]. *)
Definition double_of_int (z : Z) : spec_float := binary_normalize 53 1024 z 0 false.

(** Conversion to [int]: truncation, undefined for what an [int] cannot hold. *)
Definition int_of_double (f : spec_float) : option Z :=
  match f with
  | S754_zero _ => Some 0
  | S754_finite s m e =>
      let a := Z.shiftl (Zpos m) e in
      let z := if s then - a else a in
      if decide (- 2 ^ 31 ≤ z < 2 ^ 31) then Some z else None
  | _ => None
  end.

(** * Values *)

Definition scaled (f : spec_float) : Z :=
  match f with
  | S754_finite s m e => cond_Zopp s (Zpos m) * 2 ^ (e + 1074)
  | _ => 0
  end.

(** A zero, or a finite number whose exponent a double can have. *)
Definition finite (f : spec_float) : Prop :=
  match f with
  | S754_zero _ => True
  | S754_finite _ m e => -1074 ≤ e
  | _ => False
  end.

(** * Rounding *)

Lemma digits2_log2 p : Zpos (digits2_pos p) = Z.log2 (Zpos p) + 1.
Proof.
  induction p as [p IH|p IH|]; [..|done]; cbn [digits2_pos]; rewrite Pos2Z.inj_succ, IH.
  - rewrite (Pos2Z.inj_xI p), Z.log2_succ_double by lia. lia.
  - rewrite (Pos2Z.inj_xO p), Z.log2_double by lia. lia.
Qed.

Lemma Zdigits2_log2 m : 0 < m → Zdigits2 m = Z.log2 m + 1.
Proof. destruct m as [|p|]; [lia|intros _; apply digits2_log2|lia]. Qed.

Lemma fexp_double e : fexp 53 1024 e = Z.max (e - 53) (-1074).
Proof. reflexivity. Qed.

Lemma div_pow2 m a b : 0 ≤ a → 0 ≤ b → m / 2 ^ a / 2 ^ b = m / 2 ^ (a + b).
Proof.
  intros. rewrite Z.pow_add_r by done. apply Z.div_div; [apply Z.pow_nonzero; lia|].
  by apply Z.pow_pos_nonneg.
Qed.

Lemma shr_1_half r : 0 ≤ shr_m r → shr_m (shr_1 r) = shr_m r / 2 ∧ 0 ≤ shr_m (shr_1 r).
Proof.
  intros Hr. assert (shr_m (shr_1 r) = Z.div2 (shr_m r)) as ->.
  { destruct r as [[|[p|p|]|p] b1 b2]; simpl in *; done || lia. }
  rewrite Z.div2_div. split; [done|]. by apply Z.div_pos.
Qed.

Lemma shr_iter n r : 0 ≤ shr_m r →
  shr_m (SpecFloat.iter_pos shr_1 n r) = shr_m r / 2 ^ Zpos n ∧ 0 ≤ shr_m (SpecFloat.iter_pos shr_1 n r).
Proof.
  revert r. induction n as [n IH|n IH|]; intros r Hr; cbn [SpecFloat.iter_pos].
  - destruct (shr_1_half r Hr) as [H1 H1'].
    destruct (IH _ H1') as [H2 H2']. destruct (IH _ H2') as [H3 H3']. split; [|done].
    rewrite H3, H2, H1. change (shr_m r / 2) with (shr_m r / 2 ^ 1).
    rewrite !div_pow2 by lia. do 2 f_equal. lia.
  - destruct (IH _ Hr) as [H2 H2']. destruct (IH _ H2') as [H3 H3']. split; [|done].
    rewrite H3, H2, div_pow2 by lia. do 2 f_equal. lia.
  - by apply shr_1_half.
Qed.

(** Rounding to nearest keeps the integer part or adds one to it. *)
Lemma round_nearest_cases m l :
  round_nearest_even m l = m ∨ round_nearest_even m l = m + 1.
Proof. destruct l as [|[]]; simpl; auto. destruct (Z.even m); auto. Qed.

(** What the shift to the format's exponent does to a significand whose digits are
    all known: it divides by a power of two, and by none when the significand
    already fits. *)
Lemma shr_fexp_spec m e (m' := shr_m (shr_fexp 53 1024 m e loc_Exact).1)
    (e' := (shr_fexp 53 1024 m e loc_Exact).2) : 0 < m →
  e' = Z.max e (fexp 53 1024 (Z.log2 m + 1 + e)) ∧ m' = m / 2 ^ (e' - e) ∧
  (e' = e → (shr_fexp 53 1024 m e loc_Exact).1 = {| shr_m := m; shr_r := false; shr_s := false |}).
Proof.
  intros Hm. subst m' e'. unfold shr_fexp, shr. rewrite Zdigits2_log2 by done.
  destruct (_ - e) as [|p|p] eqn:En; cbn [fst snd].
  - split; [lia|]; split; [|done]. by rewrite Z.sub_diag, Z.pow_0_r, Z.div_1_r.
  - destruct (shr_iter p (shr_record_of_loc m loc_Exact)) as [-> _]; [simpl; lia|].
    split; [lia|]; split; [|lia]. simpl. do 2 f_equal. lia.
  - split; [lia|]; split; [|done]. by rewrite Z.sub_diag, Z.pow_0_r, Z.div_1_r.
Qed.

(** Aligning to a smaller exponent keeps the value. *)
Lemma shl_align_spec m e e' (r := shl_align m e e') : -1074 ≤ e → -1074 ≤ e' →
  r.2 = Z.min e e' ∧ Zpos r.1 * 2 ^ (r.2 + 1074) = Zpos m * 2 ^ (e + 1074).
Proof.
  intros He He'. subst r. unfold shl_align.
  destruct (e' - e) as [|d|d] eqn:Ed; cbn [fst snd]; [split; [lia|done]..|].
  split; [lia|]. change (PosDef.Pos.iter xO m d) with (Zpower.shift_pos d m). rewrite Zpower.shift_pos_correct. change (Z.pow_pos 2 d) with (2 ^ Z.pos d).
  rewrite (Z.mul_comm (2 ^ _)), <- Z.mul_assoc, <- Z.pow_add_r by lia.
  do 2 f_equal. lia.
Qed.

(** * The error of one operation *)

(** One ulp below 2^10: what a rounding can change. *)
Definition ulp : Z := 2 ^ (1074 - 43).

(** A significand of at most 2^53 loses nothing: at most one shift, of an even one. *)
Lemma shr_fexp_small m e (m' := shr_m (shr_fexp 53 1024 m e loc_Exact).1)
    (e' := (shr_fexp 53 1024 m e loc_Exact).2) : 0 < m ≤ 2 ^ 53 → -1074 ≤ e →
  e ≤ e' ≤ e + 1 ∧ 0 < m' ∧ m' * 2 ^ (e' + 1074) = m * 2 ^ (e + 1074).
Proof.
  intros Hm He. destruct (shr_fexp_spec m e) as (He' & Hm' & _); [lia|].
  fold e' m' in He', Hm'. rewrite fexp_double in He'. clearbody e' m'.
  destruct (decide (m = 2 ^ 53)) as [->|Hne].
  - rewrite Z.log2_pow2 in He' by lia. assert (e' = e ∨ e' = e + 1) as [->| ->] by lia.
    + rewrite Z.sub_diag in Hm'. rewrite Z.div_1_r in Hm'. lia.
    + replace (e + 1 - e) with 1 in Hm' by lia. rewrite Hm'.
      replace (e + 1 + 1074) with (Z.succ (e + 1074)) by lia. rewrite Z.pow_succ_r by lia.
      change (2 ^ 53 / 2 ^ 1) with (2 ^ 52). lia.
  - assert (Z.log2 m < 53) by (apply Z.log2_lt_pow2; lia).
    assert (e' = e) as -> by lia. rewrite Z.sub_diag, Z.div_1_r in Hm'. lia.
Qed.

(** The significand after the first shift and the rounding, and its error. *)
Lemma round_shifted m e (s := shr_fexp 53 1024 m e loc_Exact)
    (m' := round_nearest_even (shr_m s.1) (loc_of_shr_record s.1)) : 0 < m → -1074 ≤ e →
  0 < m' ≤ 2 ^ 53 ∧ e ≤ s.2 ∧ (s.2 = e ∨ s.2 = Z.log2 m + e - 52) ∧
  Z.abs (m' * 2 ^ (s.2 - e) - m) ≤ (if decide (s.2 = e) then 0 else 2 ^ (s.2 - e)).
Proof.
  intros Hm He. destruct (shr_fexp_spec m e) as (He' & Hm' & Hex); [lia|].
  fold s in He', Hm', Hex. rewrite fexp_double in He'. subst m'. clearbody s.
  pose proof (Z.log2_nonneg m). pose proof (Z.log2_spec m Hm) as [Hlo Hhi].
  case_decide as Heq.
  - rewrite (Hex Heq). simpl. rewrite Heq, Z.sub_diag, Z.mul_1_r.
    assert (m < 2 ^ 53); [|lia]. eapply Z.lt_le_trans; [exact Hhi|].
    apply Z.pow_le_mono_r; lia.
  - assert (Hk : s.2 = Z.log2 m + e - 52) by lia.
    assert (Hsplit : 2 ^ Z.log2 m = 2 ^ 52 * 2 ^ (s.2 - e))
      by (rewrite <- Z.pow_add_r by lia; f_equal; lia).
    rewrite Z.pow_succ_r in Hhi by lia.
    assert (0 < 2 ^ (s.2 - e)) by (apply Z.pow_pos_nonneg; lia).
    set (P := 2 ^ (s.2 - e)) in *. clearbody P.
    pose proof (Z.div_mod m P ltac:(lia)). pose proof (Z.mod_pos_bound m P ltac:(lia)).
    set (q := m / P) in *. rewrite Hm'. clearbody q.
    assert (2 ^ 52 ≤ q < 2 ^ 53) by nia.
    destruct (round_nearest_cases q (loc_of_shr_record s.1)) as [-> | ->]; nia.
Qed.

Lemma binary_round_aux_error sx m e (r := binary_round_aux 53 1024 sx m e loc_Exact) :
  0 < m → -1074 ≤ e → m * 2 ^ (e + 1074) < 2 ^ (1074 + 10) →
  finite r ∧ Z.abs (scaled r - cond_Zopp sx (m * 2 ^ (e + 1074))) ≤ ulp.
Proof.
  intros Hm He Hlt. subst r. unfold binary_round_aux.
  destruct (round_shifted m e Hm He) as (Hm1 & He1 & Hor & Herr).
  destruct (shr_fexp 53 1024 m e loc_Exact) as [s1 e1]. cbn [fst snd] in *.
  set (m1 := round_nearest_even _ _) in *. clearbody m1.
  destruct (shr_fexp_small m1 e1 Hm1 ltac:(lia)) as (He2 & Hm2 & Heq).
  destruct (shr_fexp 53 1024 m1 e1 loc_Exact) as [s2 e2]. cbn [fst snd] in *.
  assert (Z.log2 m + (e + 1074) < 1084).
  { rewrite Z.add_comm, <- Z.log2_mul_pow2 by lia. apply Z.log2_lt_pow2; [|done].
    apply Z.mul_pos_pos; [done|]. apply Z.pow_pos_nonneg; lia. }
  pose proof (Z.log2_nonneg m).
  destruct (shr_m s2) as [|p|p]; [lia| |lia].
  assert (e2 <=? 1024 - 53 = true) as -> by lia.
  split; [simpl; lia|]. cbn [scaled].
  assert (Z.pos p * 2 ^ (e2 + 1074) = m1 * 2 ^ (e1 - e) * 2 ^ (e + 1074)) as Hp.
  { rewrite Heq, <- Z.mul_assoc, <- Z.pow_add_r by lia. do 2 f_equal. lia. }
  assert (Z.abs (m1 * 2 ^ (e1 - e) * 2 ^ (e + 1074) - m * 2 ^ (e + 1074)) ≤ ulp).
  { rewrite <- Z.mul_sub_distr_r, Z.abs_mul, (Z.abs_eq (2 ^ _)) by (apply Z.pow_nonneg; lia).
    case_decide as Hd.
    - assert (Z.abs (m1 * 2 ^ (e1 - e) - m) = 0) as -> by lia. done.
    - transitivity (2 ^ (e1 - e) * 2 ^ (e + 1074)).
      + apply Z.mul_le_mono_nonneg_r; [apply Z.pow_nonneg; lia|done].
      + rewrite <- Z.pow_add_r by lia. unfold ulp. apply Z.pow_le_mono_r; lia. }
  destruct sx; simpl cond_Zopp; lia.
Qed.

Lemma binary_normalize_error M e b (r := binary_normalize 53 1024 M e b) : -1074 ≤ e →
  Z.abs M * 2 ^ (e + 1074) < 2 ^ (1074 + 10) →
  finite r ∧ Z.abs (scaled r - M * 2 ^ (e + 1074)) ≤ ulp.
Proof.
  assert (Hround : ∀ sx m e, -1074 ≤ e → Zpos m * 2 ^ (e + 1074) < 2 ^ (1074 + 10) →
    finite (binary_round 53 1024 sx m e) ∧
    Z.abs (scaled (binary_round 53 1024 sx m e) - cond_Zopp sx (Zpos m * 2 ^ (e + 1074))) ≤ ulp).
  { clear. intros sx m e He Hlt. unfold binary_round.
    set (e' := fexp 53 1024 _). assert (-1074 ≤ e') by (subst e'; rewrite fexp_double; lia).
    destruct (shl_align_spec m e e') as [H2 Heq]; [lia..|].
    destruct (shl_align m e e') as [mz ez]. cbn [fst snd] in *. rewrite <- Heq.
    apply binary_round_aux_error; lia. }
  intros He Hlt. subst r. unfold binary_normalize. destruct M as [|m|m].
  - simpl. split; [done|]. unfold ulp. lia.
  - by apply (Hround false m e).
  - rewrite <- (Pos2Z.opp_pos m), Z.mul_opp_l. by apply (Hround true m e).
Qed.

Lemma double_of_int_error z (r := double_of_int z) : Z.abs z < 2 ^ 10 →
  finite r ∧ Z.abs (scaled r - z * 2 ^ 1074) ≤ ulp.
Proof. intros Hz. apply (binary_normalize_error z 0 false); lia. Qed.

Lemma cond_Zopp_mul s a b : cond_Zopp s a * b = cond_Zopp s (a * b).
Proof. destruct s; simpl; lia. Qed.

(** The significand of an operand aligned to the smaller exponent. *)
Lemma aligned_value s m e e' : -1074 ≤ e' ≤ e →
  cond_Zopp s (Zpos (shl_align m e e').1) * 2 ^ (e' + 1074)
  = scaled (S754_finite s m e).
Proof.
  intros He. destruct (shl_align_spec m e e') as [H2 Heq]; [lia..|].
  rewrite H2, Z.min_r in Heq by lia. cbn [scaled]. by rewrite !cond_Zopp_mul, Heq.
Qed.

Lemma dadd_error x y (r := dadd x y) : finite x → finite y →
  Z.abs (scaled x + scaled y) < 2 ^ (1074 + 10) →
  finite r ∧ Z.abs (scaled r - (scaled x + scaled y)) ≤ ulp.
Proof.
  assert (Hulp : 0 ≤ ulp) by (unfold ulp; lia). intros Hx Hy Hlt. subst r.
  destruct x as [sx|sx| |sx mx ex], y as [sy|sy| |sy my ey]; try done;
    try (cbn [dadd SFadd scaled finite] in *; split; [done|lia]).
  - by destruct sx, sy.
  - simpl in Hx, Hy. unfold dadd, SFadd. cbv zeta. set (ez := Z.min ex ey).
    rewrite <- (aligned_value sx mx ex ez), <- (aligned_value sy my ey ez) in * by lia.
    rewrite <- Z.mul_add_distr_r in *. apply binary_normalize_error; [lia|].
    by rewrite Z.abs_mul, (Z.abs_eq (2 ^ _)) in Hlt by (apply Z.pow_nonneg; lia).
Qed.

Lemma dsub_error x y (r := dsub x y) : finite x → finite y →
  Z.abs (scaled x - scaled y) < 2 ^ (1074 + 10) →
  finite r ∧ Z.abs (scaled r - (scaled x - scaled y)) ≤ ulp.
Proof.
  assert (Hulp : 0 ≤ ulp) by (unfold ulp; lia). intros Hx Hy Hlt. subst r.
  destruct x as [sx|sx| |sx mx ex], y as [sy|sy| |sy my ey]; try done;
    try (cbn [dsub SFsub scaled finite] in *; split; [done|lia]).
  - by destruct sx, sy.
  - simpl in Hy. unfold dsub, SFsub. split; [done|].
    destruct sy; cbn [negb scaled cond_Zopp]; lia.
  - simpl in Hx, Hy. unfold dsub, SFsub. cbv zeta. set (ez := Z.min ex ey).
    rewrite <- (aligned_value sx mx ex ez), <- (aligned_value sy my ey ez) in * by lia.
    rewrite <- Z.mul_sub_distr_r in *. apply binary_normalize_error; [lia|].
    by rewrite Z.abs_mul, (Z.abs_eq (2 ^ _)) in Hlt by (apply Z.pow_nonneg; lia).
Qed.

(** * Truncation *)

Lemma shiftl_scaled m e : 0 ≤ m → -1074 ≤ e →
  Z.shiftl m e = m * 2 ^ (e + 1074) / 2 ^ 1074.
Proof.
  intros Hm He. destruct (decide (0 ≤ e)).
  - rewrite Z.shiftl_mul_pow2, Z.pow_add_r, Z.mul_assoc, Z.div_mul by lia. done.
  - rewrite Z.shiftl_div_pow2 by lia. replace 1074 with (- e + (e + 1074)) at 2 by lia.
    rewrite (Z.pow_add_r 2 (- e)) by lia.
    rewrite Z.div_mul_cancel_r; [done|apply Z.pow_nonzero; lia..].
Qed.

Lemma int_of_double_quot r : finite r → Z.abs (scaled r) < 2 ^ (1074 + 31) →
  int_of_double r = Some (Z.quot (scaled r) (2 ^ 1074)).
Proof.
  destruct r as [s|s| |s m e]; try done. simpl finite. intros He Hlt.
  unfold int_of_double. cbn [scaled] in *. rewrite !cond_Zopp_mul in *.
  rewrite shiftl_scaled by lia. set (X := Z.pos m * 2 ^ (e + 1074)) in *.
  assert (0 ≤ X) by (apply Z.mul_nonneg_nonneg; [lia|apply Z.pow_nonneg; lia]). clearbody X.
  change (2 ^ (1074 + 31)) with (2 ^ 31 * 2 ^ 1074) in Hlt.
  set (S := 2 ^ 1074) in *. assert (0 < S) by (subst S; lia). clearbody S.
  assert (0 ≤ X / S < 2 ^ 31).
  { split; [by apply Z.div_pos|]. apply Z.div_lt_upper_bound; [done|].
    destruct s; simpl in Hlt; lia. }
  destruct s; simpl; rewrite ?Z.quot_opp_l, Z.quot_div_nonneg, decide_True by lia; done.
Qed.

(** A number within less than 1/K of N/K, both counted in units of 1/S, truncates
    to what N/K truncates to, unless N/K is an integer: then to a neighbour. *)
Lemma quot_near X N K S : 0 < S → 0 < K → Z.abs (K * X - N * S) < S →
  (N mod K ≠ 0 → Z.quot X S = Z.quot N K) ∧ Z.abs (Z.quot X S - Z.quot N K) ≤ 1.
Proof.
  assert (Hpos : ∀ X N, 0 < S → 0 < K → Z.abs (K * X - N * S) < S → 0 ≤ X → 0 ≤ N →
    (N mod K ≠ 0 → X / S = N / K) ∧ Z.abs (X / S - N / K) ≤ 1).
  { clear. intros X N HS HK Hd HX HN.
    pose proof (Z.div_mod X S ltac:(lia)). pose proof (Z.mod_pos_bound X S HS).
    pose proof (Z.div_mod N K ltac:(lia)). pose proof (Z.mod_pos_bound N K HK).
    set (x := X / S) in *. set (n := N / K) in *. clearbody x n.
    set (xr := X mod S) in *. set (nr := N mod K) in *. clearbody xr nr. subst X N.
    assert (Heq : K * (S * x + xr) - (K * n + nr) * S = K * S * (x - n) + K * xr - nr * S) by ring.
    rewrite Heq in Hd. clear Heq. assert (Hxn : x = n + (x - n)) by lia.
    set (d := x - n) in *.
    assert (0 ≤ K * xr < K * S) by nia. assert (0 ≤ nr * S ≤ K * S - S) by nia.
    assert (nr ≠ 0 → S ≤ nr * S) by nia. assert (S ≤ K * S) by nia.
    assert (d ≤ -2 → K * S * d ≤ -2 * (K * S)) by nia.
    assert (d = -1 → K * S * d = - (K * S)) by nia.
    assert (1 ≤ d → K * S ≤ K * S * d) by nia. clearbody d.
    destruct (decide (d ≤ -2)), (decide (d = -1)), (decide (1 ≤ d)); split; lia. }
  intros HS HK Hd.
  assert (Hopp : ∀ a b, 0 < b → a ≤ 0 → Z.quot a b = - (- a / b)).
  { intros a b Hb Ha. rewrite <- (Z.opp_involutive a) at 1.
    rewrite Z.quot_opp_l, Z.quot_div_nonneg by lia. done. }
  destruct (decide (0 ≤ X)), (decide (0 ≤ N)).
  - rewrite !Z.quot_div_nonneg by lia. by apply Hpos.
  - assert (K * X < S ∧ - N * S < S) as [HX HN] by nia. nia.
  - assert (N = 0) as -> by nia. rewrite Z.mod_0_l, Z.quot_0_l by lia. split; [done|].
    rewrite Hopp by lia. assert (- X < S) by nia. rewrite Z.div_small by lia. lia.
  - rewrite !Hopp by lia. destruct (Hpos (- X) (- N)) as [H1 H2]; [lia..|].
    split; [|lia]. intros Hm. rewrite H1; [done|]. intros H0. apply Hm.
    apply Z.mod_divide; [lia|]. apply Z.mod_divide in H0; [|lia]. by apply Z.divide_opp_r.
Qed.
