(* ===== verification/Yuyv.v ===== *)
(** The pixel conversion [yuyv_to_rgb] of [test/webcam.cpp]: two pixels in four bytes
    become six bytes of red, green and blue, computed in doubles. The input and the
    output are two arrays, and an access outside of them is undefined behaviour; so
    is an [int] that overflows. The input is not written, the output is the state.

    [conv_exact] compares the doubles with integer arithmetic, [yuyv_to_rgb_correct]
    says what a whole run writes and when it overruns. *)

From S2P Require Import Prelude Words Doubles.
Local Open Scope Z_scope.

(** * The code *)

Definition int_fits (z : Z) : Prop := - 2 ^ 31 ≤ z < 2 ^ 31.
#[export] Instance int_fits_dec z : Decision (int_fits z).
Proof. unfold int_fits. apply _. Defined.

(** The value of an arithmetic expression of type [int]. *)
Definition as_int {S} (z : Z) : M S Z :=
  if decide (int_fits z) then mret z else undefined.

(** [in[k]] *)
Definition load {S} (bs : list byte) (k : nat) : M S Z :=
  match bs !! k with Some b => mret (byte_unsigned b) | None => undefined end.

(** [out[k] = v] *)
Definition store (k : nat) (v : Z) : M (list byte) unit := λ out,
  if decide (k < length out)%nat then Done ((), <[k := byte_of_Z v]> out) else Undefined.

Definition clamp (x : Z) : Z := uint8 (Z.min 255 (Z.max 0 x)).

(** The literals, as the doubles next to them. *)
Definition double_1_402 : spec_float := S754_finite false 6314046677573435 (-52).
Definition double_0_344136 : spec_float := S754_finite false 6199403045459092 (-54).
Definition double_0_714136 : spec_float := S754_finite false 6432365246983713 (-53).
Definition double_1_772 : spec_float := S754_finite false 7980378539700519 (-52).

Definition red (y v : Z) : option Z :=
  int_of_double (dadd (double_of_int y) (dmul double_1_402 (double_of_int v))).
Definition green (y u v : Z) : option Z :=
  int_of_double (dsub (dsub (double_of_int y) (dmul double_0_344136 (double_of_int u)))
                      (dmul double_0_714136 (double_of_int v))).
Definition blue (y u : Z) : option Z :=
  int_of_double (dadd (double_of_int y) (dmul double_1_772 (double_of_int u))).

Definition conv (u v y : Z) : option (Z * Z * Z) :=
  r ← red y v; g ← green y u v; b ← blue y u; Some (r, g, b).

(** [conv(y, r,g,b); out[k]=clamp(r); out[k+1]=clamp(g); out[k+2]=clamp(b);] *)
Definition put_pixel (u v y : Z) (k : nat) : M (list byte) unit :=
  match conv u v y with
  | Some (r, g, b) =>
      store k (clamp r);; store (k + 1) (clamp g);; store (k + 2) (clamp b)
  | None => undefined
  end.

(** The body of the loop; [ip] and [op] are how far [in] and [out] have advanced. *)
Definition yuyv_body (inp : list byte) (ip op : nat) : M (list byte) unit :=
  y0 ← load inp ip; u ← load inp (ip + 1); y1 ← load inp (ip + 2); v ← load inp (ip + 3);
  put_pixel (u - 128) (v - 128) y0 op;;
  put_pixel (u - 128) (v - 128) y1 (op + 3).

Fixpoint yuyv_loop (fuel : nat) (inp : list byte) (w h i : Z) (ip op : nat) : M (list byte) unit :=
  match fuel with
  | O => out_of_fuel
  | S fuel =>
      wh ← as_int (w * h);
      if decide (i < wh) then
        yuyv_body inp ip op;;
        i ← as_int (i + 2);
        yuyv_loop fuel inp w h i (ip + 4) (op + 6)
      else mret ()
  end.

Definition yuyv_to_rgb (fuel : nat) (inp : list byte) (w h : Z) : M (list byte) unit :=
  yuyv_loop fuel inp w h 0 0 0.

(** * The conversion of one pixel *)

Lemma seqZ_forallb (f : Z → bool) (m n z : Z) :
  forallb f (seqZ m n) = true → m ≤ z < m + n → f z = true.
Proof.
  rewrite forallb_forall. intros Hf Hz. apply Hf. apply list_elem_of_In, elem_of_seqZ. lia.
Qed.

Definition finiteb (f : spec_float) : bool :=
  match f with
  | S754_zero _ => true
  | S754_finite _ m e => -1074 <=? e
  | _ => false
  end.
Lemma finiteb_finite f : finiteb f = true → finite f.
Proof. destruct f; simpl; try done. intros. by apply Z.leb_le. Qed.

(** [c * v] is N/K * v up to an ulp, for every byte less 128. *)
Definition product_near (c : spec_float) (N K v : Z) : Prop :=
  finite (dmul c (double_of_int v)) ∧
  Z.abs (K * scaled (dmul c (double_of_int v)) - N * v * 2 ^ 1074) ≤ K * ulp.
Definition product_nearb (c : spec_float) (N K v : Z) : bool :=
  let p := dmul c (double_of_int v) in
  finiteb p && (Z.abs (K * scaled p - N * v * 2 ^ 1074) <=? K * ulp).

Lemma product_near_table c N K v :
  forallb (product_nearb c N K) (seqZ (-128) 256) = true → -128 ≤ v < 128 →
  product_near c N K v.
Proof.
  intros Hall Hv. pose proof (seqZ_forallb _ _ _ v Hall ltac:(lia)) as Hb.
  apply andb_true_iff in Hb as [Hf Hb]. split; [by apply finiteb_finite|by apply Z.leb_le].
Qed.

Lemma product_1_402 v : -128 ≤ v < 128 → product_near double_1_402 1402 1000 v.
Proof. apply product_near_table. vm_compute. reflexivity. Qed.
Lemma product_1_772 u : -128 ≤ u < 128 → product_near double_1_772 1772 1000 u.
Proof. apply product_near_table. vm_compute. reflexivity. Qed.
Lemma product_0_344136 u : -128 ≤ u < 128 → product_near double_0_344136 344136 1000000 u.
Proof. apply product_near_table. vm_compute. reflexivity. Qed.
Lemma product_0_714136 v : -128 ≤ v < 128 → product_near double_0_714136 714136 1000000 v.
Proof. apply product_near_table. vm_compute. reflexivity. Qed.

(** The integer reference: truncation of the exact value of the formula. *)
Definition red_exact (y v : Z) : Z := Z.quot (1000 * y + 1402 * v) 1000.
Definition blue_exact (y u : Z) : Z := Z.quot (1000 * y + 1772 * u) 1000.
Definition green_numerator (y u v : Z) : Z := 1000000 * y - 344136 * u - 714136 * v.
Definition green_exact (y u v : Z) : Z := Z.quot (green_numerator y u v) 1000000.

Lemma two_ulps : 10000000 * ulp < 2 ^ 1074.
Proof. by vm_compute. Qed.
Lemma ulp_pos : 0 < ulp.
Proof. by vm_compute. Qed.

Lemma bigger_scale : 2 ^ (1074 + 10) = 1024 * 2 ^ 1074 ∧ 2 ^ (1074 + 31) = 2147483648 * 2 ^ 1074.
Proof. split; vm_compute; reflexivity. Qed.

Lemma abs_scaled a b S : 0 < S → Z.abs a ≤ b → Z.abs (a * S) ≤ b * S.
Proof. intros HS Ha. rewrite Z.abs_mul, (Z.abs_eq S) by lia. by apply Z.mul_le_mono_nonneg_r; [lia|]. Qed.

(** Truncating a sum [y + c * x]: the rounding errors do not reach the next integer,
    and where there is no fraction there is nothing to round. *)
Lemma sum_truncated c N x y :
  product_near c N 1000 x → 0 ≤ y < 256 → Z.abs (N * x) < 1000 * 512 →
  ∃ r, int_of_double (dadd (double_of_int y) (dmul c (double_of_int x))) = Some r ∧
    ((1000 * y + N * x) mod 1000 ≠ 0 → r = Z.quot (1000 * y + N * x) 1000).
Proof.
  intros [Hfin Hp] Hy Hx.
  destruct (double_of_int_error y) as [Hyf Hye]; [lia|].
  pose proof two_ulps. pose proof ulp_pos. destruct bigger_scale as [Hs10 Hs31].
  pose proof (dadd_error (double_of_int y) (dmul c (double_of_int x)) Hyf Hfin) as Hsum.
  pose proof (int_of_double_quot (dadd (double_of_int y) (dmul c (double_of_int x)))) as Hint.
  rewrite Hs10 in Hsum. rewrite Hs31 in Hint. clear Hs10 Hs31.
  set (S := 2 ^ 1074) in *. assert (0 < S) by (subst S; lia).
  set (a := scaled (double_of_int y)) in *. set (b := scaled (dmul c (double_of_int x))) in *.
  set (s := scaled (dadd _ _)) in *. clearbody a b s S. clear Hyf Hfin.
  generalize dependent ulp. intros t Hye Hp Ht1 Ht2 Hsum.
  pose proof (abs_scaled y 256 S ltac:(lia) ltac:(lia)) as Hyr. pose proof (abs_scaled (N * x) (1000 * 512) S ltac:(lia) ltac:(lia)) as Hxr.
  destruct Hsum as [Hf He]; [lia|]. specialize (Hint Hf ltac:(lia)).
  exists (Z.quot s S). split; [done|].
  apply (quot_near s (1000 * y + N * x) 1000 S); lia.
Qed.

Definition byte_range (y : Z) : Prop := 0 ≤ y < 256.
Definition chroma_range (u : Z) : Prop := -128 ≤ u < 128.

(** Without chroma the luminance is what comes out. *)
Lemma grey_exact y : byte_range y →
  int_of_double (dadd (double_of_int y) (S754_zero false)) = Some y.
Proof.
  intros Hy. pose proof (seqZ_forallb (λ y, bool_decide
    (int_of_double (dadd (double_of_int y) (S754_zero false)) = Some y)) 0 256 y) as Hb.
  apply bool_decide_eq_true_1 in Hb; [done|vm_compute; reflexivity|done].
Qed.

(** The products 1.402 v and 1.772 u are integers only at 0. *)
Lemma fractional N y x :
  forallb (λ x, (x =? 0) || negb ((N * x) mod 1000 =? 0)) (seqZ (-128) 256) = true →
  chroma_range x → x ≠ 0 → (1000 * y + N * x) mod 1000 ≠ 0.
Proof.
  intros Hall Hx Hx0. pose proof (seqZ_forallb _ _ _ x Hall ltac:(unfold chroma_range in Hx; lia)) as Hb.
  rewrite Z.add_comm, (Z.mul_comm 1000 y), Z_mod_plus_full. cbn beta in Hb. lia.
Qed.

Lemma red_correct y v : byte_range y → chroma_range v → red y v = Some (red_exact y v).
Proof.
  intros Hy Hv. unfold red, red_exact, byte_range, chroma_range in *.
  destruct (decide (v = 0)) as [->|Hv0].
  - change (dmul _ _) with (S754_zero false).
    rewrite grey_exact, Z.mul_0_r, Z.add_0_r, Z.mul_comm, Z.quot_mul by done. done.
  - destruct (sum_truncated double_1_402 1402 v y) as (r & -> & Hr);
      [by apply product_1_402|done|lia|].
    f_equal. apply Hr. by apply fractional.
Qed.

Lemma blue_correct y u : byte_range y → chroma_range u → blue y u = Some (blue_exact y u).
Proof.
  intros Hy Hu. unfold blue, blue_exact, byte_range, chroma_range in *.
  destruct (decide (u = 0)) as [->|Hu0].
  - change (dmul _ _) with (S754_zero false).
    rewrite grey_exact, Z.mul_0_r, Z.add_0_r, Z.mul_comm, Z.quot_mul by done. done.
  - destruct (sum_truncated double_1_772 1772 u y) as (r & -> & Hr);
      [by apply product_1_772|done|lia|].
    f_equal. apply Hr. by apply fractional.
Qed.

Lemma green_correct y u v : byte_range y → chroma_range u → chroma_range v →
  ∃ g, green y u v = Some g ∧ Z.abs (g - green_exact y u v) ≤ 1 ∧
    (green_numerator y u v mod 1000000 ≠ 0 → g = green_exact y u v).
Proof.
  unfold byte_range, chroma_range. intros Hy Hu Hv.
  destruct (product_0_344136 u Hu) as [Hpf Hp]. destruct (product_0_714136 v Hv) as [Hqf Hq].
  destruct (double_of_int_error y) as [Hyf Hye]; [lia|].
  unfold green. set (dy := double_of_int y) in *. set (p := dmul _ (double_of_int u)) in *.
  set (q := dmul _ (double_of_int v)) in *.
  pose proof (dsub_error dy p Hyf Hpf) as Hs1.
  pose proof (dsub_error (dsub dy p) q) as Hs2.
  pose proof (int_of_double_quot (dsub (dsub dy p) q)) as Hint.
  cbv zeta in Hs1, Hs2.
  pose proof two_ulps. pose proof ulp_pos. destruct bigger_scale as [Hs10 Hs31].
  rewrite Hs10 in Hs1, Hs2. rewrite Hs31 in Hint. clear Hs10 Hs31.
  set (S := 2 ^ 1074) in *. assert (0 < S) by (subst S; lia). clearbody dy p q S.
  set (a := scaled dy) in *. set (b := scaled p) in *. set (c := scaled q) in *.
  set (d := scaled (dsub dy p)) in *. set (e := scaled (dsub (dsub dy p) q)) in *.
  clearbody a b c d e. generalize dependent ulp. intros t Hp Hq Hye Hs1 Hs2 Ht1 Ht2.
  pose proof (abs_scaled y 256 S ltac:(lia) ltac:(lia)) as Hyr. pose proof (abs_scaled u 128 S ltac:(lia) ltac:(lia)) as Hur.
  pose proof (abs_scaled v 128 S ltac:(lia) ltac:(lia)) as Hvr.
  destruct Hs1 as [Hf1 He1]; [lia|]. destruct Hs2 as [Hf2 He2]; [done|done|lia|].
  specialize (Hint Hf2 ltac:(lia)). exists (Z.quot e S). split; [done|].
  unfold green_exact. pose proof (quot_near e (green_numerator y u v) 1000000 S) as Hn.
  unfold green_numerator in *. destruct Hn as [Hn1 Hn2]; [lia..|]. split; [lia|done].
Qed.

(** (C27) The conversion of a pixel computes in doubles, but its rounding errors are
    almost never seen: for every luminance and chroma a byte can hold, the red and
    the blue value are the truncations of the exact values y + 1.402 v and
    y + 1.772 u, and the green value is the truncation of
    y - 0.344136 u - 0.714136 v unless that is an integer, and then at most one
    off. No conversion to [int] is undefined. *)
Theorem conv_exact y u v : byte_range y → chroma_range u → chroma_range v →
  ∃ g, conv u v y = Some (red_exact y v, g, blue_exact y u) ∧
    Z.abs (g - green_exact y u v) ≤ 1 ∧
    (green_numerator y u v mod 1000000 ≠ 0 → g = green_exact y u v).
Proof.
  intros Hy Hu Hv. destruct (green_correct y u v Hy Hu Hv) as (g & Hg & Hacc).
  exists g. split; [|done]. unfold conv. rewrite (red_correct y v), Hg, (blue_correct y u) by done.
  done.
Qed.

Lemma conv_exact_witness :
  ∃ g, conv (-100) 100 222 = Some (red_exact 222 100, g, blue_exact 222 (-100)) ∧
    Z.abs (g - green_exact 222 (-100) 100) ≤ 1 ∧
    (green_numerator 222 (-100) 100 mod 1000000 ≠ 0 → g = green_exact 222 (-100) 100).
Proof. apply conv_exact; unfold byte_range, chroma_range; lia. Defined.

(** The exception is real: here the exact value is 185, and 184 comes out. *)
Example green_off_by_one : green 222 (-100) 100 = Some 184 ∧ green_exact 222 (-100) 100 = 185.
Proof. vm_compute. done. Qed.

(** * The whole image *)

(** The three bytes of a pixel, and those of an image. *)
Definition pixel (u v y : Z) : list byte :=
  match conv u v y with
  | Some (r, g, b) => byte_of_Z ∘ clamp <$> [r; g; b]
  | None => []
  end.

Fixpoint rgb_of_yuyv (bs : list byte) : list byte :=
  match bs with
  | y0 :: u :: y1 :: v :: bs =>
      let u := byte_unsigned u - 128 in let v := byte_unsigned v - 128 in
      pixel u v (byte_unsigned y0) ++ pixel u v (byte_unsigned y1) ++ rgb_of_yuyv bs
  | _ => []
  end.

Lemma store_app k pre b post v : k = length pre →
  store k v (pre ++ b :: post) = Done ((), (pre ++ [byte_of_Z v]) ++ post).
Proof.
  intros ->. unfold store. rewrite decide_True by (rewrite length_app; simpl; lia).
  by rewrite insert_app_r_alt, Nat.sub_diag, <- app_assoc by done.
Qed.

(** A computation that keeps the size of the output and returns only when that is at
    least [n]; nothing is said of when it is undefined. *)
Definition needs (n : nat) (m : M (list byte) unit) : Prop := ∀ out,
  m out = Undefined ∨
  (n ≤ length out)%nat ∧ ∃ out', m out = Done ((), out') ∧ length out' = length out.

Lemma needs_store k v : needs (S k) (store k v).
Proof.
  intros out. unfold store. case_decide; [right|by left].
  split; [lia|]. eexists; split; [done|]. apply length_insert.
Qed.

Lemma needs_bind n n' m m' : needs n m → needs n' m' → needs (n `max` n') (m;; m').
Proof.
  intros Hm Hm' out. unfold mbind, M_bind. destruct (Hm out) as [-> |(H1 & o1 & -> & H1')]; [by left|].
  destruct (Hm' o1) as [-> |(H2 & o2 & -> & H2')]; [by left|].
  right. split; [lia|]. exists o2. split; [done|congruence].
Qed.

Lemma needs_mono n n' m : (n' ≤ n)%nat → needs n m → needs n' m.
Proof. intros Hn Hm out. destruct (Hm out) as [?|(? & ?)]; [by left|right; split; [lia|done]]. Qed.

Lemma conv_bytes (y u v : byte) :
  ∃ r g b, conv (byte_unsigned u - 128) (byte_unsigned v - 128) (byte_unsigned y) = Some (r, g, b).
Proof.
  pose proof (byte_unsigned_range y). pose proof (byte_unsigned_range u).
  pose proof (byte_unsigned_range v).
  destruct (green_correct (byte_unsigned y) (byte_unsigned u - 128) (byte_unsigned v - 128))
    as (g & Hg & _); unfold byte_range, chroma_range; [lia..|].
  unfold conv. rewrite red_correct, Hg, blue_correct by (unfold byte_range, chroma_range; lia).
  eauto.
Qed.

Lemma length_pixel (y u v : byte) :
  length (pixel (byte_unsigned u - 128) (byte_unsigned v - 128) (byte_unsigned y)) = 3%nat.
Proof. unfold pixel. by destruct (conv_bytes y u v) as (r & g & b & ->). Qed.

Lemma put_pixel_app (y u v : byte) pre b0 b1 b2 post
    (p := pixel (byte_unsigned u - 128) (byte_unsigned v - 128) (byte_unsigned y)) :
  put_pixel (byte_unsigned u - 128) (byte_unsigned v - 128) (byte_unsigned y) (length pre)
    (pre ++ b0 :: b1 :: b2 :: post) = Done ((), (pre ++ p) ++ post).
Proof.
  subst p. unfold put_pixel, pixel. destruct (conv_bytes y u v) as (r & g & b & ->).
  unfold mbind, M_bind.
  rewrite !store_app by (rewrite ?length_app; simpl; lia).
  rewrite <- !app_assoc. done.
Qed.

(** Four bytes of input and six of output: the body writes its two pixels. *)
Lemma yuyv_body_app ip op (inp : list byte) y0 u y1 v rest pre mid post :
  drop ip inp = y0 :: u :: y1 :: v :: rest → op = length pre → length mid = 6%nat →
  yuyv_body inp ip op (pre ++ mid ++ post)
  = Done ((), (pre ++ rgb_of_yuyv [y0; u; y1; v]) ++ post).
Proof.
  intros Hin -> Hmid.
  assert (Hload : ∀ k, inp !! (ip + k)%nat = (y0 :: u :: y1 :: v :: rest) !! k)
    by (intros; by rewrite <- Hin, lookup_drop).
  pose proof (Hload 0%nat) as H0. rewrite Nat.add_0_r in H0.
  unfold yuyv_body, load, mbind, M_bind. rewrite H0, !Hload. cbn.
  destruct mid as [|b0 [|b1 [|b2 [|b3 [|b4 [|b5 [|]]]]]]]; try discriminate Hmid.
  cbn [app]. unfold mbind, M_bind, mret, M_ret. rewrite put_pixel_app.
  assert (length pre + 3 = length (pre ++ pixel (byte_unsigned u - 128)
            (byte_unsigned v - 128) (byte_unsigned y0)))%nat as ->
    by (rewrite length_app, length_pixel; lia).
  rewrite put_pixel_app. cbn [rgb_of_yuyv]. rewrite app_nil_r, <- !app_assoc. done.
Qed.

(** Whatever the input, the body overruns when less than six bytes of output are
    left. *)
Lemma needs_put_pixel u v y k : needs (k + 3) (put_pixel u v y k).
Proof.
  unfold put_pixel. destruct (conv u v y) as [[[r g] b]|]; [|by left].
  eapply needs_mono; [|apply needs_bind; [apply needs_store|apply needs_bind; apply needs_store]].
  lia.
Qed.

Lemma needs_yuyv_body inp ip op : needs (op + 6) (yuyv_body inp ip op).
Proof.
  intros out. unfold yuyv_body, load, mbind, M_bind.
  destruct (inp !! ip) as [y0|]; [|by left]. destruct (inp !! (ip + 1)%nat) as [u|]; [|by left].
  destruct (inp !! (ip + 2)%nat) as [y1|]; [|by left].
  destruct (inp !! (ip + 3)%nat) as [v|]; [|by left].
  pose proof (needs_bind _ _ _ _ (needs_put_pixel (byte_unsigned u - 128)
    (byte_unsigned v - 128) (byte_unsigned y0) op)
    (needs_put_pixel (byte_unsigned u - 128) (byte_unsigned v - 128) (byte_unsigned y1) (op + 3))) as Hn.
  eapply needs_mono in Hn; [apply Hn|]. lia.
Qed.

(** * The loop *)

Lemma as_int_fits {S} z (s : S) : int_fits z → as_int z s = Done (z, s).
Proof. intros Hz. unfold as_int. by rewrite decide_True. Qed.

Lemma bind_done {S A B} (m : M S A) (f : A → M S B) s a s' :
  m s = Done (a, s') → (m ≫= f) s = f a s'.
Proof. intros Hm. unfold mbind, M_bind. by rewrite Hm. Qed.

Lemma bind_undefined {S A B} (m : M S A) (f : A → M S B) s :
  m s = Undefined → (m ≫= f) s = Undefined.
Proof. intros Hm. unfold mbind, M_bind. by rewrite Hm. Qed.

(** One iteration of the loop, and its exit. *)
Lemma yuyv_loop_step fuel inp w h i ip op out : int_fits (w * h) → 0 ≤ i < w * h →
  yuyv_loop (S fuel) inp w h i ip op out
  = (yuyv_body inp ip op;; i ← as_int (i + 2);
     yuyv_loop fuel inp w h i (ip + 4) (op + 6)) out.
Proof.
  intros Hfit Hi. cbn [yuyv_loop]. rewrite (bind_done _ _ _ _ _ (as_int_fits _ _ Hfit)).
  by rewrite decide_True by lia.
Qed.

Lemma yuyv_loop_end fuel inp w h i ip op out : int_fits (w * h) → w * h ≤ i →
  yuyv_loop (S fuel) inp w h i ip op out = Done ((), out).
Proof.
  intros Hfit Hi. cbn [yuyv_loop]. rewrite (bind_done _ _ _ _ _ (as_int_fits _ _ Hfit)).
  by rewrite decide_False by lia.
Qed.

Lemma yuyv_loop_correct n : ∀ fuel inp w h i ip op pre mid post,
  int_fits (w * h) → 0 ≤ i → i = w * h - 2 * Z.of_nat n → (n < fuel)%nat →
  (ip + 4 * n ≤ length inp)%nat → op = length pre → length mid = (6 * n)%nat →
  yuyv_loop fuel inp w h i ip op (pre ++ mid ++ post)
  = Done ((), pre ++ rgb_of_yuyv (take (4 * n) (drop ip inp)) ++ post).
Proof.
  induction n as [|n IH]; intros [|fuel] inp w h i ip op pre mid post Hfit Hi0 Hi Hfuel Hin Hop Hmid;
    try lia.
  - destruct mid; [|done]. by rewrite yuyv_loop_end by (done || lia).
  - assert (∃ y0 u y1 v, drop ip inp = y0 :: u :: y1 :: v :: drop (ip + 4) inp) as (y0 & u & y1 & v & Hd).
    { assert (4 ≤ length (drop ip inp))%nat as Hl by (rewrite length_drop; lia).
      destruct (drop ip inp) as [|y0 [|u [|y1 [|v rest]]]] eqn:Hd; simpl in Hl; try lia.
      exists y0, u, y1, v. rewrite <- drop_drop, Hd. done. }
    rewrite yuyv_loop_step by (done || lia). rewrite <- (take_drop 6 mid), <- app_assoc.
    erewrite bind_done by (eapply yuyv_body_app; [exact Hd|exact Hop|rewrite length_take; lia]).
    erewrite bind_done by (apply as_int_fits; unfold int_fits in *; lia).
    rewrite IH; [|done|lia|lia|lia|lia| |rewrite length_drop; lia].
    + replace (4 * S n)%nat with (S (S (S (S (4 * n))))) by lia. rewrite Hd.
      cbn [take rgb_of_yuyv]. by rewrite <- !app_assoc.
    + rewrite length_app. cbn [rgb_of_yuyv]. rewrite !length_app, !length_pixel. simpl. lia.
Qed.

Lemma yuyv_loop_overrun n : ∀ fuel inp w h i ip op out,
  int_fits (w * h) → 0 ≤ i → i = w * h - 2 * Z.of_nat n - 1 → (n < fuel)%nat →
  length out = (op + 6 * n + 3)%nat →
  yuyv_loop fuel inp w h i ip op out = Undefined.
Proof.
  induction n as [|n IH]; intros [|fuel] inp w h i ip op out Hfit Hi0 Hi Hfuel Hlen; try lia;
    rewrite yuyv_loop_step by (done || lia);
    destruct (needs_yuyv_body inp ip op out) as [Hb|(Hl & out' & Hb & Hout')];
    try (by apply bind_undefined); [lia|].
  rewrite (bind_done _ _ _ _ _ Hb).
  erewrite bind_done by (apply as_int_fits; unfold int_fits in *; lia).
  apply IH; [done|lia..].
Qed.

Lemma yuyv_to_rgb_run fuel inp w h out (n := Z.to_nat (w * h)) :
  int_fits (w * h) → Z.Even (w * h) → (2 * n ≤ length inp)%nat → (3 * n ≤ length out)%nat →
  (n < 2 * fuel)%nat →
  yuyv_to_rgb fuel inp w h out
  = Done ((), rgb_of_yuyv (take (2 * n) inp) ++ drop (3 * n) out).
Proof.
  intros Hfit [k Hk] Hin Hout Hfuel. unfold yuyv_to_rgb.
  destruct (decide (0 ≤ k)) as [Hpos|Hneg].
  - assert (n = (2 * Z.to_nat k)%nat) as Hn by lia. rewrite Hn in *.
    pose proof (yuyv_loop_correct (Z.to_nat k) fuel inp w h 0 0 0 [] (take (3 * (2 * Z.to_nat k)) out)
      (drop (3 * (2 * Z.to_nat k)) out)) as Hloop.
    rewrite take_drop, drop_0 in Hloop. replace (2 * (2 * Z.to_nat k))%nat with (4 * Z.to_nat k)%nat by lia.
    apply Hloop; [done|lia|lia|lia|lia|done|rewrite length_take; lia].
  - assert (n = 0%nat) as -> by lia. destruct fuel as [|fuel]; [lia|].
    by rewrite yuyv_loop_end by (done || lia).
Qed.

Lemma yuyv_to_rgb_overrun fuel inp w h out (n := Z.to_nat (w * h)) :
  int_fits (w * h) → 0 < w * h → Z.Odd (w * h) → length out = (3 * n)%nat → (n < 2 * fuel)%nat →
  yuyv_to_rgb fuel inp w h out = Undefined.
Proof.
  intros Hfit Hpos [k Hk] Hout Hfuel.
  apply (yuyv_loop_overrun (Z.to_nat k)); [done|lia..].
Qed.

(** (C28) The conversion of an image, from two bytes per pixel into an output of exactly
    three, as [takeSnapshot] allocates it. With an even number of pixels no access is
    out of bounds and no [int] overflows, the loop ends, and the output is that of
    the pixels of the input, in order. With an odd number the last step of the loop
    converts a pair of which only the first pixel exists, and overruns the output,
    however long the input is. *)
Theorem yuyv_to_rgb_correct fuel inp w h out (n := Z.to_nat (w * h)) :
  int_fits (w * h) → 0 ≤ w * h → (2 * n ≤ length inp)%nat → length out = (3 * n)%nat →
  (n < 2 * fuel)%nat →
  yuyv_to_rgb fuel inp w h out
  = if Z.even (w * h) then Done ((), rgb_of_yuyv (take (2 * n) inp)) else Undefined.
Proof.
  intros Hfit Hpos Hin Hout Hfuel. destruct (Z.even (w * h)) eqn:Heven.
  - apply Z.even_spec in Heven. rewrite yuyv_to_rgb_run by (done || lia).
    by rewrite drop_ge, app_nil_r by (subst n; lia).
  - rewrite <- Z.negb_odd, negb_false_iff in Heven. apply Z.odd_spec in Heven as Hodd.
    apply yuyv_to_rgb_overrun; [done| |done..]. destruct Hodd. lia.
Qed.

Lemma yuyv_to_rgb_correct_witness :
  yuyv_to_rgb 2 [Byte.xff; Byte.x80; Byte.x10; Byte.x90] 2 1 (replicate 6 Byte.x00)
  = Done ((), [Byte.xff; Byte.xf3; Byte.xff; Byte.x26; Byte.x04; Byte.x10])
  ∧ yuyv_to_rgb 3 (replicate 8 Byte.x80) 3 1 (replicate 9 Byte.x00) = Undefined.
Proof.
  split.
  - rewrite (yuyv_to_rgb_correct 2 [Byte.xff; Byte.x80; Byte.x10; Byte.x90] 2 1 (replicate 6 Byte.x00));
      [vm_compute; reflexivity|vm_compute; done|lia|vm_compute; lia|done|vm_compute; lia].
  - rewrite (yuyv_to_rgb_correct 3 (replicate 8 Byte.x80) 3 1 (replicate 9 Byte.x00));
      [done|vm_compute; done|lia|vm_compute; lia|done|vm_compute; lia].
Defined.
