(* ===== verification/Fsfw.v ===== *)
(** The Flight Software Framework as the mission code sees it. The framework is
    a git submodule and no part of this repository, so everything here is an
    interface: constants and operations are fields of type classes over an
    abstract framework state [W], and what the mission code relies on is stated
    in separate law classes. [FsfwModel.v] gives one concrete instance. *)

From Stdlib Require Import SpecFloat.
From S2P Require Import Prelude Words.

(** Typedefs of the framework; all are unsigned integers. *)
Abbreviation ReturnValue_t := Z (only parsing).
Abbreviation object_id_t := Z (only parsing).
Abbreviation DeviceCommandId_t := Z (only parsing).
Abbreviation Command_t := Z (only parsing).
Abbreviation Mode_t := Z (only parsing).
Abbreviation MessageQueueId_t := Z (only parsing).
Abbreviation ParameterId_t := Z (only parsing).
(** [store_address_t] is used only through [.raw] and the constructor from a raw
    value, so an address is its raw value. *)
Abbreviation store_address_t := Z (only parsing).

(** * Constants *)

Class FsfwConstants := {
  OK : ReturnValue_t;                      (* returnvalue::OK *)
  FAILED : ReturnValue_t;                  (* returnvalue::FAILED *)
  NOTHING_TO_SEND : ReturnValue_t;         (* DeviceHandlerBase *)
  COMMAND_NOT_SUPPORTED : ReturnValue_t;   (* DeviceHandlerBase *)
  NO_REPLY_RECEIVED : ReturnValue_t;       (* DeviceCommunicationIF *)
  UNKNOWN_COMMAND : ReturnValue_t;         (* CommandMessage *)
  INVALID_SUBSERVICE : ReturnValue_t;      (* AcceptsTelecommandsIF *)
  CSB_INVALID_SUBSERVICE : ReturnValue_t;  (* CommandingServiceBase *)
  INVALID_OBJECT : ReturnValue_t;          (* CommandingServiceBase *)
  INVALID_TC : ReturnValue_t;              (* CommandingServiceBase *)
  INVALID_REPLY : ReturnValue_t;           (* CommandingServiceBase *)
  EXECUTION_COMPLETE : ReturnValue_t;      (* CommandingServiceBase *)
  NO_COMMAND_ID : DeviceCommandId_t;       (* DeviceHandlerIF *)
  MODE_ON : Mode_t;
  MODE_OFF : Mode_t;
  NO_QUEUE : MessageQueueId_t;             (* MessageQueueIF *)
  MAX_MESSAGE_SIZE : Z;                    (* MessageQueueMessage *)
  (* objects *)
  IPC_STORE : object_id_t;
  TC_STORE : object_id_t;
  TM_STORE : object_id_t;
  TIME_STAMPER : object_id_t;
  VERIFICATION_REPORTER : object_id_t;
  (* messagetypes *)
  DEVICE_HANDLER_COMMAND : Z;
  ACTION : Z;
  PARAMETER : Z;
  (* ActionMessage reply identifiers *)
  COMPLETION_SUCCESS : Command_t;
  STEP_SUCCESS : Command_t;
  DATA_REPLY : Command_t;
  STEP_FAILED : Command_t;
  COMPLETION_FAILED : Command_t;
  (* ParameterMessage *)
  REPLY_PARAMETER_DUMP : Command_t;
}.

(** The case labels of one [switch] are distinct (C++ refuses anything else), the
    error codes differ from [OK], and a message type fits into a byte. *)
Class FsfwConstantsLaws `{FsfwConstants} : Prop := {
  errors_not_OK : OK ∉ [FAILED; NOTHING_TO_SEND; COMMAND_NOT_SUPPORTED;
                        NO_REPLY_RECEIVED; UNKNOWN_COMMAND; INVALID_SUBSERVICE;
                        CSB_INVALID_SUBSERVICE; INVALID_OBJECT; INVALID_TC; INVALID_REPLY; EXECUTION_COMPLETE];
  message_types_distinct : NoDup [DEVICE_HANDLER_COMMAND; ACTION; PARAMETER];
  message_type_width : (0 ≤ DEVICE_HANDLER_COMMAND < 256)%Z;
  action_replies_distinct :
    NoDup [COMPLETION_SUCCESS; STEP_SUCCESS; DATA_REPLY; STEP_FAILED; COMPLETION_FAILED];
}.

(** * Console output

    [sif::printInfo] and [sif::printError] take a format and arguments, which are
    kept as they are passed; [printf] and the streams write characters, which the
    model renders, but for a computed double. [perror] adds the system's own text to
    the message. *)

Inductive printf_arg := ArgUint (z : Z) | ArgDouble (d : double).
Inductive console_item :=
| Stdout (text : string)
| StdoutDouble (value : spec_float)
| Stderr (text : string)
| Perror (message : string)
| SifInfo (format : string) (args : list printf_arg)
| SifError (format : string) (args : list printf_arg).

(** A member function runs on its object, the console and the framework. *)
Record env (Self W : Type) := Env { self : Self; console : list console_item; world : W }.
Arguments Env {_ _} _ _ _.
Arguments self {_ _} _.
Arguments console {_ _} _.
Arguments world {_ _} _.

Section env_ops.
Context {Self W : Type}.

Definition this : M (env Self W) Self := λ e, Done (self e, e).
Definition update (f : Self → Self) : M (env Self W) unit :=
  λ e, Done ((), Env (f (self e)) (console e) (world e)).
Definition call {A} (f : W → A * W) : M (env Self W) A :=
  λ e, let '(a, w') := f (world e) in Done (a, Env (self e) (console e) w').
Definition call_void (f : W → W) : M (env Self W) unit :=
  λ e, Done ((), Env (self e) (console e) (f (world e))).
Definition ask {A} (f : W → A) : M (env Self W) A := λ e, Done (f (world e), e).
Definition print (i : console_item) : M (env Self W) unit :=
  λ e, Done ((), Env (self e) (console e ++ [i]) (world e)).

(** [member = v;] *)
Definition assign_member {A} (f : Self → A) `{!Setter f} (v : A) : M (env Self W) unit :=
  update (λ o, o <| f := v |>).

Lemma wp_this e (Q : Self → env Self W → Prop) : Q (self e) e → wp this e Q.
Proof. done. Qed.
Lemma wp_update f e (Q : unit → env Self W → Prop) :
  Q () (Env (f (self e)) (console e) (world e)) → wp (update f) e Q.
Proof. done. Qed.
Lemma wp_call {A} (f : W → A * W) a w' e (Q : A → env Self W → Prop) :
  f (world e) = (a, w') → Q a (Env (self e) (console e) w') → wp (call f) e Q.
Proof. unfold wp, call. by intros ->. Qed.
(** The same without naming the result, for straight-line code. *)
Lemma wp_call_any {A} (f : W → A * W) e (Q : A → env Self W → Prop) :
  Q (f (world e)).1 (Env (self e) (console e) (f (world e)).2) → wp (call f) e Q.
Proof. unfold wp, call. by destruct (f (world e)). Qed.
Lemma wp_call_void f e (Q : unit → env Self W → Prop) :
  Q () (Env (self e) (console e) (f (world e))) → wp (call_void f) e Q.
Proof. done. Qed.
Lemma wp_ask {A} (f : W → A) e (Q : A → env Self W → Prop) :
  Q (f (world e)) e → wp (ask f) e Q.
Proof. done. Qed.
Lemma wp_print i e (Q : unit → env Self W → Prop) :
  Q () (Env (self e) (console e ++ [i]) (world e)) → wp (print i) e Q.
Proof. done. Qed.
End env_ops.

#[export] Hint Resolve wp_this wp_update wp_call_any wp_call_void wp_ask wp_print : wp_db.

Notation "f ::= v" := (assign_member f v) (at level 60, v at level 69).

Ltac run_env :=
  lazy beta iota zeta delta [assign_member this update call call_void ask print
    self console world mbind M_bind mret M_ret get put modify deref assign
    assign_if read_prefix undefined out_of_fuel set_field settable_eta wp
    option_fmap option_map fmap].

(** * Command messages *)

Class CommandMessageIF (Msg : Type) := {
  getMessageType : Msg → Z;
  getCommand : Msg → Command_t;
  getParameter : Msg → Z;
  setCommand : Command_t → Msg → Msg;
  setParameter : Z → Msg → Msg;
  clear : Msg → Msg;
  makeCommandId : Z → Z → Command_t;
  (* ActionMessage *)
  ActionMessage_setCommand : Z → store_address_t → Msg → Msg;
  ActionMessage_getActionId : Msg → Z;
  ActionMessage_getStoreId : Msg → store_address_t;
  ActionMessage_getReturnCode : Msg → ReturnValue_t;
  (* ParameterMessage and HasParametersIF *)
  ParameterMessage_setParameterDumpCommand : ParameterId_t → Msg → Msg;
  ParameterMessage_getParameterId : Msg → ParameterId_t;
  ParameterMessage_getStoreId : Msg → store_address_t;
  getFullParameterId : Z → Z → Z → ParameterId_t;
}.

(** A command is a message type in the upper and a command number in the lower
    byte; setting one field of a message leaves the other alone. *)
Class CommandMessageLaws Msg `{CommandMessageIF Msg} : Prop := {
  getCommand_setCommand c m :
    (0 ≤ c < 2 ^ 16)%Z → getCommand (setCommand c m) = c;
  makeCommandId_range t n :
    (0 ≤ t < 256)%Z → (0 ≤ n < 256)%Z → (0 ≤ makeCommandId t n < 2 ^ 16)%Z;
  getMessageType_makeCommandId t n m :
    (0 ≤ t < 256)%Z → (0 ≤ n < 256)%Z →
    getMessageType (setCommand (makeCommandId t n) m) = t;
  makeCommandId_low t n :
    (0 ≤ t < 256)%Z → (0 ≤ n < 256)%Z → Z.land (makeCommandId t n) 255 = n;
  getParameter_setParameter p m :
    (0 ≤ p < 2 ^ 32)%Z → getParameter (setParameter p m) = p;
  getCommand_setParameter p m : getCommand (setParameter p m) = getCommand m;
  getMessageType_setParameter p m : getMessageType (setParameter p m) = getMessageType m;
}.

(** * Storage managers (the IPC, TC and TM stores) *)

Class StorageManagerIF (W Store : Type) := {
  getFreeElement : Store → Z → W → (ReturnValue_t * store_address_t) * W;
  (* memcpy through the pointer getFreeElement handed out *)
  fillElement : Store → store_address_t → list byte → W → W;
  getData : Store → store_address_t → W → (ReturnValue_t * list byte) * W;
  deleteData : Store → store_address_t → W → ReturnValue_t * W;
}.

(** The specification view of a store: which elements are in use, and their
    bytes. *)
Class StorageView (W Store : Type) := contents : W → Store → gmap Z (list byte).

Class StorageManagerLaws W Store
  `{FsfwConstants, StorageManagerIF W Store, StorageView W Store} : Prop := {
  getFreeElement_OK st n w a w' :
    getFreeElement st n w = ((OK, a), w') →
    contents w st !! a = None ∧ (0 ≤ a < 2 ^ 32)%Z ∧
    ∃ bs, length bs = Z.to_nat n ∧ contents w' st = <[a := bs]> (contents w st);
  getFreeElement_error st n w rv a w' :
    getFreeElement st n w = ((rv, a), w') → rv ≠ OK → contents w' st = contents w st;
  fillElement_contents st a bs old w :
    contents w st !! a = Some old → length bs ≤ length old →
    contents (fillElement st a bs w) st
    = <[a := bs ++ drop (length bs) old]> (contents w st);
  getData_contents st a w : contents (getData st a w).2 st = contents w st;
  getData_OK st a w bs :
    contents w st !! a = Some bs → (getData st a w).1 = (OK, bs);
  getData_error st a w : contents w st !! a = None → (getData st a w).1.1 ≠ OK;
  deleteData_contents st a w :
    contents (deleteData st a w).2 st = delete a (contents w st);
}.

(** Each store manages memory of its own. *)
Class StoreSeparation W Store `{StorageManagerIF W Store, StorageView W Store} : Prop := {
  getFreeElement_elsewhere st st' n w :
    st' ≠ st → contents (getFreeElement st n w).2 st' = contents w st';
  fillElement_elsewhere st st' a bs w :
    st' ≠ st → contents (fillElement st a bs w) st' = contents w st';
  getData_elsewhere st st' a w :
    st' ≠ st → contents (getData st a w).2 st' = contents w st';
  deleteData_elsewhere st st' a w :
    st' ≠ st → contents (deleteData st a w).2 st' = contents w st';
}.

(** * Communication interfaces *)

(** What a device handler asks of its communication interface. A call may change the
    object; [readReceivedMessage] returns the new contents of what [buffer] and [size]
    point at. *)
Class DeviceCommunicationIF (Com Cookie W : Type) := {
  com_initializeInterface : Cookie → M (env Com W) ReturnValue_t;
  com_sendMessage : Cookie → option (list byte) → Z → M (env Com W) ReturnValue_t;
  com_getSendSuccess : Cookie → M (env Com W) ReturnValue_t;
  com_requestReceiveMessage : Cookie → Z → M (env Com W) ReturnValue_t;
  com_readReceivedMessage : Cookie → option (option (list byte)) → option Z →
    M (env Com W) (ReturnValue_t * option (option (list byte)) * option Z);
}.

(** * What the base class of a device handler offers *)

(** [parameterWrapper->set(member)] receives the member itself. *)
Inductive member_ref := ref_currentFrameRate.

Class ParameterWrapperIF (PW : Type) := {
  wrapper_set : member_ref → double → PW → PW;
  (* getElement(&target): the target's new content with the return value *)
  wrapper_getElement : PW → double → ReturnValue_t * double;
}.

Class DeviceHandlerBaseIF (W Msg PW : Type) := {
  base_setMode : Mode_t → W → W;
  base_insertInCommandAndReplyMap : DeviceCommandId_t → Z → W → ReturnValue_t * W;
  base_letChildHandleMessage : Msg → W → (ReturnValue_t * Msg) * W;
  base_replyReturnvalueToCommand : ReturnValue_t → W → W;
  base_getParameter :
    Z → Z → option PW → option PW → Z → W → (ReturnValue_t * option PW) * W;
}.

(** The mode and the base class's own parameters are no matter of the stores. *)
Class DeviceHandlerBaseLaws W Msg PW Store
  `{base : DeviceHandlerBaseIF W Msg PW, StorageView W Store} : Prop := {
  setMode_contents m w st :
    contents (base_setMode (DeviceHandlerBaseIF:=base) m w) st = contents w st;
  getParameter_contents d p wrapper values start w st :
    contents (base_getParameter (DeviceHandlerBaseIF:=base) d p wrapper values start w).2 st
    = contents w st;
}.

(** [actionHelper.handleActionMessage(message)] calls back into its owner, so it
    runs on the owner's object too. *)
Class ActionHelperIF (Self W Msg : Type) :=
  handleActionMessage : Msg → M (env Self W) (ReturnValue_t * Msg).

(** * What the base class of a commanding service offers *)

(** The packet contents the service constructs, with the constructor's
    arguments. *)
Inductive tm_content :=
| DataReply (objectId : object_id_t) (actionId : Z) (data : list byte) (size : Z)
| ParameterDumpReply (objectId : object_id_t) (parameterId : ParameterId_t)
    (data : list byte) (size : Z).

Class CommandingServiceBaseIF (W Store : Type) := {
  (* CommandingServiceBase::initialize, with the value it leaves in ipcStore *)
  base_initialize : W → (ReturnValue_t * option Store) * W;
  base_sendTmPacket : Z → tm_content → W → ReturnValue_t * W;
}.

(** * Message queues *)

Record verification_report := {
  report_id : Z;
  report_ackFlags : Z;
  report_step : Z;
  report_errorCode : Z;
}.

Class MessageQueueIF (W Queue : Type) := {
  (* QueueFactory::instance(): nullptr when no queue can be created *)
  createMessageQueue : Z → Z → W → option Queue * W;
  deleteMessageQueue : Queue → W → W;
  queue_getId : Queue → MessageQueueId_t;
  (* receiveMessage into a TmTcMessage, with the storage id of the message *)
  receive_TmTcMessage : Queue → W → (ReturnValue_t * store_address_t) * W;
  receive_PusVerificationMessage : Queue → W → (ReturnValue_t * verification_report) * W;
  (* MessageQueueSenderIF::sendMessage of a TmTcMessage *)
  send_TmTcMessage : MessageQueueId_t → store_address_t → W → ReturnValue_t * W;
}.

(** The specification view of a queue: the messages waiting in it. *)
Class QueueView (W Queue : Type) := {
  tm_messages : W → Queue → list store_address_t;
  verification_messages : W → Queue → list verification_report;
}.

(** Receiving takes the oldest message; it fails exactly on an empty queue. Sending
    appends to the queue addressed, or fails and leaves it. Neither touches a store. *)
Class MessageQueueLaws W Queue Store
  `{FsfwConstants, MessageQueueIF W Queue, QueueView W Queue, StorageView W Store} : Prop := {
  receive_TmTc_empty q w :
    tm_messages w q = [] → (receive_TmTcMessage q w).1.1 ≠ OK;
  receive_TmTc_cons q w a msgs :
    tm_messages w q = a :: msgs → (receive_TmTcMessage q w).1 = (OK, a);
  receive_TmTc_rest q w : tm_messages (receive_TmTcMessage q w).2 q = tail (tm_messages w q);
  receive_TmTc_stores q w st : contents (receive_TmTcMessage q w).2 st = contents w st;
  send_TmTc_stores q a w st : contents (send_TmTcMessage q a w).2 st = contents w st;
  send_TmTc_queue q i a w : queue_getId (W:=W) q = i →
    tm_messages (send_TmTcMessage i a w).2 q
    = if decide ((send_TmTcMessage i a w).1 = OK) then tm_messages w q ++ [a] else tm_messages w q;
  receive_Verification_empty q w :
    verification_messages w q = [] → (receive_PusVerificationMessage q w).1.1 ≠ OK;
  receive_Verification_cons q w r msgs :
    verification_messages w q = r :: msgs → (receive_PusVerificationMessage q w).1 = (OK, r);
  receive_Verification_rest q w :
    verification_messages (receive_PusVerificationMessage q w).2 q
    = tail (verification_messages w q);
}.

(** Storage operations do not send or receive messages. *)
Class StoreQueueLaws W Queue Store
  `{StorageManagerIF W Store, QueueView W Queue} : Prop := {
  getFreeElement_queues st n w q :
    tm_messages (getFreeElement st n w).2 q = tm_messages w q;
  fillElement_queues st a bs w q : tm_messages (fillElement st a bs w) q = tm_messages w q;
  getData_queues st a w q : tm_messages (getData st a w).2 q = tm_messages w q;
  deleteData_queues st a w q : tm_messages (deleteData st a w).2 q = tm_messages w q;
}.

(** * PUS packets *)

Record tm_header := { tm_service : Z; tm_subservice : Z; tm_userDataLen : Z }.

(** The arguments of the constructors a telecommand is built from. *)
Record tc_params := {
  tc_apid : Z;
  tc_sequenceCount : Z;
  tc_service : Z;
  tc_subservice : Z;
  tc_appData : option (list byte);
}.

Class PusIF (TC TimeReader : Type) := {
  parseDataWithoutCrcCheck : option TimeReader → list byte → ReturnValue_t * tm_header;
  PusTcCreator : tc_params → TC;
  updateSpLengthField : TC → TC;
  getSerializedSize : TC → Z;
  (* the return value and the bytes written at the write pointer *)
  serializeBe : TC → Z → ReturnValue_t * list byte;
}.

(** A serialisation stays within the size it is given and, when it succeeds, fills
    the announced size. *)
Class PusLaws TC TimeReader `{FsfwConstants, PusIF TC TimeReader} : Prop := {
  getSerializedSize_nonneg c : (0 ≤ getSerializedSize c)%Z;
  serializeBe_length c n :
    (0 ≤ n)%Z → (Z.of_nat (length (serializeBe c n).2) ≤ n)%Z;
  serializeBe_OK_length c n :
    (serializeBe c n).1 = OK → Z.of_nat (length (serializeBe c n).2) = getSerializedSize c;
}.

(** The reader with which the base class of a service looks into a telecommand packet:
    its subservice, a byte, and its application data. It finds there what the packet was
    built from. *)
Class PusTcReaderIF := { read_telecommand : list byte → option (Z * list byte) }.
Class PusTcReaderLaws TC TimeReader
  `{FsfwConstants, PusIF TC TimeReader, PusTcReaderIF} : Prop := {
  read_telecommand_byte bytes s data :
    read_telecommand bytes = Some (s, data) → (0 ≤ s < 256)%Z;
  read_serialized p : (0 ≤ tc_subservice p < 256)%Z →
    let packet := updateSpLengthField (PusTcCreator p) in
    let '(result, bytes) := serializeBe packet (getSerializedSize packet) in
    result = OK → read_telecommand bytes = Some (tc_subservice p, default [] (tc_appData p));
}.

(** A telecommand service seen by the distributor. *)
Class AcceptsTelecommandsIF (W Service : Type) := {
  getIdentifier : Service → W → Z;
  getRequestQueue : Service → W → MessageQueueId_t;
}.

(** * The object manager and the system object base class *)

(** Typed look-ups; the result is [None] when no object of that interface is
    registered under the identifier. For the two command receivers the result is
    their command queue. *)
Class ObjectManagerIF (W Store TimeReader : Type) := {
  get_DeviceHandlerIF : object_id_t → W → option MessageQueueId_t;
  get_ReceivesParameterMessagesIF : object_id_t → W → option MessageQueueId_t;
  get_StorageManagerIF : object_id_t → W → option Store;
  get_TimeReaderIF : object_id_t → W → option TimeReader;
  SystemObject_initialize : W → ReturnValue_t * W;
}.

(** * Periodic tasks *)

(** [TaskFactory] and [PeriodicTaskIF]. [TaskFactory::instance()] makes the factory if
    there is none, so its result needs no test. All calls of the program pass
    [nullptr] for the function to be called on a missed deadline. A component is added
    as an object or by its identifier. *)
Class TaskFactoryIF (W Task Exec : Type) := {
  MINIMUM_STACK_SIZE : Z;
  createPeriodicTask : string → Z → Z → double → W → option Task * W;
  addComponent : Task → Exec + object_id_t → W → ReturnValue_t * W;
  startTask : Task → W → ReturnValue_t * W;
}.

(** What a caller knows of a task. *)
Record periodic_task (Exec : Type) := PeriodicTask {
  task_period : double;
  task_components : list (Exec + object_id_t);
  task_started : bool;
}.
Arguments PeriodicTask {_} _ _ _.
Class TaskView (W Task Exec : Type) := tasks_of : W → Task → option (periodic_task Exec).

Class TaskFactoryLaws W Task Exec
  `{FsfwConstants, TaskFactoryIF W Task Exec, TaskView W Task Exec} : Prop := {
  createPeriodicTask_new name prio stack period w t w' :
    createPeriodicTask name prio stack period w = (Some t, w') →
    tasks_of w t = None ∧ tasks_of w' t = Some (PeriodicTask period [] false) ∧
    ∀ t', t' ≠ t → tasks_of w' t' = tasks_of w t';
  addComponent_tasks t c w t' info : tasks_of w t = Some info →
    (addComponent t c w).1 = OK →
    tasks_of (addComponent t c w).2 t = Some
      (PeriodicTask (task_period _ info) (task_components _ info ++ [c]) (task_started _ info))
    ∧ (t' ≠ t → tasks_of (addComponent t c w).2 t' = tasks_of w t');
  startTask_tasks t w t' info : tasks_of w t = Some info →
    (startTask t w).1 = OK →
    tasks_of (startTask t w).2 t = Some
      (PeriodicTask (task_period _ info) (task_components _ info) true)
    ∧ (t' ≠ t → tasks_of (startTask t w).2 t' = tasks_of w t');
}.
