(* ===== verification/LinuxApi.v ===== *)
(** The operating system as [test/webcam.cpp] uses it: the V4L2 requests of [ioctl],
    file descriptors, memory mappings and output files, over an abstract system state
    [W]. It is no part of the repository, so it is an interface: the operations in
    [LinuxIF], what a caller can observe of the state in [LinuxView], and documented
    behaviour in [LinuxLaws]. *)

From S2P Require Import Prelude Words.
From Stdlib Require Import SpecFloat.
Local Open Scope Z_scope.

(** * V4L2 *)

(** The fields the program uses; the rest of each structure is a single value,
    which the program zeroes and hands over. *)
Record v4l2_format := Format {
  format_type : Z; pix_width : Z; pix_height : Z; pix_pixelformat : Z; format_rest : Z;
}.
#[export] Instance v4l2_format_settable : Settable v4l2_format := λ f,
  Format (format_type f) (pix_width f) (pix_height f) (pix_pixelformat f) (format_rest f).

Record v4l2_requestbuffers := RequestBuffers { req_count : Z; req_type : Z; req_memory : Z }.

Record v4l2_buffer := V4l2Buffer {
  buffer_index : Z; buffer_type : Z; buffer_memory : Z;
  buffer_bytesused : Z; buffer_length : Z; buffer_offset : Z; buffer_rest : Z;
}.

Record v4l2_streamparm := StreamParm {
  parm_type : Z; timeperframe_numerator : Z; timeperframe_denominator : Z;
}.

(** The requests, with the structure each takes and gives back. *)
Inductive request : Type → Type :=
| VIDIOC_G_FMT : request v4l2_format
| VIDIOC_S_FMT : request v4l2_format
| VIDIOC_REQBUFS : request v4l2_requestbuffers
| VIDIOC_QUERYBUF : request v4l2_buffer
| VIDIOC_QBUF : request v4l2_buffer
| VIDIOC_DQBUF : request v4l2_buffer
| VIDIOC_STREAMON : request Z
| VIDIOC_STREAMOFF : request Z
| VIDIOC_G_PARM : request v4l2_streamparm.

Class V4l2Constants := {
  V4L2_BUF_TYPE_VIDEO_CAPTURE : Z;
  V4L2_MEMORY_MMAP : Z;
  V4L2_PIX_FMT_MJPEG : Z;
  V4L2_PIX_FMT_JPEG : Z;
  V4L2_PIX_FMT_YUYV : Z;
}.

(** * The system calls and the C library *)

(** An address is its value; [nullptr] is 0. *)
Definition MAP_FAILED : Z := 2 ^ 64 - 1.

Class LinuxIF (W File : Type) := {
  os_open : string → W → Z * W;                    (* open(dev, O_RDWR) *)
  os_close : Z → W → W;
  ioctl : ∀ {A}, Z → request A → A → W → (Z * A) * W;
  mmap : Z → Z → Z → W → Z * W;                    (* length, fd, offset *)
  munmap : Z → Z → W → W;
  read_memory : Z → W → list byte;                 (* what can be read from an address on *)
  fopen_wb : string → W → option File * W;
  fwrite : File → list byte → W → Z * W;
  fclose : File → W → Z * W;
}.

(** * Its behaviour *)

Class LinuxView (W File : Type) := {
  open_fds : W → gset Z;                           (* opened by open and not closed *)
  mappings : W → gset (Z * Z);                     (* address and length *)
  queued : Z → W → list Z;                         (* the buffers the driver may fill *)
  active_format : Z → W → v4l2_format;             (* the format of the device *)
  stream : File → W → option (string * list byte); (* an open file and what was written *)
  files : W → gmap string (list byte);
}.

(** What working on files leaves alone. *)
Record kept `{LinuxView W File} (w w' : W) : Prop := {
  kept_fds : open_fds w' = open_fds w;
  kept_mappings : mappings w' = mappings w;
  kept_queued n : queued n w' = queued n w;
  kept_format n : active_format n w' = active_format n w;
}.
#[export] Instance kept_preorder `{LinuxView W File} : PreOrder kept.
Proof.
  split; [by intros w|]. intros w1 w2 w3 [H1 H2 H3 H4] [H1' H2' H3' H4'].
  split; intros; etrans; eauto.
Qed.

(** Requests that hand buffers to the driver or take them back. *)
Definition moves_buffers {A} (r : request A) : bool :=
  match r with
  | VIDIOC_REQBUFS | VIDIOC_QBUF | VIDIOC_DQBUF | VIDIOC_STREAMOFF => true
  | _ => false
  end.

Definition sets_format {A} (r : request A) : bool :=
  match r with VIDIOC_S_FMT => true | _ => false end.

Class LinuxLaws W File `{LinuxIF W File, LinuxView W File} : Prop := {
  open_fds_open dev w fd w' : os_open dev w = (fd, w') →
    mappings w' = mappings w ∧
    if decide (fd < 0) then open_fds w' = open_fds w
    else fd ∉ open_fds w ∧ open_fds w' = {[fd]} ∪ open_fds w;
  open_fds_close fd w : open_fds (os_close fd w) = open_fds w ∖ {[fd]};
  mappings_close fd w : mappings (os_close fd w) = mappings w;
  ioctl_resources {A} fd (r : request A) x w :
    open_fds (ioctl fd r x w).2 = open_fds w ∧ mappings (ioctl fd r x w).2 = mappings w;
  ioctl_files {A} fd (r : request A) x w :
    files (ioctl fd r x w).2 = files w ∧ ∀ f, stream f (ioctl fd r x w).2 = stream f w;
  mmap_resources length fd offset w p w' : mmap length fd offset w = (p, w') →
    open_fds w' = open_fds w ∧ (∀ fd, queued fd w' = queued fd w) ∧
    (∀ fd, active_format fd w' = active_format fd w) ∧
    if decide (p = MAP_FAILED) then mappings w' = mappings w
    else p ≠ 0 ∧ length ≠ 0 ∧ (p, length) ∉ mappings w ∧
         mappings w' = {[(p, length)]} ∪ mappings w;
  munmap_fds p length w : open_fds (munmap p length w) = open_fds w;
  munmap_mapped p length w : p ≠ MAP_FAILED → (p, length) ∈ mappings w →
    mappings (munmap p length w) = mappings w ∖ {[(p, length)]};
  munmap_failed length w : mappings (munmap MAP_FAILED length w) = mappings w;
  (* the format *)
  format_set fd x w : active_format fd (ioctl fd VIDIOC_S_FMT x w).2
    = (ioctl fd VIDIOC_S_FMT x w).1.2;
  format_kept {A} fd (r : request A) x w : sets_format r = false →
    active_format fd (ioctl fd r x w).2 = active_format fd w;
  (* the queue of buffers *)
  queue_kept {A} fd (r : request A) x w : moves_buffers r = false →
    queued fd (ioctl fd r x w).2 = queued fd w;
  queue_requested fd x w : 0 ≤ (ioctl fd VIDIOC_REQBUFS x w).1.1 →
    queued fd (ioctl fd VIDIOC_REQBUFS x w).2 = [];
  queue_put fd x w : queued fd (ioctl fd VIDIOC_QBUF x w).2
    = if decide (0 ≤ (ioctl fd VIDIOC_QBUF x w).1.1)
      then queued fd w ++ [buffer_index x] else queued fd w;
  queue_put_index fd x w : buffer_index (ioctl fd VIDIOC_QBUF x w).1.2 = buffer_index x;
  queue_take fd x w rv b w' : ioctl fd VIDIOC_DQBUF x w = ((rv, b), w') →
    if decide (0 ≤ rv) then buffer_index b :: queued fd w' ≡ₚ queued fd w
    else queued fd w' = queued fd w;
  querybuf_index fd x w : buffer_index (ioctl fd VIDIOC_QUERYBUF x w).1.2 = buffer_index x;
  (* files *)
  fopen_stream path w f w' : fopen_wb path w = (Some f, w') →
    stream f w' = Some (path, []);
  (* a write may be short; it is complete when the result says so *)
  fwrite_stream f bs w path old : stream f w = Some (path, old) →
    ∃ n, stream f (fwrite f bs w).2 = Some (path, old ++ take n bs) ∧
      ((fwrite f bs w).1 = Z.of_nat (length bs) → (length bs ≤ n)%nat);
  fclose_files f w path bs : stream f w = Some (path, bs) → (fclose f w).1 = 0 →
    files (fclose f w).2 !! path = Some bs;
  fopen_kept path w : kept w (fopen_wb path w).2;
  fwrite_kept f bs w : kept w (fwrite f bs w).2;
  fclose_kept f w : kept w (fclose f w).2;
  fopen_memory path p w : read_memory p (fopen_wb path w).2 = read_memory p w;
  fwrite_memory f bs p w : read_memory p (fwrite f bs w).2 = read_memory p w;
}.
