(* ===== verification/LinuxModel.v ===== *)
(** One concrete system with its laws: a camera of two pixels that delivers the same
    frame for ever. It is used to run [test/webcam.cpp] on examples and shows that the
    laws of [LinuxApi] can hold together; no property depends on it. *)

From S2P Require Import Prelude Words LinuxApi.
Local Open Scope Z_scope.

#[export] Instance model_v4l2 : V4l2Constants := {|
  V4L2_BUF_TYPE_VIDEO_CAPTURE := 1; V4L2_MEMORY_MMAP := 1;
  V4L2_PIX_FMT_MJPEG := 0x47504a4d; V4L2_PIX_FMT_JPEG := 0x4745504a;
  V4L2_PIX_FMT_YUYV := 0x56595559;
|}.

(** [ls_next] is the next descriptor, address and stream. *)
Record linux_state := LinuxState {
  ls_fds : gset Z; ls_maps : gset (Z * Z); ls_queue : list Z;
  ls_streams : gmap Z (string * list byte); ls_files : gmap string (list byte); ls_next : Z;
}.
#[export] Instance linux_state_settable : Settable linux_state := λ w,
  LinuxState (ls_fds w) (ls_maps w) (ls_queue w) (ls_streams w) (ls_files w) (ls_next w).

Definition camera_format : v4l2_format := Format 1 2 1 0x56595559 0.
Definition camera_frame : list byte := [Byte.xff; Byte.x80; Byte.x10; Byte.x90].

Definition linux_init : linux_state := LinuxState {[0; 1; 2]} ∅ [] ∅ ∅ 3.

Definition model_ioctl {A} (fd : Z) (r : request A) : A → linux_state → (Z * A) * linux_state :=
  match r with
  | VIDIOC_G_FMT | VIDIOC_S_FMT => λ _ w, ((0, camera_format), w)
  | VIDIOC_REQBUFS => λ x w, ((0, x), w <| ls_queue := [] |>)
  | VIDIOC_QUERYBUF => λ x w,
      ((0, V4l2Buffer (buffer_index x) (buffer_type x) (buffer_memory x) 0 4096
             (4096 * buffer_index x) 0), w)
  | VIDIOC_QBUF => λ x w, ((0, x), w <| ls_queue := ls_queue w ++ [buffer_index x] |>)
  | VIDIOC_DQBUF => λ x w,
      match ls_queue w with
      | [] => ((-1, x), w)
      | i :: q => ((0, V4l2Buffer i (buffer_type x) (buffer_memory x) 4 4096 (4096 * i) 0),
                   w <| ls_queue := q |>)
      end
  | VIDIOC_STREAMON | VIDIOC_STREAMOFF => λ x w, ((0, x), w)
  | VIDIOC_G_PARM => λ x w, ((0, StreamParm (parm_type x) 1 30), w)
  end.

#[export] Instance model_linux : LinuxIF linux_state Z := {|
  os_open dev w :=
    if decide (0 ≤ ls_next w ∧ ls_next w ∉ ls_fds w)
    then (ls_next w, w <| ls_fds := {[ls_next w]} ∪ ls_fds w |> <| ls_next := ls_next w + 1 |>)
    else (-1, w);
  os_close fd w := w <| ls_fds := ls_fds w ∖ {[fd]} |>;
  ioctl A := model_ioctl;
  mmap length fd offset w :=
    let p := 4096 * ls_next w in
    if decide (p ≠ 0 ∧ p ≠ MAP_FAILED ∧ length ≠ 0 ∧ (p, length) ∉ ls_maps w)
    then (p, w <| ls_maps := {[(p, length)]} ∪ ls_maps w |> <| ls_next := ls_next w + 1 |>)
    else (MAP_FAILED, w);
  munmap p length w :=
    if decide (p = MAP_FAILED) then w else w <| ls_maps := ls_maps w ∖ {[(p, length)]} |>;
  read_memory p w := camera_frame;
  fopen_wb path w :=
    (Some (ls_next w), w <| ls_streams := <[ls_next w := (path, [])]> (ls_streams w) |>
                         <| ls_next := ls_next w + 1 |>);
  fwrite f bs w :=
    (Z.of_nat (length bs),
     w <| ls_streams := alter (λ s, (s.1, s.2 ++ bs)) f (ls_streams w) |>);
  fclose f w :=
    match ls_streams w !! f with
    | Some (path, bs) => (0, w <| ls_files := <[path := bs]> (ls_files w) |>
                               <| ls_streams := delete f (ls_streams w) |>)
    | None => (-1, w)
    end;
|}.

#[export] Instance model_linux_view : LinuxView linux_state Z := {|
  open_fds := ls_fds;
  mappings := ls_maps;
  queued fd := ls_queue;
  active_format fd w := camera_format;
  stream f w := ls_streams w !! f;
  files := ls_files;
|}.

#[export] Instance model_linux_laws : LinuxLaws linux_state Z.
Proof.
  split; simpl.
  - intros dev w fd w'. case_decide as Hd; intros [= <- <-].
    + split; [done|]. rewrite decide_False by lia. by destruct Hd.
    + by rewrite decide_True by lia.
  - done.
  - done.
  - intros A fd r x w. destruct r; simpl; try done. by destruct (ls_queue w).
  - intros A fd r x w. destruct r; simpl; try done. by destruct (ls_queue w).
  - intros length fd offset w p w'. case_decide as Hd; intros [= <- <-].
    + split_and!; try done. rewrite decide_False by apply Hd. naive_solver.
    + by split_and!.
  - intros p length w. by case_decide.
  - intros p length w Hp Hin. by rewrite decide_False.
  - intros length w. done.
  - done.
  - intros A fd r x w. by destruct r.
  - intros A fd r x w. by destruct r.
  - done.
  - done.
  - done.
  - intros fd x w rv b w'. destruct (ls_queue w) as [|i q] eqn:Hq; intros [= <- <- <-].
    + rewrite decide_False by lia. done.
    + by rewrite decide_True by lia.
  - done.
  - intros path w f w' [= <- <-]. cbn. by rewrite lookup_insert_eq.
  - intros f bs w path old Hs. exists (length bs). cbn. by rewrite lookup_alter_eq, Hs, firstn_all.
  - intros f w path bs Hs. rewrite Hs. cbn. by rewrite lookup_insert_eq.
  - done.
  - done.
  - intros f w. by destruct (ls_streams w !! f) as [[path bs]|].
  - done.
  - done.
Qed.
