(* ===== verification/WebcamTest.v ===== *)
(** The hardware test [test/webcam.cpp]: start-up of a V4L2 camera, one snapshot, the
    frame rate, and shut-down, over the operating system of [LinuxApi]. *)

From stdpp Require Import pretty.
From S2P Require Import Prelude Words Doubles Yuyv Fsfw LinuxApi.
Local Open Scope Z_scope.

(** * Data *)

Record Buffer := mkBuffer { start : Z; blength : Z }.
Definition no_buffer : Buffer := mkBuffer 0 0.

Record Webcam := mkWebcam { fd : Z; fmt : v4l2_format; bufs : list Buffer }.
#[export] Instance Webcam_settable : Settable Webcam := λ c, mkWebcam (fd c) (fmt c) (bufs c).

(** [v4l2_format{}] *)
Definition zero_format : v4l2_format := Format 0 0 0 0 0.
Definition new_webcam : Webcam := mkWebcam (-1) zero_format [].

Definition newline : string := String (Ascii.ascii_of_nat 10) EmptyString.
(** What [operator<<] writes of an integer. *)
Definition dec (z : Z) : string := pretty z.

Definition char_of (z : Z) : Ascii.ascii := Ascii.ascii_of_N (Z.to_N (Z.land z 0xFF)).

(** [std::string(s)]: the characters before the first NUL. *)
Fixpoint c_string (s : list Ascii.ascii) : string :=
  match s with
  | [] => EmptyString
  | c :: s => if decide (c = Ascii.zero) then EmptyString else String c (c_string s)
  end.

Definition fourcc_to_str (f : Z) : string :=
  c_string [char_of f; char_of (Z.shiftr f 8); char_of (Z.shiftr f 16); char_of (Z.shiftr f 24)].

(** [int W = ...] of an unsigned number. *)
Definition int32 (z : Z) : Z := int_of_uint32 (uint32 z).

(** [v.resize(n)] *)
Definition resize (n : Z) (v : list Buffer) : list Buffer :=
  take (Z.to_nat n) v ++ replicate (Z.to_nat n - length v) no_buffer.

(** [v[i]], undefined beyond the end. *)
Definition at_ {S A} (v : list A) (i : Z) : M S A :=
  if decide (0 ≤ i) then deref (v !! Z.to_nat i) else undefined.

Section Code.
Context `{!V4l2Constants} {W File : Type} `{!LinuxIF W File}.
Abbreviation prog := (M (env Webcam W)).

Definition cout (s : string) : prog unit := print (Stdout s).
Definition cerr (s : string) : prog unit := print (Stderr s).

(** [perror(msg)], and [false]. *)
Definition fail_with (msg : string) : prog bool := print (Perror msg);; mret false.

(** [if (ioctl(cam.fd, r, &x) < 0) return fail(msg);] and the rest of the function. *)
Definition ioctl_or_fail {A} (r : request A) (x : A) (msg : string) (rest : A → prog bool) : prog bool :=
  c ← this;
  '(rv, x) ← call (ioctl (fd c) r x);
  if decide (rv < 0) then fail_with msg else rest x.

(** [cam.bufs[i] = b] *)
Definition set_buffer (i : Z) (b : Buffer) : prog unit :=
  c ← this; at_ (bufs c) i;; bufs ::= <[Z.to_nat i := b]> (bufs c).

(** The loop over the buffers; [todo] are the indices that are left. The result of
    the function is [false] when an iteration fails, and that of [rest] else. *)
Fixpoint map_buffers (req : v4l2_requestbuffers) (todo : list Z) (rest : prog bool) : prog bool :=
  match todo with
  | [] => rest
  | i :: todo =>
      ioctl_or_fail VIDIOC_QUERYBUF (V4l2Buffer i (req_type req) (req_memory req) 0 0 0 0)
        "VIDIOC_QUERYBUF" (λ buf,
      c ← this;
      b ← at_ (bufs c) i;
      set_buffer i (mkBuffer (start b) (buffer_length buf));;
      p ← call (mmap (buffer_length buf) (fd c) (buffer_offset buf));
      set_buffer i (mkBuffer p (buffer_length buf));;
      if decide (p = MAP_FAILED) then fail_with "mmap"
      else ioctl_or_fail VIDIOC_QBUF buf "VIDIOC_QBUF" (λ _, map_buffers req todo rest))
  end.

(** Steps 4 to 6 of [startupWebcam]: the buffers, and the stream. *)
Definition start_stream (bufferCount : Z) : prog bool :=
  ioctl_or_fail VIDIOC_REQBUFS
    (RequestBuffers bufferCount V4L2_BUF_TYPE_VIDEO_CAPTURE V4L2_MEMORY_MMAP) "VIDIOC_REQBUFS" (λ req,
  if decide (req_count req < 2) then cerr ("Too few buffers." +:+ newline);; mret false else
  c ← this;
  bufs ::= resize (req_count req) (bufs c);;
  map_buffers req (seqZ 0 (req_count req)) (
  c ← this;
  cout ("queued_buffers=" +:+ dec (Z.of_nat (length (bufs c))) +:+ newline);;
  ioctl_or_fail VIDIOC_STREAMON V4L2_BUF_TYPE_VIDEO_CAPTURE "VIDIOC_STREAMON" (λ _,
  cout ("stream=ON" +:+ newline);;
  mret true))).

Definition startupWebcam (dev : string) (width height pixfmt_fourcc bufferCount : Z) : prog bool :=
  cout (newline +:+ "=== startupWebcam ===" +:+ newline);;
  cout ("device=" +:+ dev +:+ " width=" +:+ dec width +:+ " height=" +:+ dec height
    +:+ " request_pixfmt="
    +:+ (if decide (pixfmt_fourcc = 0) then "auto" else fourcc_to_str pixfmt_fourcc)
    +:+ " buffers=" +:+ dec bufferCount +:+ newline);;
  opened ← call (os_open dev);
  fd ::= opened;;
  if decide (opened < 0) then fail_with "open" else
  fmt ::= (zero_format <| format_type := V4L2_BUF_TYPE_VIDEO_CAPTURE |>);;
  c ← this;
  '(rv, got) ← call (ioctl (fd c) VIDIOC_G_FMT (fmt c));
  fmt ::= got;;
  if decide (rv < 0) then fail_with "VIDIOC_G_FMT" else
  c ← this;
  fmt ::= ((fmt c) <| pix_width := width |> <| pix_height := height |>);;
  c ← this;
  (if decide (pixfmt_fourcc = 0) then mret ()
   else fmt ::= ((fmt c) <| pix_pixelformat := pixfmt_fourcc |>));;
  c ← this;
  '(_, active) ← call (ioctl (fd c) VIDIOC_S_FMT (fmt c));
  fmt ::= active;;
  cout ("active_format: " +:+ dec (pix_width active) +:+ "x" +:+ dec (pix_height active)
    +:+ " fourcc=" +:+ fourcc_to_str (pix_pixelformat active) +:+ newline);;
  start_stream bufferCount.

(** The loop that unmaps. *)
Fixpoint unmap_buffers (bs : list Buffer) : prog unit :=
  match bs with
  | [] => mret ()
  | b :: bs =>
      (if decide (start b ≠ 0 ∧ blength b ≠ 0) then call_void (munmap (start b) (blength b))
       else mret ());;
      unmap_buffers bs
  end.

Definition shutdownWebcam : prog bool :=
  cout (newline +:+ "=== shutdownWebcam ===" +:+ newline);;
  c ← this;
  if decide (fd c < 0) then cout ("already closed" +:+ newline);; mret true else
  call (ioctl (fd c) VIDIOC_STREAMOFF V4L2_BUF_TYPE_VIDEO_CAPTURE);;
  unmap_buffers (bufs c);;
  bufs ::= [];;
  call_void (os_close (fd c));;
  fd ::= (-1);;
  cout ("stream=OFF, unmapped buffers, closed" +:+ newline);;
  mret true.

(** The pieces, written one after the other; each is evaluated when its turn comes.
    [fprintf] of a header writes its characters. Nobody looks at the results. *)
Fixpoint write_pieces (f : File) (pieces : list (prog (list byte))) : prog unit :=
  match pieces with
  | [] => mret ()
  | piece :: pieces => bs ← piece; call (fwrite f bs);; write_pieces f pieces
  end.

(** [if (FILE* f = fopen(path, "wb")) { write the pieces; fclose(f); ... ok = true; }] *)
Definition save (path : string) (pieces : list (prog (list byte))) (message : string) : prog bool :=
  f ← call (fopen_wb path);
  match f with
  | Some f =>
      write_pieces f pieces;;
      call (fclose f);;
      cout (message +:+ newline);;
      mret true
  | None => mret false
  end.

(** [n] bytes from an address on. *)
Definition memory (p n : Z) : prog (list byte) :=
  bs ← ask (read_memory p); read_prefix (Some bs) (Z.to_nat n).

(** [std::vector<uint8_t> rgb(n)]. A negative size throws an exception that nobody
    catches; the model does not tell that from undefined behaviour. *)
Definition new_vector (n : Z) : prog (list byte) :=
  if decide (0 ≤ n) then mret (replicate (Z.to_nat n) Byte.x00) else undefined.

Definition jpeg (fourcc : Z) : Prop := fourcc = V4L2_PIX_FMT_MJPEG ∨ fourcc = V4L2_PIX_FMT_JPEG.
#[export] Instance jpeg_dec fourcc : Decision (jpeg fourcc).
Proof. unfold jpeg. apply _. Defined.

(** ["P6\n%d %d\n255\n"] *)
Definition ppm_header (w h : Z) : list byte :=
  String.list_byte_of_string ("P6" +:+ newline +:+ dec w +:+ " " +:+ dec h +:+ newline
    +:+ "255" +:+ newline).

(** Step 2 of [takeSnapshot]: the frame in [buf], to a file. *)
Definition save_frame (fuel : nat) (path : string) (buf : v4l2_buffer) (fourcc w h : Z) : prog bool :=
  c ← this;
  if decide (jpeg fourcc) then
    save path [b ← at_ (bufs c) (buffer_index buf); memory (start b) (buffer_bytesused buf)] "wrote JPEG"
  else if decide (fourcc = V4L2_PIX_FMT_YUYV) then
    row ← as_int (3 * w); size ← as_int (row * h); rgb ← new_vector size;
    b ← at_ (bufs c) (buffer_index buf);
    frame ← ask (read_memory (start b));
    rgb ← (λ e, match yuyv_to_rgb fuel frame w h rgb with
                | Done (_, rgb) => Done (rgb, e)
                | Undefined => Undefined
                | OutOfFuel => OutOfFuel
                end);
    save path [mret (ppm_header w h); mret rgb] "wrote PPM"
  else cerr ("unsupported FourCC" +:+ newline);; mret false.

Definition takeSnapshot (fuel : nat) (path : string) : prog bool :=
  cout (newline +:+ "=== takeSnapshot ===" +:+ newline +:+ "path=" +:+ path +:+ newline);;
  c ← this;
  if decide (fd c < 0) then mret false else
  ioctl_or_fail VIDIOC_DQBUF (V4l2Buffer 0 V4L2_BUF_TYPE_VIDEO_CAPTURE V4L2_MEMORY_MMAP 0 0 0 0)
    "VIDIOC_DQBUF" (λ buf,
  c ← this;
  let fourcc := pix_pixelformat (fmt c) in
  let w := int32 (pix_width (fmt c)) in let h := int32 (pix_height (fmt c)) in
  cout ("dequeued index=" +:+ dec (buffer_index buf) +:+ " bytes=" +:+ dec (buffer_bytesused buf)
    +:+ " fourcc=" +:+ fourcc_to_str fourcc +:+ " size=" +:+ dec w +:+ "x" +:+ dec h +:+ newline);;
  ok ← save_frame fuel path buf fourcc w h;
  c ← this;
  '(_, buf) ← call (ioctl (fd c) VIDIOC_QBUF buf);
  cout ("requeued index=" +:+ dec (buffer_index buf) +:+ newline);;
  mret ok).

(** The new content of [fps_out] is returned with the result. *)
Definition getFramerate (fps_out : option spec_float) : prog (bool * option spec_float) :=
  cout (newline +:+ "=== getFramerate ===" +:+ newline);;
  c ← this;
  if decide (fd c < 0) then mret (false, fps_out) else
  '(rv, parm) ← call (ioctl (fd c) VIDIOC_G_PARM (StreamParm V4L2_BUF_TYPE_VIDEO_CAPTURE 0 0));
  if decide (rv < 0) then ok ← fail_with "VIDIOC_G_PARM"; mret (ok, fps_out) else
  let numerator := timeperframe_numerator parm in
  let denominator := timeperframe_denominator parm in
  if decide (numerator = 0 ∨ denominator = 0) then
    cout ("no timeperframe" +:+ newline);; mret (false, fps_out)
  else
    let fps := ddiv (double_of_int denominator) (double_of_int numerator) in
    cout "fps=";; print (StdoutDouble fps);; cout newline;;
    mret (true, Some fps).

(** [main], on a [cam] made by [new_webcam]; [None] is a [fps] without a value. *)
Definition main (fuel : nat) (argv1 : option string) : prog Z :=
  cout ("=== main: webcam test ===" +:+ newline);;
  let dev := default "/dev/video0" argv1 in
  cout ("device=" +:+ dev +:+ newline);;
  started ← startupWebcam dev 640 480 0 4;
  if (started : bool) then
    '(known, fps) ← getFramerate None;
    (if (known : bool) then fps ← deref fps; cout "driver_fps=";; print (StdoutDouble fps);; cout newline
     else mret ());;
    c ← this;
    let path := if decide (jpeg (pix_pixelformat (fmt c))) then "frame.jpg" else "frame.ppm" in
    takeSnapshot fuel path;;
    shutdownWebcam;;
    mret 0
  else cerr ("Startup failed." +:+ newline);; mret 1.
End Code.
