(* ===== verification/WebcamTestProperties.v ===== *)
(** Properties of the hardware test: what the program acquires it gives back, a
    dequeued buffer returns to the driver, the file holds the frame, and the frame
    rate is never computed from a zero. *)

From S2P Require Import Prelude Words Doubles Yuyv Fsfw LinuxApi LinuxModel WebcamTest.
Local Open Scope Z_scope.

(** * Resources of a camera *)

(** The mapping a buffer stands for; none before [mmap] and none when it failed. *)
Definition owned (b : Buffer) : option (Z * Z) :=
  if decide (start b = 0 ∨ start b = MAP_FAILED) then None else Some (start b, blength b).

Section Resources.
Context `{!V4l2Constants} {W File : Type} `{!LinuxIF W File, !LinuxView W File, !LinuxLaws W File}.

(** The camera [c] holds what the system has beyond the descriptors [F] and the
    mappings [Ms], and knows all of it. *)
Record holds (F : gset Z) (Ms : gset (Z * Z)) (c : Webcam) (w : W) : Prop := {
  holds_distinct : NoDup (omap owned (bufs c));
  holds_fresh x : x ∈ omap owned (bufs c) → x ∉ Ms ∧ x.2 ≠ 0;
  holds_mappings : mappings w = list_to_set (omap owned (bufs c)) ∪ Ms;
  holds_fds : if decide (fd c < 0) then open_fds w = F ∧ bufs c = []
              else fd c ∉ F ∧ open_fds w = {[fd c]} ∪ F;
}.

(** Ready to stream: at least two buffers, all mapped, and all with the driver. *)
Record ready (c : Webcam) (w : W) : Prop := {
  ready_open : 0 ≤ fd c;
  ready_count : (2 ≤ length (bufs c))%nat;
  ready_mapped b : b ∈ bufs c → owned b = Some (start b, blength b);
  ready_queued : queued (fd c) w = seqZ 0 (Z.of_nat (length (bufs c)));
  ready_format : fmt c = active_format (fd c) w;
}.

(** What a call keeps that neither opens nor maps. *)
Lemma holds_kept F Ms c w w' :
  open_fds w' = open_fds w → mappings w' = mappings w → holds F Ms c w → holds F Ms c w'.
Proof.
  intros Hf Hm [H1 H2 H3 H4]. split; [done|done|by rewrite Hm|]. by rewrite Hf.
Qed.

Lemma holds_ioctl F Ms c w {A} n (r : request A) x :
  holds F Ms c w → holds F Ms c (ioctl n r x w).2.
Proof. destruct (ioctl_resources n r x w). by apply holds_kept. Qed.

(** The format is no resource. *)
Lemma holds_same F Ms c c' w : fd c' = fd c → bufs c' = bufs c → holds F Ms c w → holds F Ms c' w.
Proof. intros Hf Hb [H1 H2 H3 H4]. split; rewrite ?Hf, ?Hb; done. Qed.

Lemma owned_none bs k : omap owned (bs ++ replicate k no_buffer) = omap owned bs.
Proof.
  rewrite omap_app. induction k as [|k IH]; simpl; [by rewrite app_nil_r|done].
Qed.

(** A mapping made for the next buffer. *)
Lemma holds_mmap F Ms c w w' done_ k len p off :
  holds F Ms c w → 0 ≤ fd c → bufs c = done_ ++ replicate (S k) no_buffer →
  mmap len (fd c) off w = (p, w') →
  holds F Ms (c <| bufs := done_ ++ mkBuffer p len :: replicate k no_buffer |>) w'.
Proof.
  intros [H1 H2 H3 H4] Hfd Hbufs Hmmap. rewrite Hbufs, owned_none in *.
  destruct (mmap_resources _ _ _ _ _ _ Hmmap) as (Hf & _ & _ & Hm).
  assert (Homap : omap owned (done_ ++ mkBuffer p len :: replicate k no_buffer)
    = omap owned done_ ++ omap owned [mkBuffer p len]).
  { change (mkBuffer p len :: replicate k no_buffer) with ([mkBuffer p len] ++ replicate k no_buffer).
    by rewrite app_assoc, owned_none, omap_app. }
  rewrite decide_False in H4 by lia.
  case_decide as Hp.
  - assert (omap owned [mkBuffer p len] = []) as Hnone
      by (simpl; unfold owned; simpl; rewrite decide_True by auto; done).
    rewrite Hnone, app_nil_r in Homap.
    split; cbn; rewrite ?Homap; [done|done|by rewrite Hm|].
    rewrite decide_False by lia. by rewrite Hf.
  - destruct Hm as (Hp0 & Hlen & Hnew & Hm).
    assert (omap owned [mkBuffer p len] = [(p, len)]) as Hone
      by (simpl; unfold owned; simpl; rewrite decide_False by naive_solver; done).
    rewrite Hone in Homap. rewrite H3 in Hnew.
    split; cbn; rewrite ?Homap.
    + apply list_relations.list.NoDup_app. split; [done|]. split; [|apply list_relations.list.NoDup_singleton].
      intros x Hx ->%list_elem_of_singleton.
      by apply Hnew, elem_of_union_l, elem_of_list_to_set.
    + intros x [Hx|Hx%list_elem_of_singleton]%elem_of_app; [by apply H2|].
      subst x. split; [|done]. intros Hx. by apply Hnew, elem_of_union_r.
    + rewrite Hm, H3, list_to_set_app_L. cbn [list_to_set]. set_solver.
    + rewrite decide_False by lia. by rewrite Hf.
Qed.

(** * Start-up *)

Lemma wp_ioctl_or_fail {A} (r : request A) x msg rest e (Q : bool → env Webcam W → Prop) :
  (∀ rv x' w', ioctl (fd (self e)) r x (world e) = ((rv, x'), w') →
     if decide (rv < 0) then Q false (Env (self e) (console e ++ [Perror msg]) w')
     else wp (rest x') (Env (self e) (console e) w') Q) →
  wp (ioctl_or_fail r x msg rest) e Q.
Proof.
  intros HQ. unfold ioctl_or_fail. apply wp_bind, wp_this, wp_bind.
  destruct (ioctl (fd (self e)) r x (world e)) as [[rv x'] w'] eqn:Hcall.
  apply (wp_call _ (rv, x') w'); [done|]. specialize (HQ rv x' w' eq_refl).
  by case_decide.
Qed.

Lemma wp_fail_with msg e (Q : bool → env Webcam W → Prop) :
  Q false (Env (self e) (console e ++ [Perror msg]) (world e)) → wp (fail_with msg) e Q.
Proof. done. Qed.

(** What start-up promises: everything it acquired is held by the camera, and the
    camera is ready if it says so. *)
Definition started (F : gset Z) (Ms : gset (Z * Z)) (ok : bool) (e : env Webcam W) : Prop :=
  holds F Ms (self e) (world e) ∧ (ok = true → ready (self e) (world e)).

Lemma set_buffer_spec i b e done_ rest (Q : unit → env Webcam W → Prop) old :
  bufs (self e) = done_ ++ old :: rest → i = Z.of_nat (length done_) →
  Q () (Env ((self e) <| bufs := done_ ++ b :: rest |>) (console e) (world e)) →
  wp (set_buffer i b) e Q.
Proof.
  intros Hb -> HQ. unfold set_buffer. apply wp_bind, wp_this, wp_bind.
  unfold at_. rewrite decide_True, Nat2Z.id, Hb by lia.
  rewrite list_lookup_middle by done. apply (wp_deref _ old); [done|].
  apply wp_update. rewrite insert_app_r_alt, Nat.sub_diag by done. done.
Qed.

(** The buffers before the [i]-th are mapped and with the driver. *)
Record mapping_loop (F : gset Z) (Ms : gset (Z * Z)) (i : Z) (k : nat) (c : Webcam) (w : W) : Prop := {
  loop_holds : holds F Ms c w;
  loop_open : 0 ≤ fd c;
  loop_queued : queued (fd c) w = seqZ 0 i;
  loop_format : fmt c = active_format (fd c) w;
  loop_bufs : ∃ done_, bufs c = done_ ++ replicate k no_buffer ∧ i = Z.of_nat (length done_) ∧
    ∀ b, b ∈ done_ → owned b = Some (start b, blength b);
}.

(** What the two requests for one buffer leave behind. *)
Lemma query_facts F Ms c (x : v4l2_buffer) (w : W) rv buf w1 : holds F Ms c w →
  ioctl (fd c) VIDIOC_QUERYBUF x w = ((rv, buf), w1) →
  holds F Ms c w1 ∧ queued (fd c) w1 = queued (fd c) w ∧ buffer_index buf = buffer_index x
  ∧ active_format (fd c) w1 = active_format (fd c) w.
Proof.
  intros Hh Heq. pose proof (holds_ioctl F Ms c w (fd c) VIDIOC_QUERYBUF x Hh).
  pose proof (queue_kept (fd c) VIDIOC_QUERYBUF x w eq_refl).
  pose proof (querybuf_index (fd c) x w). pose proof (format_kept (fd c) VIDIOC_QUERYBUF x w eq_refl).
  by rewrite Heq in *.
Qed.

Lemma put_facts F Ms c x (w : W) rv buf w1 : holds F Ms c w →
  ioctl (fd c) VIDIOC_QBUF x w = ((rv, buf), w1) →
  holds F Ms c w1 ∧
  queued (fd c) w1 = (if decide (0 ≤ rv) then queued (fd c) w ++ [buffer_index x] else queued (fd c) w)
  ∧ active_format (fd c) w1 = active_format (fd c) w.
Proof.
  intros Hh Heq. pose proof (holds_ioctl F Ms c w (fd c) VIDIOC_QBUF x Hh).
  pose proof (queue_put (fd c) x w). pose proof (format_kept (fd c) VIDIOC_QBUF x w eq_refl).
  by rewrite Heq in *.
Qed.

Lemma map_buffers_spec F Ms req rest k : ∀ i e,
  mapping_loop F Ms i k (self e) (world e) →
  (∀ e', mapping_loop F Ms (i + Z.of_nat k) 0 (self e') (world e') → wp rest e' (started F Ms)) →
  wp (map_buffers req (seqZ i (Z.of_nat k)) rest) e (started F Ms).
Proof.
  induction k as [|k IH]; intros i e Hinv Hrest.
  { simpl. apply Hrest. by rewrite Z.add_0_r. }
  rewrite seqZ_cons by lia. cbn [map_buffers].
  destruct Hinv as [Hh Ho Hq Ha (done_ & Hb & Hi & Hall)].
  apply wp_ioctl_or_fail. intros rv buf w1 Hquery.
  destruct (query_facts F Ms _ _ _ _ _ _ Hh Hquery) as (Hh1 & Hq1 & Hi1 & Ha1). simpl in Hi1.
  case_decide as Hrv; [split; [done|discriminate]|].
  apply wp_bind, wp_this, wp_bind. simpl self. unfold at_.
  rewrite decide_True, Hi, Nat2Z.id, Hb by lia. simpl replicate.
  rewrite list_lookup_middle by done. apply (wp_deref _ no_buffer); [done|].
  apply wp_bind. eapply set_buffer_spec; [exact Hb|done|].
  destruct e as [c out w]. cbn [self console world] in *.
  apply wp_bind. destruct (mmap (buffer_length buf) (fd c) (buffer_offset buf) w1) as [p w2] eqn:Hmmap.
  eapply wp_call; [exact Hmmap|].
  pose proof (holds_mmap F Ms c w1 w2 done_ k _ p _ Hh1 Ho Hb Hmmap) as Hh2.
  destruct (mmap_resources _ _ _ _ _ _ Hmmap) as (_ & Hq2 & Ha2 & Hp).
  apply wp_bind. eapply set_buffer_spec; [done|done|]. cbn [self console world start no_buffer].
  set (c2 := c <| bufs := _ |>) in Hh2. change (_ <| bufs := _ |>) with c2.
  case_decide as Hfail; [apply wp_fail_with; split; [done|discriminate]|].
  apply wp_ioctl_or_fail. cbn [self console world]. intros rv2 buf2 w3 Hput.
  destruct (put_facts F Ms _ _ _ _ _ _ Hh2 Hput) as (Hh3 & Hq3 & Ha3). simpl in Hq3, Ha3.
  destruct (decide (rv2 < 0)) as [Hrv2|Hrv2]; [split; [done|discriminate]|].
  replace (Z.succ (Z.of_nat (length done_))) with (i + 1) by lia.
  replace (Z.pred (Z.of_nat (S k))) with (Z.of_nat k) by lia.
  apply IH.
  - split; [done|done| |by simpl; rewrite Ha3, Ha2, Ha1|].
    + simpl. rewrite Hq3, decide_True by lia. rewrite Hq2, Hq1, Hq, Hi1. cbn [self].
      rewrite Hi, seqZ_app by lia. done.
    + exists (done_ ++ [mkBuffer p (buffer_length buf)]). split_and!.
      * simpl. by rewrite <- app_assoc.
      * rewrite length_app. simpl. lia.
      * intros b [Hd|Hd%list_elem_of_singleton]%elem_of_app; [by apply Hall|].
        subst b. unfold owned. rewrite decide_False; [done|]. cbn [start]. naive_solver.
  - intros e' He'. apply Hrest. by replace (i + Z.of_nat (S k)) with (i + 1 + Z.of_nat k) by lia.
Qed.

Lemma holds_nothing n f w F Ms :
  (if decide (n < 0) then open_fds w = F else n ∉ F ∧ open_fds w = {[n]} ∪ F) →
  mappings w = Ms → holds F Ms (mkWebcam n f []) w.
Proof.
  intros Hf Hm. split; simpl.
  - by apply list_relations.list.NoDup_nil.
  - intros x Hx. by apply elem_of_nil in Hx.
  - by rewrite Hm, (left_id_L ∅ (∪)).
  - by destruct (decide (n < 0)).
Qed.

Lemma start_stream_spec F Ms count e :
  holds F Ms (self e) (world e) → 0 ≤ fd (self e) → bufs (self e) = [] →
  fmt (self e) = active_format (fd (self e)) (world e) →
  wp (start_stream count) e (started F Ms).
Proof.
  intros Hh Ho Hb Ha. unfold start_stream. apply wp_ioctl_or_fail. intros rv req w1 Hreq.
  match type of Hreq with ioctl ?n ?r ?x _ = _ =>
    pose proof (holds_ioctl F Ms (self e) (world e) n r x Hh) as Hh1;
    pose proof (queue_requested n x (world e)) as Hq1;
    pose proof (format_kept n r x (world e) eq_refl) as Ha1 end.
  rewrite Hreq in Hh1, Hq1, Ha1. cbn [fst snd] in Hh1, Hq1, Ha1.
  destruct (decide (rv < 0)) as [Hrv|Hrv]; [split; [done|discriminate]|].
  destruct (decide (req_count req < 2)) as [Hc|Hc]; [split; [done|discriminate]|].
  apply wp_bind, wp_this, wp_bind, wp_update. cbn [self console world].
  set (n := Z.to_nat (req_count req)). assert (2 ≤ n)%nat by lia.
  replace (req_count req) with (Z.of_nat n) by lia.
  assert (resize (Z.of_nat n) (bufs (self e)) = replicate n no_buffer) as ->.
  { unfold resize. by rewrite Hb, Nat2Z.id, take_nil, Nat.sub_0_r. }
  apply map_buffers_spec.
  - split; cbn; [|done|by rewrite Hq1 by lia|by rewrite Ha1|exists []; by split_and!; [..|intros b Hb'%elem_of_nil]].
    destruct Hh1 as [H1 H2 H3 H4]. rewrite Hb in *.
    pose proof (owned_none [] n : omap owned (replicate n no_buffer) = []) as Hnone.
    split; cbn; rewrite ?Hnone; [done..|]. rewrite decide_False in * by lia. done.
  - intros e' [Hh' Ho' Hq' Ha' (done_ & Hb' & Hn & Hall)]. rewrite app_nil_r in Hb'. subst done_.
    apply wp_bind, wp_this, wp_bind, wp_print. apply wp_ioctl_or_fail. intros rv2 t w2 Hon.
    cbn [self console world] in Hon |- *.
    match type of Hon with ioctl ?n ?r ?x _ = _ =>
      pose proof (holds_ioctl F Ms (self e') (world e') n r x Hh') as Hh2;
      pose proof (queue_kept n r x (world e') eq_refl) as Hq2;
      pose proof (format_kept n r x (world e') eq_refl) as Ha2 end.
    rewrite Hon in Hh2, Hq2, Ha2. cbn [snd] in Hh2, Hq2, Ha2.
    destruct (decide (rv2 < 0)) as [Hrv2|Hrv2]; [split; [done|discriminate]|].
    apply wp_bind, wp_print, wp_ret. split; [done|]. intros _. cbn [self world].
    split; [done|lia|done|by rewrite Hq2, Hq', <- Hn|by rewrite Ha2].
Qed.

Lemma startup_started dev width height pixfmt count e F Ms :
  self e = new_webcam → open_fds (world e) = F → mappings (world e) = Ms →
  wp (startupWebcam dev width height pixfmt count) e (started F Ms).
Proof.
  destruct e as [c out w]. cbn [self world]. intros -> HF HM. unfold startupWebcam.
  do 2 apply wp_bind, wp_print. cbn [self console world]. apply wp_bind.
  destruct (os_open dev w) as [n w1] eqn:Hopen. apply (wp_call _ n w1); [done|].
  destruct (open_fds_open _ _ _ _ Hopen) as [Hm1 Hf1]. rewrite HF in Hf1. rewrite HM in Hm1.
  pose proof (λ f, holds_nothing n f w1 F Ms Hf1 Hm1) as Hh1.
  apply wp_bind, wp_update. cbn [self console world].
  destruct (decide (n < 0)) as [Hn|Hn]; [apply wp_fail_with; split; [apply Hh1|discriminate]|].
  apply wp_bind, wp_update, wp_bind, wp_this, wp_bind. cbn [self console world].
  apply wp_call_any. cbn [self console world].
  match goal with |- context [ioctl ?a VIDIOC_G_FMT ?b w1] =>
    pose proof (λ f, holds_ioctl F Ms _ w1 a VIDIOC_G_FMT b (Hh1 f)) as Hh2;
    destruct (ioctl a VIDIOC_G_FMT b w1) as [[rv got] w2] end.
  cbn [snd] in Hh2. cbn [fst snd]. apply wp_bind, wp_update. cbn [self console world].
  destruct (decide (rv < 0)) as [Hrv|Hrv]; [apply wp_fail_with; split; [apply Hh2|discriminate]|].
  apply wp_bind, wp_this, wp_bind, wp_update, wp_bind, wp_this, wp_bind.
  (* the requested pixel format changes nothing else *)
  apply wp_mono with (P := λ _ e', ∃ f, e' = Env (mkWebcam n f []) (console e') w2).
  { destruct (decide (pixfmt = 0)); [apply wp_ret|apply wp_update]; eexists; done. }
  intros [] e' [f ->]. apply wp_bind, wp_this, wp_bind, wp_call_any. cbn [self console world].
  match goal with |- context [ioctl ?a VIDIOC_S_FMT ?b w2] =>
    pose proof (λ f, holds_ioctl F Ms _ w2 a VIDIOC_S_FMT b (Hh2 f)) as Hh3;
    pose proof (format_set a b w2) as Ha3;
    destruct (ioctl a VIDIOC_S_FMT b w2) as [[rv' active] w3] end.
  cbn [fst snd] in Hh3, Ha3. cbn [fst snd]. apply wp_bind, wp_update, wp_bind, wp_print.
  by apply start_stream_spec; [apply Hh3|cbn; lia|..].
Qed.

(** * Shut-down *)

(** Unmapping one buffer removes its mapping, if it has one. *)
Lemma unmap_one b (e : env Webcam W) :
  (∀ x, owned b = Some x → x ∈ mappings (world e) ∧ x.2 ≠ 0) →
  wp (if decide (start b ≠ 0 ∧ blength b ≠ 0) then call_void (munmap (start b) (blength b))
      else mret ()) e (λ _ e', self e' = self e ∧ open_fds (world e') = open_fds (world e) ∧
    mappings (world e')
    = match owned b with Some x => mappings (world e) ∖ {[x]} | None => mappings (world e) end).
Proof.
  unfold owned. intros Hown. destruct (decide (start b ≠ 0 ∧ blength b ≠ 0)) as [[H0 Hl]|Hno].
  - apply wp_call_void. cbn [self world]. split_and!; [done|apply munmap_fds|].
    case_decide as Hd.
    + destruct Hd as [?| ->]; [done|]. apply munmap_failed.
    + destruct (Hown (start b, blength b) eq_refl). by apply munmap_mapped; naive_solver.
  - apply wp_ret. split_and!; [done..|]. case_decide as Hd; [done|].
    destruct (Hown (start b, blength b) eq_refl) as [_ Hl]. simpl in Hl. naive_solver.
Qed.

Lemma unmap_buffers_spec Ms bs : ∀ e,
  NoDup (omap owned bs) → (∀ x, x ∈ omap owned bs → x ∉ Ms ∧ x.2 ≠ 0) →
  mappings (world e) = list_to_set (omap owned bs) ∪ Ms →
  wp (unmap_buffers bs) e (λ _ e',
    self e' = self e ∧ open_fds (world e') = open_fds (world e) ∧ mappings (world e') = Ms).
Proof.
  induction bs as [|b bs IH]; intros e Hnd Hfresh Hm.
  { split_and!; [done..|]. rewrite Hm. cbn [omap list_omap list_to_set]. set_solver. }
  cbn [unmap_buffers]. apply wp_bind. eapply wp_mono; [apply unmap_one|].
  { intros x Hx. cbn [omap list_omap] in Hfresh, Hm. rewrite Hx in Hfresh, Hm.
    destruct (Hfresh x) as [_ Hx0]; [by apply list_elem_of_here|]. split; [|done].
    rewrite Hm. cbn [list_to_set]. set_solver. }
  intros [] e1 (Hself & Hfds & Hm1). rewrite Hm in Hm1. clear Hm.
  rewrite <- Hself, <- Hfds. apply IH; cbn [omap list_omap] in *;
    destruct (owned b) as [x|]; try done.
  - by apply list_relations.list.NoDup_cons in Hnd as [_ Hnd].
  - intros y Hy. apply Hfresh. by apply list_elem_of_further.
  - apply list_relations.list.NoDup_cons in Hnd as [Hx _].
    destruct (Hfresh x) as [HxM _]; [by apply list_elem_of_here|].
    rewrite Hm1. cbn [list_to_set]. apply set_eq. intros y.
    assert (y = x → y ∉ omap owned bs) by (by intros ->). set_solver.
Qed.

(** Shut-down gives back what the camera holds. *)
Lemma shutdown_spec F Ms e : holds F Ms (self e) (world e) →
  wp shutdownWebcam e (λ ok e', ok = true ∧ fd (self e') < 0 ∧ bufs (self e') = [] ∧
    open_fds (world e') = F ∧ mappings (world e') = Ms).
Proof.
  intros Hh. unfold shutdownWebcam. apply wp_bind, wp_print, wp_bind, wp_this.
  cbn [self console world]. destruct Hh as [Hnd Hfresh Hm Hf].
  destruct (decide (fd (self e) < 0)) as [Hfd|Hfd].
  { destruct Hf as [Hf Hb]. apply wp_bind, wp_print, wp_ret. cbn [self world].
    split_and!; try done. rewrite Hm, Hb. cbn [omap list_omap list_to_set]. set_solver. }
  destruct Hf as [HnF Hf]. apply wp_bind, wp_call_any. cbn [self console world].
  match goal with |- context [ioctl ?n ?r ?x (world e)] =>
    destruct (ioctl_resources n r x (world e)) as [Hf1 Hm1] end.
  apply wp_bind. eapply wp_mono; [apply (unmap_buffers_spec Ms)|]; [done|done|by cbn; rewrite Hm1|].
  intros [] [c out w] (Hc & Hf2 & Hm2). cbn [self console world] in *. subst c.
  apply wp_bind, wp_update, wp_bind, wp_call_void, wp_bind, wp_update, wp_bind, wp_print, wp_ret.
  cbn [self console world]. split_and!; [done|done|done| |by rewrite mappings_close].
  rewrite open_fds_close, Hf2, Hf1, Hf. set_solver.
Qed.

(** (C29) Whatever start-up comes to - the device cannot be opened, a request is refused
    at any point, a buffer cannot be mapped, or all goes well - shutting down
    afterwards leaves the descriptors and the memory mappings as they were before,
    and the camera closed. And when start-up says so, the camera is ready: open, with
    at least two buffers, each of them mapped, and all handed to the driver in
    order, and it knows the format the driver uses. *)
Theorem startup_shutdown_restores dev width height pixfmt count e :
  self e = new_webcam →
  wp (startupWebcam dev width height pixfmt count) e (λ ok e1,
    (ok = true → ready (self e1) (world e1)) ∧
    wp shutdownWebcam e1 (λ done_ e2, done_ = true ∧ fd (self e2) < 0 ∧ bufs (self e2) = [] ∧
      open_fds (world e2) = open_fds (world e) ∧ mappings (world e2) = mappings (world e))).
Proof.
  intros Hnew. eapply wp_mono; [by apply (startup_started _ _ _ _ _ _ _ _ Hnew eq_refl eq_refl)|].
  intros ok e1 [Hh Hready]. split; [done|]. by apply shutdown_spec.
Qed.

(** * The snapshot *)

(** The piece reads the system without changing it, and yields [bs] as long as the
    camera and the memory are those of [e]. *)
Definition reads (e : env Webcam W) (piece : M (env Webcam W) (list byte)) (bs : list byte) : Prop :=
  ∀ e', self e' = self e → (∀ p, read_memory p (world e') = read_memory p (world e)) →
    piece e' = Done (bs, e').

(** Every write is complete, and closing a file succeeds. *)
Definition writes_succeed : Prop :=
  (∀ f bs w, (fwrite f bs w).1 = Z.of_nat (length bs)) ∧ (∀ f w, (fclose f w).1 = 0).

Lemma write_pieces_spec (e0 : env Webcam W) f path pieces bss : Forall2 (reads e0) pieces bss →
  ∀ e old, self e = self e0 →
  (∀ p, read_memory p (world e) = read_memory p (world e0)) →
  stream f (world e) = Some (path, old) →
  wp (write_pieces f pieces) e (λ _ e', self e' = self e ∧ kept (world e) (world e') ∧
    (writes_succeed → stream f (world e') = Some (path, old ++ concat bss))).
Proof.
  intros Hall. induction Hall as [|piece bs pieces bss Hp Hall IH]; intros e old Hc Hm Hs.
  { split_and!; [done..|]. by rewrite app_nil_r. }
  cbn [write_pieces]. apply wp_bind. eapply wp_done; [by apply Hp|].
  apply wp_bind, wp_call_any.
  destruct (fwrite_stream f bs (world e) path old Hs) as (n & Hs' & Hn).
  eapply wp_mono; [apply (IH (Env _ _ _) (old ++ take n bs))|]; cbn [self world].
  - done.
  - intros p. by rewrite fwrite_memory.
  - done.
  - intros [] e' (H1 & H2 & H3). split_and!; [done|by etrans; [apply fwrite_kept|]|].
    intros Hok. rewrite H3 by done. rewrite take_ge by apply Hn, Hok. cbn [concat].
    by rewrite <- app_assoc.
Qed.

(** Saving says whether the file could be opened; when all that was written could be,
    the file then holds the pieces, in order. *)
Lemma save_spec path pieces bss message e : Forall2 (reads e) pieces bss →
  wp (save path pieces message) e (λ ok e', self e' = self e ∧ kept (world e) (world e') ∧
    (ok = true ↔ is_Some (fopen_wb path (world e)).1) ∧
    (writes_succeed → ok = true → files (world e') !! path = Some (concat bss))).
Proof.
  intros Hall. unfold save. apply wp_bind.
  destruct (fopen_wb path (world e)) as [[f|] w1] eqn:Hopen;
    (eapply wp_call; [exact Hopen|]);
    pose proof (fopen_kept path (world e)) as Hk;
    pose proof (λ p, fopen_memory path p (world e)) as Hmem; rewrite Hopen in Hk, Hmem;
    cbn [fst snd] in *.
  2: { apply wp_ret. split_and!; [done..|split; [done|by intros [??]]|done]. }
  apply wp_bind. eapply wp_mono.
  { apply (write_pieces_spec e f path pieces bss Hall (Env _ _ _) []); [done|done|].
    by apply (fopen_stream _ _ _ _ Hopen). }
  intros [] [c out w2] (H1 & H2 & H3). cbn [self console world] in *. subst c.
  apply wp_bind, wp_call_any, wp_bind, wp_print, wp_ret. cbn [self console world].
  split_and!; [done| |split; [by eexists|done]|].
  - etrans; [exact Hk|]. etrans; [exact H2|]. apply fclose_kept.
  - intros Hok _. apply fclose_files; [by apply H3|apply Hok].
Qed.

(** What the file of a snapshot holds: the bytes of a compressed frame as they are, and
    of an uncompressed one a PPM header and the converted pixels. *)
Definition snapshot_content (fourcc w h used : Z) (frame : list byte) : option (list byte) :=
  if decide (jpeg fourcc) then Some (take (Z.to_nat used) frame)
  else if decide (fourcc = V4L2_PIX_FMT_YUYV) then
    Some (ppm_header w h ++ rgb_of_yuyv (take (2 * Z.to_nat (w * h)) frame))
  else None.

(** The driver's side: the frame is as long as it says or as its format implies, and
    the image has an even, not too large number of pixels. *)
Definition frame_complete (fourcc w h used : Z) (frame : list byte) : Prop :=
  if decide (jpeg fourcc) then (Z.to_nat used ≤ length frame)%nat
  else if decide (fourcc = V4L2_PIX_FMT_YUYV) then
    int_fits (3 * w) ∧ int_fits (3 * w * h) ∧ 0 ≤ w * h ∧ Z.Even (w * h)
    ∧ (2 * Z.to_nat (w * h) ≤ length frame)%nat
  else True.

Lemma save_frame_spec fuel path buf fourcc w h b e (frame := read_memory (start b) (world e)) :
  0 ≤ buffer_index buf → bufs (self e) !! Z.to_nat (buffer_index buf) = Some b →
  frame_complete fourcc w h (buffer_bytesused buf) frame → (Z.to_nat (w * h) < 2 * fuel)%nat →
  let content := snapshot_content fourcc w h (buffer_bytesused buf) frame in
  wp (save_frame fuel path buf fourcc w h) e (λ ok e', self e' = self e ∧
    kept (world e) (world e') ∧
    (ok = true ↔ is_Some content ∧ is_Some (fopen_wb path (world e)).1) ∧
    (writes_succeed → ok = true → files (world e') !! path = content)).
Proof.
  intros Hi Hb Hframe Hfuel content. unfold save_frame, content, snapshot_content, frame_complete in *.
  apply wp_bind, wp_this.
  assert (Hat : ∀ e' : env Webcam W, at_ (bufs (self e)) (buffer_index buf) e' = Done (b, e')).
  { intros e'. unfold at_. by rewrite decide_True, Hb by done. }
  destruct (decide (jpeg fourcc)) as [Hj|Hj].
  - eapply wp_mono; [apply (save_spec path _ [take (Z.to_nat (buffer_bytesused buf)) frame])|].
    + apply Forall2_cons; [|by apply Forall2_nil]. intros e' Hc Hm.
      rewrite (bind_done _ _ _ _ _ (Hat e')). unfold memory.
      rewrite (bind_done _ _ _ frame e') by (unfold ask; by rewrite Hm).
      unfold read_prefix. by rewrite decide_True by done.
    + intros ok e' (H1 & H2 & H3 & H4). split_and!; [done..|naive_solver|].
      intros Hw Hok. rewrite H4 by done. cbn [concat]. by rewrite app_nil_r.
  - destruct (decide (fourcc = V4L2_PIX_FMT_YUYV)) as [Hy|Hy].
    2: { apply wp_bind, wp_print, wp_ret. split_and!; [done..|split; [done|]|done].
         intros [[] _]. done. }
    destruct Hframe as (Hrow & Hsize & Hpos & Heven & Hlen).
    assert (int_fits (w * h)) as Hwh by (unfold int_fits in *; lia).
    apply wp_bind. eapply wp_done; [by apply as_int_fits|].
    apply wp_bind. eapply wp_done; [by apply as_int_fits|].
    apply wp_bind. unfold new_vector. rewrite decide_True by lia. apply wp_ret.
    apply wp_bind. eapply wp_done; [apply Hat|]. apply wp_bind, wp_ask. fold frame.
    set (out := replicate (Z.to_nat (3 * w * h)) Byte.x00).
    assert (length out = (3 * Z.to_nat (w * h))%nat) as Hout
      by (subst out; rewrite length_replicate; lia).
    apply wp_bind. eapply wp_done.
    { rewrite yuyv_to_rgb_run by (done || lia). exact eq_refl. }
    rewrite drop_ge, app_nil_r by lia.
    eapply wp_mono; [apply (save_spec path _ [ppm_header w h;
      rgb_of_yuyv (take (2 * Z.to_nat (w * h)) frame)])|].
    + by repeat (apply Forall2_cons; [done|]); apply Forall2_nil.
    + intros ok e' (H1 & H2 & H3 & H4). split_and!; [done..|naive_solver|].
      intros Hw Hok. rewrite H4 by done. cbn [concat]. by rewrite app_nil_r.
Qed.

(** The frame the driver hands out is one of the camera's buffers, and complete. *)
Definition frame_usable (fuel : nat) (c : Webcam) (buf : v4l2_buffer) (w1 : W) : Prop :=
  let width := int32 (pix_width (fmt c)) in let height := int32 (pix_height (fmt c)) in
  0 ≤ buffer_index buf ∧ (Z.to_nat (width * height) < 2 * fuel)%nat ∧
  ∃ b, bufs c !! Z.to_nat (buffer_index buf) = Some b ∧
    frame_complete (pix_pixelformat (fmt c)) width height (buffer_bytesused buf)
      (read_memory (start b) w1).

(** What is to be saved of it. *)
Definition frame_content (c : Webcam) (buf : v4l2_buffer) (w1 : W) : option (list byte) :=
  b ← bufs c !! Z.to_nat (buffer_index buf);
  snapshot_content (pix_pixelformat (fmt c)) (int32 (pix_width (fmt c))) (int32 (pix_height (fmt c)))
    (buffer_bytesused buf) (read_memory (start b) w1).

(** The buffer [takeSnapshot] asks with. *)
Definition dequeue_request : v4l2_buffer :=
  V4l2Buffer 0 V4L2_BUF_TYPE_VIDEO_CAPTURE V4L2_MEMORY_MMAP 0 0 0 0.

Lemma takeSnapshot_run fuel path e rv buf w1 :
  ioctl (fd (self e)) VIDIOC_DQBUF dequeue_request (world e) = ((rv, buf), w1) →
  (0 ≤ fd (self e) → 0 ≤ rv → frame_usable fuel (self e) buf w1) →
  wp (takeSnapshot fuel path) e (λ ok e', self e' = self e ∧
    if decide (fd (self e) < 0) then ok = false ∧ world e' = world e
    else if decide (rv < 0) then ok = false ∧ world e' = w1 else
    ∃ w2, kept w1 w2 ∧ world e' = (ioctl (fd (self e)) VIDIOC_QBUF buf w2).2 ∧
      (ok = true ↔ is_Some (frame_content (self e) buf w1) ∧ is_Some (fopen_wb path w1).1) ∧
      (writes_succeed → ok = true → files (world e') !! path = frame_content (self e) buf w1)).
Proof.
  intros Hdq Husable.
  unfold takeSnapshot. apply wp_bind, wp_print, wp_bind, wp_this. cbn [self console world].
  destruct (decide (fd (self e) < 0)) as [Hclosed|Hopen]; [by apply wp_ret|].
  apply wp_ioctl_or_fail. cbn [self console world].
  intros rv' buf' w1' Heq. fold dequeue_request in Heq. rewrite Hdq in Heq.
  injection Heq as <- <- <-. destruct (decide (rv < 0)) as [Hrv|Hrv]; [done|].
  destruct Husable as (Hi & Hfuel & b & Hb & Hframe); [lia..|].
  unfold frame_content. rewrite Hb. cbn [mbind option_bind].
  apply wp_bind, wp_this, wp_bind, wp_print, wp_bind. cbn [self console world].
  eapply wp_mono; [by eapply (save_frame_spec fuel path buf _ _ _ b (Env _ _ _))|].
  intros ok [c out w2] (Hc & Hk & Hok & Hfile). cbn [self console world] in *. subst c.
  apply wp_bind, wp_this, wp_bind. cbn [self console world].
  destruct (ioctl_files (fd (self e)) VIDIOC_QBUF buf w2) as [Hfiles _].
  apply wp_call_any. cbn [self console world].
  destruct (ioctl (fd (self e)) VIDIOC_QBUF buf w2) as [[rv3 buf3] w3] eqn:Hput. cbn [fst snd] in *.
  apply wp_bind, wp_print, wp_ret. cbn [self world]. split; [done|].
  exists w2. rewrite Hput, Hfiles. by split_and!.
Qed.

(** (C30) A snapshot returns and leaves the camera as it was, provided that a frame the
    driver hands out is usable: it lies in one of the camera's buffers, a compressed one
    with all the bytes it says, an uncompressed one with all its pixels, whose number is
    even and, times three, fits an [int] (and is covered by the fuel). A closed camera is left alone; when no frame
    can be dequeued nothing else happens. A dequeued buffer is offered back to the driver
    on every path - whatever the format, whether or not the file can be opened and its
    writes succeed - and when the driver takes it, it has the same buffers as before.
    The call says that it saved the frame exactly when the format is one of the three it
    knows and the file could be opened; so a short write or a failed close goes
    unnoticed. When there is none, the file holds the compressed frame as it is, or the
    PPM header and the converted pixels of an uncompressed one. *)
Theorem takeSnapshot_correct fuel path e rv buf w1 :
  ioctl (fd (self e)) VIDIOC_DQBUF dequeue_request (world e) = ((rv, buf), w1) →
  (0 ≤ fd (self e) → 0 ≤ rv → frame_usable fuel (self e) buf w1) →
  wp (takeSnapshot fuel path) e (λ ok e', self e' = self e ∧
    if decide (fd (self e) < 0) then ok = false ∧ world e' = world e
    else if decide (rv < 0) then ok = false ∧ world e' = w1 else
    (∃ w2, let '(put, _, w3) := ioctl (fd (self e)) VIDIOC_QBUF buf w2 in
       queued (fd (self e)) w2 = queued (fd (self e)) w1 ∧ world e' = w3 ∧
       (0 ≤ put → queued (fd (self e)) (world e') ≡ₚ queued (fd (self e)) (world e))) ∧
    (ok = true ↔ is_Some (frame_content (self e) buf w1) ∧ is_Some (fopen_wb path w1).1) ∧
    (writes_succeed → ok = true → files (world e') !! path = frame_content (self e) buf w1)).
Proof.
  intros Hdq Husable. pose proof (queue_take _ _ _ _ _ _ Hdq) as Htake.
  eapply wp_mono; [by apply (takeSnapshot_run fuel path e rv buf w1)|].
  intros ok e' (Hself & Hpost). split; [done|].
  destruct (decide (fd (self e) < 0)); [done|]. destruct (decide (rv < 0)); [done|].
  rewrite decide_True in Htake by lia.
  destruct Hpost as (w2 & [_ _ Hq _] & Hw & Hok & Hfile). split_and!; [|apply Hok..|done].
  exists w2. pose proof (queue_put (fd (self e)) buf w2) as Hput.
  destruct (ioctl (fd (self e)) VIDIOC_QBUF buf w2) as [[put buf'] w3]. cbn [fst snd] in *.
  split_and!; [done|done|]. intros Hrv.
  by rewrite Hw, Hput, decide_True, Hq, <- Permutation_cons_append by done.
Qed.

(** (C32) The frame rate, on every branch. A closed camera is not asked. When it is closed,
    the driver refuses, or the period it names has a zero in it, the call fails and the
    output is untouched; otherwise it succeeds, and the output is the quotient of the two
    numbers, computed in doubles, neither of them zero, and the same number is printed.
    The driver is asked once and the camera is as before. *)
Theorem getFramerate_correct fps e rv parm w1 :
  ioctl (fd (self e)) VIDIOC_G_PARM (StreamParm V4L2_BUF_TYPE_VIDEO_CAPTURE 0 0) (world e)
  = ((rv, parm), w1) →
  wp (getFramerate fps) e (λ r e', self e' = self e ∧
    world e' = (if decide (fd (self e) < 0) then world e else w1) ∧
    if decide (0 ≤ fd (self e) ∧ 0 ≤ rv ∧ timeperframe_numerator parm ≠ 0
               ∧ timeperframe_denominator parm ≠ 0)
    then ∃ q, q = ddiv (double_of_int (timeperframe_denominator parm))
                       (double_of_int (timeperframe_numerator parm))
      ∧ r = (true, Some q)
      ∧ console e' = console e ++ [Stdout (newline +:+ "=== getFramerate ===" +:+ newline);
                                   Stdout "fps="; StdoutDouble q; Stdout newline]
    else r = (false, fps)).
Proof.
  intros Hparm. unfold getFramerate. apply wp_bind, wp_print, wp_bind, wp_this.
  cbn [self console world].
  destruct (decide (fd (self e) < 0)) as [Hfd|Hfd].
  { apply wp_ret. by rewrite decide_False by lia. }
  apply wp_bind. apply (wp_call _ (rv, parm) w1); [done|].
  destruct (decide (rv < 0)) as [Hrv|Hrv].
  { apply wp_bind, wp_fail_with, wp_ret. by rewrite decide_False by lia. }
  destruct (decide (timeperframe_numerator parm = 0 ∨ timeperframe_denominator parm = 0)) as [Hz|Hz].
  { apply wp_bind, wp_print, wp_ret. by rewrite decide_False by lia. }
  do 3 apply wp_bind, wp_print. apply wp_ret. rewrite decide_True by lia. cbn.
  split_and!; [done..|]. eexists. split_and!; [done..|]. by rewrite <- !app_assoc.
Qed.

(** * The whole program *)

(** The driver puts complete frames of its format into the buffers of a camera that
    is ready, and has no image larger than the fuel. *)
Definition driver_fills_frames (fuel : nat) : Prop := ∀ c w rv buf w1,
  ready c w → ioctl (fd c) VIDIOC_DQBUF dequeue_request w = ((rv, buf), w1) → 0 ≤ rv →
  (Z.to_nat (int32 (pix_width (fmt c)) * int32 (pix_height (fmt c))) < 2 * fuel)%nat ∧
  ∀ b, bufs c !! Z.to_nat (buffer_index buf) = Some b →
    frame_complete (pix_pixelformat (fmt c)) (int32 (pix_width (fmt c)))
      (int32 (pix_height (fmt c))) (buffer_bytesused buf) (read_memory (start b) w1).

(** What the driver hands out of a ready camera is one of its buffers. *)
Lemma ready_usable fuel c w rv buf w1 : driver_fills_frames fuel → ready c w →
  ioctl (fd c) VIDIOC_DQBUF dequeue_request w = ((rv, buf), w1) → 0 ≤ rv →
  frame_usable fuel c buf w1.
Proof.
  intros Hdriver Hready Hdq Hrv. destruct (Hdriver _ _ _ _ _ Hready Hdq Hrv) as [Hfuel Hframe].
  pose proof (queue_take _ _ _ _ _ _ Hdq) as Htake. rewrite decide_True in Htake by done.
  assert (buffer_index buf ∈ seqZ 0 (Z.of_nat (length (bufs c)))) as Hin%elem_of_seqZ.
  { rewrite <- (ready_queued _ _ Hready), <- Htake. apply list_elem_of_here. }
  split_and!; [lia|done|].
  destruct (lookup_lt_is_Some_2 (bufs c) (Z.to_nat (buffer_index buf))) as [b Hb]; [lia|].
  exists b. eauto.
Qed.

(** A request that moves no buffers and sets no format keeps the camera ready. *)
Lemma ready_ioctl {A} (r : request A) x c w :
  moves_buffers r = false → sets_format r = false → ready c w → ready c (ioctl (fd c) r x w).2.
Proof.
  intros Hb Hf [H1 H2 H3 H4 H5]. split; [done..| |]; by rewrite ?queue_kept, ?format_kept.
Qed.

Lemma getFramerate_started F Ms fps e : started F Ms true e →
  wp (getFramerate fps) e (λ r e', started F Ms true e' ∧ (r.1 = true → is_Some r.2)).
Proof.
  intros [Hh Hready]. specialize (Hready eq_refl).
  unfold getFramerate. apply wp_bind, wp_print, wp_bind, wp_this. cbn [self console world].
  rewrite decide_False by (destruct Hready; lia). apply wp_bind, wp_call_any. cbn [self console world].
  match goal with |- context [ioctl ?n ?r ?x (world e)] =>
    pose proof (holds_ioctl F Ms (self e) (world e) n r x Hh) as Hh1;
    pose proof (ready_ioctl r x (self e) (world e) eq_refl eq_refl Hready) as Hready1;
    destruct (ioctl n r x (world e)) as [[rv parm] w1] end.
  cbn [fst snd] in *.
  destruct (decide (rv < 0)); [by apply wp_bind, wp_fail_with, wp_ret|].
  destruct (decide (timeperframe_numerator parm = 0 ∨ timeperframe_denominator parm = 0));
    [by apply wp_bind, wp_print, wp_ret|].
  do 3 apply wp_bind, wp_print. apply wp_ret. split; [by split|by eexists].
Qed.

Lemma takeSnapshot_holds F Ms fuel path e : started F Ms true e → driver_fills_frames fuel →
  wp (takeSnapshot fuel path) e (λ _ e', holds F Ms (self e') (world e')).
Proof.
  intros [Hh Hready] Hdriver. specialize (Hready eq_refl).
  pose proof (holds_ioctl F Ms (self e) (world e) (fd (self e)) VIDIOC_DQBUF dequeue_request Hh) as Hh1.
  destruct (ioctl (fd (self e)) VIDIOC_DQBUF dequeue_request (world e)) as [[rv buf] w1] eqn:Hdq.
  eapply wp_mono.
  { apply (takeSnapshot_run fuel path e rv buf w1); [done|]. intros _ Hrv. by eapply ready_usable. }
  intros ok e' (Hself & Hpost). rewrite Hself. cbn [snd] in Hh1.
  destruct (decide (fd (self e) < 0)); [by destruct Hpost as [_ ->]|].
  destruct (decide (rv < 0)); [by destruct Hpost as [_ ->]|].
  destruct Hpost as (w2 & [Hf Hm _ _] & -> & _). apply holds_ioctl. by eapply holds_kept.
Qed.

(** (C31) The whole test program, provided that the driver fills the buffers of a camera
    that is ready with usable frames of the format it agreed to (complete ones; if
    uncompressed, with an even number of pixels which, times three, fits an [int] and is
    covered by the fuel): [main]
    returns, 1 when start-up failed, after which the camera still holds exactly what was
    acquired, and 0 otherwise, with every descriptor closed and every mapping undone,
    whether or not the frame rate was known, the snapshot could be taken and the file
    took what was written. *)
Theorem main_correct fuel argv1 e :
  self e = new_webcam → driver_fills_frames fuel →
  wp (main fuel argv1) e (λ code e',
    (code = 0 ∧ open_fds (world e') = open_fds (world e) ∧ mappings (world e') = mappings (world e))
    ∨ (code = 1 ∧ holds (open_fds (world e)) (mappings (world e)) (self e') (world e'))).
Proof.
  intros Hnew Hdriver. unfold main. do 2 apply wp_bind, wp_print.
  apply wp_bind. cbn [self console world]. eapply wp_mono.
  { by apply startup_started with (e := Env _ _ _). }
  intros [|] e1 [Hh Hready]; cbn [world] in *; [|apply wp_bind, wp_print, wp_ret; by right].
  apply wp_bind. eapply wp_mono; [by apply getFramerate_started|].
  intros [known fps] e2 [Hst Hfps]. apply wp_bind.
  eapply wp_mono with (P := λ _ e3, self e3 = self e2 ∧ world e3 = world e2).
  { destruct known; [|by apply wp_ret]. destruct (Hfps eq_refl) as [q Hq]. simpl in Hq.
    apply wp_bind. apply (wp_deref _ q); [done|]. by do 2 apply wp_bind, wp_print. }
  intros [] e3 [Hs3 Hw3]. apply wp_bind, wp_this, wp_bind.
  eapply wp_mono.
  { apply takeSnapshot_holds; [|done..]. unfold started in *. by rewrite Hs3, Hw3. }
  intros saved e4 Hh4. apply wp_bind. eapply wp_mono; [exact (shutdown_spec _ _ _ Hh4)|].
  intros ok e5 (_ & _ & _ & Hf & Hm). apply wp_ret. by left.
Qed.
End Resources.

(** * The properties on the model system *)

Definition model_start : env Webcam linux_state := Env new_webcam [] linux_init.

(** The frames of the model camera are those of its format. *)
Lemma model_fills_frames : driver_fills_frames (W:=linux_state) 2.
Proof.
  intros c w rv buf w1 Hready Hdq Hrv.
  rewrite (ready_format _ _ Hready). cbn [active_format model_linux_view].
  split; [by vm_compute; lia|]. intros b Hb. vm_compute. split_and!; try done. by exists 1.
Qed.

Lemma startup_shutdown_restores_witness :
  wp (startupWebcam (W:=linux_state) "/dev/video0" 640 480 0 4) model_start (λ ok e1,
    (ok = true → ready (self e1) (world e1)) ∧
    wp shutdownWebcam e1 (λ done_ e2, done_ = true ∧ fd (self e2) < 0 ∧ bufs (self e2) = [] ∧
      open_fds (world e2) = {[0; 1; 2]} ∧ mappings (world e2) = ∅)).
Proof. exact (startup_shutdown_restores "/dev/video0" 640 480 0 4 model_start eq_refl). Defined.

(** A camera of one buffer. *)
Definition model_camera : Webcam := mkWebcam 3 camera_format [mkBuffer 16384 4096].
Definition model_streaming : env Webcam linux_state :=
  Env model_camera [] (LinuxState {[3]} {[(16384, 4096)]} [0] ∅ ∅ 5).
Definition model_frame : v4l2_buffer := V4l2Buffer 0 1 1 4 4096 0 0.

Definition model_dequeued : linux_state := LinuxState {[3]} {[(16384, 4096)]} [] ∅ ∅ 5.

Lemma takeSnapshot_correct_witness :
  let e := model_streaming in
  wp (takeSnapshot (W:=linux_state) 2 "frame.ppm") e (λ ok e', self e' = self e ∧
    (∃ w2, let '(put, _, w3) := ioctl 3 VIDIOC_QBUF model_frame w2 in
       queued 3 w2 = queued 3 model_dequeued ∧ world e' = w3 ∧
       (0 ≤ put → queued 3 (world e') ≡ₚ queued 3 (world e))) ∧
    (ok = true ↔ is_Some (frame_content (self e) model_frame model_dequeued)
                 ∧ is_Some (fopen_wb "frame.ppm" model_dequeued).1) ∧
    (writes_succeed (W:=linux_state) (File:=Z) → ok = true →
     files (world e') !! "frame.ppm" = frame_content (self e) model_frame model_dequeued)).
Proof.
  apply (takeSnapshot_correct 2 "frame.ppm" model_streaming 0 model_frame model_dequeued).
  - reflexivity.
  - intros _ _. split; [done|]. split; [vm_compute; lia|]. exists (mkBuffer 16384 4096).
    split; [done|]. vm_compute. split_and!; try done. by exists 1.
Defined.

Example model_snapshot : ∃ e', takeSnapshot (W:=linux_state) 2 "frame.ppm" model_streaming = Done (true, e')
  ∧ files (world e') !! "frame.ppm"
    = Some (String.list_byte_of_string ("P6" +:+ newline +:+ "2 1" +:+ newline +:+ "255" +:+ newline)
            ++ [Byte.xff; Byte.xf3; Byte.xff; Byte.x26; Byte.x04; Byte.x10]).
Proof. eexists. split; vm_compute; reflexivity. Qed.

Lemma getFramerate_correct_witness :
  wp (getFramerate (W:=linux_state) None) model_streaming (λ r e', self e' = model_camera ∧
    world e' = world model_streaming ∧ ∃ q, q = ddiv (double_of_int 30) (double_of_int 1)
      ∧ r = (true, Some q)
      ∧ console e' = [Stdout (newline +:+ "=== getFramerate ===" +:+ newline);
                      Stdout "fps="; StdoutDouble q; Stdout newline]).
Proof.
  exact (getFramerate_correct None model_streaming 0 (StreamParm 1 1 30) _ eq_refl).
Defined.

Lemma main_correct_witness :
  wp (main (W:=linux_state) 2 None) model_start (λ code e',
    (code = 0 ∧ open_fds (world e') = {[0; 1; 2]} ∧ mappings (world e') = ∅)
    ∨ (code = 1 ∧ holds {[0; 1; 2]} ∅ (self e') (world e'))).
Proof. exact (main_correct 2 None model_start eq_refl model_fills_frames). Defined.

(** The comment beside [fourcc_to_str]. *)
Example fourcc_example : fourcc_to_str 0x56595559 = "YUYV".
Proof. reflexivity. Qed.
