(* ===== verification/FsfwModel.v ===== *)
(** One concrete framework: an instance of every interface of [Fsfw] with its
    laws. It is used to run the mission code on concrete inputs and to show that
    the laws can hold together; no property of the mission code depends on it. *)

From S2P Require Import Prelude Words Fsfw.
Local Open Scope Z_scope.

#[export] Instance model_constants : FsfwConstants := {|
  OK := 0; FAILED := 1; NOTHING_TO_SEND := 0x0401; COMMAND_NOT_SUPPORTED := 0x0402;
  NO_REPLY_RECEIVED := 0x0501; UNKNOWN_COMMAND := 0x0601; INVALID_SUBSERVICE := 0x0701;
  CSB_INVALID_SUBSERVICE := 0x0801; INVALID_OBJECT := 0x0802; INVALID_TC := 0x0803;
  INVALID_REPLY := 0x0804; EXECUTION_COMPLETE := 0x0805;
  NO_COMMAND_ID := 2 ^ 32 - 2; MODE_ON := 1; MODE_OFF := 0;
  NO_QUEUE := 2 ^ 32 - 1; MAX_MESSAGE_SIZE := 28;
  IPC_STORE := 10; TC_STORE := 11; TM_STORE := 12; TIME_STAMPER := 13;
  VERIFICATION_REPORTER := 14;
  DEVICE_HANDLER_COMMAND := 3; ACTION := 5; PARAMETER := 6;
  COMPLETION_SUCCESS := 0x0501; STEP_SUCCESS := 0x0502; DATA_REPLY := 0x0503;
  STEP_FAILED := 0x0504; COMPLETION_FAILED := 0x0505; REPLY_PARAMETER_DUMP := 0x0601;
|}.

#[export] Instance model_constants_laws : FsfwConstantsLaws.
Proof. split; by apply (bool_decide_unpack _). Qed.

(** * Messages: a command word and two parameters *)

Record model_msg := ModelMsg { mm_command : Z; mm_first : Z; mm_second : Z }.

#[export] Instance model_messages : CommandMessageIF model_msg := {|
  getMessageType m := mm_command m `div` 256;
  getCommand m := mm_command m;
  getParameter m := mm_first m;
  setCommand c m := ModelMsg c (mm_first m) (mm_second m);
  setParameter p m := ModelMsg (mm_command m) p (mm_second m);
  clear m := ModelMsg 0 0 0;
  makeCommandId t n := 256 * t + n;
  ActionMessage_setCommand a s m := ModelMsg 0x0500 a s;
  ActionMessage_getActionId m := mm_first m;
  ActionMessage_getStoreId m := mm_second m;
  ActionMessage_getReturnCode m := mm_second m;
  ParameterMessage_setParameterDumpCommand p m := ModelMsg 0x0600 p 0;
  ParameterMessage_getParameterId m := mm_first m;
  ParameterMessage_getStoreId m := mm_second m;
  getFullParameterId d p i := 2 ^ 24 * d + 2 ^ 16 * p + i;
|}.

#[export] Instance model_messages_laws : CommandMessageLaws model_msg.
Proof.
  split; simpl; try done; try lia.
  - intros t n m Ht Hn. rewrite Z.mul_comm, Z.div_add_l, Z.div_small by lia. lia.
  - intros t n Ht Hn. change 255 with (Z.ones 8). rewrite Z.land_ones by lia.
    change (2 ^ 8) with 256. rewrite Z.add_comm, Z.mul_comm, Z_mod_plus_full.
    by apply Z.mod_small.
Qed.

(** * The framework state *)

Record model_world := ModelWorld {
  mw_stores : gmap Z (gmap Z (list byte));
  mw_tm : gmap Z (list Z);
  mw_verification : gmap Z (list verification_report);
  mw_next_queue : Z;
  mw_mode : Z;
  mw_command_map : list Z;
  mw_replies : list Z;
  mw_sent_tm : list (Z * tm_content);
}.
#[export] Instance model_world_settable : Settable model_world := λ w,
  ModelWorld (mw_stores w) (mw_tm w) (mw_verification w) (mw_next_queue w) (mw_mode w)
    (mw_command_map w) (mw_replies w) (mw_sent_tm w).

Definition model_init : model_world :=
  ModelWorld ∅ ∅ ∅ 100 0 [] [] [].

(** * Stores: pools of sixty elements of at most 512 bytes *)

Definition pool_slots : list Z := seqZ 0 60.

Definition model_contents (w : model_world) (st : Z) : gmap Z (list byte) :=
  mw_stores w !!! st.

Definition set_contents (st : Z) (c : gmap Z (list byte)) (w : model_world) : model_world :=
  w <| mw_stores := <[st := c]> (mw_stores w) |>.

Definition free_slot (c : gmap Z (list byte)) : option Z :=
  head (filter (λ a, c !! a = None) pool_slots).

#[export] Instance model_store_view : StorageView model_world Z := model_contents.

#[export] Instance model_stores : StorageManagerIF model_world Z := {|
  getFreeElement st n w :=
    match free_slot (model_contents w st) with
    | Some a =>
        if decide (n ≤ 512) then
          ((0, a), set_contents st
             (<[a := replicate (Z.to_nat n) Byte.x00]> (model_contents w st)) w)
        else ((1, 0), w)
    | None => ((1, 0), w)
    end;
  fillElement st a bs w :=
    match model_contents w st !! a with
    | Some old =>
        set_contents st (<[a := bs ++ drop (length bs) old]> (model_contents w st)) w
    | None => w
    end;
  getData st a w :=
    match model_contents w st !! a with
    | Some bs => ((0, bs), w)
    | None => ((1, []), w)
    end;
  deleteData st a w :=
    match model_contents w st !! a with
    | Some _ => (0, set_contents st (delete a (model_contents w st)) w)
    | None => (1, w)
    end;
|}.

Lemma model_contents_set st c w : model_contents (set_contents st c w) st = c.
Proof. unfold model_contents, set_contents. simpl. by rewrite lookup_total_insert_eq. Qed.

Lemma free_slot_spec c a : free_slot c = Some a → c !! a = None ∧ 0 ≤ a < 2 ^ 32.
Proof.
  unfold free_slot. intros Ha%head_Some_elem_of.
  apply list_elem_of_filter in Ha as [Ha Hin]. split; [done|].
  unfold pool_slots in Hin. apply elem_of_seqZ in Hin. lia.
Qed.

#[export] Instance model_stores_laws : StorageManagerLaws model_world Z.
Proof.
  split; unfold contents, model_store_view; cbn [getFreeElement fillElement getData
    deleteData model_stores OK model_constants].
  - intros st n w a w'. destruct (free_slot _) as [b|] eqn:Hb; [|done].
    case_decide; [|done]. intros [= -> <-]. destruct (free_slot_spec _ _ Hb) as [Hn Hr].
    split_and!; [done|lia|lia|]. exists (replicate (Z.to_nat n) Byte.x00).
    by rewrite length_replicate, model_contents_set.
  - intros st n w rv a w'. destruct (free_slot _); [case_decide|]; by intros [= <- <- <-].
  - intros st a bs old w Hold _. by rewrite Hold, model_contents_set.
  - intros st a w. by destruct (_ !! a).
  - intros st a w bs Hbs. by rewrite Hbs.
  - intros st a w Ha. by rewrite Ha.
  - intros st a w. destruct (_ !! a) eqn:Ha; simpl; [by rewrite model_contents_set|].
    by rewrite delete_id.
Qed.

#[export] Instance model_stores_separate : StoreSeparation model_world Z.
Proof.
  assert (∀ st st' c w, st' ≠ st → model_contents (set_contents st c w) st' = model_contents w st') as Hset.
  { intros st st' c w Hne. unfold model_contents, set_contents. simpl.
    by rewrite lookup_total_insert_ne by done. }
  split; unfold contents, model_store_view;
    cbn [getFreeElement fillElement getData deleteData model_stores]; intros.
  - destruct (free_slot _); [case_decide|]; cbn [fst snd]; auto.
  - destruct (_ !! a); auto.
  - by destruct (_ !! a).
  - destruct (_ !! a); cbn [fst snd]; auto.
Qed.

(** * Queues *)

#[export] Instance model_queue_view : QueueView model_world Z := {|
  tm_messages w q := mw_tm w !!! q;
  verification_messages w q := mw_verification w !!! q;
|}.

#[export] Instance model_queues : MessageQueueIF model_world Z := {|
  createMessageQueue depth size w :=
    (Some (mw_next_queue w), w <| mw_next_queue := mw_next_queue w + 1 |>);
  deleteMessageQueue q w := w <| mw_tm := delete q (mw_tm w) |>;
  queue_getId q := q;
  receive_TmTcMessage q w :=
    match mw_tm w !!! q with
    | [] => ((1, 0), w)
    | a :: msgs => ((0, a), w <| mw_tm := <[q := msgs]> (mw_tm w) |>)
    end;
  receive_PusVerificationMessage q w :=
    match mw_verification w !!! q with
    | [] => ((1, {| report_id := 0; report_ackFlags := 0; report_step := 0;
                    report_errorCode := 0 |}), w)
    | r :: msgs => ((0, r), w <| mw_verification := <[q := msgs]> (mw_verification w) |>)
    end;
  send_TmTcMessage q a w :=
    if decide (length (mw_tm w !!! q) < 10)%nat
    then (0, w <| mw_tm := <[q := (mw_tm w !!! q) ++ [a]]> (mw_tm w) |>)
    else (1, w);
|}.

#[export] Instance model_queues_laws : MessageQueueLaws model_world Z Z.
Proof.
  split; unfold contents, model_store_view; cbn [tm_messages verification_messages
    receive_TmTcMessage receive_PusVerificationMessage send_TmTcMessage model_queues model_queue_view
    OK model_constants].
  - by intros q w ->.
  - by intros q w a msgs ->.
  - intros q w. destruct (mw_tm w !!! q) as [|a msgs] eqn:Hq; simpl; [done|].
    by rewrite lookup_total_insert_eq.
  - intros q w st. by destruct (mw_tm w !!! q).
  - intros q a w st. by case_decide.
  - intros q i a w Hi. cbn [queue_getId model_queues] in Hi. subst i.
    case_decide; simpl; [by rewrite lookup_total_insert_eq|done].
  - by intros q w ->.
  - by intros q w r msgs ->.
  - intros q w. destruct (mw_verification w !!! q) as [|r msgs] eqn:Hq; simpl; [done|].
    by rewrite lookup_total_insert_eq.
Qed.

#[export] Instance model_store_queues : StoreQueueLaws model_world Z Z.
Proof.
  split; cbn [tm_messages getFreeElement fillElement getData deleteData model_queue_view model_stores].
  - intros st n w q. destruct (free_slot _); [by case_decide|done].
  - intros st a bs w q. by destruct (model_contents w st !! a).
  - intros st a w q. by destruct (model_contents w st !! a).
  - intros st a w q. by destruct (model_contents w st !! a).
Qed.

(** * Base classes *)

Record model_wrapper := ModelWrapper { pw_value : double; pw_ref : option member_ref }.

#[export] Instance model_parameters : ParameterWrapperIF model_wrapper := {|
  wrapper_set r d w := ModelWrapper d (Some r);
  wrapper_getElement w _ := (0, pw_value w);
|}.

#[export] Instance model_handler_base : DeviceHandlerBaseIF model_world model_msg model_wrapper := {|
  base_setMode m w := w <| mw_mode := m |>;
  base_insertInCommandAndReplyMap c _ w :=
    (0, w <| mw_command_map := mw_command_map w ++ [c] |>);
  base_letChildHandleMessage m w := ((1, m), w);
  base_replyReturnvalueToCommand rv w := w <| mw_replies := mw_replies w ++ [rv] |>;
  base_getParameter _ _ wrapper _ _ w := ((1, wrapper), w);
|}.

#[export] Instance model_handler_base_laws :
  DeviceHandlerBaseLaws model_world model_msg model_wrapper Z.
Proof. by split. Qed.

#[export] Instance model_service_base : CommandingServiceBaseIF model_world Z := {|
  base_initialize w := ((0, Some 10), w);
  base_sendTmPacket subservice content w :=
    (0, w <| mw_sent_tm := mw_sent_tm w ++ [(subservice, content)] |>);
|}.

#[export] Instance model_object_manager : ObjectManagerIF model_world Z unit := {|
  get_DeviceHandlerIF i w := if decide (i = 0x57000001) then Some 7 else None;
  get_ReceivesParameterMessagesIF i w := if decide (i = 0x57000001) then Some 7 else None;
  get_StorageManagerIF i w := if decide (i ∈ [10; 11; 12]) then Some i else None;
  get_TimeReaderIF i w := if decide (i = 13) then Some () else None;
  SystemObject_initialize w := (0, w);
|}.

(** A telecommand is its five header values and the application data. *)
#[export] Instance model_pus : PusIF tc_params unit := {|
  parseDataWithoutCrcCheck _ data :=
    match data with
    | s :: ss :: rest =>
        (0, {| tm_service := byte_unsigned s; tm_subservice := byte_unsigned ss;
               tm_userDataLen := Z.of_nat (length rest) |})
    | _ => (1, {| tm_service := 0; tm_subservice := 0; tm_userDataLen := 0 |})
    end;
  PusTcCreator p := p;
  updateSpLengthField p := p;
  getSerializedSize p := 4 + Z.of_nat (length (default [] (tc_appData p)));
  serializeBe p n :=
    let bs := [byte_of_Z (tc_apid p); byte_of_Z (tc_sequenceCount p);
               byte_of_Z (tc_service p); byte_of_Z (tc_subservice p)]
              ++ default [] (tc_appData p) in
    if decide (Z.of_nat (length bs) ≤ n) then (0, bs) else (1, []);
|}.

#[export] Instance model_pus_laws : PusLaws tc_params unit.
Proof.
  split; cbn [getSerializedSize serializeBe OK model_pus model_constants].
  - lia.
  - intros c n Hn. case_decide as Hl; [exact Hl|exact Hn].
  - intros c n. case_decide; cbn [fst snd]; [|done]. intros _.
    rewrite length_app. simpl. lia.
Qed.

#[export] Instance model_tc_reader : PusTcReaderIF := {|
  read_telecommand bytes :=
    match bytes with
    | _ :: _ :: _ :: s :: data => Some (byte_unsigned s, data)
    | _ => None
    end;
|}.

#[export] Instance model_tc_reader_laws : PusTcReaderLaws tc_params unit.
Proof.
  split.
  - intros bytes s data. unfold read_telecommand, model_tc_reader.
    destruct bytes as [|? [|? [|? [|b ?]]]]; try done. intros [= <- <-]. apply byte_unsigned_range.
  - intros p Hp. cbn [serializeBe getSerializedSize updateSpLengthField PusTcCreator model_pus].
    case_decide as Hl; [|by intros]. intros _. simpl. by rewrite byte_unsigned_of_Z, Z.mod_small.
Qed.

(** A service with identifier 200 whose request queue is its own identifier. *)
#[export] Instance model_telecommand_service : AcceptsTelecommandsIF model_world Z := {|
  getIdentifier s w := 200;
  getRequestQueue s w := s;
|}.
