(* ===== verification/FsfwConfig.v ===== *)
(** [FSFWConfig.h]: the configuration of the framework for this mission. A macro that the
    preprocessor leaves undefined is [None]. *)

From S2P Require Import Prelude.
Local Open Scope Z_scope.

(** The printouts of the mission code are the [sif::print...] calls, not streams. *)
Definition FSFW_CPP_OSTREAM_ENABLED : Z := 0.
Definition FSFW_VERBOSE_LEVEL : Z := 1.
(** [#if FSFW_CPP_OSTREAM_ENABLED == 0 && FSFW_VERBOSE_LEVEL == 0] *)
Definition FSFW_DISABLE_PRINTOUT : option Z :=
  if decide (FSFW_CPP_OSTREAM_ENABLED = 0 ∧ FSFW_VERBOSE_LEVEL = 0) then Some 0 else None.

Definition FSFW_USE_PUS_C_TELEMETRY : Z := 1.
Definition FSFW_USE_PUS_C_TELECOMMANDS : Z := 1.
Definition FSFW_COLORED_OUTPUT : Z := 1.
Definition FSFW_OBJ_EVENT_TRANSLATION : Z := 0.
Definition FSFW_DEBUG_INFO : option Z :=
  if decide (FSFW_OBJ_EVENT_TRANSLATION = 1) then Some 1 else None.
Definition FSFW_NO_C99_IO : Z := 1.
Definition FSFW_USE_MODESTORE : Z := 0.
Definition FSFW_USE_REALTIME_FOR_LINUX : Z := 1.

Definition FSFW_MISSION_TIMESTAMP_SIZE : Z := 7.
Definition FSFW_EVENTMGMR_MATCHTREE_NODES : Z := 240.
Definition FSFW_EVENTMGMT_EVENTIDMATCHERS : Z := 120.
Definition FSFW_EVENTMGMR_RANGEMATCHERS : Z := 120.
(** How many commands a commanding service can handle at a time. *)
Definition FSFW_CSB_FIFO_DEPTH : Z := 6.
Definition FSFW_PRINT_BUFFER_SIZE : Z := 124.
Definition FSFW_MAX_TM_PACKET_SIZE : Z := 2048.

(** Nothing switches the printouts off. *)
Example printouts_enabled : FSFW_DISABLE_PRINTOUT = None ∧ FSFW_DEBUG_INFO = None.
Proof. done. Qed.
