(* ===== verification/WebcamDefinitions.v ===== *)
(** [mission/webcam/WebcamDefinitions.{h,cpp}]: the command and parameter
    enumerations, their printable names, and the object identifiers. Both
    enumerations have a fixed underlying type, so a value of the enumeration is
    any value of that type, named or not: an enumeration value is a record around
    its raw value and a [static_cast] is its constructor or projection. *)

From S2P Require Import Prelude Words Fsfw.

Record CommandId := mkCommandId { CommandId_raw : DeviceCommandId_t }.
#[export] Instance CommandId_eq_dec : EqDecision CommandId.
Proof. solve_decision. Defined.

Definition commandTakeSnapshot : CommandId := mkCommandId 0x01.
Definition commandSetFrameRate : CommandId := mkCommandId 0x02.
Definition commandGetFrameRate : CommandId := mkCommandId 0x03.

Definition commandIdToString (command : CommandId) : string :=
  if decide (command = commandTakeSnapshot) then "commandTakeSnapshot"
  else if decide (command = commandSetFrameRate) then "commandSetFrameRate"
  else if decide (command = commandGetFrameRate) then "commandGetFrameRate"
  else "commandUnknown".

Record ParameterId := mkParameterId { ParameterId_raw : Z }.
#[export] Instance ParameterId_eq_dec : EqDecision ParameterId.
Proof. solve_decision. Defined.

Definition parameterFrameRate : ParameterId := mkParameterId 0x01.

Definition parameterIdToString (parameter : ParameterId) : string :=
  if decide (parameter = parameterFrameRate) then "parameterFrameRate"
  else "parameterUnknown".

Definition objectIdWebcamHandler : object_id_t := 0x57000001.
Definition objectIdWebcamCookie : object_id_t := 0x57000002.
Definition objectIdWebcamComIF : object_id_t := 0x57000003.
Definition objectIdWebcamCommandingService : object_id_t := 0x57000010.
Definition objectIdWebcamTcDistributor : object_id_t := 0x57000011.
Definition objectIdWebcamTelemetrySink : object_id_t := 0x57000012.
Definition objectIdWebcamVerificationSink : object_id_t := 0x57000013.

Definition webcam_object_ids : list object_id_t :=
  [objectIdWebcamHandler; objectIdWebcamCookie; objectIdWebcamComIF;
   objectIdWebcamCommandingService; objectIdWebcamTcDistributor;
   objectIdWebcamTelemetrySink; objectIdWebcamVerificationSink].

(** The named commands. *)
Definition named_commands : list CommandId :=
  [commandTakeSnapshot; commandSetFrameRate; commandGetFrameRate].

Lemma named_command_cases command :
  command ∈ named_commands ↔
  command = commandTakeSnapshot ∨ command = commandSetFrameRate
  ∨ command = commandGetFrameRate.
Proof. unfold named_commands. rewrite !elem_of_cons, elem_of_nil. tauto. Qed.

Lemma webcam_object_ids_NoDup : NoDup webcam_object_ids.
Proof. apply (bool_decide_unpack _). by vm_compute. Qed.

Lemma commandIdToString_inj c1 c2 :
  c1 ∈ named_commands → commandIdToString c1 = commandIdToString c2 → c1 = c2.
Proof.
  rewrite named_command_cases. intros Hc. unfold commandIdToString.
  destruct Hc as [-> | [-> | ->]]; split_tests; congruence.
Qed.
