(* ===== verification/MessageTypes.v ===== *)
(** [mission/messaging/]: the translation between raw identifiers and the webcam
    enumerations ([MessageTypes.cpp]) and the clearing of mission messages
    ([SystemMessage.cpp]). The translation is offered to the device handler and
    the commanding service through the interface [EnumCodec]. *)

From S2P Require Import Prelude Words Fsfw WebcamDefinitions.

(** * The code *)

Definition isValidCommand (command : CommandId) : bool :=
  bool_decide (command = commandTakeSnapshot)
  || bool_decide (command = commandSetFrameRate)
  || bool_decide (command = commandGetFrameRate).

Definition isValidParameter (parameter : ParameterId) : bool :=
  bool_decide (parameter = parameterFrameRate).

(** The reference parameter [command] holds [None] while it is uninitialised; the
    second component is its content on return. *)
Definition rawToCommand (rawId : DeviceCommandId_t) (command : option CommandId)
    : bool * option CommandId :=
  let candidate := mkCommandId rawId in
  if negb (isValidCommand candidate) then (false, command)
  else (true, Some candidate).

Definition commandToRaw (command : CommandId) : DeviceCommandId_t := CommandId_raw command.

Definition rawToParameter (rawId : Z) (parameter : option ParameterId)
    : bool * option ParameterId :=
  let candidate := mkParameterId rawId in
  if negb (isValidParameter candidate) then (false, parameter)
  else (true, Some candidate).

Definition parameterToRaw (parameter : ParameterId) : Z := ParameterId_raw parameter.

Definition TAKE_SNAPSHOT : DeviceCommandId_t := CommandId_raw commandTakeSnapshot.
Definition SET_FRAME_RATE : DeviceCommandId_t := CommandId_raw commandSetFrameRate.
Definition GET_FRAME_RATE : DeviceCommandId_t := CommandId_raw commandGetFrameRate.
Definition PARAM_FRAME_RATE : Z := ParameterId_raw parameterFrameRate.

Definition clearMissionMessage `{CommandMessageIF Msg} (message : option Msg) : option Msg :=
  match message with
  | None => None
  | Some m => Some (clear m)
  end.

(** * The interface the clients rely on *)

(** A checked translation from raw identifiers into the named values of an
    enumeration: it accepts exactly the raw identifiers of named values, gives
    back the value, and leaves the target alone otherwise. *)
Class EnumCodec (E : Type) := {
  to_raw : E → Z;
  of_raw : Z → option E → bool * option E;
  is_named : E → bool;
  of_raw_named e old : is_named e = true → of_raw (to_raw e) old = (true, Some e);
  of_raw_accepted r old new :
    of_raw r old = (true, new) → ∃ e, new = Some e ∧ to_raw e = r ∧ is_named e = true;
  of_raw_rejected r old new :
    of_raw r old = (false, new) → new = old ∧ ∀ e, is_named e = true → to_raw e ≠ r;
}.

Section codec.
Context `{EnumCodec E}.

Lemma to_raw_named_inj e1 e2 :
  is_named e1 = true → is_named e2 = true → to_raw e1 = to_raw e2 → e1 = e2.
Proof.
  intros H1 H2 Heq.
  pose proof (of_raw_named e1 None H1) as Hr. rewrite Heq in Hr.
  rewrite (of_raw_named e2 None H2) in Hr. congruence.
Qed.

Lemma of_raw_spec r old :
  (∃ e, is_named e = true ∧ to_raw e = r ∧ of_raw r old = (true, Some e))
  ∨ ((∀ e, is_named e = true → to_raw e ≠ r) ∧ of_raw r old = (false, old)).
Proof.
  destruct (of_raw r old) as [[] new] eqn:Hr.
  - left. apply of_raw_accepted in Hr as (e & -> & <- & Hv). eauto.
  - right. apply of_raw_rejected in Hr as [-> Hv]. eauto.
Qed.
End codec.

(** * The code implements the interface *)

Lemma isValidCommand_named command : isValidCommand command = true ↔ command ∈ named_commands.
Proof.
  rewrite named_command_cases. unfold isValidCommand.
  rewrite !orb_true_iff, !bool_decide_eq_true. tauto.
Qed.

#[export] Program Instance CommandId_codec : EnumCodec CommandId := {|
  to_raw := commandToRaw;
  of_raw := rawToCommand;
  is_named := isValidCommand;
|}.
Next Obligation. intros [r] old Hv. unfold rawToCommand. simpl. by rewrite Hv. Qed.
Next Obligation.
  intros r old new. unfold rawToCommand.
  destruct (isValidCommand _) eqn:Hv; simpl; intros; simplify_eq. eauto.
Qed.
Next Obligation.
  intros r old new. unfold rawToCommand.
  destruct (isValidCommand _) eqn:Hv; simpl; intros; simplify_eq.
  split; [done|]. intros [r'] He <-. simpl in *. congruence.
Qed.

(** The named commands, by their raw values. *)
Lemma is_named_raw (c : CommandId) : is_named c = true ↔ to_raw c ∈ [1; 2; 3]%Z.
Proof.
  change (isValidCommand c = true ↔ CommandId_raw c ∈ [1; 2; 3]%Z).
  rewrite isValidCommand_named, named_command_cases, !elem_of_cons, elem_of_nil.
  destruct c as [r]. simpl. split; [by intros [[= ->] | [[= ->] | [= ->]]]; auto|].
  intros [-> | [-> | [-> | []]]]; auto.
Qed.

#[export] Program Instance ParameterId_codec : EnumCodec ParameterId := {|
  to_raw := parameterToRaw;
  of_raw := rawToParameter;
  is_named := isValidParameter;
|}.
Next Obligation. intros [r] old Hv. unfold rawToParameter. simpl. by rewrite Hv. Qed.
Next Obligation.
  intros r old new. unfold rawToParameter.
  destruct (isValidParameter _) eqn:Hv; simpl; intros; simplify_eq. eauto.
Qed.
Next Obligation.
  intros r old new. unfold rawToParameter.
  destruct (isValidParameter _) eqn:Hv; simpl; intros; simplify_eq.
  split; [done|]. intros [r'] He <-. simpl in *. congruence.
Qed.

(** * Properties *)

(** [rawToCommand] accepts a raw identifier exactly when it is one of 1, 2
    and 3; it then stores the command whose raw value, and whose [commandToRaw],
    is that identifier, and otherwise leaves the reference untouched. *)
Theorem rawToCommand_correct (rawId : Z) (command : option CommandId) :
  (rawId ∈ [1; 2; 3]%Z ∧
   ∃ c, rawToCommand rawId command = (true, Some c) ∧ commandToRaw c = rawId
        ∧ commandIdToString c ≠ "commandUnknown"%string)
  ∨ ((rawId ∉ [1; 2; 3]%Z) ∧ rawToCommand rawId command = (false, command)
     ∧ commandIdToString (mkCommandId rawId) = "commandUnknown"%string).
Proof.
  destruct (decide (rawId ∈ [1; 2; 3]%Z)) as [Hin|Hin]; [left|right]; (split; [done|]).
  - eexists. rewrite !elem_of_cons, elem_of_nil in Hin.
    destruct Hin as [-> | [-> | [-> | []]]]; by repeat split.
  - rewrite !elem_of_cons, elem_of_nil in Hin.
    unfold rawToCommand, isValidCommand, commandIdToString.
    unfold commandTakeSnapshot, commandSetFrameRate, commandGetFrameRate.
    rewrite !bool_decide_false, !decide_False by (intros [= ->]; tauto). done.
Qed.
