(* ===== verification/WebcamDeviceHandler.v ===== *)
(** [mission/webcam/WebcamDeviceHandler.{h,cpp}]: the device handler. Its member
    functions are written in the monad of [Prelude], on the handler object, the
    console and the framework state; the inherited operations and the action
    helper are the interfaces of [Fsfw]. [FSFW_CPP_OSTREAM_ENABLED] is 0 in
    [FSFWConfig.h], so the [sif::printInfo] branches are the ones compiled. *)

From S2P Require Import Prelude Words Fsfw WebcamDefinitions MessageTypes.

(** Two constants that the code declares and never uses. *)
Definition STREAMING_ENABLED_REPLY_FLAG : Z := 1.
Definition STREAMING_DISABLED_REPLY_FLAG : Z := 0.

(** * The object *)

(** What [rawPacket] may point at: the member [dummyCommandBuffer], or something
    the base class owns. *)
Inductive byte_ptr := dummyCommandBuffer_data | base_data (address : Z).
#[export] Instance byte_ptr_eq_dec : EqDecision byte_ptr.
Proof. solve_decision. Defined.

(** The inherited members the handler uses. *)
Record BaseMembers := {
  base_communicationInterface : option object_id_t;
  base_rawPacket : option byte_ptr;
  base_rawPacketLen : Z;
}.

Record Handler := {
  currentFrameRate : double;
  requestedFrameRate : double;
  snapshotRequested : bool;
  devicePowered : bool;
  transitionCommandPending : bool;
  frameRateCommandPending : bool;
  frameRateQueryPending : bool;
  snapshotInProgress : bool;
  replyReady : bool;
  fabricatedReplyId : DeviceCommandId_t;
  dummyCommandBuffer : list byte;
  communicationInterface : option object_id_t;
  rawPacket : option byte_ptr;
  rawPacketLen : Z;
}.

#[export] Instance Handler_settable : Settable Handler := λ h,
  Build_Handler (h.(currentFrameRate)) (h.(requestedFrameRate)) (h.(snapshotRequested))
    (h.(devicePowered)) (h.(transitionCommandPending)) (h.(frameRateCommandPending))
    (h.(frameRateQueryPending)) (h.(snapshotInProgress)) (h.(replyReady))
    (h.(fabricatedReplyId)) (h.(dummyCommandBuffer)) (h.(communicationInterface))
    (h.(rawPacket)) (h.(rawPacketLen)).

(** Runs member functions of the handler on a symbolic object. *)
Ltac run_handler :=
  lazy beta iota zeta delta [assign_member this update call call_void ask print
    self console world mbind M_bind mret M_ret get put modify deref assign
    assign_if read_prefix undefined out_of_fuel set_field settable_eta wp
    option_fmap option_map fmap Handler_settable
    currentFrameRate requestedFrameRate snapshotRequested devicePowered
    transitionCommandPending frameRateCommandPending frameRateQueryPending
    snapshotInProgress replyReady fabricatedReplyId dummyCommandBuffer
    communicationInterface rawPacket rawPacketLen].

Section Handler.
Context `{FsfwConstants} {W Msg PW : Type}.
Context `{CommandMessageIF Msg, !ParameterWrapperIF PW, !DeviceHandlerBaseIF W Msg PW}.
Context (host : byte_order).

(** The constructor: the initialiser list and the default member initialisers on
    top of what the base class constructor leaves in the inherited members. *)
Definition WebcamDeviceHandler (base : BaseMembers) : Handler := {|
  currentFrameRate := double_zero;
  requestedFrameRate := double_zero;
  snapshotRequested := false;
  devicePowered := false;
  transitionCommandPending := false;
  frameRateCommandPending := false;
  frameRateQueryPending := false;
  snapshotInProgress := false;
  replyReady := false;
  fabricatedReplyId := NO_COMMAND_ID;
  dummyCommandBuffer := [Byte.x00];
  communicationInterface := base_communicationInterface base;
  rawPacket := base_rawPacket base;
  rawPacketLen := base_rawPacketLen base;
|}.

Definition doStartUp : M (env Handler W) unit :=
  devicePowered ::= true;;
  transitionCommandPending ::= true;;
  call_void (base_setMode MODE_ON).

Definition doShutDown : M (env Handler W) unit :=
  devicePowered ::= false;;
  transitionCommandPending ::= true;;
  call_void (base_setMode MODE_OFF).

Definition getTransitionDelayMs (modeFrom modeTo : Mode_t) : Z := 0.

Definition buildTransitionDeviceCommand (deviceCommand : option DeviceCommandId_t)
    : M (env Handler W) (ReturnValue_t * option DeviceCommandId_t) :=
  transitionCommandPending ::= false;;
  mret (NOTHING_TO_SEND, assign_if deviceCommand NO_COMMAND_ID).

Definition prepareReply (commandId : DeviceCommandId_t) : M (env Handler W) unit :=
  h ← this;
  match communicationInterface h with
  | None =>
      fabricatedReplyId ::= NO_COMMAND_ID;;
      replyReady ::= false;;
      rawPacket ::= None;;
      rawPacketLen ::= 0%Z
  | Some _ =>
      fabricatedReplyId ::= commandId;;
      replyReady ::= true;;
      rawPacket ::= (Some dummyCommandBuffer_data);;
      rawPacketLen ::= 0%Z
  end.

Definition buildNormalDeviceCommand (deviceCommand : option DeviceCommandId_t)
    : M (env Handler W) (ReturnValue_t * option DeviceCommandId_t) :=
  match deviceCommand with
  | None => mret (FAILED, None)
  | Some _ =>
    h ← this;
    match communicationInterface h with
    | None => mret (FAILED, deviceCommand)
    | Some _ =>
      if snapshotRequested h then
        snapshotRequested ::= false;;
        snapshotInProgress ::= true;;
        let id := CommandId_raw commandTakeSnapshot in
        prepareReply id;;
        mret (OK, Some id)
      else if frameRateCommandPending h then
        frameRateCommandPending ::= false;;
        snapshotInProgress ::= false;;
        currentFrameRate ::= requestedFrameRate h;;
        let id := CommandId_raw commandSetFrameRate in
        prepareReply id;;
        mret (OK, Some id)
      else if frameRateQueryPending h then
        frameRateQueryPending ::= false;;
        snapshotInProgress ::= false;;
        let id := CommandId_raw commandGetFrameRate in
        prepareReply id;;
        mret (OK, Some id)
      else mret (NOTHING_TO_SEND, deviceCommand)
    end
  end.

Definition fillCommandAndReplyMap : M (env Handler W) unit :=
  call (base_insertInCommandAndReplyMap (CommandId_raw commandTakeSnapshot) 0);;
  call (base_insertInCommandAndReplyMap (CommandId_raw commandSetFrameRate) 0);;
  call (base_insertInCommandAndReplyMap (CommandId_raw commandGetFrameRate) 0);;
  mret ().

(** The received data are ignored, as the unnamed parameters of the code are. *)
Definition scanForReply (foundId : option DeviceCommandId_t) (foundLen : option Z)
    : M (env Handler W) (ReturnValue_t * option DeviceCommandId_t * option Z) :=
  h ← this;
  if replyReady h then
    let foundId' := assign_if foundId (fabricatedReplyId h) in
    let foundLen' := assign_if foundLen 0%Z in
    (if decide (fabricatedReplyId h = CommandId_raw commandTakeSnapshot)
     then snapshotInProgress ::= false else mret ());;
    replyReady ::= false;;
    mret (OK, foundId', foundLen')
  else
    mret (NO_REPLY_RECEIVED, assign_if foundId NO_COMMAND_ID, assign_if foundLen 0%Z).

Definition interpretDeviceReply (id : DeviceCommandId_t) : M (env Handler W) ReturnValue_t :=
  let command := mkCommandId id in
  h ← this;
  (if decide (command = commandTakeSnapshot) then
     snapshotInProgress ::= false;;
     print (SifInfo "[Webcam] Snapshot request completed.\n" [])
   else if decide (command = commandSetFrameRate) then
     print (SifInfo "[Webcam] Frame rate set to %.2f fps.\n" [ArgDouble (currentFrameRate h)])
   else if decide (command = commandGetFrameRate) then
     print (SifInfo "[Webcam] Current frame rate is %.2f fps.\n"
              [ArgDouble (currentFrameRate h)])
   else print (SifInfo "[Webcam] Reply received for command 0x%02x.\n" [ArgUint id]));;
  fabricatedReplyId ::= NO_COMMAND_ID;;
  mret OK.

Definition getParameter (domainId parameterId : Z) (parameterWrapper newValues : option PW)
    (startAtIndex : Z) : M (env Handler W) (ReturnValue_t * option PW) :=
  if decide (domainId ≠ 0%Z) then
    call (base_getParameter domainId parameterId parameterWrapper newValues startAtIndex)
  else if decide (parameterId = ParameterId_raw parameterFrameRate) then
    h ← this;
    match newValues with
    | None =>
        match parameterWrapper with
        | None => mret (FAILED, None)
        | Some wrapper =>
            if decide (startAtIndex ≠ 0%Z) then mret (FAILED, Some wrapper)
            else
              print (SifInfo "[Webcam] Parameter read: frame rate %.2f fps.\n"
                       [ArgDouble (currentFrameRate h)]);;
              mret (OK, Some (wrapper_set ref_currentFrameRate (currentFrameRate h) wrapper))
        end
    | Some values =>
        let newFrameRate := currentFrameRate h in
        if decide (startAtIndex ≠ 0%Z) then mret (FAILED, parameterWrapper)
        else
          let '(result, newFrameRate) := wrapper_getElement values newFrameRate in
          if decide (result ≠ OK) then mret (result, parameterWrapper)
          else
            requestedFrameRate ::= newFrameRate;;
            print (SifInfo "[Webcam] Parameter write: requested frame rate %.2f fps.\n"
                     [ArgDouble newFrameRate]);;
            mret (OK, parameterWrapper)
    end
  else
    call (base_getParameter domainId parameterId parameterWrapper newValues startAtIndex).

Definition buildCommandFromCommand (deviceCommand : DeviceCommandId_t)
    (commandData : option (list byte)) (commandDataLen : Z) : M (env Handler W) ReturnValue_t :=
  let command := mkCommandId deviceCommand in
  if decide (command = commandTakeSnapshot) then
    snapshotRequested ::= true;;
    mret OK
  else if decide (command = commandSetFrameRate) then
    (if decide (commandData ≠ None ∧ (Z.of_nat sizeof_double ≤ commandDataLen)%Z) then
       bs ← read_prefix commandData sizeof_double;
       requestedFrameRate ::= (double_of_bytes host bs)
     else mret ());;
    frameRateCommandPending ::= true;;
    mret OK
  else if decide (command = commandGetFrameRate) then
    frameRateQueryPending ::= true;;
    mret OK
  else mret COMMAND_NOT_SUPPORTED.

Definition letChildHandleMessage `{!ActionHelperIF Handler W Msg} (message : option Msg)
    : M (env Handler W) (ReturnValue_t * option Msg) :=
  match message with
  | None => mret (FAILED, None)
  | Some m =>
    if decide (getMessageType m ≠ DEVICE_HANDLER_COMMAND) then
      '(result, m') ← call (base_letChildHandleMessage m);
      mret (result, Some m')
    else
      let rawCommand := uint8 (Z.land (getCommand m) 0xff) in
      let '(known, command) := rawToCommand rawCommand None in
      if negb known then
        call_void (base_replyReturnvalueToCommand UNKNOWN_COMMAND);;
        mret (OK, Some m)
      else
        let storeId := Fsfw.getParameter m in
        let m1 := ActionMessage_setCommand rawCommand storeId m in
        '(result, m2) ← handleActionMessage m1;
        (if decide (result ≠ OK) then call_void (base_replyReturnvalueToCommand result)
         else mret ());;
        mret (OK, Some m2)
  end.
End Handler.
