(* ===== verification/CommandArbiter.v ===== *)
(** The abstract specification of the device handler: a command arbiter. It keeps
    the set of requested commands and two frame rates. A request adds a command
    (a frame-rate request may bring a new rate), a poll issues the pending command
    with the lowest identifier, and issuing the frame-rate command makes the
    requested rate the current one. [HandlerRefinement.v] shows that
    [WebcamDeviceHandler] implements it. *)

From S2P Require Import Prelude Words.
Local Open Scope Z_scope.

Record arbiter := Arbiter {
  pending : gset Z;
  requested : double;
  current : double;
}.

(** Snapshot, set frame rate, get frame rate: in order of priority. *)
Definition arb_commands : list Z := [1; 2; 3].
Definition arb_set_rate : Z := 2.

Definition arb_request (c : Z) (rate : option double) (a : arbiter) : arbiter :=
  Arbiter ({[c]} ∪ pending a)
    (if decide (c = arb_set_rate) then default (requested a) rate else requested a)
    (current a).

Definition arb_write (rate : double) (a : arbiter) : arbiter :=
  Arbiter (pending a) rate (current a).

Definition arb_next (p : gset Z) : option Z :=
  if decide (1 ∈ p) then Some 1 else if decide (2 ∈ p) then Some 2
  else if decide (3 ∈ p) then Some 3 else None.

Definition arb_issue (c : Z) (a : arbiter) : arbiter :=
  Arbiter (pending a ∖ {[c]}) (requested a)
    (if decide (c = arb_set_rate) then requested a else current a).

(** A parameter write may depend on the current rate, which the framework hands to
    the conversion as the default. *)
Inductive arb_event :=
| ARequest (c : Z) (rate : option double)
| APoll
| AWrite (conversion : double → option double)
| AOther.

(** One event: the new state and the command issued, if any. *)
Definition arb_step (a : arbiter) (ev : arb_event) : arbiter * list Z :=
  match ev with
  | ARequest c rate =>
      if decide (c ∈ arb_commands) then (arb_request c rate a, []) else (a, [])
  | APoll =>
      match arb_next (pending a) with
      | Some c => (arb_issue c a, [c])
      | None => (a, [])
      end
  | AWrite conversion =>
      match conversion (current a) with
      | Some rate => (arb_write rate a, [])
      | None => (a, [])
      end
  | AOther => (a, [])
  end.

Fixpoint arb_run (a : arbiter) (evs : list arb_event) : arbiter * list Z :=
  match evs with
  | [] => (a, [])
  | ev :: evs' =>
      let '(a1, out1) := arb_step a ev in
      let '(a2, out2) := arb_run a1 evs' in
      (a2, out1 ++ out2)
  end.

Definition arb_wf (a : arbiter) : Prop := ∀ c, c ∈ pending a → c ∈ arb_commands.

(** The pending commands in the order in which they will be issued. *)
Definition arb_queue (p : gset Z) : list Z := filter (λ c, c ∈ p) arb_commands.

(** * Facts *)

Lemma elem_of_arb_commands c : c ∈ arb_commands ↔ c = 1 ∨ c = 2 ∨ c = 3.
Proof. unfold arb_commands. rewrite !elem_of_cons, elem_of_nil. tauto. Qed.

Lemma arb_next_head p : arb_next p = head (arb_queue p).
Proof.
  unfold arb_next, arb_queue, arb_commands. rewrite !filter_cons, filter_nil.
  by repeat case_decide.
Qed.

Lemma elem_of_arb_queue p c : c ∈ arb_queue p ↔ c ∈ p ∧ c ∈ arb_commands.
Proof. unfold arb_queue. by rewrite list_elem_of_filter. Qed.

Lemma arb_queue_issue p c :
  arb_next p = Some c → arb_queue p = c :: arb_queue (p ∖ {[c]}).
Proof.
  intros Hc. unfold arb_next, arb_queue, arb_commands in *.
  rewrite !filter_cons, !filter_nil.
  repeat case_decide; simplify_eq; try done; exfalso;
    rewrite ?elem_of_difference, ?elem_of_singleton in *; naive_solver lia.
Qed.

Lemma arb_queue_nil p : arb_next p = None → arb_queue p = [].
Proof. rewrite arb_next_head. by destruct (arb_queue p). Qed.

Lemma arb_step_wf a ev : arb_wf a → arb_wf (arb_step a ev).1.
Proof.
  intros Ha c. destruct ev; simpl; repeat case_match; simpl; try apply Ha.
  - rewrite elem_of_union, elem_of_singleton. intros [-> | Hc]; [done|by apply Ha].
  - rewrite elem_of_difference. intros [Hc _]. by apply Ha.
Qed.

(** Polling without new requests issues the whole queue, in priority order. *)
Lemma arb_drain a n :
  (length (arb_queue (pending a)) ≤ n)%nat →
  (arb_run a (replicate n APoll)).2 = arb_queue (pending a)
  ∧ arb_queue (pending (arb_run a (replicate n APoll)).1) = [].
Proof.
  revert a. induction n as [|n IH]; intros a Hn; simpl.
  - destruct (arb_queue (pending a)); simpl in *; [done|lia].
  - destruct (arb_next (pending a)) as [c|] eqn:Hc.
    + pose proof (arb_queue_issue _ _ Hc) as Hq.
      destruct (arb_run (arb_issue c a) (replicate n APoll)) as [a2 out2] eqn:Hr.
      destruct (IH (arb_issue c a)) as [H1 H2].
      { rewrite Hq in Hn. simpl in *. lia. }
      rewrite Hr in *. simpl in *. by rewrite Hq, H1.
    + pose proof (arb_queue_nil _ Hc) as Hq.
      destruct (arb_run a (replicate n APoll)) as [a2 out2] eqn:Hr.
      destruct (IH a) as [H1 H2]; [rewrite Hq; simpl; lia|].
      rewrite Hr in *. simpl in *. by rewrite Hq in *.
Qed.
