(* ===== verification/HandlerRefinement.v ===== *)
(** The device handler implements the command arbiter, and its replies answer its
    commands. The base class drives the handler one call at a time; a
    [handler_event] is one such call with its arguments, and [scanForReply] hands
    the identifier it found to [interpretDeviceReply], as the framework's reply
    cycle does. *)

From S2P Require Import Prelude Words Fsfw WebcamDefinitions MessageTypes.
From S2P Require Import WebcamDeviceHandler CommandArbiter.

Section Events.
Context `{FsfwConstants} {W Msg PW : Type}.
Context `{CommandMessageIF Msg, !ParameterWrapperIF PW, !DeviceHandlerBaseIF W Msg PW}.
Context (host : byte_order).

Inductive handler_event :=
| EvCommand (id : DeviceCommandId_t) (data : option (list byte)) (len : Z)
| EvPoll
| EvReply
| EvParameter (domainId parameterId : Z) (parameterWrapper newValues : option PW)
    (startAtIndex : Z)
| EvTransition
| EvStartUp
| EvShutDown.

Inductive handler_output :=
| Issued (id : DeviceCommandId_t)
| Replied (id : DeviceCommandId_t).

(** A buffer argument of the framework: a null pointer, or [len] bytes. *)
Definition valid_buffer (data : option (list byte)) (len : Z) : Prop :=
  match data with Some bs => len = Z.of_nat (length bs) | None => True end.

Definition event_ok (ev : handler_event) : Prop :=
  match ev with EvCommand _ data len => valid_buffer data len | _ => True end.

Definition handle_event (ev : handler_event) : M (env Handler W) (list handler_output) :=
  match ev with
  | EvCommand id data len => buildCommandFromCommand host id data len;; mret []
  | EvPoll =>
      '(result, id) ← buildNormalDeviceCommand (Some NO_COMMAND_ID);
      mret (if decide (result = OK) then Issued <$> option_list id else [])
  | EvReply =>
      '(result, foundId, _) ← scanForReply (Some NO_COMMAND_ID) (Some 0%Z);
      if decide (result = OK) then
        id ← deref foundId;
        interpretDeviceReply id;;
        mret [Replied id]
      else mret []
  | EvParameter domainId parameterId wrapper values start =>
      getParameter domainId parameterId wrapper values start;; mret []
  | EvTransition => buildTransitionDeviceCommand (Some NO_COMMAND_ID);; mret []
  | EvStartUp => doStartUp;; mret []
  | EvShutDown => doShutDown;; mret []
  end.

Fixpoint handle_events (evs : list handler_event) : M (env Handler W) (list handler_output) :=
  match evs with
  | [] => mret []
  | ev :: evs' =>
      out1 ← handle_event ev;
      out2 ← handle_events evs';
      mret (out1 ++ out2)
  end.

Definition issued (outs : list handler_output) : list Z :=
  omap (λ o, match o with Issued c => Some c | Replied _ => None end) outs.

(** * The abstraction *)

Definition pending_set (snapshot set_rate get_rate : bool) : gset Z :=
  (if snapshot then {[1%Z]} else ∅)
  ∪ (if set_rate then {[2%Z]} else ∅)
  ∪ (if get_rate then {[3%Z]} else ∅).

Definition handler_pending (h : Handler) : gset Z :=
  pending_set (snapshotRequested h) (frameRateCommandPending h) (frameRateQueryPending h).

Definition abs_handler (h : Handler) : arbiter :=
  Arbiter (handler_pending h) (requestedFrameRate h) (currentFrameRate h).

(** The rate in a command's data, when there are enough of them. *)
Definition data_rate (data : option (list byte)) (len : Z) : option double :=
  bs ← data;
  if decide (Z.of_nat sizeof_double ≤ len)%Z
  then Some (double_of_bytes host (take sizeof_double bs)) else None.

(** The rate a parameter access writes, if it writes one. *)
Definition parameter_rate (domainId parameterId : Z) (newValues : option PW) (start : Z)
    (cur : double) : option double :=
  values ← newValues;
  if decide (domainId = 0 ∧ parameterId = 1 ∧ start = 0)%Z then
    let '(result, rate) := wrapper_getElement values cur in
    if decide (result = OK) then Some rate else None
  else None.

Definition abs_event (ev : handler_event) : arb_event :=
  match ev with
  | EvCommand id data len => ARequest id (data_rate data len)
  | EvPoll => APoll
  | EvParameter domainId parameterId _ values start =>
      AWrite (parameter_rate domainId parameterId values start)
  | _ => AOther
  end.

(** * The reply slot

    [reply_slot] is the reply that is waiting to be found. [replay] checks an
    output trace: every reply answers the command issued last, and no command is
    answered twice; it returns the command still unanswered. *)
Definition reply_slot (h : Handler) : option Z :=
  if replyReady h then Some (fabricatedReplyId h) else None.

Fixpoint replay (outs : list handler_output) (slot : option Z) : option (option Z) :=
  match outs with
  | [] => Some slot
  | Issued c :: outs' => replay outs' (Some c)
  | Replied c :: outs' => if decide (slot = Some c) then replay outs' None else None
  end.

(** The invariant of the handler's object. *)
Record handler_inv (h : Handler) : Prop := {
  inv_snapshot :
    snapshotInProgress h = replyReady h && bool_decide (fabricatedReplyId h = 1%Z);
  inv_ready : replyReady h = true →
    fabricatedReplyId h ∈ arb_commands
    ∧ rawPacket h = Some dummyCommandBuffer_data ∧ rawPacketLen h = 0%Z;
  inv_idle : replyReady h = false → fabricatedReplyId h = NO_COMMAND_ID;
  inv_buffer : dummyCommandBuffer h = [Byte.x00];
}.
End Events.
Arguments handler_event : clear implicits.

(** * The pending set as three flags *)

Lemma elem_of_pending_set c s r g :
  c ∈ pending_set s r g
  ↔ (c = 1%Z ∧ s = true) ∨ (c = 2%Z ∧ r = true) ∨ (c = 3%Z ∧ g = true).
Proof. unfold pending_set. destruct s, r, g; set_solver. Qed.

Lemma pending_set_add s r g :
  {[1%Z]} ∪ pending_set s r g = pending_set true r g
  ∧ {[2%Z]} ∪ pending_set s r g = pending_set s true g
  ∧ {[3%Z]} ∪ pending_set s r g = pending_set s r true.
Proof.
  split_and!; apply set_eq; intros c;
    rewrite elem_of_union, elem_of_singleton, !elem_of_pending_set; naive_solver lia.
Qed.

Lemma pending_set_remove s r g :
  pending_set s r g ∖ {[1%Z]} = pending_set false r g
  ∧ pending_set s r g ∖ {[2%Z]} = pending_set s false g
  ∧ pending_set s r g ∖ {[3%Z]} = pending_set s r false.
Proof.
  split_and!; apply set_eq; intros c;
    rewrite elem_of_difference, elem_of_singleton, !elem_of_pending_set; naive_solver lia.
Qed.

Lemma arb_next_pending_set s r g :
  arb_next (pending_set s r g)
  = if s then Some 1%Z else if r then Some 2%Z else if g then Some 3%Z else None.
Proof.
  by destruct s, r, g.
Qed.

(** * One event *)

Section Step.
Context `{FsfwConstantsLaws} {W Msg PW : Type}.
Context `{CommandMessageIF Msg, !ParameterWrapperIF PW, !DeviceHandlerBaseIF W Msg PW}.
Context (host : byte_order).

(** What one event does to the abstract state, the reply slot and the output. *)
Definition step_post (ev : handler_event PW) (e : env Handler W)
    (outs : list handler_output) (e' : env Handler W) : Prop :=
  arb_step (abs_handler (self e)) (abs_event host ev) = (abs_handler (self e'), issued outs)
  ∧ communicationInterface (self e') = communicationInterface (self e)
  ∧ (handler_inv (self e) → handler_inv (self e')
       ∧ replay outs (reply_slot (self e)) = Some (reply_slot (self e'))).

Lemma error_neq_OK rv :
  rv ∈ [FAILED; NOTHING_TO_SEND; COMMAND_NOT_SUPPORTED; NO_REPLY_RECEIVED] → rv ≠ OK.
Proof. intros Hin ->. apply errors_not_OK. set_solver. Qed.

Ltac solve_step :=
  split_and!;
  try first
    [ done
    | intros [Hsnap Hready Hidle Hbuffer]; simpl in Hsnap, Hready, Hidle, Hbuffer;
      split; [split; simpl|];
      first [ done
            | by intros; split_and!; [apply elem_of_arb_commands; lia|..]
            | by subst; simpl; rewrite ?andb_false_r; eauto
            | by rewrite Hsnap; simpl; apply bool_decide_eq_false
            | idtac ] ].

Lemma poll_step e :
  communicationInterface (self e) ≠ None →
  wp (handle_event (PW:=PW) host EvPoll) e (step_post EvPoll e).
Proof.
  destruct e as [[cur req s pow tr r g prog ready fid buf [cif|] raw rawlen] c w];
    intros Hcomm; [|done]. clear Hcomm.
  unfold handle_event, buildNormalDeviceCommand, prepareReply. run_handler.
  unfold step_post, arb_step, abs_event, abs_handler, handler_pending, pending, requested.
  run_handler. rewrite arb_next_pending_set.
  destruct s; [|destruct r; [|destruct g]];
    rewrite ?decide_True, ?decide_False by (done || apply error_neq_OK; set_solver);
    unfold arb_issue; simpl; rewrite ?(proj1 (pending_set_remove _ _ _)),
      ?(proj1 (proj2 (pending_set_remove _ _ _))), ?(proj2 (proj2 (pending_set_remove _ _ _)));
    solve_step.
Qed.

Lemma reply_step e :
  wp (handle_event (PW:=PW) host EvReply) e (step_post EvReply e).
Proof.
  destruct e as [[cur req s pow tr r g prog ready fid buf ci raw rawlen] c w].
  unfold handle_event, scanForReply, interpretDeviceReply. run_handler.
  unfold step_post, arb_step, abs_event, abs_handler, handler_pending, reply_slot.
  destruct ready; [|rewrite decide_False by (apply error_neq_OK; set_solver); solve_step].
  destruct (decide (fid = 1%Z)) as [-> | Hfid]; eval_tests; run_handler; eval_tests.
  - simpl. eval_tests. solve_step.
  - repeat (case_decide as Hc; [|clear Hc]).
    all: simpl; eval_tests; solve_step.
Qed.

(** The three named commands and the rest. *)
Lemma command_cases (id : Z) :
  id = 1%Z ∨ id = 2%Z ∨ id = 3%Z ∨ ((id ∉ arb_commands) ∧ id ≠ 1 ∧ id ≠ 2 ∧ id ≠ 3)%Z.
Proof. rewrite elem_of_arb_commands. lia. Qed.

Lemma read_rate data len :
  valid_buffer data len →
  (data ≠ None ∧ (Z.of_nat sizeof_double ≤ len)%Z
   ∧ ∃ bs, data = Some bs ∧ sizeof_double ≤ length bs
       ∧ data_rate host data len = Some (double_of_bytes host (take sizeof_double bs)))
  ∨ (¬ (data ≠ None ∧ (Z.of_nat sizeof_double ≤ len)%Z) ∧ data_rate host data len = None).
Proof.
  unfold data_rate, valid_buffer. destruct data as [bs|]; simpl; [intros ->|naive_solver].
  case_decide as Hlen.
  - left. split_and!; [done|done|]. exists bs. split_and!; [done|lia|done].
  - right. split; [naive_solver|done].
Qed.

Lemma command_step e id data len :
  valid_buffer data len →
  wp (handle_event (PW:=PW) host (EvCommand id data len)) e (step_post (EvCommand id data len) e).
Proof.
  destruct e as [[cur req s pow tr r g prog ready fid buf ci raw rawlen] c w].
  intros Hbuf. unfold handle_event, buildCommandFromCommand.
  unfold step_post, arb_step, abs_event, abs_handler, handler_pending, reply_slot.
  destruct (command_cases id) as [-> | [-> | [-> | (Hin & H1' & H2' & H3')]]].
  - eval_tests. run_handler. unfold arb_request. simpl.
    rewrite (proj1 (pending_set_add _ _ _)). solve_step.
  - unfold arb_request. eval_tests.
    destruct (read_rate data len Hbuf) as [(Hd & Hl & bs & -> & Hbs & ->) | [Hd ->]].
    + rewrite decide_True by done. run_handler. rewrite decide_True by done. simpl.
      rewrite (proj1 (proj2 (pending_set_add _ _ _))). solve_step.
    + rewrite decide_False by done. run_handler. simpl.
      rewrite (proj1 (proj2 (pending_set_add _ _ _))). solve_step.
  - eval_tests. run_handler. unfold arb_request. simpl.
    rewrite (proj2 (proj2 (pending_set_add _ _ _))). solve_step.
  - rewrite (decide_False (P := id ∈ _)) by done. eval_tests. run_handler. solve_step.
Qed.

Lemma parameter_step e domainId parameterId wrapper values start :
  wp (handle_event (PW:=PW) host (EvParameter domainId parameterId wrapper values start)) e
    (step_post (EvParameter domainId parameterId wrapper values start) e).
Proof.
  destruct e as [[cur req s pow tr r g prog ready fid buf ci raw rawlen] c w].
  unfold handle_event, WebcamDeviceHandler.getParameter.
  unfold step_post, arb_step, abs_event, parameter_rate, abs_handler, handler_pending, reply_slot, current.
  change (ParameterId_raw parameterFrameRate) with 1%Z.
  destruct (decide (domainId = 0%Z)) as [-> | Hd]; [destruct (decide (parameterId = 1%Z)) as [-> | Hp]|].
  - destruct values as [values|]; [|destruct wrapper as [wrapper|]];
      (destruct (decide (start = 0%Z)) as [-> | Hs]); simpl; eval_tests; run_handler;
      eval_tests; run_handler; [|solve_step..].
    destruct (wrapper_getElement values cur) as [result rate].
    destruct (decide (result = OK)) as [-> | Hr]; eval_tests; solve_step.
  - eval_tests. run_handler. destruct (base_getParameter _ _ _ _ _ _) as [a w'].
    destruct values; simpl; [rewrite decide_False by naive_solver|]; solve_step.
  - eval_tests. run_handler. destruct (base_getParameter _ _ _ _ _ _) as [a w'].
    destruct values; simpl; [rewrite decide_False by naive_solver|]; solve_step.
Qed.

Lemma transition_step e : wp (handle_event (PW:=PW) host EvTransition) e (step_post EvTransition e).
Proof. destruct e as [[] c w]. unfold handle_event, buildTransitionDeviceCommand. run_handler. solve_step. Qed.

Lemma startup_step e : wp (handle_event (PW:=PW) host EvStartUp) e (step_post EvStartUp e).
Proof. destruct e as [[] c w]. unfold handle_event, doStartUp. run_handler. solve_step. Qed.

Lemma shutdown_step e : wp (handle_event (PW:=PW) host EvShutDown) e (step_post EvShutDown e).
Proof. destruct e as [[] c w]. unfold handle_event, doShutDown. run_handler. solve_step. Qed.

Lemma event_step ev e :
  communicationInterface (self e) ≠ None → event_ok ev →
  wp (handle_event (PW:=PW) host ev) e (step_post ev e).
Proof.
  destruct ev; simpl; eauto using command_step, poll_step, reply_step, parameter_step,
    transition_step, startup_step, shutdown_step.
Qed.

(** * Runs of events *)

Lemma replay_app outs1 outs2 slot slot' :
  replay outs1 slot = Some slot' → replay (outs1 ++ outs2) slot = replay outs2 slot'.
Proof.
  revert slot. induction outs1 as [|[c|c] outs1 IH]; intros slot; simpl; [by intros [= ->]|eauto|].
  case_decide; [eauto|done].
Qed.

Lemma events_run evs e :
  communicationInterface (self e) ≠ None → Forall event_ok evs →
  wp (handle_events (PW:=PW) host evs) e (λ outs e',
    arb_run (abs_handler (self e)) (abs_event host <$> evs) = (abs_handler (self e'), issued outs)
    ∧ communicationInterface (self e') = communicationInterface (self e)
    ∧ (handler_inv (self e) → handler_inv (self e')
         ∧ replay outs (reply_slot (self e)) = Some (reply_slot (self e')))).
Proof.
  intros Hcif Hok. revert e Hcif. induction Hok as [|ev evs Hev Hevs IH]; intros e Hcif; simpl.
  - apply wp_ret. naive_solver.
  - apply wp_bind. eapply wp_mono; [by apply event_step|].
    intros outs1 e1 (Habs1 & Hcif1 & Hinv1). apply wp_bind.
    eapply wp_mono; [apply IH; congruence|].
    intros outs2 e2 (Habs2 & Hcif2 & Hinv2). apply wp_ret.
    rewrite Habs1. unfold fmap in Habs2. rewrite Habs2. unfold issued. rewrite omap_app. split_and!; [done|congruence|].
    intros Hinv. destruct (Hinv1 Hinv) as [Hi1 Hr1]. destruct (Hinv2 Hi1) as [Hi2 Hr2].
    split; [done|]. by rewrite (replay_app _ _ _ _ Hr1).
Qed.

Lemma constructed_inv base : handler_inv (WebcamDeviceHandler base).
Proof. by split. Qed.
End Step.
