(* ===== verification/HandlerProperties.v ===== *)
(** Properties of the device handler: the functional behaviour of its member
    functions on every branch, and what they amount to over whole runs. *)

From S2P Require Import Prelude Words Fsfw FsfwModel WebcamDefinitions MessageTypes.
From S2P Require Import WebcamDeviceHandler CommandArbiter HandlerRefinement.

(** * Runs *)

Section Runs.
Context `{FsfwConstantsLaws} {W Msg PW : Type}.
Context `{CommandMessageIF Msg, !ParameterWrapperIF PW, !DeviceHandlerBaseIF W Msg PW}.
Context (host : byte_order).

(** (C12) Refinement: driven by any sequence of framework calls, a handler with a
    communication interface returns from every call, issues exactly the commands
    the command arbiter issues, in the same order, and ends in a state whose
    pending set and frame rates are the arbiter's. *)
Theorem handler_refines_arbiter (evs : list (handler_event PW)) (e : env Handler W) :
  communicationInterface (self e) ≠ None → Forall event_ok evs →
  ∃ outs e', handle_events host evs e = Done (outs, e')
    ∧ arb_run (abs_handler (self e)) (abs_event host <$> evs)
      = (abs_handler (self e'), issued outs).
Proof.
  intros Hcif Hok. destruct (wp_inv _ _ _ (events_run host evs e Hcif Hok)) as (outs & e' & ? & ? & _).
  eauto.
Qed.

(** (C13) Replies answer commands: in every run of a freshly constructed handler each
    reply found carries the identifier of the command issued last, no command is
    answered twice, and the object keeps its invariant; in particular
    [snapshotInProgress] is set exactly while the unanswered command is a
    snapshot. *)
Theorem replies_answer_commands (base : BaseMembers) (evs : list (handler_event PW)) c (w : W) :
  base_communicationInterface base ≠ None → Forall event_ok evs →
  ∃ outs e', handle_events host evs (Env (WebcamDeviceHandler base) c w) = Done (outs, e')
    ∧ replay outs None = Some (reply_slot (self e'))
    ∧ handler_inv (self e')
    ∧ (snapshotInProgress (self e') = true ↔ reply_slot (self e') = Some 1%Z).
Proof.
  intros Hcif Hok.
  destruct (wp_inv _ _ _ (events_run host evs (Env (WebcamDeviceHandler base) c w) Hcif Hok))
    as (outs & e' & Hrun & _ & _ & Hinv).
  destruct (Hinv (constructed_inv base)) as [Hi Hr].
  exists outs, e'. split_and!; [done|done|done|].
  rewrite (inv_snapshot _ Hi). unfold reply_slot.
  destruct (replyReady (self e')); simpl; [|done].
  rewrite bool_decide_eq_true. split; [by intros ->|by intros [= ->]].
Qed.

Lemma abs_pending_wf h : arb_wf (abs_handler h).
Proof.
  intros c. simpl. unfold handler_pending. rewrite elem_of_pending_set, elem_of_arb_commands.
  naive_solver.
Qed.

Lemma poll_idle (e : env Handler W) cmd :
  communicationInterface (self e) ≠ None → handler_pending (self e) = ∅ →
  buildNormalDeviceCommand (Some cmd) e = Done ((NOTHING_TO_SEND, Some cmd), e).
Proof.
  destruct e as [[cur req s pow tr r g prog ready fid buf [cif|] raw rawlen] c w]; [|done].
  intros _ Hp. unfold handler_pending in Hp. simpl in Hp.
  assert (s = false ∧ r = false ∧ g = false) as (-> & -> & ->).
  { assert (∀ x, x ∉ pending_set s r g) as Hn by (intros x; rewrite Hp; apply not_elem_of_empty).
    pose proof (Hn 1%Z) as H1'. pose proof (Hn 2%Z) as H2'. pose proof (Hn 3%Z) as H3'.
    rewrite elem_of_pending_set in H1', H2', H3'. destruct s, r, g; naive_solver. }
  done.
Qed.

(** Bounded service: without new requests, three polls issue every pending
    command exactly once, snapshot before frame-rate setting before frame-rate
    query, and a fourth poll has nothing to send and changes nothing. *)
Theorem three_polls_drain (e : env Handler W) cmd :
  communicationInterface (self e) ≠ None →
  ∃ outs e', handle_events (PW:=PW) host (replicate 3 EvPoll) e = Done (outs, e')
    ∧ issued outs = filter (λ c, c ∈ handler_pending (self e)) [1; 2; 3]%Z
    ∧ handler_pending (self e') = ∅
    ∧ buildNormalDeviceCommand (Some cmd) e' = Done ((NOTHING_TO_SEND, Some cmd), e').
Proof.
  intros Hcif.
  destruct (wp_inv _ _ _ (events_run (PW:=PW) host (replicate 3 EvPoll) e Hcif
    ltac:(by repeat constructor))) as (outs & e' & Hrun & Habs & Hcif' & _).
  change (abs_event host <$> replicate 3 EvPoll) with (replicate 3 APoll) in Habs.
  destruct (arb_drain (abs_handler (self e)) 3) as [Hout Hq].
  { unfold arb_queue. etrans; [apply length_filter|done]. }
  rewrite Habs in Hout, Hq. simpl in Hout, Hq.
  assert (handler_pending (self e') = ∅) as Hempty.
  { apply set_eq. intros c. split; [|set_solver]. intros Hc.
    assert (c ∈ arb_queue (handler_pending (self e'))) as Hin
      by (apply elem_of_arb_queue; split; [done|by apply (abs_pending_wf (self e'))]).
    rewrite Hq in Hin. by apply elem_of_nil in Hin. }
  exists outs, e'. split_and!; [done|done|done|]. apply poll_idle; congruence.
Qed.
End Runs.

(** * Member functions *)

Section Functions.
Context `{FsfwConstantsLaws} {W Msg PW : Type}.
Context `{CommandMessageIF Msg, !ParameterWrapperIF PW, !DeviceHandlerBaseIF W Msg PW}.
Context (host : byte_order).

(** One snapshot request followed by a poll, with the reply collected. *)
Definition snapshot_cycle : list (handler_event PW) := [EvCommand 1 None 0; EvPoll; EvReply].

Lemma snapshot_cycle_run (e : env Handler W) :
  communicationInterface (self e) ≠ None →
  ∃ e', handle_events host snapshot_cycle e = Done ([Issued 1; Replied 1], e')
    ∧ communicationInterface (self e') = communicationInterface (self e)
    ∧ frameRateCommandPending (self e') = frameRateCommandPending (self e)
    ∧ frameRateQueryPending (self e') = frameRateQueryPending (self e).
Proof.
  destruct e as [[cur req s pow tr r g prog ready fid buf [cif|] raw rawlen] c w]; [|done].
  intros _. eexists. split; [|split_and!; cycle 1].
  - unfold snapshot_cycle, handle_events, handle_event, buildCommandFromCommand,
      buildNormalDeviceCommand, prepareReply, scanForReply, interpretDeviceReply.
    eval_tests. run_handler. eval_tests. run_handler. reflexivity.
  - done.
  - done.
  - done.
Qed.

Lemma handle_events_app evs1 evs2 (e e1 : env Handler W) outs1 :
  handle_events (PW:=PW) host evs1 e = Done (outs1, e1) →
  handle_events host (evs1 ++ evs2) e
  = match handle_events host evs2 e1 with
    | Done (outs2, e2) => Done (outs1 ++ outs2, e2)
    | Undefined => Undefined
    | OutOfFuel => OutOfFuel
    end.
Proof.
  revert e outs1. induction evs1 as [|ev evs1 IH]; intros e outs1; simpl.
  - intros [= <- <-]. by destruct (handle_events host evs2 e) as [[??]| |].
  - unfold mbind, M_bind, mret, M_ret.
    destruct (handle_event host ev e) as [[out e']| |]; [|done..].
    destruct (handle_events host evs1 e') as [[out1 e1']| |] eqn:Hrun; [|done..].
    intros [= <- <-]. rewrite (IH _ _ Hrun).
    destruct (handle_events host evs2 e1') as [[??]| |]; [by rewrite app_assoc|done..].
Qed.

(** Starvation: requesting a snapshot before every poll keeps pending frame-rate
    commands waiting for any number of polls. *)
Theorem snapshots_starve_frame_rate (n : nat) (e : env Handler W) :
  communicationInterface (self e) ≠ None →
  ∃ outs e', handle_events host (concat (replicate n snapshot_cycle)) e = Done (outs, e')
    ∧ issued outs = replicate n 1%Z
    ∧ frameRateCommandPending (self e') = frameRateCommandPending (self e)
    ∧ frameRateQueryPending (self e') = frameRateQueryPending (self e).
Proof.
  revert e. induction n as [|n IH]; intros e Hcif.
  - by exists [], e.
  - destruct (snapshot_cycle_run e Hcif) as (e1 & Hrun & Hcif1 & Hr1 & Hg1).
    destruct (IH e1) as (outs & e' & Hrun' & Hout & Hr & Hg); [congruence|].
    exists ([Issued 1; Replied 1] ++ outs), e'.
    change (concat (replicate (S n) snapshot_cycle))
      with (snapshot_cycle ++ concat (replicate n snapshot_cycle)).
    rewrite (handle_events_app _ _ _ _ _ Hrun), Hrun'.
    split_and!; [done| |congruence..]. unfold issued in *. rewrite omap_app, Hout. done.
Qed.

(** The current frame rate is what the device was last told: one framework call
    changes it only by issuing the set-frame-rate command, and then to the rate
    requested last. *)
Theorem rate_changes_only_when_issued (ev : handler_event PW) (e e' : env Handler W) outs :
  communicationInterface (self e) ≠ None → event_ok ev →
  handle_event host ev e = Done (outs, e') →
  (issued outs = [2%Z] ∧ currentFrameRate (self e') = requestedFrameRate (self e))
  ∨ (issued outs ≠ [2%Z] ∧ currentFrameRate (self e') = currentFrameRate (self e)).
Proof.
  intros Hcif Hok Hrun. pose proof (event_step host ev e Hcif Hok) as Hstep.
  unfold wp in Hstep. rewrite Hrun in Hstep. destruct Hstep as [Habs _].
  assert (current (abs_handler (self e')) = currentFrameRate (self e')) as <- by done.
  assert (current (abs_handler (self e)) = currentFrameRate (self e)) as <- by done.
  assert (requested (abs_handler (self e)) = requestedFrameRate (self e)) as <- by done.
  revert Habs. generalize (abs_handler (self e')) (abs_handler (self e)). intros a' a.
  destruct (abs_event host ev) as [c rate| |conversion|]; simpl.
  - case_decide; intros [= <- <-]; by right.
  - destruct (arb_next (pending a)) as [c|]; intros [= <- <-]; [|by right].
    unfold arb_issue, arb_set_rate. simpl. case_decide; simplify_eq; [by left|right].
    split; [congruence|done].
  - destruct (conversion (current a)); intros [= <- <-]; by right.
  - intros [= <- <-]. by right.
Qed.

(** (C21) Parameter access, on every branch. Only the frame-rate parameter of domain 0
    is handled here; reading binds the wrapper to [currentFrameRate], writing
    stores the converted value in [requestedFrameRate] and nowhere else, and every
    error leaves the object and the console alone. *)
Theorem getParameter_correct domainId parameterId (wrapper values : option PW) start
    (h : Handler) c (w : W) :
  let run := WebcamDeviceHandler.getParameter domainId parameterId wrapper values start (Env h c w) in
  ((domainId ≠ 0 ∨ parameterId ≠ 1)%Z →
     run = let '(r, w') := base_getParameter domainId parameterId wrapper values start w in
           Done (r, Env h c w'))
  ∧ (domainId = 0%Z → parameterId = 1%Z →
     (start ≠ 0%Z → ∃ rv, run = Done ((rv, wrapper), Env h c w) ∧ rv = FAILED)
     ∧ (values = None → wrapper = None → run = Done ((FAILED, None), Env h c w))
     ∧ (∀ pw, values = None → wrapper = Some pw → start = 0%Z →
          run = Done ((OK, Some (wrapper_set ref_currentFrameRate (currentFrameRate h) pw)),
                      Env h (c ++ [SifInfo "[Webcam] Parameter read: frame rate %.2f fps.\n"
                                     [ArgDouble (currentFrameRate h)]]) w))
     ∧ (∀ new rv rate, values = Some new → start = 0%Z →
          wrapper_getElement new (currentFrameRate h) = (rv, rate) →
          (rv ≠ OK → run = Done ((rv, wrapper), Env h c w))
          ∧ (rv = OK → run = Done ((OK, wrapper), Env (h <| requestedFrameRate := rate |>)
               (c ++ [SifInfo "[Webcam] Parameter write: requested frame rate %.2f fps.\n"
                        [ArgDouble rate]]) w)))).
Proof.
  unfold WebcamDeviceHandler.getParameter. change (ParameterId_raw parameterFrameRate) with 1%Z.
  cbv zeta. split; [|intros -> ->; split_and!].
  - intros Hd. destruct (decide (domainId = 0%Z)) as [-> | Hd0]; eval_tests; [|done].
    rewrite decide_False by naive_solver. done.
  - intros Hs. exists FAILED. split; [|done].
    destruct values; [|destruct wrapper]; eval_tests; run_env; eval_tests; done.
  - intros -> ->. by eval_tests.
  - intros pw -> -> ->. eval_tests. run_env. by eval_tests.
  - intros new rv rate -> -> Hget. destruct h. simpl in Hget. eval_tests. run_handler.
    eval_tests. run_handler. rewrite Hget. split; intros; simplify_eq; by eval_tests.
Qed.

(** Setting the frame rate and polling until it is issued, with any data the framework
    may pass. A snapshot that waits comes first, and takes a poll of its own. *)
Lemma set_rate_polls (e : env Handler W) data len :
  communicationInterface (self e) ≠ None → valid_buffer data len →
  let waits := snapshotRequested (self e) in
  ∃ e', handle_events (PW:=PW) host
          (EvCommand 2 data len :: if waits then [EvPoll; EvPoll] else [EvPoll]) e
        = Done (if waits then [Issued 1; Issued 2] else [Issued 2], e')%Z
    ∧ currentFrameRate (self e') = default (requestedFrameRate (self e)) (data_rate host data len)
    ∧ requestedFrameRate (self e') = currentFrameRate (self e')
    ∧ console e' = console e ∧ world e' = world e.
Proof.
  intros Hcif Hbuf waits. subst waits.
  destruct e as [[cur req s pow tr r g prog ready fid buf [cif|] raw rawlen] c w]; [|done].
  cbn [self snapshotRequested]. unfold handle_events.
  destruct s; unfold handle_event, buildCommandFromCommand, buildNormalDeviceCommand, prepareReply; eval_tests;
    (destruct (read_rate host data len Hbuf) as [(Hd & Hl & bs & -> & Hbs & ->) | [Hd ->]];
     [rewrite decide_True by done; run_handler; rewrite decide_True by done
     |rewrite decide_False by done]);
    run_handler; eval_tests; (eexists; split; [reflexivity|done]).
Qed.

Lemma set_rate_poll (e : env Handler W) data len :
  communicationInterface (self e) ≠ None → snapshotRequested (self e) = false →
  valid_buffer data len →
  ∃ e', handle_events (PW:=PW) host [EvCommand 2 data len; EvPoll] e = Done ([Issued 2], e')
    ∧ currentFrameRate (self e') = default (requestedFrameRate (self e)) (data_rate host data len)
    ∧ requestedFrameRate (self e') = currentFrameRate (self e')
    ∧ console e' = console e ∧ world e' = world e.
Proof.
  intros Hcif Hs Hbuf. pose proof (set_rate_polls e data len Hcif Hbuf) as Hrun.
  cbv zeta in Hrun. by rewrite Hs in Hrun.
Qed.

(** (C19) Round trip of a frame rate: a set-frame-rate command that carries the eight
    bytes of a double, in the host's byte order, is issued at the next poll - or, when
    a snapshot is waiting, which is issued first, at the one after it - and makes
    exactly that double the current rate, and a parameter read then delivers it. *)
Theorem set_rate_roundtrip (e : env Handler W) (rate : double) (pw : PW) :
  communicationInterface (self e) ≠ None → double_wf rate →
  let waits := snapshotRequested (self e) in
  ∃ e', handle_events (PW:=PW) host
          (EvCommand 2 (Some (bytes_of_double host rate)) 8
           :: if waits then [EvPoll; EvPoll] else [EvPoll]) e
        = Done (if waits then [Issued 1; Issued 2] else [Issued 2], e')%Z
    ∧ currentFrameRate (self e') = rate
    ∧ wp (WebcamDeviceHandler.getParameter 0 1 (Some pw) None 0) e' (λ r e'',
        r = (OK, Some (wrapper_set ref_currentFrameRate rate pw)) ∧ self e'' = self e').
Proof.
  intros Hcif Hwf waits.
  destruct (set_rate_polls e (Some (bytes_of_double host rate)) 8 Hcif) as (e' & Hrun & Hcur & _).
  { unfold valid_buffer. by rewrite length_bytes_of_double. }
  assert (currentFrameRate (self e') = rate) as Hrate.
  { rewrite Hcur. simpl. rewrite take_ge by (rewrite length_bytes_of_double; done).
    by apply double_of_bytes_of_double. }
  exists e'. split_and!; [done|done|].
  unfold WebcamDeviceHandler.getParameter. eval_tests. rewrite <- Hrate.
  destruct e' as [[] c w]. run_handler. by eval_tests.
Qed.

(** A set-frame-rate command with fewer than eight bytes of data, or none, is not
    refused: it is issued all the same, and applies whatever rate was requested
    before. *)
Theorem set_rate_without_data_reapplies (e : env Handler W) data len :
  communicationInterface (self e) ≠ None → snapshotRequested (self e) = false →
  valid_buffer data len → data = None ∨ (len < 8)%Z →
  ∃ e', handle_events (PW:=PW) host [EvCommand 2 data len; EvPoll] e = Done ([Issued 2], e')
    ∧ currentFrameRate (self e') = requestedFrameRate (self e).
Proof.
  intros Hcif Hs Hbuf Hshort.
  destruct (set_rate_poll e data len Hcif Hs Hbuf) as (e' & Hrun & Hcur & _).
  exists e'. split; [done|]. rewrite Hcur. unfold data_rate.
  destruct data as [bs|]; [|done]. destruct Hshort as [|Hlen]; [done|].
  simpl. rewrite decide_False; [done|]. unfold sizeof_double. lia.
Qed.

Lemma parameter_write_run (e : env Handler W) (wrapper : option PW) new rate :
  wrapper_getElement new (currentFrameRate (self e)) = (OK, rate) →
  handle_event (PW:=PW) host (EvParameter 0 1 wrapper (Some new) 0) e
  = Done ([], Env ((self e) <| requestedFrameRate := rate |>)
       (console e ++ [SifInfo "[Webcam] Parameter write: requested frame rate %.2f fps.\n"
                        [ArgDouble rate]]) (world e)).
Proof.
  intros Hget. destruct e as [[] c w]. simpl in Hget.
  unfold handle_event, WebcamDeviceHandler.getParameter.
  eval_tests. run_handler. eval_tests. run_handler. rewrite Hget. by eval_tests.
Qed.

Lemma idle_polls n (e : env Handler W) :
  communicationInterface (self e) ≠ None → handler_pending (self e) = ∅ →
  handle_events (PW:=PW) host (replicate n EvPoll) e = Done ([], e).
Proof.
  intros Hcif Hp.
  assert (handle_event (PW:=PW) host EvPoll e = Done ([], e)) as Hpoll.
  { unfold handle_event, mbind, M_bind. rewrite (poll_idle e _ Hcif Hp). unfold mret, M_ret.
    by rewrite decide_False by (apply error_neq_OK; set_solver). }
  induction n as [|n IH]; [done|]. cbn [replicate handle_events].
  unfold mbind, M_bind. by rewrite Hpoll, IH.
Qed.

(** A parameter write does not by itself change the frame rate of the device:
    however often the handler is polled afterwards, nothing is sent and the current
    rate stays what it was. The written rate is applied by the next
    set-frame-rate command, even one without data. *)
Theorem parameter_write_needs_command (e : env Handler W) (wrapper : option PW) new rate n :
  communicationInterface (self e) ≠ None → handler_pending (self e) = ∅ →
  wrapper_getElement new (currentFrameRate (self e)) = (OK, rate) →
  (∃ e', handle_events host (EvParameter 0 1 wrapper (Some new) 0 :: replicate n EvPoll) e
         = Done ([], e')
     ∧ currentFrameRate (self e') = currentFrameRate (self e)
     ∧ requestedFrameRate (self e') = rate)
  ∧ (∃ e', handle_events host
             [EvParameter 0 1 wrapper (Some new) 0; EvCommand 2 None 0; EvPoll] e
           = Done ([Issued 2], e')
     ∧ currentFrameRate (self e') = rate).
Proof.
  intros Hcif Hp Hget. pose proof (parameter_write_run e wrapper new rate Hget) as Hw.
  set (e1 := Env _ _ _) in Hw.
  assert (communicationInterface (self e1) = communicationInterface (self e)) as Hcif1 by done.
  assert (handler_pending (self e1) = handler_pending (self e)) as Hp1 by done.
  split.
  - exists e1. split; [|done].
    change (?x :: ?l) with ([x] ++ l). rewrite (handle_events_app _ _ e e1 []).
    + rewrite (idle_polls n e1) by congruence. done.
    + cbn [handle_events]. unfold mbind, M_bind. by rewrite Hw.
  - destruct (set_rate_poll e1 None 0) as (e' & Hrun & Hcur & _); [congruence| |done|].
    { assert (1%Z ∉ handler_pending (self e1)) as Hn by (rewrite Hp1, Hp; apply not_elem_of_empty).
      unfold handler_pending in Hn. rewrite elem_of_pending_set in Hn.
      destruct (snapshotRequested (self e1)); naive_solver. }
    exists e'. split; [|by rewrite Hcur].
    change (?x :: ?l) with ([x] ++ l). rewrite (handle_events_app _ _ e e1 []).
    + change ([] ++ ?l) with l. by rewrite Hrun.
    + cbn [handle_events]. unfold mbind, M_bind. by rewrite Hw.
Qed.

(** (C20) Dispatch of the handler's messages. A message of another type goes to the base
    class. A device command is accepted when the low byte of its command names a
    webcam command: the action helper then gets an action message with that byte as
    action and the message's parameter as store address, and a failure is reported
    back; any other byte is answered with [UNKNOWN_COMMAND] and nothing else
    happens. The handled message always yields [OK]. *)
Theorem letChildHandleMessage_correct `{!ActionHelperIF Handler W Msg} m (e : env Handler W) :
  let run := letChildHandleMessage (PW:=PW) (Some m) e in
  let raw := uint8 (Z.land (getCommand m) 255) in
  (getMessageType m ≠ DEVICE_HANDLER_COMMAND →
     run = let '((rv, m'), w') := base_letChildHandleMessage m (world e) in
           Done ((rv, Some m'), Env (self e) (console e) w'))
  ∧ (getMessageType m = DEVICE_HANDLER_COMMAND → raw ∉ [1; 2; 3]%Z →
     run = Done ((OK, Some m), Env (self e) (console e)
                   (base_replyReturnvalueToCommand UNKNOWN_COMMAND (world e))))
  ∧ (getMessageType m = DEVICE_HANDLER_COMMAND → raw ∈ [1; 2; 3]%Z →
     run = match handleActionMessage (ActionMessage_setCommand raw (Fsfw.getParameter m) m) e with
           | Done ((rv, m'), e') =>
               Done ((OK, Some m'),
                 if decide (rv = OK) then e'
                 else Env (self e') (console e') (base_replyReturnvalueToCommand rv (world e')))
           | Undefined => Undefined
           | OutOfFuel => OutOfFuel
           end).
Proof.
  destruct e as [h c w]. cbv zeta. unfold letChildHandleMessage. split_and!.
  - intros Ht. rewrite decide_True by done. run_env.
    by destruct (base_letChildHandleMessage m w) as [[??]?].
  - intros Ht Hraw. rewrite decide_False by (intros Hx; by apply Hx).
    destruct (of_raw_spec (E:=CommandId) (uint8 (Z.land (getCommand m) 255)) None)
      as [(cmd & Hn & Hr & _) | [_ Hrej]].
    + apply is_named_raw in Hn. by rewrite Hr in Hn.
    + simpl in Hrej. by rewrite Hrej.
  - intros Ht Hraw. rewrite decide_False by (intros Hx; by apply Hx).
    assert (is_named (mkCommandId (uint8 (Z.land (getCommand m) 255))) = true) as Hn.
    { by apply is_named_raw. }
    pose proof (of_raw_named _ None Hn) as Hacc. simpl in Hacc. rewrite Hacc.
    cbn [negb]. unfold mbind, M_bind.
    destruct (handleActionMessage _ _) as [[[rv m'] e']| |]; [|done..].
    destruct (decide (rv = OK)) as [-> | Hrv]; eval_tests; done.
Qed.

(** The data of a set-frame-rate command are shorter than announced. *)
Definition short_rate_data (id : DeviceCommandId_t) (data : option (list byte)) (len : Z) : Prop :=
  id = 2%Z ∧ (8 ≤ len)%Z ∧ ∃ bs, data = Some bs ∧ length bs < 8.

Lemma buildCommandFromCommand_safe id data len (e : env Handler W) :
  (short_rate_data id data len → buildCommandFromCommand host id data len e = Undefined)
  ∧ (¬ short_rate_data id data len → wp (buildCommandFromCommand host id data len) e (λ rv _,
       rv ∈ [OK; COMMAND_NOT_SUPPORTED])).
Proof.
  unfold buildCommandFromCommand, short_rate_data.
  destruct (command_cases id) as [-> | [-> | [-> | (_ & ? & ? & ?)]]];
    eval_tests; run_handler; try (split; [naive_solver|set_solver]).
  destruct (decide (data ≠ None ∧ _)) as [[Hd Hl]|Hn]; eval_tests; run_handler.
  - destruct data as [bs|]; [|done]. unfold sizeof_double in *.
    destruct (decide (8 ≤ length bs)) as [Hlen|Hlen]; eval_tests; run_handler.
    + split; [|set_solver]. intros (_ & _ & bs' & [= <-] & ?). lia.
    + split; [done|]. intros []. split_and!; [done..|]. exists bs. split; [done|lia].
  - split; [|set_solver]. intros (_ & Hlen & bs & -> & _). destruct Hn. by split.
Qed.

(** (C22) Pointer safety of the handler's member functions: each returns whatever pointers
    the framework passes, null ones included, and whatever the inherited members point
    at. A poll without an output pointer or without a communication interface fails and
    changes nothing; null output pointers are not written, others are; a null message is
    refused and changes nothing, and any other is handled to its end, provided that the
    action helper, which calls back into the handler, returns; and the one access through
    a data pointer is undefined exactly when the framework announces at least eight bytes
    for a set-frame-rate command and passes fewer. Start-up and shut-down set the mode,
    and filling the command map registers exactly the three commands. *)
Theorem handler_calls_are_safe `{!ActionHelperIF Handler W Msg} (e : env Handler W) :
  (∀ p, wp (buildNormalDeviceCommand p) e (λ r e', (r.2 = None ↔ p = None) ∧
     (p = None ∨ communicationInterface (self e) = None → r = (FAILED, p) ∧ e' = e)))
  ∧ (∀ p, wp (buildTransitionDeviceCommand p) e (λ r _,
       r = (NOTHING_TO_SEND, (λ _, NO_COMMAND_ID) <$> p)))
  ∧ (∀ p q, wp (scanForReply p q) e (λ r _, r.1.1 ∈ [OK; NO_REPLY_RECEIVED]
       ∧ (r.1.2 = None ↔ p = None) ∧ (r.2 = None ↔ q = None)))
  ∧ (∀ id, wp (interpretDeviceReply id) e (λ r _, r = OK))
  ∧ (∀ d i pw new s, wp (WebcamDeviceHandler.getParameter (PW:=PW) d i pw new s) e (λ _ _, True))
  ∧ letChildHandleMessage (PW:=PW) None e = Done ((FAILED, None), e)
  ∧ (∀ m, (∀ m1, wp (handleActionMessage m1) e (λ _ _, True)) →
       wp (letChildHandleMessage (PW:=PW) (Some m)) e (λ r _, is_Some r.2))
  ∧ (∀ id data len,
       (short_rate_data id data len → buildCommandFromCommand host id data len e = Undefined)
       ∧ (¬ short_rate_data id data len → wp (buildCommandFromCommand host id data len) e (λ rv _,
            rv ∈ [OK; COMMAND_NOT_SUPPORTED])))
  ∧ (∀ id, wp (prepareReply id) e (λ _ e', replyReady (self e') = true
       ↔ communicationInterface (self e) ≠ None))
  ∧ wp doStartUp e (λ _ e', world e' = base_setMode MODE_ON (world e))
  ∧ wp doShutDown e (λ _ e', world e' = base_setMode MODE_OFF (world e))
  ∧ wp fillCommandAndReplyMap e (λ _ e', self e' = self e ∧ console e' = console e
       ∧ world e' = foldl (λ w c, (base_insertInCommandAndReplyMap c 0 w).2) (world e) [1; 2; 3]%Z).
Proof.
  split_and!; [..|by unfold doStartUp, assign_member; eauto 10 with wp_db
               |by unfold doShutDown, assign_member; eauto 10 with wp_db
               |by unfold fillCommandAndReplyMap; eauto 10 with wp_db].
  7: { intros m Hhelper. unfold letChildHandleMessage. case_decide.
       - apply wp_bind, wp_call_any. destruct (base_letChildHandleMessage _ _) as [[??]?].
         cbn [fst snd]. apply wp_ret. by eexists.
       - destruct (rawToCommand _ _) as [[] ?]; cbn [negb].
         + apply wp_bind. eapply wp_mono; [apply Hhelper|]. intros [rv m2] e1 _.
           apply wp_bind. case_decide; [apply wp_call_void|]; apply wp_ret; by eexists.
         + apply wp_bind, wp_call_void, wp_ret. by eexists. }
  7: intros; apply buildCommandFromCommand_safe.
  all: destruct e as [[cur req sn pow tr r g prog ready fid buf ci raw rawlen] c w].
  - intros [p|]; [destruct ci as [cif|]|]; [|by run_handler..].
    unfold buildNormalDeviceCommand, prepareReply. run_handler.
    destruct sn; [|destruct r; [|destruct g]]; (split; [done|by intros [|]]).
  - intros p. by unfold buildTransitionDeviceCommand; run_handler.
  - intros p q. unfold scanForReply. run_handler.
    destruct ready; [case_decide|]; (split_and!; [set_solver|by destruct p|by destruct q]).
  - intros id. unfold interpretDeviceReply. run_handler.
    by repeat case_decide.
  - intros d i pw new st. unfold WebcamDeviceHandler.getParameter.
    destruct (decide (d ≠ 0%Z)), (decide (i = ParameterId_raw parameterFrameRate)), new as [new|], pw as [pw|],
      (decide (st ≠ 0%Z)); run_handler; repeat case_match; done.
  - done.
  - intros id. unfold prepareReply. by destruct ci; run_handler.
Qed.
End Functions.

(** * Concrete runs *)

(** A freshly constructed handler whose base class has found its communication
    interface, on the concrete framework. *)
Definition example_base : BaseMembers := {|
  base_communicationInterface := Some objectIdWebcamComIF;
  base_rawPacket := None;
  base_rawPacketLen := 0;
|}.
Definition example_env : env Handler model_world :=
  Env (WebcamDeviceHandler example_base) [] model_init.

Definition example_rate : double := Double 0x4038000000000000.
Definition example_events : list (handler_event model_wrapper) :=
  [EvStartUp; EvCommand 3 None 0; EvCommand 2 (Some (bytes_of_double LittleEndian example_rate)) 8;
   EvPoll; EvReply; EvCommand 1 None 0; EvPoll; EvPoll; EvReply].

#[local] Instance example_action_helper : ActionHelperIF Handler model_world model_msg :=
  λ m, rv ← buildCommandFromCommand LittleEndian (ActionMessage_getActionId m) None 0;
       mret (rv, m).

Theorem handler_refines_arbiter_witness :
  ∃ outs e', handle_events LittleEndian example_events example_env = Done (outs, e')
    ∧ arb_run (abs_handler (self example_env)) (abs_event LittleEndian <$> example_events)
      = (abs_handler (self e'), issued outs).
Proof. apply handler_refines_arbiter; [done|by repeat constructor]. Defined.

Theorem replies_answer_commands_witness :
  ∃ outs e', handle_events LittleEndian example_events example_env = Done (outs, e')
    ∧ replay outs None = Some (reply_slot (self e'))
    ∧ handler_inv (self e')
    ∧ (snapshotInProgress (self e') = true ↔ reply_slot (self e') = Some 1%Z).
Proof. apply replies_answer_commands; [done|by repeat constructor]. Defined.

Theorem three_polls_drain_witness :
  ∃ outs e', handle_events (PW:=model_wrapper) LittleEndian (replicate 3 EvPoll) example_env
             = Done (outs, e')
    ∧ issued outs = filter (λ c, c ∈ handler_pending (self example_env)) [1; 2; 3]%Z
    ∧ handler_pending (self e') = ∅
    ∧ buildNormalDeviceCommand (Some 0%Z) e' = Done ((NOTHING_TO_SEND, Some 0%Z), e').
Proof. by apply three_polls_drain. Defined.

Theorem snapshots_starve_frame_rate_witness :
  ∃ outs e', handle_events (PW:=model_wrapper) LittleEndian
               (concat (replicate 2 snapshot_cycle)) example_env = Done (outs, e')
    ∧ issued outs = replicate 2 1%Z
    ∧ frameRateCommandPending (self e') = frameRateCommandPending (self example_env)
    ∧ frameRateQueryPending (self e') = frameRateQueryPending (self example_env).
Proof. by apply snapshots_starve_frame_rate. Defined.

Theorem rate_changes_only_when_issued_witness :
  (issued [] = [2%Z]
   ∧ currentFrameRate (self example_env) = requestedFrameRate (self example_env))
  ∨ (issued [] ≠ [2%Z]
     ∧ currentFrameRate (self example_env) = currentFrameRate (self example_env)).
Proof.
  by apply (rate_changes_only_when_issued (PW:=model_wrapper) LittleEndian EvPoll example_env
    example_env []).
Defined.

Theorem getParameter_correct_witness :
  WebcamDeviceHandler.getParameter 1 1 (Some (ModelWrapper double_zero None)) None 0 example_env
  = let '(r, w') := base_getParameter 1 1 (Some (ModelWrapper double_zero None)) None 0 model_init in
    Done (r, Env (WebcamDeviceHandler example_base) [] w').
Proof.
  apply (getParameter_correct 1 1 (Some (ModelWrapper double_zero None)) None 0
    (WebcamDeviceHandler example_base) [] model_init). by left.
Defined.

(** On a handler in which a snapshot waits. *)
Theorem set_rate_roundtrip_witness :
  let e := Env ((self example_env) <| snapshotRequested := true |>) [] model_init in
  ∃ e', handle_events (PW:=model_wrapper) LittleEndian
          [EvCommand 2 (Some (bytes_of_double LittleEndian example_rate)) 8; EvPoll; EvPoll] e
        = Done ([Issued 1; Issued 2], e')%Z
    ∧ currentFrameRate (self e') = example_rate
    ∧ wp (WebcamDeviceHandler.getParameter 0 1 (Some (ModelWrapper double_zero None)) None 0) e'
        (λ r e'', r = (OK, Some (wrapper_set ref_currentFrameRate example_rate
                                   (ModelWrapper double_zero None))) ∧ self e'' = self e').
Proof.
  intros e. by apply (set_rate_roundtrip LittleEndian e example_rate (ModelWrapper double_zero None)).
Defined.

Theorem set_rate_without_data_reapplies_witness :
  ∃ e', handle_events (PW:=model_wrapper) LittleEndian
          [EvCommand 2 (Some [Byte.x01]) 1; EvPoll] example_env = Done ([Issued 2], e')
    ∧ currentFrameRate (self e') = requestedFrameRate (self example_env).
Proof. apply set_rate_without_data_reapplies; [done..|by right]. Defined.

Theorem parameter_write_needs_command_witness :
  (∃ e', handle_events LittleEndian
           (EvParameter 0 1 None (Some (ModelWrapper example_rate None)) 0 :: replicate 5 EvPoll)
           example_env = Done ([], e')
     ∧ currentFrameRate (self e') = currentFrameRate (self example_env)
     ∧ requestedFrameRate (self e') = example_rate)
  ∧ (∃ e', handle_events LittleEndian
             [EvParameter 0 1 None (Some (ModelWrapper example_rate None)) 0;
              EvCommand 2 None 0; EvPoll] example_env = Done ([Issued 2], e')
     ∧ currentFrameRate (self e') = example_rate).
Proof. by apply parameter_write_needs_command. Defined.

Theorem letChildHandleMessage_correct_witness :
  letChildHandleMessage (PW:=model_wrapper) (Some (ModelMsg 0x0309 0 0)) example_env
  = Done ((OK, Some (ModelMsg 0x0309 0 0)),
      Env (self example_env) (console example_env)
        (base_replyReturnvalueToCommand UNKNOWN_COMMAND (world example_env))).
Proof.
  apply (letChildHandleMessage_correct (PW:=model_wrapper) (ModelMsg 0x0309 0 0) example_env);
    [done|by apply (bool_decide_unpack _)].
Defined.

Theorem handler_calls_are_safe_witness :
  buildCommandFromCommand LittleEndian 2 (Some [Byte.x01]) 8 example_env = Undefined
  ∧ wp (letChildHandleMessage (PW:=model_wrapper) (Some (ModelMsg 0x0301 0 0))) example_env
      (λ r _, is_Some r.2).
Proof.
  destruct (handler_calls_are_safe (Msg:=model_msg) (PW:=model_wrapper) LittleEndian example_env)
    as (_ & _ & _ & _ & _ & _ & Hmessage & Hcommand & _).
  split.
  - apply Hcommand. split; [done|]. split; [lia|]. exists [Byte.x01]. split; [done|]. simpl. lia.
  - apply Hmessage. intros m1. apply wp_bind.
    eapply wp_mono; [apply buildCommandFromCommand_safe|by intros; apply wp_ret].
    intros (_ & _ & bs & [=] & _).
Defined.
