(* ===== verification/DeviceCycles.v ===== *)
(** The handler in the rhythm in which a device is served: a poll for the next
    command, then the look for its reply. In this rhythm no reply is lost, and the
    console reports every command with the frame rate in force. *)

From S2P Require Import Prelude Words Fsfw FsfwModel WebcamDefinitions MessageTypes.
From S2P Require Import WebcamDeviceHandler CommandArbiter HandlerRefinement HandlerProperties.

(** What the console shows for a command that was served. *)
Definition report_line (rate : double) (c : Z) : console_item :=
  if decide (c = 1%Z) then SifInfo "[Webcam] Snapshot request completed.\n" []
  else if decide (c = 2%Z) then SifInfo "[Webcam] Frame rate set to %.2f fps.\n" [ArgDouble rate]
  else SifInfo "[Webcam] Current frame rate is %.2f fps.\n" [ArgDouble rate].

(** The frame rate in force once the commands of [a] are served. *)
Definition settled_rate (a : arbiter) : double :=
  if decide (arb_set_rate ∈ pending a) then requested a else current a.

Definition served (cs : list Z) : list handler_output :=
  c ← cs; [Issued c; Replied c].

(** Serving a command does not change the rate that will be in force, and what is
    reported is this rate. *)
Lemma arb_next_cases p c : arb_next p = Some c →
  (c = 1 ∨ c = 2 ∨ (c = 3 ∧ 2 ∉ p))%Z ∧ c ∈ p.
Proof. unfold arb_next. repeat case_decide; naive_solver. Qed.

Lemma settled_rate_issue a c : arb_next (pending a) = Some c →
  settled_rate (arb_issue c a) = settled_rate a
  ∧ report_line (current (arb_issue c a)) c = report_line (settled_rate a) c.
Proof.
  intros Hc. destruct (arb_next_cases _ _ Hc) as [Hcase Hin].
  unfold settled_rate, arb_issue, arb_set_rate. cbn [pending requested current].
  destruct Hcase as [-> | [-> | [-> Hn]]]; (split; [|try done]);
    repeat case_decide; try done; set_solver.
Qed.

Section Cycles.
Context `{FsfwConstantsLaws} {W Msg PW : Type}.
Context `{CommandMessageIF Msg, !ParameterWrapperIF PW, !DeviceHandlerBaseIF W Msg PW}.
Context (host : byte_order).

Definition device_cycles (n : nat) : list (handler_event PW) :=
  concat (replicate n [EvPoll; EvReply]).

Lemma wp_events_app evs1 evs2 (e : env Handler W) Q :
  wp (handle_events (PW:=PW) host evs1) e (λ outs1 e1,
    wp (handle_events host evs2) e1 (λ outs2 e2, Q (outs1 ++ outs2) e2)) →
  wp (handle_events host (evs1 ++ evs2)) e Q.
Proof.
  intros Hwp. destruct (wp_inv _ _ _ Hwp) as (outs1 & e1 & Hrun & Hwp2).
  unfold wp. rewrite (handle_events_app _ _ _ _ _ _ Hrun). unfold wp in Hwp2.
  by destruct (handle_events host evs2 e1) as [[??]| |].
Qed.

(** One cycle serves the first pending command. *)
Lemma cycle_run (e : env Handler W) :
  communicationInterface (self e) ≠ None → replyReady (self e) = false →
  wp (handle_events (PW:=PW) host [EvPoll; EvReply]) e (λ outs e',
    communicationInterface (self e') = communicationInterface (self e)
    ∧ replyReady (self e') = false ∧ world e' = world e
    ∧ requestedFrameRate (self e') = requestedFrameRate (self e)
    ∧ match arb_next (handler_pending (self e)) with
      | Some c => outs = served [c] ∧ abs_handler (self e') = arb_issue c (abs_handler (self e))
          ∧ console e' = console e ++ [report_line (currentFrameRate (self e')) c]
      | None => outs = [] ∧ abs_handler (self e') = abs_handler (self e) ∧ console e' = console e
      end).
Proof.
  destruct e as [[cur req s pow tr r g prog ready fid buf [cif|] raw rawlen] c w]; [|done].
  intros _ Hready. simpl in Hready. subst ready.
  unfold handle_events, handle_event, buildNormalDeviceCommand, prepareReply, scanForReply,
    interpretDeviceReply, abs_handler, handler_pending, arb_issue. run_handler.
  rewrite arb_next_pending_set.
  destruct s; [|destruct r; [|destruct g]]; eval_tests; run_handler; eval_tests; simpl;
    rewrite ?(proj1 (pending_set_remove _ _ _)), ?(proj1 (proj2 (pending_set_remove _ _ _))),
      ?(proj2 (proj2 (pending_set_remove _ _ _))); try done.
  all: rewrite decide_False by (apply error_neq_OK; set_solver); simpl.
  all: rewrite decide_False by (apply error_neq_OK; set_solver); done.
Qed.

Lemma device_cycles_S n : device_cycles (S n) = [EvPoll; EvReply] ++ device_cycles n.
Proof. done. Qed.

Lemma cycles_run n : ∀ e : env Handler W,
  communicationInterface (self e) ≠ None → replyReady (self e) = false →
  wp (handle_events (PW:=PW) host (device_cycles n)) e (λ outs e',
    let queue := take n (arb_queue (handler_pending (self e))) in
    outs = served queue
    ∧ console e' = console e ++ (report_line (settled_rate (abs_handler (self e))) <$> queue)
    ∧ arb_queue (handler_pending (self e')) = drop n (arb_queue (handler_pending (self e)))
    ∧ settled_rate (abs_handler (self e')) = settled_rate (abs_handler (self e))
    ∧ replyReady (self e') = false ∧ world e' = world e
    ∧ communicationInterface (self e') = communicationInterface (self e)).
Proof.
  induction n as [|n IH]; intros e Hcif Hready.
  { apply wp_ret. simpl. by rewrite app_nil_r. }
  rewrite device_cycles_S. apply wp_events_app.
  eapply wp_mono; [by apply cycle_run|].
  intros outs1 e1 (Hcif1 & Hready1 & Hw1 & _ & Hcase).
  eapply wp_mono; [apply IH; congruence|].
  intros outs2 e2 (-> & Hcons & Hq & Hs & Hready2 & Hw2 & Hcif2).
  assert (handler_pending (self e1) = pending (abs_handler (self e1))) as Hp1 by done.
  rewrite Hcons, Hq, Hs, Hp1. clear Hcons Hq Hs Hp1.
  destruct (arb_next (handler_pending (self e))) as [c|] eqn:Hc.
  - destruct Hcase as (-> & Habs & ->). rewrite (arb_queue_issue _ _ Hc).
    destruct (settled_rate_issue (abs_handler (self e)) c Hc) as [Hs Hr].
    rewrite <- Habs in Hs, Hr. cbn [current abs_handler] in Hr. rewrite Hr, Hs, Habs.
    cbn [take drop arb_issue pending fmap list_fmap]. rewrite <- app_assoc.
    by split_and!; try congruence.
  - destruct Hcase as (-> & Habs & ->). rewrite Habs.
    change (pending (abs_handler (self e))) with (handler_pending (self e)).
    rewrite (arb_queue_nil _ Hc), !take_nil, !drop_nil. by split_and!; try congruence.
Qed.

Lemma nothing_queued (h : Handler) : arb_queue (handler_pending h) = [] → handler_pending h = ∅.
Proof.
  intros Hq. apply set_eq. intros c. split; [|set_solver]. intros Hc.
  assert (c ∈ arb_queue (handler_pending h)) as Hin
    by (apply elem_of_arb_queue; split; [done|by apply (abs_pending_wf h)]).
  rewrite Hq in Hin. by apply elem_of_nil in Hin.
Qed.

(** Every pending command is served and reported. When no reply is waiting, three or
    more cycles of a poll and the look for its reply issue each pending command
    exactly once and find its reply, none lost and none for another command; the
    console gets one line for each, a set or queried frame rate with the rate in
    force, which is the requested one if it was still to be set. Afterwards nothing
    is pending, no reply is waiting, and that rate is the current one. *)
Theorem cycles_report_commands n (e : env Handler W) :
  communicationInterface (self e) ≠ None → replyReady (self e) = false → 3 ≤ n →
  let rate := if frameRateCommandPending (self e) then requestedFrameRate (self e)
              else currentFrameRate (self e) in
  let commands := filter (λ c, c ∈ handler_pending (self e)) [1; 2; 3]%Z in
  wp (handle_events (PW:=PW) host (device_cycles n)) e (λ outs e',
    outs = (c ← commands; [Issued c; Replied c])
    ∧ console e' = console e ++ (report_line rate <$> commands)
    ∧ handler_pending (self e') = ∅ ∧ replyReady (self e') = false
    ∧ currentFrameRate (self e') = rate).
Proof.
  intros Hcif Hready Hn rate commands.
  assert (settled_rate (abs_handler (self e)) = rate) as Hrate.
  { unfold settled_rate, arb_set_rate, rate. cbn [pending requested current abs_handler].
    unfold handler_pending. case_decide as Hp; rewrite elem_of_pending_set in Hp;
      destruct (frameRateCommandPending (self e)); naive_solver. }
  eapply wp_mono; [by apply (cycles_run n e)|]. rewrite Hrate.
  change (arb_queue (handler_pending (self e))) with commands.
  assert (length commands ≤ n) by (etrans; [apply length_filter|done]).
  rewrite take_ge, drop_ge by done.
  intros outs e' (-> & Hcons & Hq & Hs & Hr & _). apply nothing_queued in Hq.
  split_and!; [done..|]. rewrite <- Hs. unfold settled_rate. cbn [pending abs_handler].
  by rewrite Hq, decide_False by set_solver.
Qed.
End Cycles.

(** A handler with all three commands pending and a rate of 24 requested. *)
Definition busy_handler : env Handler model_world :=
  Env ((WebcamDeviceHandler example_base) <| requestedFrameRate := example_rate |>
         <| snapshotRequested := true |> <| frameRateCommandPending := true |>
         <| frameRateQueryPending := true |>) [] model_init.

Theorem cycles_report_commands_witness :
  wp (handle_events (PW:=model_wrapper) LittleEndian (device_cycles 3)) busy_handler (λ outs e',
    outs = [Issued 1; Replied 1; Issued 2; Replied 2; Issued 3; Replied 3]%Z
    ∧ console e' = report_line example_rate <$> [1; 2; 3]%Z).
Proof.
  eapply wp_mono; [apply (cycles_report_commands (PW:=model_wrapper) LittleEndian 3 busy_handler);
    [done|done|lia]|].
  intros outs e' (-> & -> & _). split; by vm_compute.
Defined.
