(* ===== verification/WebcamCommandingService.v ===== *)
(** [mission/tmtc/WebcamCommandingService.{h,cpp}]: the PUS service that turns
    telecommands into messages for the device handler and its replies into
    telemetry. The inherited member [ipcStore] is the service's only state; the
    IPC store itself belongs to the framework. *)

From S2P Require Import Prelude Words Fsfw FsfwConfig WebcamDefinitions MessageTypes.

(** * Constants *)

Definition APID : Z := 0x01.
Definition SERVICE_ID : Z := 200.
Definition WEBCAM_PARAMETER_DOMAIN : Z := 0.

(** [enum class Subservice : uint8_t]: any byte is a value of the enumeration. *)
Record Subservice := mkSubservice { Subservice_raw : Z }.
#[export] Instance Subservice_eq_dec : EqDecision Subservice.
Proof. solve_decision. Defined.

Definition COMMAND_TAKE_SNAPSHOT : Subservice := mkSubservice 1.
Definition COMMAND_SET_FRAME_RATE : Subservice := mkSubservice 2.
Definition COMMAND_GET_FRAME_RATE : Subservice := mkSubservice 3.
Definition PARAMETER_DUMP : Subservice := mkSubservice 4.
Definition TM_PARAMETER_DUMP : Subservice := mkSubservice 130.
Definition TM_COMMAND_DATA_REPLY : Subservice := mkSubservice 131.

(** * The service *)

Record Service (Store : Type) := mkService { ipcStore : option Store }.
Arguments mkService {_} _.
Arguments ipcStore {_} _.
#[export] Instance Service_settable Store : Settable (Service Store) := λ s,
  mkService (ipcStore s).

(** What the constructor passes to that of the base class; the service has no members to
    initialise itself. [R] is the type of pointers to reporters. *)
Record CommandingServiceArgs (R : Type) := mkArgs {
  csb_objectId : object_id_t; csb_apid : Z; csb_service : Z;
  csb_numberOfParallelCommands : Z; csb_commandTimeoutSeconds : Z; csb_queueDepth : Z;
  csb_reporter : option R;
}.
Arguments mkArgs {_} _ _ _ _ _ _ _.
Definition WebcamCommandingService {R} (objectId : object_id_t) (reporter : option R)
    : CommandingServiceArgs R :=
  mkArgs objectId APID SERVICE_ID FSFW_CSB_FIFO_DEPTH 60 20 reporter.

(** Runs member functions of the service on a symbolic object. *)
Ltac run_service :=
  lazy beta iota zeta delta [assign_member this update call call_void ask print
    self console world mbind M_bind mret M_ret get put modify deref assign
    assign_if read_prefix undefined out_of_fuel set_field settable_eta wp
    option_fmap option_map fmap Service_settable ipcStore].

Section Service.
Context `{FsfwConstants} {W Store TimeReader Msg : Type}.
Context `{CommandMessageIF Msg, !StorageManagerIF W Store, !CommandingServiceBaseIF W Store}.
Context `{!ObjectManagerIF W Store TimeReader}.

Definition initialize : M (env (Service Store) W) ReturnValue_t :=
  '(result, store) ← call base_initialize;
  ipcStore ::= store;;
  if decide (result ≠ OK) then
    print (SifError "WebcamCommandingService::initialize: Base initialization failed with code %u\n"
             [ArgUint result]);;
    mret result
  else
    s ← this;
    match ipcStore s with
    | None =>
        print (SifError "WebcamCommandingService::initialize: IPC store unavailable\n" []);;
        mret FAILED
    | Some _ => mret OK
    end.

Definition isValidSubservice (subservice : Z) : ReturnValue_t :=
  let s := mkSubservice subservice in
  if decide (s = COMMAND_TAKE_SNAPSHOT ∨ s = COMMAND_SET_FRAME_RATE
             ∨ s = COMMAND_GET_FRAME_RATE ∨ s = PARAMETER_DUMP)
  then OK else INVALID_SUBSERVICE.

Definition getMessageQueueAndObject (subservice : Z) (tcData : option (list byte)) (tcDataLen : Z)
    (id : option MessageQueueId_t) (objectId : option object_id_t)
    : M (env (Service Store) W)
        (ReturnValue_t * option MessageQueueId_t * option object_id_t) :=
  objectId ← assign objectId objectIdWebcamHandler;
  let s := mkSubservice subservice in
  if decide (s = COMMAND_TAKE_SNAPSHOT ∨ s = COMMAND_SET_FRAME_RATE
             ∨ s = COMMAND_GET_FRAME_RATE) then
    oid ← deref objectId;
    handler ← ask (get_DeviceHandlerIF oid);
    match handler with
    | None => mret (INVALID_OBJECT, id, objectId)
    | Some commandQueue =>
        id ← assign id commandQueue;
        mret (OK, id, objectId)
    end
  else if decide (s = PARAMETER_DUMP) then
    oid ← deref objectId;
    receiver ← ask (get_ReceivesParameterMessagesIF oid);
    match receiver with
    | None => mret (INVALID_OBJECT, id, objectId)
    | Some commandQueue =>
        id ← assign id commandQueue;
        mret (OK, id, objectId)
    end
  else mret (INVALID_TC, id, objectId).

(** The second half of [prepareDeviceCommand]: the parameter bytes go into a fresh
    element of the IPC store, whose address goes into the message. *)
Definition prepareDeviceCommand_store (message : option Msg) (command : CommandId)
    (parameterBuffer : list byte) (parameterSize : nat)
    : M (env (Service Store) W) (ReturnValue_t * option Msg) :=
  s ← this;
  match ipcStore s with
  | None =>
      print (SifError "WebcamCommandingService::prepareDeviceCommand: IPC store unavailable\n" []);;
      mret (FAILED, message)
  | Some store =>
      '(result, storeId) ← call (getFreeElement store (Z.of_nat parameterSize));
      if decide (result ≠ OK) then mret (result, message)
      else
        (if decide (0 < parameterSize) then
           call_void (fillElement store storeId (take parameterSize parameterBuffer))
         else mret ());;
        let rawCommand := commandToRaw command in
        let messageId := makeCommandId DEVICE_HANDLER_COMMAND (uint8 rawCommand) in
        m ← deref message;
        mret (OK, Some (setParameter storeId (setCommand messageId m)))
  end.

Definition prepareDeviceCommand (message : option Msg) (command : CommandId)
    (tcData : option (list byte)) (tcDataLen : Z)
    : M (env (Service Store) W) (ReturnValue_t * option Msg) :=
  let parameterBuffer := replicate sizeof_double Byte.x00 in
  if decide (command = commandTakeSnapshot ∨ command = commandGetFrameRate) then
    if decide (tcDataLen ≠ 0%Z) then mret (INVALID_TC, message)
    else prepareDeviceCommand_store message command parameterBuffer 0
  else if decide (command = commandSetFrameRate) then
    if decide (tcDataLen ≠ Z.of_nat sizeof_double ∨ tcData = None) then
      mret (INVALID_TC, message)
    else
      bs ← read_prefix tcData sizeof_double;
      prepareDeviceCommand_store message command bs sizeof_double
  else mret (INVALID_TC, message).

Definition prepareParameterDump (message : option Msg) (tcData : option (list byte))
    (tcDataLen : Z) : M (env (Service Store) W) (ReturnValue_t * option Msg) :=
  let dump (parameterRaw : Z) : M (env (Service Store) W) (ReturnValue_t * option Msg) :=
    let parameterId := getFullParameterId WEBCAM_PARAMETER_DOMAIN parameterRaw 0 in
    m ← deref message;
    mret (OK, Some (ParameterMessage_setParameterDumpCommand parameterId m)) in
  if decide (0 < tcDataLen)%Z then
    if decide (tcDataLen ≠ 1%Z ∨ tcData = None) then mret (INVALID_TC, message)
    else
      bs ← read_prefix tcData 1;
      dump (byte_unsigned (hd Byte.x00 bs))
  else dump PARAM_FRAME_RATE.

Definition prepareCommand (message : option Msg) (subservice : Z) (tcData : option (list byte))
    (tcDataLen : Z) : M (env (Service Store) W) (ReturnValue_t * option Msg) :=
  let s := mkSubservice subservice in
  if decide (s = COMMAND_TAKE_SNAPSHOT) then
    prepareDeviceCommand message commandTakeSnapshot tcData tcDataLen
  else if decide (s = COMMAND_SET_FRAME_RATE) then
    prepareDeviceCommand message commandSetFrameRate tcData tcDataLen
  else if decide (s = COMMAND_GET_FRAME_RATE) then
    prepareDeviceCommand message commandGetFrameRate tcData tcDataLen
  else if decide (s = PARAMETER_DUMP) then
    prepareParameterDump message tcData tcDataLen
  else mret (CSB_INVALID_SUBSERVICE, message).

(** The stored reply data are sent as telemetry and then released, whatever the
    outcome of sending. *)
Definition send_stored_data (store : Store) (storeId : store_address_t) (subservice : Subservice)
    (content : list byte → tm_content) : M (env (Service Store) W) ReturnValue_t :=
  '(result, data) ← call (getData store storeId);
  if decide (result ≠ OK) then mret result
  else
    result ← call (base_sendTmPacket (Subservice_raw subservice) (content data));
    call (deleteData store storeId);;
    mret result.

Definition handleActionReply (reply : option Msg) (isStep : option bool)
    : M (env (Service Store) W) (ReturnValue_t * option bool) :=
  r ← deref reply;
  let replyId := getCommand r in
  if decide (replyId = COMPLETION_SUCCESS) then mret (EXECUTION_COMPLETE, isStep)
  else if decide (replyId = STEP_SUCCESS) then
    isStep ← assign isStep true;
    mret (OK, isStep)
  else if decide (replyId = DATA_REPLY) then
    isStep ← assign isStep true;
    let storeId := ActionMessage_getStoreId r in
    s ← this;
    match ipcStore s with
    | None =>
        print (SifError "WebcamCommandingService::handleActionReply: IPC store unavailable\n" []);;
        mret (FAILED, isStep)
    | Some store =>
        result ← send_stored_data store storeId TM_COMMAND_DATA_REPLY (λ data,
          DataReply objectIdWebcamHandler (ActionMessage_getActionId r) data
            (uint16 (Z.of_nat (length data))));
        mret (result, isStep)
    end
  else if decide (replyId = STEP_FAILED) then
    isStep ← assign isStep true;
    mret (ActionMessage_getReturnCode r, isStep)
  else if decide (replyId = COMPLETION_FAILED) then
    mret (ActionMessage_getReturnCode r, isStep)
  else mret (INVALID_REPLY, isStep).

Definition handleParameterReply (reply : option Msg) (objectId : object_id_t)
    : M (env (Service Store) W) ReturnValue_t :=
  r ← deref reply;
  if decide (getCommand r ≠ REPLY_PARAMETER_DUMP) then mret INVALID_REPLY
  else
    let storeId := ParameterMessage_getStoreId r in
    s ← this;
    match ipcStore s with
    | None =>
        print (SifError "WebcamCommandingService::handleParameterReply: IPC store unavailable\n" []);;
        mret FAILED
    | Some store =>
        send_stored_data store storeId TM_PARAMETER_DUMP (λ data,
          ParameterDumpReply objectId (ParameterMessage_getParameterId r) data
            (Z.of_nat (length data)))
    end.

Definition handleReply (reply : option Msg) (objectId : object_id_t) (isStep : option bool)
    : M (env (Service Store) W) (ReturnValue_t * option bool) :=
  r ← deref reply;
  if decide (getMessageType r = ACTION) then handleActionReply reply isStep
  else if decide (getMessageType r = PARAMETER) then
    result ← handleParameterReply reply objectId;
    mret (result, isStep)
  else mret (INVALID_REPLY, isStep).
End Service.
