(* ===== verification/CommandingProperties.v ===== *)
(** Properties of the commanding service: which telecommands it accepts, what it
    puts into the IPC store and into messages, and how it answers replies. *)

From S2P Require Import Prelude Words Fsfw FsfwModel WebcamDefinitions MessageTypes.
From S2P Require Import WebcamCommandingService.

(** When [prepareDeviceCommand] accepts its arguments, and the bytes it stores. *)
Definition device_args_ok (command : CommandId) (tcData : option (list byte)) (tcDataLen : Z) : Prop :=
  ((command = commandTakeSnapshot ∨ command = commandGetFrameRate) ∧ tcDataLen = 0%Z)
  ∨ (command = commandSetFrameRate ∧ tcDataLen = 8%Z ∧ tcData ≠ None).
#[export] Instance device_args_ok_dec command tcData tcDataLen :
  Decision (device_args_ok command tcData tcDataLen).
Proof. unfold device_args_ok. destruct tcData; solve_decision. Defined.

Definition device_payload (command : CommandId) (tcData : option (list byte)) : list byte :=
  if decide (command = commandSetFrameRate) then take 8 (default [] tcData) else [].

(** A buffer argument of the framework: a null pointer, or [len] bytes. *)
Definition valid_tc_data (tcData : option (list byte)) (tcDataLen : Z) : Prop :=
  match tcData with Some bs => tcDataLen = Z.of_nat (length bs) | None => (0 ≤ tcDataLen)%Z end.

(** The message that carries a device command and the address of its data. *)
Definition device_message `{FsfwConstants, CommandMessageIF Msg} (command : CommandId)
    (storeId : store_address_t) (m : Msg) : Msg :=
  setParameter storeId
    (setCommand (makeCommandId DEVICE_HANDLER_COMMAND (uint8 (commandToRaw command))) m).

Section Prepare.
Context `{FsfwConstantsLaws} {W Store TimeReader Msg : Type}.
Context `{CommandMessageIF Msg, !StorageManagerIF W Store, !StorageView W Store}.
Context `{!StorageManagerLaws W Store, !CommandingServiceBaseIF W Store}.
Context `{!ObjectManagerIF W Store TimeReader}.

(** What storing a command's data does. *)
Definition stored_command (command : CommandId) (payload : list byte) (m : Msg) (store : Store)
    (e : env (Service Store) W) (r : ReturnValue_t * option Msg) (e' : env (Service Store) W) : Prop :=
  self e' = self e ∧ console e' = console e ∧
  ((r.1 = OK ∧ ∃ a, contents (world e) store !! a = None ∧ (0 ≤ a < 2 ^ 32)%Z
      ∧ contents (world e') store = <[a := payload]> (contents (world e) store)
      ∧ r.2 = Some (device_message command a m))
   ∨ (r.1 ≠ OK ∧ r.2 = Some m ∧ contents (world e') store = contents (world e) store)).

Lemma prepare_store (m : Msg) command buffer n store (e : env (Service Store) W) :
  ipcStore (self e) = Some store → n ≤ length buffer →
  wp (prepareDeviceCommand_store (Some m) command buffer n) e
    (stored_command command (take n buffer) m store e).
Proof.
  destruct e as [[s] c w]. simpl. intros -> Hn.
  unfold prepareDeviceCommand_store, stored_command. run_service.
  destruct (getFreeElement store (Z.of_nat n) w) as [[rv a] w'] eqn:Hfree.
  destruct (decide (rv = OK)) as [-> | Hrv]; eval_tests; run_service.
  - destruct (getFreeElement_OK _ _ _ _ _ Hfree) as (Hnone & Ha & bs & Hbs & Hc).
    rewrite Nat2Z.id in Hbs.
    case_decide as Hpos; (split_and!; [done|done|left; split; [done|]]); exists a;
      (split_and!; [done|lia|lia| |done]).
    + rewrite (fillElement_contents store a (take n buffer) bs).
      * rewrite Hc, length_take_le, drop_ge, app_nil_r, insert_insert_eq by lia. done.
      * rewrite Hc. apply lookup_insert_eq.
      * rewrite length_take_le by lia. lia.
    + replace n with 0 in * by lia. destruct bs; [|done]. by rewrite Hc.
  - split_and!; [done|done|right]. split_and!; [done|done|].
    by apply (getFreeElement_error _ _ _ _ _ _ Hfree).
Qed.

Lemma prepareDeviceCommand_run (m : Msg) command tcData tcDataLen store (e : env (Service Store) W) :
  ipcStore (self e) = Some store → valid_tc_data tcData tcDataLen →
  (device_args_ok command tcData tcDataLen →
   wp (prepareDeviceCommand (Some m) command tcData tcDataLen) e
     (stored_command command (device_payload command tcData) m store e))
  ∧ (¬ device_args_ok command tcData tcDataLen →
     prepareDeviceCommand (Some m) command tcData tcDataLen e = Done ((INVALID_TC, Some m), e)).
Proof.
  intros Hs Hbuf. unfold prepareDeviceCommand, device_payload, device_args_ok.
  destruct (decide (command = commandTakeSnapshot ∨ command = commandGetFrameRate)) as [Hc|Hc].
  - assert (command ≠ commandSetFrameRate) by (by destruct Hc as [-> | ->]).
    rewrite (decide_False (P := command = commandSetFrameRate)) by done.
    case_decide as Hl; split; intros Hok; try done.
    + naive_solver.
    + apply (prepare_store m command _ 0); [done|simpl; lia].
    + naive_solver.
  - case_decide as Hset; [subst|split; [naive_solver|done]].
    destruct tcData as [bs|]; simpl in Hbuf; cbn [default].
    + case_decide as Hl; split; intros Hok; try done.
      * naive_solver.
      * assert (length bs = 8) as Hlen by (destruct Hok as [|(_ & ? & _)]; [naive_solver|lia]).
        apply wp_bind, (wp_read_prefix _ bs); [done|unfold sizeof_double; lia|].
        rewrite (take_ge bs) by (unfold sizeof_double; lia).
        apply (prepare_store m commandSetFrameRate bs sizeof_double); [done|].
        unfold sizeof_double. lia.
      * destruct Hok. right. split_and!; [done| |done]. unfold sizeof_double in Hl.
        destruct (decide (tcDataLen = 8%Z)); [done|]. destruct Hl. by left.
    + rewrite decide_True by (by right). split; [naive_solver|done].
Qed.
End Prepare.

(** * Telecommands *)

(** The device command a subservice stands for. *)
Definition subservice_command (subservice : Z) : option CommandId :=
  match subservice with
  | 1 => Some commandTakeSnapshot
  | 2 => Some commandSetFrameRate
  | 3 => Some commandGetFrameRate
  | _ => None
  end%Z.

Lemma subservice_cases (s : Z) :
  s = 1%Z ∨ s = 2%Z ∨ s = 3%Z ∨ s = 4%Z ∨ ((s ∉ [1; 2; 3; 4]%Z) ∧ s ≠ 1%Z ∧ s ≠ 2%Z ∧ s ≠ 3%Z ∧ s ≠ 4%Z).
Proof. set_unfold. lia. Qed.

Lemma subservice_unknown s :
  s ≠ 1%Z → s ≠ 2%Z → s ≠ 3%Z → subservice_command s = None.
Proof. intros. destruct s as [|[[?|?|]|[?|?|]|]|]; done. Qed.

(** Evaluates the subservice tests of a known subservice. *)
Ltac decide_subservice :=
  unfold COMMAND_TAKE_SNAPSHOT, COMMAND_SET_FRAME_RATE, COMMAND_GET_FRAME_RATE, PARAMETER_DUMP;
  repeat first
    [ rewrite decide_True by intuition congruence
    | rewrite decide_False by intuition congruence ].

Section Telecommands.
Context `{FsfwConstantsLaws} {W Store TimeReader Msg : Type}.
Context `{CommandMessageLaws Msg, !StorageManagerIF W Store, !StorageView W Store}.
Context `{!StorageManagerLaws W Store, !CommandingServiceBaseIF W Store}.
Context `{!ObjectManagerIF W Store TimeReader}.

Lemma prepareCommand_device (m : Msg) s c tcData tcDataLen :
  subservice_command s = Some c →
  prepareCommand (Some m) s tcData tcDataLen
  = prepareDeviceCommand (W:=W) (Some m) c tcData tcDataLen.
Proof.
  intros Hc. unfold prepareCommand.
  destruct (subservice_cases s) as [-> | [-> | [-> | [-> | (_ & ? & ? & ? & ?)]]]];
    simplify_eq/=; decide_subservice; try done.
  by rewrite subservice_unknown in Hc.
Qed.

Lemma subservice_raw s c :
  subservice_command s = Some c → CommandId_raw c ∈ [1; 2; 3]%Z.
Proof.
  destruct (subservice_cases s) as [-> | [-> | [-> | [-> | (_ & ? & ? & ? & ?)]]]];
    [intros; simplify_eq/=; set_solver..|by rewrite subservice_unknown].
Qed.

(** The fields of a device message survive the packing into a command word. *)
Lemma device_message_fields c a (m : Msg) :
  CommandId_raw c ∈ [1; 2; 3]%Z → (0 ≤ a < 2 ^ 32)%Z →
  getMessageType (device_message c a m) = DEVICE_HANDLER_COMMAND
  ∧ uint8 (Z.land (getCommand (device_message c a m)) 255) = CommandId_raw c
  ∧ getParameter (device_message c a m) = a.
Proof.
  intros Hc Ha. unfold device_message, commandToRaw.
  assert (uint8 (CommandId_raw c) = CommandId_raw c ∧ 0 ≤ CommandId_raw c < 256)%Z as [-> Hr].
  { unfold uint8, wrap. rewrite Z.mod_small; set_unfold; lia. }
  pose proof message_type_width as Ht. pose proof (makeCommandId_range _ _ Ht Hr).
  split_and!.
  - by rewrite getMessageType_setParameter, getMessageType_makeCommandId.
  - rewrite getCommand_setParameter, getCommand_setCommand, makeCommandId_low by done.
    by apply Z.mod_small.
  - by rewrite getParameter_setParameter.
Qed.


(** Preparing a parameter dump (subservice 4) asks for the parameter named by
    the single data byte, or for the frame rate when there are no data; more than
    one byte, or a length without a buffer, is [INVALID_TC]. Nothing but the
    message changes. *)
Theorem prepareParameterDump_correct (m : Msg) tcData tcDataLen (e : env (Service Store) W) :
  valid_tc_data tcData tcDataLen →
  prepareCommand (Some m) 4 tcData tcDataLen e =
  Done (match tcData with
        | Some [b] => (OK, Some (ParameterMessage_setParameterDumpCommand
                                   (getFullParameterId 0 (byte_unsigned b) 0) m))
        | _ => if decide (tcDataLen = 0%Z)
               then (OK, Some (ParameterMessage_setParameterDumpCommand
                                 (getFullParameterId 0 (ParameterId_raw parameterFrameRate) 0) m))
               else (INVALID_TC, Some m)
        end, e).
Proof.
  intros Hbuf. unfold prepareCommand. decide_subservice.
  unfold prepareParameterDump, valid_tc_data in *.
  destruct tcData as [[|b [|b' bs]]|]; subst; cbn [length].
  - done.
  - rewrite decide_True, decide_False by naive_solver lia. done.
  - rewrite !decide_True, decide_False by (lia || (left; lia)). done.
  - destruct (decide (tcDataLen = 0%Z)) as [-> | ?]; [done|].
    rewrite !decide_True by (lia || by right). done.
Qed.

(** The three entry points agree on the subservices: exactly 1 to 4 are valid;
    for any other byte [getMessageQueueAndObject] and [prepareCommand] refuse and
    change nothing, so that no invalid telecommand reaches the store; for a valid
    one the addressee is the webcam handler and the queue the one the object manager
    knows for the interface the subservice needs. *)
Theorem subservices_agree (s : Z) (m : Msg) tcData tcDataLen q o (e : env (Service Store) W) :
  (isValidSubservice s = OK ↔ s ∈ [1; 2; 3; 4]%Z)
  ∧ (isValidSubservice s ≠ OK →
     isValidSubservice s = INVALID_SUBSERVICE
     ∧ prepareCommand (Some m) s tcData tcDataLen e = Done ((CSB_INVALID_SUBSERVICE, Some m), e)
     ∧ getMessageQueueAndObject s tcData tcDataLen (Some q) (Some o) e
       = Done ((INVALID_TC, Some q, Some objectIdWebcamHandler), e))
  ∧ (isValidSubservice s = OK →
     getMessageQueueAndObject s tcData tcDataLen (Some q) (Some o) e
     = Done (match (if decide (s = 4%Z)
                    then get_ReceivesParameterMessagesIF objectIdWebcamHandler (world e)
                    else get_DeviceHandlerIF objectIdWebcamHandler (world e)) with
             | Some q' => (OK, Some q', Some objectIdWebcamHandler)
             | None => (INVALID_OBJECT, Some q, Some objectIdWebcamHandler)
             end, e)).
Proof.
  assert (INVALID_SUBSERVICE ≠ OK) as Herr.
  { intros Heq. apply errors_not_OK. rewrite <- Heq. set_solver. }
  destruct e as [v c w]. unfold isValidSubservice.
  destruct (subservice_cases s) as [-> | [-> | [-> | [-> | (Hin & ? & ? & ? & ?)]]]];
    unfold prepareCommand, getMessageQueueAndObject;
    run_service; decide_subservice.
  5: { split_and!; [by split|by intros _|by intros ?]. }
  all: split_and!; [split; [set_solver|done]|done|intros _].
  all: decide_subservice; repeat case_match; done.
Qed.
End Telecommands.

(** * Replies *)

Section Replies.
Context `{FsfwConstantsLaws} {W Store TimeReader Msg : Type}.
Context `{CommandMessageIF Msg, !StorageManagerIF W Store, !StorageView W Store}.
Context `{!StorageManagerLaws W Store, !CommandingServiceBaseIF W Store}.

(** Sending telemetry writes to the TM store and leaves the elements of the given
    IPC store alone. *)
Definition telemetry_preserves (store : Store) : Prop :=
  ∀ subservice content (w : W),
    contents (base_sendTmPacket subservice content w).2 store = contents w store.

(** What happens to stored reply data: sent if they exist, and then gone, whatever
    the result of sending; nothing is sent for an address that is not in use. *)
Definition reply_data_released (store : Store) (a : store_address_t) (subservice : Z)
    (content : list byte → tm_content) (e : env (Service Store) W)
    (rv : ReturnValue_t) (e' : env (Service Store) W) : Prop :=
  self e' = self e ∧ console e' = console e ∧
  contents (world e') store = delete a (contents (world e) store) ∧
  let w1 := (getData store a (world e)).2 in
  match contents (world e) store !! a with
  | Some data =>
      rv = (base_sendTmPacket subservice (content data) w1).1
      ∧ world e' = (deleteData store a (base_sendTmPacket subservice (content data) w1).2).2
  | None => rv ≠ OK ∧ world e' = w1
  end.

Lemma send_stored_data_run store a subservice content (e : env (Service Store) W) :
  telemetry_preserves store →
  wp (send_stored_data store a subservice content) e
    (reply_data_released store a (Subservice_raw subservice) content e).
Proof.
  intros Htm. destruct e as [s c w]. unfold send_stored_data, reply_data_released. run_env.
  pose proof (getData_contents store a w) as Hsame.
  destruct (contents w store !! a) as [data|] eqn:Ha.
  - pose proof (getData_OK _ _ _ _ Ha) as Hget.
    destruct (getData store a w) as [[rv bs] w1]. simplify_eq/=. eval_tests. run_env.
    pose proof (Htm (Subservice_raw subservice) (content data) w1) as Hkeep.
    destruct (base_sendTmPacket _ _ w1) as [rv2 w2].
    pose proof (deleteData_contents store a w2) as Hdel.
    cbn [fst snd] in *. destruct (deleteData store a w2) as [rv3 w3]. simpl in *.
    split_and!; [done..| |done|done]. by rewrite Hdel, Hkeep, Hsame.
  - pose proof (getData_error _ _ _ Ha) as Hget.
    destruct (getData store a w) as [[rv bs] w1]. simpl in *. rewrite decide_True by done.
    run_env. split_and!; [done..| |done|done]. by rewrite Hsame, delete_id.
Qed.

Lemma data_reply_run store reply b objectId (e : env (Service Store) W) :
  telemetry_preserves store → ipcStore (self e) = Some store →
  getMessageType reply = ACTION → getCommand reply = DATA_REPLY →
  wp (handleReply (Some reply) objectId (Some b)) e (λ r e', r.2 = Some true ∧
    reply_data_released store (ActionMessage_getStoreId reply) 131 (λ data,
      DataReply objectIdWebcamHandler (ActionMessage_getActionId reply) data
        (uint16 (Z.of_nat (length data)))) e r.1 e').
Proof.
  intros Htm Hs Ht Hc. unfold handleReply. apply wp_bind, (wp_deref _ reply); [done|].
  rewrite decide_True by done. unfold handleActionReply.
  apply wp_bind, (wp_deref _ reply); [done|].
  pose proof action_replies_distinct as Hd.
  rewrite !list_relations.list.NoDup_cons in Hd. destruct Hd as (Hd1 & Hd2 & _).
  rewrite Hc, (decide_False (P := DATA_REPLY = COMPLETION_SUCCESS)) by set_solver.
  rewrite (decide_False (P := DATA_REPLY = STEP_SUCCESS)) by set_solver.
  rewrite decide_True by done. apply wp_bind, (wp_assign _ b); [done|].
  apply wp_bind, wp_this. rewrite Hs. apply wp_bind.
  eapply wp_mono; [apply send_stored_data_run; exact Htm|].
  intros rv e' Hr. by apply wp_ret.
Qed.

(** (C15) A data reply is a step: the element it names is sent as telemetry packet 131
    with the data of exactly that element, and is then released whatever the result
    of sending, so that no reply leaks store space; every other element is
    untouched. If the address is not in use nothing is sent and the result is an
    error. The size announced in the packet is exact for data of fewer than 65536
    bytes. *)
Theorem data_reply_released store reply b objectId (e : env (Service Store) W) :
  telemetry_preserves store → ipcStore (self e) = Some store →
  getMessageType reply = ACTION → getCommand reply = DATA_REPLY →
  let a := ActionMessage_getStoreId reply in
  let content data := DataReply objectIdWebcamHandler (ActionMessage_getActionId reply) data
                        (uint16 (Z.of_nat (length data))) in
  wp (handleReply (Some reply) objectId (Some b)) e (λ r e',
    r.2 = Some true ∧ reply_data_released store a 131 content e r.1 e')
  ∧ (∀ data, (Z.of_nat (length data) < 2 ^ 16)%Z →
       content data = DataReply objectIdWebcamHandler (ActionMessage_getActionId reply) data
                        (Z.of_nat (length data))).
Proof.
  intros Htm Hs Ht Hc a content. split; [by apply data_reply_run|].
  intros data Hlen. unfold content, uint16, wrap. by rewrite Z.mod_small by lia.
Qed.

(** A parameter dump reply is sent as telemetry packet 130 for the object it came
    from, with the stored data and their exact size, and its store element is
    released whatever the result of sending; any other parameter message is
    refused without touching anything. *)
Theorem parameter_reply_released store reply isStep objectId (e : env (Service Store) W) :
  telemetry_preserves store → ipcStore (self e) = Some store →
  getMessageType reply = PARAMETER →
  if decide (getCommand reply = REPLY_PARAMETER_DUMP) then
    wp (handleReply (Some reply) objectId isStep) e (λ r e',
      r.2 = isStep ∧ reply_data_released store (ParameterMessage_getStoreId reply) 130
        (λ data, ParameterDumpReply objectId (ParameterMessage_getParameterId reply) data
                   (Z.of_nat (length data))) e r.1 e')
  else handleReply (Some reply) objectId isStep e = Done ((INVALID_REPLY, isStep), e).
Proof.
  intros Htm Hs Ht.
  assert (PARAMETER ≠ ACTION) as Hne.
  { pose proof message_types_distinct as Hd.
    rewrite !list_relations.list.NoDup_cons in Hd. set_solver. }
  assert (handleReply (Some reply) objectId isStep =
    (rv ← handleParameterReply (W:=W) (Some reply) objectId; mret (rv, isStep))) as ->.
  { transitivity (if decide (getMessageType reply = ACTION)
      then handleActionReply (W:=W) (Store:=Store) (Some reply) isStep
      else if decide (getMessageType reply = PARAMETER)
      then rv ← handleParameterReply (Some reply) objectId; mret (rv, isStep)
      else mret (INVALID_REPLY, isStep)); [done|].
    by rewrite decide_False, decide_True by congruence. }
  unfold handleParameterReply.
  destruct (decide (getCommand reply = REPLY_PARAMETER_DUMP)) as [Hc|Hc].
  - apply wp_bind, wp_bind, wp_ret. rewrite decide_False by (intros Hx; by apply Hx).
    apply wp_bind, wp_this. rewrite Hs.
    eapply wp_mono; [apply send_stored_data_run; exact Htm|].
    intros rv e' Hr. by apply wp_ret.
  - destruct e as [s c w]. run_env. by rewrite decide_True.
Qed.

(** The other replies are answered from the message alone: the service object, the
    console and the framework are as before, the step flag is set exactly for the
    two step replies, and a failure carries the return code of the reply. *)
Theorem plain_replies (reply : Msg) b objectId (e : env (Service Store) W) :
  getCommand reply ≠ DATA_REPLY → getMessageType reply ≠ PARAMETER →
  handleReply (Some reply) objectId (Some b) e = Done
    ((if decide (getMessageType reply ≠ ACTION) then (INVALID_REPLY, Some b)
      else if decide (getCommand reply = COMPLETION_SUCCESS) then (EXECUTION_COMPLETE, Some b)
      else if decide (getCommand reply = STEP_SUCCESS) then (OK, Some true)
      else if decide (getCommand reply = STEP_FAILED)
           then (ActionMessage_getReturnCode reply, Some true)
      else if decide (getCommand reply = COMPLETION_FAILED)
           then (ActionMessage_getReturnCode reply, Some b)
      else (INVALID_REPLY, Some b)), e).
Proof.
  intros Hd Hp. destruct e as [s c w]. unfold handleReply, handleActionReply. run_env.
  rewrite (decide_False (P := getMessageType reply = PARAMETER)) by done.
  rewrite (decide_False (P := getCommand reply = DATA_REPLY)) by done.
  destruct (decide (getMessageType reply = ACTION)) as [Ha|Ha].
  - rewrite (decide_False (P := getMessageType reply ≠ ACTION)) by (intros Hx; by apply Hx).
    by repeat case_decide.
  - by rewrite decide_True.
Qed.
End Replies.

(** * Initialisation *)

Section Initialise.
Context `{FsfwConstantsLaws} {W Store : Type}.
Context `{!CommandingServiceBaseIF W Store}.

(** Initialisation succeeds exactly when the base class initialises and has found
    an IPC store, and a service that initialised has one; a failure is reported on
    the console once and passed on. *)
Theorem initialize_correct (e : env (Service Store) W) :
  wp initialize e (λ rv e',
    (rv = OK ↔ (base_initialize (world e)).1.1 = OK ∧ (base_initialize (world e)).1.2 ≠ None)
    ∧ (rv = OK → ipcStore (self e') ≠ None ∧ console e' = console e)
    ∧ (rv ≠ OK → ∃ f args, console e' = console e ++ [SifError f args])
    ∧ ((base_initialize (world e)).1.1 ≠ OK → rv = (base_initialize (world e)).1.1)
    ∧ world e' = (base_initialize (world e)).2).
Proof.
  destruct e as [s c w]. unfold initialize. run_service.
  destruct (base_initialize w) as [[rv st] w']. run_service.
  assert (FAILED ≠ OK) as Hf by (intros Heq; apply errors_not_OK; rewrite <- Heq; set_solver).
  destruct (decide (rv = OK)) as [-> | Hrv];
    [rewrite (decide_False (P := OK ≠ OK)) by (intros Hx; by apply Hx)|rewrite (decide_True (P := rv ≠ OK)) by done];
    run_service.
  - destruct st as [st|]; run_service; simpl; split_and!; try done; intros; naive_solver.
  - simpl. split_and!; try done; [naive_solver..|]. eauto.
Qed.
End Initialise.

(** * Concrete telecommands and replies *)

Definition example_service : env (Service Z) model_world :=
  Env (mkService (Some 10%Z)) [] model_init.
Definition example_rate_bytes : list byte := replicate 8 Byte.x40.
Definition example_message : model_msg := ModelMsg 0 0 0.

(** A service whose IPC store holds reply data at address 3. *)
Definition example_replying : env (Service Z) model_world :=
  Env (mkService (Some 10%Z)) []
    (set_contents 10 {[ 3%Z := example_rate_bytes; 4%Z := [] ]} model_init).

Lemma model_telemetry_preserves (store : Z) : telemetry_preserves (W:=model_world) store.
Proof. done. Qed.


Theorem prepareParameterDump_correct_witness :
  prepareCommand (Some example_message) 4 (Some [Byte.x01]) 1 example_service
  = Done ((OK, Some (ParameterMessage_setParameterDumpCommand
                       (getFullParameterId 0 1 0) example_message)), example_service).
Proof.
  by apply (prepareParameterDump_correct example_message (Some [Byte.x01]) 1 example_service).
Defined.

Theorem subservices_agree_witness :
  prepareCommand (Some example_message) 9 None 0 example_service
  = Done ((CSB_INVALID_SUBSERVICE, Some example_message), example_service).
Proof.
  by apply (subservices_agree 9 example_message None 0 0 0 example_service).
Defined.

Theorem data_reply_released_witness :
  wp (handleReply (Some (ModelMsg 0x0503 1 3)) 0 (Some false)) example_replying (λ r e',
    r.2 = Some true ∧ reply_data_released 10%Z 3 131 (λ data,
      DataReply objectIdWebcamHandler 1 data (uint16 (Z.of_nat (length data))))
      example_replying r.1 e').
Proof.
  exact (proj1 (data_reply_released 10%Z (ModelMsg 0x0503 1 3) false 0 example_replying
    (model_telemetry_preserves 10%Z) eq_refl eq_refl eq_refl)).
Defined.

Theorem parameter_reply_released_witness :
  wp (handleReply (Some (ModelMsg 0x0601 1 3)) 42 None) example_replying (λ r e',
    r.2 = None ∧ reply_data_released 10%Z 3 130 (λ data,
      ParameterDumpReply 42 1 data (Z.of_nat (length data))) example_replying r.1 e').
Proof.
  exact (parameter_reply_released 10%Z (ModelMsg 0x0601 1 3) None 42 example_replying
    (model_telemetry_preserves 10%Z) eq_refl eq_refl).
Defined.

Theorem plain_replies_witness :
  handleReply (Some (ModelMsg 0x0504 0 77)) 0 (Some false) example_replying
  = Done ((77%Z, Some true), example_replying).
Proof.
  etransitivity; [apply (plain_replies (ModelMsg 0x0504 0 77) false 0 example_replying); done|].
  done.
Defined.

Theorem initialize_correct_witness :
  wp initialize (Env (mkService None) [] model_init) (λ rv e',
    rv = OK → ipcStore (self e') ≠ None).
Proof.
  eapply wp_mono; [apply (initialize_correct (Env (mkService None) [] model_init))|].
  intros rv e' (_ & H & _) Hrv. by apply H.
Defined.
