(* ===== verification/TmtcInfrastructure.v ===== *)
(** [mission/tmtc/TmtcInfrastructure.{h,cpp}]: the telemetry sink, the receiver of
    verification reports and the telecommand distributor. Their [while] loops over
    a message queue are run with fuel, which [TmtcProperties.v] shows to be enough.
    What [printf] writes is rendered. *)

From stdpp Require Import pretty.
From Stdlib Require Import Ascii.
From S2P Require Import Prelude Words Fsfw WebcamDefinitions.

(** * Conversions of printf *)

(** [%u], [%zu] and [%d] of a value that is not negative. *)
Definition printf_u (z : Z) : string := pretty (Z.to_N z).
(** [%d] *)
Definition printf_d (z : Z) : string := pretty z.

Definition hex_digit (z : Z) : Ascii.ascii :=
  match String.get (Z.to_nat z) "0123456789abcdef" with Some c => c | None => "?"%char end.
(** [%02x] of a byte *)
Definition printf_02x (b : byte) : string :=
  String (hex_digit (byte_unsigned b `div` 16))
    (String (hex_digit (byte_unsigned b `mod` 16)) EmptyString).

Definition newline : string := String (Ascii.ascii_of_nat 10) EmptyString.

Definition MAX_TM_PRINT_BYTES : nat := 32.
Definition QUEUE_DEPTH : Z := 10.

(** * The objects *)

Record Sink (Queue Store TimeReader : Type) := mkSink {
  sink_queue : option Queue;
  tmStore : option Store;
  timeReader : option TimeReader;
}.
Arguments mkSink {_ _ _} _ _ _.
Arguments sink_queue {_ _ _} _.
Arguments tmStore {_ _ _} _.
Arguments timeReader {_ _ _} _.
#[export] Instance Sink_settable Q S T : Settable (Sink Q S T) := λ s,
  mkSink (sink_queue s) (tmStore s) (timeReader s).

Record Receiver (Queue : Type) := mkReceiver { receiver_queue : option Queue }.
Arguments mkReceiver {_} _.
Arguments receiver_queue {_} _.
#[export] Instance Receiver_settable Q : Settable (Receiver Q) := λ r,
  mkReceiver (receiver_queue r).

Record Distributor (Service Store : Type) := mkDistributor {
  registeredService : option Service;
  serviceRequestQueue : MessageQueueId_t;
  registeredServiceId : Z;
  tcStore : option Store;
  sequenceCounter : Z;
  apid : Z;
}.
Arguments mkDistributor {_ _} _ _ _ _ _ _.
Arguments registeredService {_ _} _.
Arguments serviceRequestQueue {_ _} _.
Arguments registeredServiceId {_ _} _.
Arguments tcStore {_ _} _.
Arguments sequenceCounter {_ _} _.
Arguments apid {_ _} _.
#[export] Instance Distributor_settable V S : Settable (Distributor V S) := λ d,
  mkDistributor (registeredService d) (serviceRequestQueue d) (registeredServiceId d)
    (tcStore d) (sequenceCounter d) (apid d).

(** Runs member functions of these objects on a symbolic object. *)
Ltac run_tmtc :=
  lazy beta iota zeta delta [assign_member this update call call_void ask print
    self console world mbind M_bind mret M_ret get put modify deref assign
    assign_if read_prefix undefined out_of_fuel set_field settable_eta wp
    option_fmap option_map fmap Sink_settable Receiver_settable Distributor_settable
    sink_queue tmStore timeReader receiver_queue registeredService serviceRequestQueue
    registeredServiceId tcStore sequenceCounter apid].

Section Tmtc.
Context `{FsfwConstants} {W Queue Store TimeReader TC Service : Type}.
Context `{!MessageQueueIF W Queue, !StorageManagerIF W Store, !PusIF TC TimeReader}.
Context `{!ObjectManagerIF W Store TimeReader, !AcceptsTelecommandsIF W Service}.

(** * StubTelemetrySink *)

Definition StubTelemetrySink : Sink Queue Store TimeReader := mkSink None None None.

Definition StubTelemetrySink_destructor : M (env (Sink Queue Store TimeReader) W) unit :=
  s ← this;
  match sink_queue s with
  | Some queue => call_void (deleteMessageQueue queue)
  | None => mret ()
  end.

Definition StubTelemetrySink_initialize : M (env (Sink Queue Store TimeReader) W) ReturnValue_t :=
  queue ← call (createMessageQueue QUEUE_DEPTH MAX_MESSAGE_SIZE);
  sink_queue ::= queue;;
  store ← ask (get_StorageManagerIF TM_STORE);
  tmStore ::= store;;
  reader ← ask (get_TimeReaderIF TIME_STAMPER);
  timeReader ::= reader;;
  call SystemObject_initialize.

(** [for (idx = 0; idx < bytesToPrint; idx++) printf("%02x", data[idx]);] with
    [n] iterations left. *)
Fixpoint print_hex (data : list byte) (idx n : nat) : M (env (Sink Queue Store TimeReader) W) unit :=
  match n with
  | O => mret ()
  | S n' =>
      match data !! idx with
      | None => undefined
      | Some b => print (Stdout (printf_02x b));; print_hex data (S idx) n'
      end
  end.

(** The branches of the loop body that print the element's data. *)
Definition print_telemetry (data : list byte) : M (env (Sink Queue Store TimeReader) W) unit :=
  let size := length data in
  s ← this;
  let '(result, header) := parseDataWithoutCrcCheck (TC:=TC) (timeReader s) data in
  if decide (result = OK) then
    print (Stdout ("[TM] service " +:+ printf_u (tm_service header) +:+ " subservice "
      +:+ printf_u (tm_subservice header) +:+ ", " +:+ printf_u (tm_userDataLen header)
      +:+ " bytes" +:+ newline))
  else
    let bytesToPrint := if decide (size < MAX_TM_PRINT_BYTES) then size else MAX_TM_PRINT_BYTES in
    print (Stdout ("[TM] Received " +:+ printf_u (Z.of_nat size)
      +:+ " bytes of telemetry (first " +:+ printf_u (Z.of_nat bytesToPrint) +:+ " bytes): "));;
    print_hex data 0 bytesToPrint;;
    print (Stdout newline).

(** The loop body after a message has been received. *)
Definition print_stored_telemetry (store : Store) (storeId : store_address_t)
    : M (env (Sink Queue Store TimeReader) W) unit :=
  '(result, data) ← call (getData store storeId);
  if decide (result = OK) then
    print_telemetry data;;
    call (deleteData store storeId);;
    mret ()
  else mret ().

Fixpoint StubTelemetrySink_loop (fuel : nat) (queue : Queue) (store : Store)
    : M (env (Sink Queue Store TimeReader) W) unit :=
  match fuel with
  | O => out_of_fuel
  | S fuel' =>
      '(received, storeId) ← call (receive_TmTcMessage queue);
      if decide (received = OK) then
        print_stored_telemetry store storeId;;
        StubTelemetrySink_loop fuel' queue store
      else mret ()
  end.

Definition StubTelemetrySink_performOperation (fuel : nat) (operationCode : Z)
    : M (env (Sink Queue Store TimeReader) W) ReturnValue_t :=
  s ← this;
  match sink_queue s, tmStore s with
  | Some queue, Some store => StubTelemetrySink_loop fuel queue store;; mret OK
  | _, _ => mret OK
  end.

Definition StubTelemetrySink_getReportReceptionQueue (virtualChannel : Z)
    : M (env (Sink Queue Store TimeReader) W) MessageQueueId_t :=
  s ← this;
  match sink_queue s with
  | None => mret NO_QUEUE
  | Some queue => mret (queue_getId queue)
  end.

(** * StubVerificationReceiver *)

Definition StubVerificationReceiver : Receiver Queue := mkReceiver None.

Definition StubVerificationReceiver_destructor : M (env (Receiver Queue) W) unit :=
  r ← this;
  match receiver_queue r with
  | Some queue => call_void (deleteMessageQueue queue)
  | None => mret ()
  end.

Definition StubVerificationReceiver_initialize : M (env (Receiver Queue) W) ReturnValue_t :=
  r ← this;
  (match receiver_queue r with
   | None =>
       queue ← call (createMessageQueue QUEUE_DEPTH MAX_MESSAGE_SIZE);
       receiver_queue ::= queue
   | Some _ => mret ()
   end);;
  call SystemObject_initialize.

(** The error code is converted with [static_cast<int>]. *)
Definition print_report (r : verification_report) : M (env (Receiver Queue) W) unit :=
  print (Stdout ("[TMTC] Verification report " +:+ printf_u (report_id r) +:+ " ack 0x"
    +:+ printf_02x (byte_of_Z (report_ackFlags r)) +:+ " step " +:+ printf_u (report_step r)
    +:+ " error " +:+ printf_d (int_of_uint32 (uint32 (report_errorCode r))) +:+ newline)).

Fixpoint StubVerificationReceiver_loop (fuel : nat) (queue : Queue) : M (env (Receiver Queue) W) unit :=
  match fuel with
  | O => out_of_fuel
  | S fuel' =>
      '(received, report) ← call (receive_PusVerificationMessage queue);
      if decide (received = OK) then
        print_report report;;
        StubVerificationReceiver_loop fuel' queue
      else mret ()
  end.

Definition StubVerificationReceiver_performOperation (fuel : nat) (operationCode : Z)
    : M (env (Receiver Queue) W) ReturnValue_t :=
  r ← this;
  match receiver_queue r with
  | None => mret OK
  | Some queue => StubVerificationReceiver_loop fuel queue;; mret OK
  end.

Definition StubVerificationReceiver_getVerificationQueue
    : M (env (Receiver Queue) W) MessageQueueId_t :=
  r ← this;
  (match receiver_queue r with
   | None =>
       queue ← call (createMessageQueue QUEUE_DEPTH MAX_MESSAGE_SIZE);
       receiver_queue ::= queue
   | Some _ => mret ()
   end);;
  r ← this;
  match receiver_queue r with
  | None => mret NO_QUEUE
  | Some queue => mret (queue_getId queue)
  end.

(** * StubPusDistributor *)

Definition StubPusDistributor : Distributor Service Store :=
  mkDistributor None NO_QUEUE 0 None 0 0x01.

Definition StubPusDistributor_initialize : M (env (Distributor Service Store) W) ReturnValue_t :=
  store ← ask (get_StorageManagerIF TC_STORE);
  tcStore ::= store;;
  call SystemObject_initialize.

Definition registerService (service : option Service)
    : M (env (Distributor Service Store) W) ReturnValue_t :=
  match service with
  | None => mret FAILED
  | Some s =>
      registeredService ::= service;;
      identifier ← ask (getIdentifier s);
      registeredServiceId ::= (uint8 identifier);;
      queue ← ask (getRequestQueue s);
      serviceRequestQueue ::= queue;;
      mret OK
  end.

(** [if (data != nullptr && dataLen > 0) pusParams.setRawAppData(data, dataLen);] *)
Definition raw_app_data (data : option (list byte)) (dataLen : Z)
    : M (env (Distributor Service Store) W) (option (list byte)) :=
  if decide (data ≠ None ∧ (0 < dataLen)%Z) then
    bs ← read_prefix data (Z.to_nat dataLen);
    mret (Some bs)
  else mret None.

Definition sendCommand (subservice : Z) (data : option (list byte)) (dataLen : Z)
    : M (env (Distributor Service Store) W) ReturnValue_t :=
  d ← this;
  match registeredService d, tcStore d with
  | Some _, Some store =>
      sequenceCounter ::= (uint16 (sequenceCounter d + 1)%Z);;
      appData ← raw_app_data data dataLen;
      let creator := updateSpLengthField (PusTcCreator (TC:=TC)
        {| tc_apid := apid d; tc_sequenceCount := sequenceCounter d;
           tc_service := registeredServiceId d; tc_subservice := subservice;
           tc_appData := appData |}) in
      let serializedSize := getSerializedSize creator in
      '(result, storeId) ← call (getFreeElement store serializedSize);
      if decide (result ≠ OK) then mret result
      else
        let '(result, bytes) := serializeBe creator serializedSize in
        call_void (fillElement store storeId bytes);;
        if decide (result ≠ OK) then
          call (deleteData store storeId);;
          mret result
        else call (send_TmTcMessage (serviceRequestQueue d) storeId)
  | _, _ => mret FAILED
  end.
End Tmtc.
