(* ===== verification/TmtcProperties.v ===== *)
(** Properties of the telemetry sink, the verification receiver and the telecommand
    distributor: the loops over the queues terminate and empty them, what is
    printed determines what was received, the store elements of sent and received
    packets, and the sequence counter. *)

From S2P Require Import Prelude Words Fsfw FsfwModel WebcamDefinitions TmtcInfrastructure.

(** * Hex dumps *)

Definition hex_value (c : Ascii.ascii) : option Z :=
  match String.index 0 (String c EmptyString) "0123456789abcdef" with
  | Some n => Some (Z.of_nat n)
  | None => None
  end.

(** Reads back what [%02x] printed for one byte. *)
Definition scan_02x (s : string) : option byte :=
  match s with
  | String h (String l EmptyString) =>
      h ← hex_value h; l ← hex_value l; Some (byte_of_Z (16 * h + l))
  | _ => None
  end.
Definition scan_item (i : console_item) : option byte :=
  match i with Stdout s => scan_02x s | _ => None end.

Definition hex_items (data : list byte) : list console_item :=
  (λ b, Stdout (printf_02x b)) <$> data.

Lemma scan_printf_02x b : scan_02x (printf_02x b) = Some b.
Proof. by destruct b. Qed.

Lemma scan_hex_items data : mapM scan_item (hex_items data) = Some data.
Proof.
  induction data as [|b data IH]; [done|].
  unfold hex_items in *. cbn [fmap list_fmap mapM scan_item].
  rewrite scan_printf_02x. cbn [mbind option_bind]. by rewrite IH.
Qed.

(** What the sink prints for one element's data. *)
Definition telemetry_items `{FsfwConstants} {TC TimeReader} `{!PusIF TC TimeReader}
    (reader : option TimeReader) (data : list byte) : list console_item :=
  let '(result, header) := parseDataWithoutCrcCheck (TC:=TC) reader data in
  if decide (result = OK) then
    [Stdout ("[TM] service " +:+ printf_u (tm_service header) +:+ " subservice "
      +:+ printf_u (tm_subservice header) +:+ ", " +:+ printf_u (tm_userDataLen header)
      +:+ " bytes" +:+ newline)]
  else
    Stdout ("[TM] Received " +:+ printf_u (Z.of_nat (length data))
      +:+ " bytes of telemetry (first " +:+ printf_u (Z.of_nat (length data `min` 32))
      +:+ " bytes): ") :: hex_items (take 32 data) ++ [Stdout newline].

(** What it prints for the messages waiting in its queue: each element once, at its
    first message. *)
Fixpoint queue_items `{FsfwConstants} {TC TimeReader} `{!PusIF TC TimeReader}
    (reader : option TimeReader) (c : gmap Z (list byte)) (msgs : list Z) : list console_item :=
  match msgs with
  | [] => []
  | a :: msgs =>
      from_option (telemetry_items (TC:=TC) reader) [] (c !! a)
      ++ queue_items (TC:=TC) reader (delete a c) msgs
  end.

Section Sink.
Context `{FsfwConstants} {W Queue Store TimeReader TC : Type}.
Context `{!StorageManagerIF W Store, !StorageView W Store, !StorageManagerLaws W Store}.
Context `{!MessageQueueIF W Queue, !QueueView W Queue, !MessageQueueLaws W Queue Store}.
Context `{!StoreQueueLaws W Queue Store, !PusIF TC TimeReader}.
Context `{!ObjectManagerIF W Store TimeReader}.

Abbreviation sink_env := (env (Sink Queue Store TimeReader) W).

Lemma print_hex_run data n idx (e : sink_env) :
  idx + n ≤ length data →
  print_hex data idx n e
  = Done ((), Env (self e) (console e ++ hex_items (take n (drop idx data))) (world e)).
Proof.
  revert idx e. induction n as [|n IH]; intros idx [s c w] Hn; simpl.
  - by rewrite app_nil_r.
  - destruct (lookup_lt_is_Some_2 data idx) as [b Hb]; [lia|].
    rewrite Hb, (drop_S _ _ _ Hb). run_tmtc. rewrite IH by lia. simpl.
    by rewrite <- app_assoc.
Qed.

Lemma print_telemetry_run data (e : sink_env) :
  print_telemetry (TC:=TC) data e
  = Done ((), Env (self e)
      (console e ++ telemetry_items (TC:=TC) (timeReader (self e)) data) (world e)).
Proof.
  destruct e as [[q st reader] c w]. unfold print_telemetry, telemetry_items. run_tmtc.
  destruct (parseDataWithoutCrcCheck reader data) as [rv header].
  destruct (decide (rv = OK)); run_tmtc; [done|].
  assert ((if decide (length data < MAX_TM_PRINT_BYTES) then length data else MAX_TM_PRINT_BYTES)
          = length data `min` 32) as -> by (unfold MAX_TM_PRINT_BYTES; case_decide; lia).
  rewrite print_hex_run by (cbn [Nat.add]; lia). run_tmtc. do 2 f_equal.
  rewrite <- !app_assoc. cbn [app]. do 3 f_equal.
  f_equal. f_equal. rewrite drop_0.
  destruct (decide (length data ≤ 32)); [|by rewrite Nat.min_r by lia].
  by rewrite Nat.min_l, !take_ge by lia.
Qed.

Lemma print_stored_run st a (e : sink_env) :
  wp (print_stored_telemetry (TC:=TC) st a) e (λ _ e',
    self e' = self e
    ∧ (∀ q, tm_messages (world e') q = tm_messages (world e) q)
    ∧ contents (world e') st = delete a (contents (world e) st)
    ∧ console e' = console e ++
        from_option (telemetry_items (TC:=TC) (timeReader (self e))) [] (contents (world e) st !! a)).
Proof.
  destruct e as [s c w]. unfold print_stored_telemetry. apply wp_bind. simpl.
  pose proof (getData_contents st a w) as Hget.
  assert (∀ q, tm_messages (getData st a w).2 q = tm_messages w q) as Hgetq by apply getData_queues.
  destruct (contents w st !! a) as [data|] eqn:Ha.
  - pose proof (getData_OK st a w data Ha) as Hdata.
    destruct (getData st a w) as [[rv bs] w1] eqn:Hg. simplify_eq/=.
    apply (wp_call _ (OK, data) w1); [done|]. rewrite decide_True by done.
    apply wp_bind. eapply wp_done; [apply print_telemetry_run|]. simpl.
    assert (∀ q, tm_messages (deleteData st a w1).2 q = tm_messages w1 q) as Hdelq
      by apply deleteData_queues.
    pose proof (deleteData_contents st a w1) as Hdel.
    destruct (deleteData st a w1) as [rv2 w2] eqn:Hd. simpl in *.
    apply wp_bind, (wp_call _ rv2 w2); [done|]. apply wp_ret. simpl.
    split_and!; [done|intros q; by rewrite Hdelq, Hgetq|congruence|done].
  - pose proof (getData_error st a w Ha) as Herr.
    destruct (getData st a w) as [[rv bs] w1] eqn:Hg. simpl in *.
    apply (wp_call _ (rv, bs) w1); [done|]. rewrite decide_False by done. apply wp_ret. simpl.
    by rewrite app_nil_r, delete_id.
Qed.

Lemma sink_loop_run fuel q st (e : sink_env) :
  (length (tm_messages (world e) q) < fuel)%nat →
  wp (StubTelemetrySink_loop (TC:=TC) fuel q st) e (λ _ e',
    self e' = self e ∧ tm_messages (world e') q = []
    ∧ contents (world e') st = foldl (λ c a, delete a c) (contents (world e) st)
                                 (tm_messages (world e) q)
    ∧ console e' = console e ++ queue_items (TC:=TC) (timeReader (self e))
                     (contents (world e) st) (tm_messages (world e) q)).
Proof.
  revert e. induction fuel as [|fuel IH]; intros [s c w] Hfuel; simpl in Hfuel; [lia|].
  cbn [StubTelemetrySink_loop]. apply wp_bind. simpl.
  pose proof (receive_TmTc_rest (Queue:=Queue) (Store:=Store) q w) as Hrest.
  pose proof (receive_TmTc_stores (Queue:=Queue) q w st) as Hst.
  destruct (tm_messages w q) as [|a msgs] eqn:Hq.
  - pose proof (receive_TmTc_empty (Store:=Store) q w Hq) as Hrv.
    destruct (receive_TmTcMessage q w) as [[rv a] w1] eqn:Hrcv. simpl in *.
    apply (wp_call _ (rv, a) w1); [done|]. rewrite decide_False by done. apply wp_ret.
    simpl. by rewrite app_nil_r.
  - pose proof (receive_TmTc_cons (Store:=Store) q w a msgs Hq) as Hrv.
    destruct (receive_TmTcMessage q w) as [[rv a'] w1] eqn:Hrcv. simpl in *.
    injection Hrv as -> ->.
    apply (wp_call _ (OK, a) w1); [done|]. rewrite decide_True by done. apply wp_bind.
    eapply wp_mono; [apply print_stored_run|]. intros _ [s2 c2 w2] (Hs2 & Hq2 & Hc2 & Hcons2).
    simpl in *. subst s2. specialize (Hq2 q).
    eapply wp_mono; [apply IH; simpl; rewrite Hq2, Hrest; lia|]. simpl.
    intros _ e' (-> & Hempty & Hcont & Hcons). split_and!; [done..| |].
    + by rewrite Hcont, Hq2, Hrest, Hc2, Hst.
    + by rewrite Hcons, Hcons2, Hq2, Hrest, Hc2, Hst, <- app_assoc.
Qed.

Lemma lookup_foldl_delete (c : gmap Z (list byte)) msgs b :
  foldl (λ c a, delete a c) c msgs !! b = if decide (b ∈ msgs) then None else c !! b.
Proof.
  revert c. induction msgs as [|a msgs IH]; intros c; cbn [foldl]; [done|].
  rewrite IH. destruct (decide (b = a)) as [-> | Hne].
  - rewrite lookup_delete_eq, (decide_True (P := a ∈ a :: msgs)) by set_solver. by case_decide.
  - rewrite lookup_delete_ne by done. do 2 case_decide; set_solver.
Qed.

Lemma sink_operation_run fuel op q st (e : sink_env) :
  sink_queue (self e) = Some q → tmStore (self e) = Some st →
  length (tm_messages (world e) q) < fuel →
  wp (StubTelemetrySink_performOperation (TC:=TC) fuel op) e (λ rv e',
    rv = OK ∧ self e' = self e ∧ tm_messages (world e') q = []
    ∧ (∀ a, contents (world e') st !! a
            = if decide (a ∈ tm_messages (world e) q) then None else contents (world e) st !! a)
    ∧ console e' = console e ++ queue_items (TC:=TC) (timeReader (self e))
                     (contents (world e) st) (tm_messages (world e) q)).
Proof.
  intros Hq Hst Hfuel. unfold StubTelemetrySink_performOperation.
  apply wp_bind, wp_this. rewrite Hq, Hst. apply wp_bind.
  eapply wp_mono; [by apply (sink_loop_run fuel q st e)|].
  intros _ e' (Hs & Hempty & Hcont & Hcons). apply wp_ret. split_and!; [done..| |done].
  intros a. rewrite Hcont. apply lookup_foldl_delete.
Qed.

(** (C16) One operation of the telemetry sink terminates and empties its queue, for any
    fuel above the number of waiting messages: every element named by a message is
    printed once and released, every other element of the TM store is untouched, and
    the output is that of the messages in their order. Without a queue or a store
    the operation does nothing. *)
Theorem telemetry_sink_drains fuel op (e : sink_env) :
  match sink_queue (self e), tmStore (self e) with
  | Some q, Some st =>
      (length (tm_messages (world e) q) < fuel)%nat →
      wp (StubTelemetrySink_performOperation (TC:=TC) fuel op) e (λ rv e',
        rv = OK ∧ self e' = self e ∧ tm_messages (world e') q = []
        ∧ (∀ a, contents (world e') st !! a
                = if decide (a ∈ tm_messages (world e) q) then None else contents (world e) st !! a)
        ∧ console e' = console e ++ queue_items (TC:=TC) (timeReader (self e))
                         (contents (world e) st) (tm_messages (world e) q))
  | _, _ => StubTelemetrySink_performOperation (TC:=TC) fuel op e = Done (OK, e)
  end.
Proof.
  destruct (sink_queue (self e)) as [q|] eqn:Hq; [destruct (tmStore (self e)) as [st|] eqn:Hst|].
  - by apply sink_operation_run.
  - unfold StubTelemetrySink_performOperation, mbind, M_bind, this. by rewrite Hq, Hst.
  - unfold StubTelemetrySink_performOperation, mbind, M_bind, this. by rewrite Hq.
Qed.

(** (C23) The hex dump of telemetry that cannot be parsed can be read back: it is a
    header, exactly the first 32 bytes of the data (all of them when there are
    fewer) and a newline, and no byte outside the element is read. *)
Theorem hex_dump_roundtrip data (e : sink_env) :
  (parseDataWithoutCrcCheck (TC:=TC) (timeReader (self e)) data).1 ≠ OK →
  ∃ header dump, print_telemetry (TC:=TC) data e
      = Done ((), Env (self e) (console e ++ header :: dump ++ [Stdout newline]) (world e))
    ∧ mapM scan_item dump = Some (take 32 data) ∧ (length dump ≤ 32)%nat.
Proof.
  intros Hrv. rewrite print_telemetry_run. unfold telemetry_items.
  destruct (parseDataWithoutCrcCheck _ data) as [rv header]. simpl in Hrv.
  rewrite decide_False by done.
  eexists _, (hex_items (take 32 data)). split; [done|]. split; [apply scan_hex_items|].
  unfold hex_items. rewrite length_fmap, length_take. lia.
Qed.

(** A telemetry sink has no queue and no work before it is initialised: it
    announces [NO_QUEUE]. Initialisation creates a queue of depth ten and looks up
    the TM store and the time reader; from then on the queue's identifier is
    announced, and destruction gives the queue back. *)
Theorem telemetry_sink_lifecycle c (w : W) channel q w1 fuel op :
  createMessageQueue 10 MAX_MESSAGE_SIZE w = (q, w1) →
  let e0 : sink_env := Env StubTelemetrySink c w in
  StubTelemetrySink_getReportReceptionQueue channel e0 = Done (NO_QUEUE, e0)
  ∧ StubTelemetrySink_performOperation (TC:=TC) fuel op e0 = Done (OK, e0)
  ∧ ∃ e1, StubTelemetrySink_initialize e0 = Done ((SystemObject_initialize w1).1, e1)
    ∧ self e1 = mkSink q (get_StorageManagerIF TM_STORE w1) (get_TimeReaderIF TIME_STAMPER w1)
    ∧ StubTelemetrySink_getReportReceptionQueue channel e1
      = Done (from_option queue_getId NO_QUEUE q, e1)
    ∧ StubTelemetrySink_destructor e1
      = Done ((), Env (self e1) c (from_option deleteMessageQueue id q (world e1))).
Proof.
  intros Hq. unfold StubTelemetrySink_initialize, QUEUE_DEPTH.
  split; [done|]. split; [done|]. run_tmtc. rewrite Hq. run_tmtc.
  destruct (SystemObject_initialize w1) as [rv w2]. eexists. split; [done|].
  split; [done|]. by destruct q.
Qed.
End Sink.

(** * The verification receiver *)

Section Receiver.
Context `{FsfwConstants} {W Queue Store TimeReader : Type}.
Context `{!MessageQueueIF W Queue, !QueueView W Queue, !StorageView W Store}.
Context `{!MessageQueueLaws W Queue Store, !ObjectManagerIF W Store TimeReader}.

Abbreviation receiver_env := (env (Receiver Queue) W).

Definition report_item (r : verification_report) : console_item :=
  Stdout ("[TMTC] Verification report " +:+ printf_u (report_id r) +:+ " ack 0x"
    +:+ printf_02x (byte_of_Z (report_ackFlags r)) +:+ " step " +:+ printf_u (report_step r)
    +:+ " error " +:+ printf_d (int_of_uint32 (uint32 (report_errorCode r))) +:+ newline).

Lemma receiver_loop_run fuel q (e : receiver_env) :
  (length (verification_messages (world e) q) < fuel)%nat →
  wp (StubVerificationReceiver_loop fuel q) e (λ _ e',
    self e' = self e ∧ verification_messages (world e') q = []
    ∧ console e' = console e ++ (report_item <$> verification_messages (world e) q)).
Proof.
  revert e. induction fuel as [|fuel IH]; intros [s c w] Hfuel; simpl in Hfuel; [lia|].
  cbn [StubVerificationReceiver_loop]. apply wp_bind. simpl.
  pose proof (receive_Verification_rest (Store:=Store) q w) as Hrest.
  destruct (verification_messages w q) as [|r rs] eqn:Hq.
  - pose proof (receive_Verification_empty (Store:=Store) q w Hq) as Hrv.
    destruct (receive_PusVerificationMessage q w) as [[rv r] w1] eqn:Hrcv. simpl in *.
    apply (wp_call _ (rv, r) w1); [done|]. rewrite decide_False by done. apply wp_ret.
    simpl. by rewrite app_nil_r.
  - pose proof (receive_Verification_cons (Store:=Store) q w r rs Hq) as Hrv.
    destruct (receive_PusVerificationMessage q w) as [[rv r'] w1] eqn:Hrcv. simpl in *.
    injection Hrv as -> ->.
    apply (wp_call _ (OK, r) w1); [done|]. rewrite decide_True by done.
    apply wp_bind, wp_print. simpl.
    eapply wp_mono; [apply IH; simpl; rewrite Hrest; lia|]. simpl.
    intros _ e' (-> & Hempty & ->). rewrite Hrest. by rewrite <- app_assoc.
Qed.

(** One operation of the verification receiver terminates, for any fuel above the
    number of waiting reports, prints every report once and in order, and leaves the
    queue empty; without a queue it does nothing. *)
Theorem verification_receiver_drains fuel op (e : receiver_env) :
  match receiver_queue (self e) with
  | Some q =>
      (length (verification_messages (world e) q) < fuel)%nat →
      wp (StubVerificationReceiver_performOperation fuel op) e (λ rv e',
        rv = OK ∧ self e' = self e ∧ verification_messages (world e') q = []
        ∧ console e' = console e ++ (report_item <$> verification_messages (world e) q))
  | None => StubVerificationReceiver_performOperation fuel op e = Done (OK, e)
  end.
Proof.
  destruct e as [[[q|]] c w]; simpl; [|done].
  intros Hfuel. unfold StubVerificationReceiver_performOperation.
  apply wp_bind, wp_this. simpl. apply wp_bind.
  eapply wp_mono; [apply (receiver_loop_run fuel q (Env (mkReceiver (Some q)) c w)); done|].
  intros _ e' (? & ? & ?). by apply wp_ret.
Qed.

(** Any call of a public member function of the receiver, and anything that other
    objects do to the framework in between. *)
Inductive receiver_step : receiver_env → receiver_env → Prop :=
| step_initialize e rv e' :
    StubVerificationReceiver_initialize e = Done (rv, e') → receiver_step e e'
| step_performOperation e fuel op rv e' :
    StubVerificationReceiver_performOperation fuel op e = Done (rv, e') → receiver_step e e'
| step_getVerificationQueue e id e' :
    StubVerificationReceiver_getVerificationQueue e = Done (id, e') → receiver_step e e'
| step_framework e w' : receiver_step e (Env (self e) (console e) w').

Lemma receiver_loop_self fuel q (e : receiver_env) u e' :
  StubVerificationReceiver_loop fuel q e = Done (u, e') → self e' = self e.
Proof.
  revert e. induction fuel as [|fuel IH]; intros [s c w]; [done|].
  cbn [StubVerificationReceiver_loop]. run_env.
  destruct (receive_PusVerificationMessage q w) as [[rv r] w1].
  destruct (decide (rv = OK)).
  - unfold print_report. intros Hrun. by apply IH in Hrun.
  - by intros [= <- <-].
Qed.

Lemma receiver_step_queue e e' q :
  receiver_step e e' → receiver_queue (self e) = Some q → receiver_queue (self e') = Some q.
Proof.
  intros Hstep Hq. destruct Hstep as [[s c w] rv e'|[s c w] fuel op rv e'|[s c w] id e'|e w']; [..|done];
    destruct s as [qo]; simpl in Hq; subst qo; intros.
  - revert H0. unfold StubVerificationReceiver_initialize. run_tmtc.
    destruct (SystemObject_initialize w). by intros [= <- <-].
  - revert H0. unfold StubVerificationReceiver_performOperation. run_tmtc.
    destruct (StubVerificationReceiver_loop _ _ _) as [[u e1]| |] eqn:Hloop; [|done..].
    apply receiver_loop_self in Hloop. intros [= <- <-].
    change (receiver_queue (self e1) = Some q). by rewrite Hloop.
  - revert H0. unfold StubVerificationReceiver_getVerificationQueue. run_tmtc. by intros [= <- <-].
Qed.

(** The verification queue is created at most once: whichever of [initialize] and
    [getVerificationQueue] comes first creates it, and from then on, whatever calls
    and framework activity follow, the queue stays the same, its identifier is the
    one announced and asking for it changes nothing. *)
Theorem verification_queue_created_once (e e' : receiver_env) q :
  (receiver_queue (self e) = None → ∀ w1, createMessageQueue 10 MAX_MESSAGE_SIZE (world e) = (Some q, w1) →
   StubVerificationReceiver_getVerificationQueue e
   = Done (queue_getId q, Env (mkReceiver (Some q)) (console e) w1)
   ∧ StubVerificationReceiver_initialize e
     = let '(rv, w2) := SystemObject_initialize w1 in
       Done (rv, Env (mkReceiver (Some q)) (console e) w2))
  ∧ (receiver_queue (self e) = Some q → rtc receiver_step e e' →
  receiver_queue (self e') = Some q
  ∧ StubVerificationReceiver_getVerificationQueue e' = Done (queue_getId q, e')
  ∧ StubVerificationReceiver_initialize e'
    = let '(rv, w') := SystemObject_initialize (world e') in
      Done (rv, Env (self e') (console e') w')).
Proof.
  split.
  { destruct e as [[qo] c w]. simpl. intros -> w1 Hw.
    unfold StubVerificationReceiver_getVerificationQueue, StubVerificationReceiver_initialize, QUEUE_DEPTH.
    run_tmtc. rewrite Hw. run_tmtc. split; [done|]. by destruct (SystemObject_initialize w1). }
  intros Hq Hrtc.
  assert (receiver_queue (self e') = Some q) as Hq'.
  { induction Hrtc as [|e1 e2 e3 Hstep _ IH]; [done|]. apply IH.
    by apply (receiver_step_queue e1). }
  split; [done|]. destruct e' as [[qo] c w]. simpl in Hq'. subst qo. done.
Qed.
End Receiver.

(** * The distributor *)

(** The packet of a telecommand, and the application data it carries. *)
Definition app_data (data : option (list byte)) (dataLen : Z) : option (list byte) :=
  if decide (0 < dataLen)%Z then data else None.

Definition command_packet `{!PusIF TC TimeReader} {Service Store} (d : Distributor Service Store)
    (subservice : Z) (data : option (list byte)) (dataLen : Z) : TC :=
  updateSpLengthField (PusTcCreator {|
    tc_apid := apid d; tc_sequenceCount := sequenceCounter d;
    tc_service := registeredServiceId d; tc_subservice := subservice;
    tc_appData := app_data data dataLen |}).

Section Distributor.
Context `{FsfwConstants} {W Queue Store TimeReader TC Service : Type}.
Context `{!StorageManagerIF W Store, !StorageView W Store, !StorageManagerLaws W Store}.
Context `{!MessageQueueIF W Queue, !QueueView W Queue, !MessageQueueLaws W Queue Store}.
Context `{!PusIF TC TimeReader, !PusLaws TC TimeReader}.
Context `{!ObjectManagerIF W Store TimeReader, !AcceptsTelecommandsIF W Service}.

Abbreviation distributor_env := (env (Distributor Service Store) W).
Abbreviation send := (sendCommand (W:=W) (Queue:=Queue) (TC:=TC) (TimeReader:=TimeReader)
                        (Store:=Store) (Service:=Service)).

(** A caller's buffer: a null pointer, or exactly the announced bytes. *)
Definition buffer_ok (data : option (list byte)) (dataLen : Z) : Prop :=
  match data with Some bs => dataLen = Z.of_nat (length bs) | None => True end.

Lemma raw_app_data_run data dataLen (e : distributor_env) :
  buffer_ok data dataLen → raw_app_data data dataLen e = Done (app_data data dataLen, e).
Proof.
  unfold raw_app_data, app_data, buffer_ok. intros Hbuf. destruct data as [bs|].
  - subst. destruct (decide (0 < Z.of_nat (length bs))%Z) as [Hl|Hl].
    + rewrite decide_True by done. unfold mbind, M_bind, read_prefix.
      rewrite decide_True by lia. unfold mret, M_ret.
      by rewrite take_ge by lia.
    + by rewrite decide_False by naive_solver.
  - rewrite decide_False by naive_solver. by case_decide.
Qed.

(** What storing and sending a packet amounts to. *)
Definition packet_sent (d : Distributor Service Store) (st : Store) (packet : TC)
    (e : distributor_env) (rv : ReturnValue_t) (e' : distributor_env) : Prop :=
  self e' = d ∧ console e' = console e ∧
  let n := getSerializedSize packet in
  let '((got, a), w1) := getFreeElement st n (world e) in
  if decide (got = OK) then
    contents (world e) st !! a = None ∧
    let '(serialized, bytes) := serializeBe packet n in
    let w2 := fillElement st a bytes w1 in
    if decide (serialized = OK) then
      contents w2 st = <[a := bytes]> (contents (world e) st)
      ∧ Z.of_nat (length bytes) = n
      ∧ (rv, world e') = send_TmTcMessage (serviceRequestQueue d) a w2
    else rv = serialized ∧ contents (world e') st = contents (world e) st
         ∧ world e' = (deleteData st a w2).2
  else rv = got ∧ contents (world e') st = contents (world e) st ∧ world e' = w1.

Lemma sendCommand_run subservice data dataLen v st (e : distributor_env) :
  registeredService (self e) = Some v → tcStore (self e) = Some st → buffer_ok data dataLen →
  wp (send subservice data dataLen) e
    (packet_sent ((self e) <| sequenceCounter := uint16 (sequenceCounter (self e) + 1) |>) st
       (command_packet (TC:=TC) (self e) subservice data dataLen) e).
Proof.
  destruct e as [d c w]. simpl. intros Hv Hst Hbuf. unfold sendCommand, packet_sent.
  apply wp_bind, wp_this. simpl. rewrite Hv, Hst.
  apply wp_bind, wp_update. simpl.
  apply wp_bind. eapply wp_done; [by apply raw_app_data_run|]. cbv zeta.
  fold (command_packet (TC:=TC) d subservice data dataLen).
  set (packet := command_packet d subservice data dataLen).
  pose proof (getSerializedSize_nonneg packet) as Hn. set (n := getSerializedSize packet) in *.
  apply wp_bind. destruct (getFreeElement st n w) as [[got a] w1] eqn:Hfree.
  apply (wp_call _ (got, a) w1); [done|]. simpl.
  destruct (decide (got = OK)) as [-> | Hgot].
  2: { rewrite decide_True by done. apply wp_ret. split_and!; [done..| |done]. simpl.
       by apply (getFreeElement_error _ _ _ _ _ _ Hfree). }
  rewrite decide_False by (intros Hx; by apply Hx).
  destruct (getFreeElement_OK _ _ _ _ _ Hfree) as (Hnone & _ & bs & Hbs & Hc1).
  pose proof (serializeBe_length packet n Hn) as Hlen.
  pose proof (serializeBe_OK_length packet n) as Hfull.
  destruct (serializeBe packet n) as [serialized bytes]. simpl in *.
  apply wp_bind, wp_call_void. simpl.
  assert (contents (fillElement st a bytes w1) st
          = <[a := bytes ++ drop (length bytes) bs]> (contents w st)) as Hc2.
  { rewrite (fillElement_contents _ _ _ bs) by (rewrite ?Hc1, ?lookup_insert_eq; done || lia).
    by rewrite Hc1, insert_insert_eq. }
  destruct (decide (serialized = OK)) as [-> | Hser].
  - rewrite decide_False by (intros Hx; by apply Hx).
    destruct (send_TmTcMessage (serviceRequestQueue d) a (fillElement st a bytes w1)) as [rv w3] eqn:Hs.
    apply (wp_call _ rv w3); [done|]. simpl. specialize (Hfull eq_refl).
    split_and!; [done..| |done|done].
    by rewrite Hc2, drop_ge, app_nil_r by lia.
  - rewrite decide_True by done.
    pose proof (deleteData_contents st a (fillElement st a bytes w1)) as Hdel.
    destruct (deleteData st a (fillElement st a bytes w1)) as [rv3 w3] eqn:Hd. simpl in Hdel.
    apply wp_bind, (wp_call _ rv3 w3); [done|]. apply wp_ret. simpl.
    split_and!; [done..| |done]. by rewrite Hdel, Hc2, delete_insert_id.
Qed.

(** (C17) Sending a telecommand. Without a registered service or a TC store it fails and
    changes nothing. Otherwise it always returns and uses up one sequence count. A
    full store or a failing serialisation is reported and leaves the TC store as it
    was; when the packet has been built, exactly one new element holds exactly its
    serialised bytes, all of the announced size, and the result is that of sending
    the element's address to the service's request queue. *)
Theorem sendCommand_correct subservice data dataLen (e : distributor_env) :
  buffer_ok data dataLen →
  match registeredService (self e), tcStore (self e) with
  | Some _, Some st =>
      wp (send subservice data dataLen) e
        (packet_sent ((self e) <| sequenceCounter := uint16 (sequenceCounter (self e) + 1) |>) st
           (command_packet (TC:=TC) (self e) subservice data dataLen) e)
  | _, _ => send subservice data dataLen e = Done (FAILED, e)
  end.
Proof.
  intros Hbuf. destruct (registeredService (self e)) as [v|] eqn:Hv;
    [destruct (tcStore (self e)) as [st|] eqn:Hst|].
  - by eapply sendCommand_run.
  - unfold sendCommand, mbind, M_bind, this. by rewrite Hv, Hst.
  - unfold sendCommand, mbind, M_bind, this. by rewrite Hv.
Qed.

(** (C24) A packet that cannot be delivered is not released: when the store has room and
    the packet serialises, but sending to the service's queue fails, the error is
    returned and the TC store has one element more than before, which nobody knows
    the address of. *)
Theorem undelivered_packet_leaks subservice data dataLen v st a bytes w1 (e : distributor_env) :
  registeredService (self e) = Some v → tcStore (self e) = Some st → buffer_ok data dataLen →
  let packet := command_packet (TC:=TC) (self e) subservice data dataLen in
  let n := getSerializedSize packet in
  getFreeElement st n (world e) = ((OK, a), w1) → serializeBe packet n = (OK, bytes) →
  (send_TmTcMessage (serviceRequestQueue (self e)) a (fillElement st a bytes w1)).1 ≠ OK →
  wp (send subservice data dataLen) e (λ rv e',
    rv ≠ OK ∧ contents (world e') st !! a = Some bytes
    ∧ size (contents (world e') st) = S (size (contents (world e) st))).
Proof.
  intros Hv Hst Hbuf packet n Hfree Hser Hsend.
  eapply wp_mono; [by eapply sendCommand_run|].
  intros rv e' (_ & _ & Hcase). cbv zeta in Hcase. fold packet in Hcase. fold n in Hcase.
  rewrite Hfree, decide_True in Hcase by done. destruct Hcase as [Hnone Hcase].
  rewrite Hser, decide_True in Hcase by done. destruct Hcase as (Hc2 & _ & Hrv).
  set (w2 := fillElement st a bytes w1) in *.
  pose proof (send_TmTc_stores (serviceRequestQueue (self e)) a w2 st) as Hkeep.
  assert (serviceRequestQueue ((self e) <| sequenceCounter := uint16 (sequenceCounter (self e) + 1) |>)
          = serviceRequestQueue (self e)) as Hq by (by destruct (self e)).
  rewrite Hq in Hrv. rewrite <- Hrv in Hsend, Hkeep. simpl in Hsend, Hkeep. split; [done|].
  rewrite Hkeep, Hc2. split; [by rewrite lookup_insert_eq|].
  by apply map_size_insert_None.
Qed.

(** A sequence of calls of [sendCommand]. *)
Fixpoint send_all (commands : list (Z * option (list byte) * Z)) : M distributor_env (list ReturnValue_t) :=
  match commands with
  | [] => mret []
  | (subservice, data, dataLen) :: commands =>
      rv ← send subservice data dataLen;
      rvs ← send_all commands;
      mret (rv :: rvs)
  end.

Lemma send_all_run commands v st (e : distributor_env) :
  registeredService (self e) = Some v → tcStore (self e) = Some st →
  (0 ≤ sequenceCounter (self e) < 2 ^ 16)%Z →
  Forall (λ c, buffer_ok c.1.2 c.2) commands →
  wp (send_all commands) e (λ rvs e', length rvs = length commands
    ∧ self e' = (self e) <| sequenceCounter :=
                   uint16 (sequenceCounter (self e) + Z.of_nat (length commands)) |>).
Proof.
  intros Hv Hst Hk Hall. revert e Hv Hst Hk.
  induction Hall as [|[[subservice data] dataLen] commands Hbuf _ IH]; intros e Hv Hst Hk; cbn [send_all].
  - apply wp_ret. split; [done|]. destruct e as [[] c w]. simpl in *.
    unfold uint16, wrap. by rewrite Z.add_0_r, Z.mod_small by done.
  - apply wp_bind. eapply wp_mono; [by eapply sendCommand_run|].
    intros rv e1 (Hself & _). apply wp_bind.
    eapply wp_mono; [apply IH; rewrite Hself; try done; apply Z.mod_pos_bound; lia|].
    intros rvs e2 (Hlen & Hs2). apply wp_ret. rewrite Hs2, Hself. simpl. split; [by f_equal|].
    destruct e as [[] c w]. cbv [set_field Distributor_settable]. simpl. f_equal.
    unfold uint16, wrap. rewrite Zplus_mod_idemp_l. f_equal. lia.
Qed.

(** (C33) The sequence counter of a distributor with a service and a store counts the
    commands, delivered or not, modulo 2^16, and nothing else of the distributor changes,
    when the data of each command are as long as announced: after [n] commands from a count [k] it
    is [(k + n) mod 2^16]. *)
Theorem sequence_counter_wraps commands v st (e : distributor_env) :
  registeredService (self e) = Some v → tcStore (self e) = Some st →
  (0 ≤ sequenceCounter (self e) < 2 ^ 16)%Z →
  Forall (λ c, buffer_ok c.1.2 c.2) commands →
  wp (send_all commands) e (λ rvs e', length rvs = length commands
    ∧ self e' = (self e) <| sequenceCounter :=
                   uint16 (sequenceCounter (self e) + Z.of_nat (length commands)) |>).
Proof. intros. by eapply send_all_run. Qed.

(** A distributor addresses the service registered last: registration takes over
    the service's identifier (as a byte) and request queue, a null pointer is refused
    and changes nothing, and initialisation finds the TC store and keeps the
    registration. *)
Theorem registration_correct (d : Distributor Service Store) c (w : W) v :
  let e := Env d c w in
  registerService None e = Done (FAILED, e)
  ∧ registerService (Some v) e = Done (OK, Env
      (mkDistributor (Some v) (getRequestQueue v w) (uint8 (getIdentifier v w)) (tcStore d)
         (sequenceCounter d) (apid d)) c w)
  ∧ StubPusDistributor_initialize e
    = let '(rv, w') := SystemObject_initialize w in
      Done (rv, Env (mkDistributor (registeredService d) (serviceRequestQueue d)
        (registeredServiceId d) (get_StorageManagerIF TC_STORE w) (sequenceCounter d) (apid d)) c w').
Proof.
  destruct d. cbv zeta. split; [done|]. split; [done|].
  unfold StubPusDistributor_initialize. run_tmtc. by destruct (SystemObject_initialize w).
Qed.
End Distributor.

(** * Concrete runs *)

Definition example_sink : env (Sink Z Z unit) model_world :=
  Env (mkSink (Some 5%Z) (Some 12%Z) (Some ())) []
    ((set_contents 12 {[ 3%Z := [Byte.xff]; 4%Z := [Byte.x11; Byte.x02; Byte.x00] ]} model_init)
       <| mw_tm := {[ 5%Z := [3; 4; 3]%Z ]} |>).

Theorem telemetry_sink_drains_witness :
  wp (StubTelemetrySink_performOperation (TC:=tc_params) 4 0) example_sink (λ rv e',
    rv = OK ∧ self e' = self example_sink ∧ tm_messages (world e') 5%Z = []
    ∧ (∀ a, contents (world e') 12%Z !! a
            = if decide (a ∈ tm_messages (world example_sink) 5%Z) then None
              else contents (world example_sink) 12%Z !! a)
    ∧ console e' = console example_sink ++ queue_items (TC:=tc_params) (Some ())
                     (contents (world example_sink) 12%Z) (tm_messages (world example_sink) 5%Z)).
Proof.
  pose proof (telemetry_sink_drains (TC:=tc_params) 4 0 example_sink) as Hdrain.
  apply Hdrain. by apply Nat.ltb_lt.
Defined.

Theorem hex_dump_roundtrip_witness :
  ∃ header dump, print_telemetry (TC:=tc_params) [Byte.xfe] example_sink
      = Done ((), Env (self example_sink)
                (console example_sink ++ header :: dump ++ [Stdout newline]) (world example_sink))
    ∧ mapM scan_item dump = Some [Byte.xfe] ∧ (length dump ≤ 32)%nat.
Proof. by apply (hex_dump_roundtrip [Byte.xfe] example_sink). Defined.

Theorem telemetry_sink_lifecycle_witness :
  StubTelemetrySink_getReportReceptionQueue 0
    (Env (StubTelemetrySink (Queue:=Z) (Store:=Z) (TimeReader:=unit)) [] model_init)
  = Done (NO_QUEUE, Env StubTelemetrySink [] model_init).
Proof.
  exact (proj1 (telemetry_sink_lifecycle (TC:=tc_params) [] model_init 0 (Some 100%Z)
    (model_init <| mw_next_queue := 101%Z |>) 1 0 eq_refl)).
Defined.

Definition example_reports : list verification_report :=
  [{| report_id := 1; report_ackFlags := 15; report_step := 0; report_errorCode := 0 |};
   {| report_id := 8; report_ackFlags := 255; report_step := 2; report_errorCode := 1025 |}]%Z.
Definition example_receiver : env (Receiver Z) model_world :=
  Env (mkReceiver (Some 6%Z)) [] (model_init <| mw_verification := {[ 6%Z := example_reports ]} |>).

Theorem verification_receiver_drains_witness :
  wp (StubVerificationReceiver_performOperation 3 0) example_receiver (λ rv e',
    rv = OK ∧ self e' = self example_receiver ∧ verification_messages (world e') 6%Z = []
    ∧ console e' = console example_receiver
                   ++ (report_item <$> verification_messages (world example_receiver) 6%Z)).
Proof.
  apply (verification_receiver_drains (Store:=Z) 3 0 example_receiver). vm_compute. lia.
Defined.

Theorem verification_queue_created_once_witness :
  receiver_queue (self example_receiver) = Some 6%Z
  ∧ StubVerificationReceiver_getVerificationQueue example_receiver = Done (6%Z, example_receiver).
Proof.
  edestruct (verification_queue_created_once (Store:=Z) (TimeReader:=unit)
    example_receiver example_receiver 6%Z) as [_ Hq].
  destruct (Hq eq_refl (rtc_refl _ _)) as (H1 & H2 & _). by split.
Defined.

Definition example_distributor : env (Distributor Z Z) model_world :=
  Env (mkDistributor (Some 7%Z) 7 200 (Some 11%Z) 65535 1) [] model_init.
(** The same distributor when the request queue is full. *)
Definition example_full : env (Distributor Z Z) model_world :=
  Env (mkDistributor (Some 7%Z) 7 200 (Some 11%Z) 65535 1) []
    (model_init <| mw_tm := {[ 7%Z := replicate 10 0%Z ]} |>).

Theorem sendCommand_correct_witness :
  wp (sendCommand (Queue:=Z) (TC:=tc_params) 2 (Some (replicate 8 Byte.x40)) 8) example_distributor
    (packet_sent (mkDistributor (Some 7%Z) 7 200 (Some 11%Z) 0 1) 11%Z
       (command_packet (TC:=tc_params) (self example_distributor) 2
          (Some (replicate 8 Byte.x40)) 8) example_distributor).
Proof.
  exact (sendCommand_correct (Queue:=Z) (TC:=tc_params) 2 (Some (replicate 8 Byte.x40)) 8
    example_distributor eq_refl).
Defined.

Theorem undelivered_packet_leaks_witness :
  wp (sendCommand (Queue:=Z) (TC:=tc_params) 3 None 0) example_full (λ rv e',
    rv ≠ OK ∧ size (contents (world e') 11%Z) = 1).
Proof.
  pose proof (undelivered_packet_leaks (Queue:=Z) (TC:=tc_params)
    3 None 0 7%Z 11%Z 0%Z [Byte.x01; Byte.xff; Byte.xc8; Byte.x03]
    (getFreeElement 11%Z 4 (world example_full)).2 example_full) as Hleak.
  eapply wp_mono; [apply Hleak; try reflexivity; by vm_compute|].
  intros rv e' (? & _ & ->). by split.
Defined.

Theorem registration_correct_witness :
  registerService None example_full = Done (FAILED, example_full).
Proof.
  exact (proj1 (registration_correct (TimeReader:=unit)
    (self example_full) [] (world example_full) 7%Z)).
Defined.

Theorem sequence_counter_wraps_witness :
  wp (send_all (Queue:=Z) (TC:=tc_params) [(2, Some [Byte.x01], 1); (3, None, 0)]%Z)
    example_distributor (λ rvs e', length rvs = 2 ∧ sequenceCounter (self e') = 1%Z).
Proof.
  eapply wp_mono; [eapply (sequence_counter_wraps (Queue:=Z) (TC:=tc_params)
    [(2, Some [Byte.x01], 1); (3, None, 0)]%Z 7%Z 11%Z example_distributor)|].
  - done.
  - done.
  - by vm_compute.
  - by repeat constructor.
  - intros rvs e' [-> ->]. done.
Defined.
