(* ===== verification/Uplink.v ===== *)
(** The way of a telecommand to the commanding service, over any number of commands:
    [sendCommand] of [mission/tmtc/TmtcInfrastructure.cpp] puts packets into the TC store
    and their addresses into the service's request queue; the framework takes them out
    there, one by one, while other activity goes on. *)

From S2P Require Import Prelude Words Fsfw FsfwModel TmtcInfrastructure TmtcProperties.

(** What is seen of a step: a command was sent, or was refused with an error; the service
    took a packet; something else happened. *)
Inductive uplink_event (TC : Type) :=
| Sent (packet : TC)
| Refused
| Taken (bytes : list byte)
| Elsewhere.
Arguments Sent {_} _.
Arguments Refused {_}.
Arguments Taken {_} _.
Arguments Elsewhere {_}.

Section Uplink.
Context `{FsfwConstants} {W Queue Store TimeReader TC Service : Type}.
Context `{!StorageManagerIF W Store, !StorageView W Store, !StorageManagerLaws W Store}.
Context `{!MessageQueueIF W Queue, !QueueView W Queue, !MessageQueueLaws W Queue Store}.
Context `{!StoreQueueLaws W Queue Store, !PusIF TC TimeReader, !PusLaws TC TimeReader}.
Context (queue : Queue) (store : Store).

Abbreviation uplink_env := (env (Distributor Service Store) W).
Abbreviation send := (sendCommand (W:=W) (Queue:=Queue) (TC:=TC) (TimeReader:=TimeReader)
                        (Store:=Store) (Service:=Service)).
Abbreviation events := (list (uplink_event TC)).

(** The service releases a packet when it has taken it; other activity leaves the TC
    store and the request queue alone. *)
Inductive uplink_step : uplink_env → uplink_event TC → uplink_env → Prop :=
| step_send subservice data dataLen rv e e' :
    buffer_ok data dataLen → send subservice data dataLen e = Done (rv, e') →
    uplink_step e (if decide (rv = OK)
                   then Sent (command_packet (self e) subservice data dataLen) else Refused) e'
| step_take a rest bytes e out w' :
    tm_messages (world e) queue = a :: rest → contents (world e) store !! a = Some bytes →
    tm_messages w' queue = rest → contents w' store = delete a (contents (world e) store) →
    uplink_step e (Taken bytes) (Env (self e) out w')
| step_elsewhere e out w' :
    tm_messages w' queue = tm_messages (world e) queue →
    contents w' store = contents (world e) store →
    uplink_step e Elsewhere (Env (self e) out w').

Inductive uplink_run (e0 : uplink_env) : events → uplink_env → Prop :=
| uplink_start : uplink_run e0 [] e0
| uplink_next trace e ev e' :
    uplink_run e0 trace e → uplink_step e ev e' → uplink_run e0 (trace ++ [ev]) e'.

(** The distributor serves the queue, which is empty at the start. *)
Definition uplink_ready (e : uplink_env) : Prop :=
  is_Some (registeredService (self e)) ∧ tcStore (self e) = Some store
  ∧ queue_getId (W:=W) queue = serviceRequestQueue (self e) ∧ tm_messages (world e) queue = [].

(** The bytes of a packet, of the packets sent and taken in a run, and of those waiting. *)
Definition packet_bytes (packet : TC) : list byte :=
  (serializeBe packet (getSerializedSize packet)).2.
Definition sent (trace : events) : list (list byte) :=
  omap (λ ev, match ev with Sent packet => Some (packet_bytes packet) | _ => None end) trace.
Definition taken (trace : events) : list (list byte) :=
  omap (λ ev, match ev with Taken bytes => Some bytes | _ => None end) trace.
Definition refusals (trace : events) : nat :=
  length (omap (λ ev, match ev with Refused => Some () | _ => None end) trace).
Definition waiting (w : W) : list (option (list byte)) :=
  (λ a, contents w store !! a) <$> tm_messages w queue.

(** ** The invariant *)

(** [lost] are the elements of packets that could not be delivered. *)
Record uplink_inv (e0 : uplink_env) (trace : events) (e : uplink_env) (lost : list Z) : Prop := {
  up_service : is_Some (registeredService (self e));
  up_store : tcStore (self e) = Some store;
  up_queue : queue_getId (W:=W) queue = serviceRequestQueue (self e);
  up_tracks : tracks (contents (world e0) store) (contents (world e) store)
                (tm_messages (world e) queue ++ lost);
  up_fifo : Some <$> sent trace = (Some <$> taken trace) ++ waiting (world e);
  up_lost : length lost ≤ refusals trace;
}.

Lemma uplink_inv_start e0 : uplink_ready e0 → uplink_inv e0 [] e0 [].
Proof.
  intros (Hv & Hst & Hq & Hempty). split; unfold waiting; rewrite ?Hempty; try done.
  split_and!; [constructor|by intros a ?%elem_of_nil|done].
Qed.

(** A run is read event by event. *)
Lemma sent_snoc trace ev : sent (trace ++ [ev])
  = sent trace ++ match ev with Sent packet => [packet_bytes packet] | _ => [] end.
Proof. unfold sent. rewrite omap_app. by destruct ev. Qed.
Lemma taken_snoc trace ev : taken (trace ++ [ev])
  = taken trace ++ match ev with Taken bytes => [bytes] | _ => [] end.
Proof. unfold taken. rewrite omap_app. by destruct ev. Qed.
Lemma refusals_snoc trace ev : refusals (trace ++ [ev])
  = refusals trace + match ev with Refused => 1 | _ => 0 end.
Proof. unfold refusals. rewrite omap_app, length_app. by destruct ev. Qed.

(** What [sendCommand] leaves: nothing, an element in the queue, or one that is lost. *)
Lemma send_effect subservice data dataLen (e : uplink_env) :
  is_Some (registeredService (self e)) → tcStore (self e) = Some store →
  queue_getId (W:=W) queue = serviceRequestQueue (self e) → buffer_ok data dataLen →
  let packet := command_packet (TC:=TC) (self e) subservice data dataLen in
  wp (send subservice data dataLen) e (λ rv e',
    (∃ k, self e' = (self e) <| sequenceCounter := k |>) ∧
    ((rv ≠ OK ∧ tm_messages (world e') queue = tm_messages (world e) queue
        ∧ contents (world e') store = contents (world e) store)
     ∨ ∃ a, contents (world e) store !! a = None
        ∧ contents (world e') store = <[a := packet_bytes packet]> (contents (world e) store)
        ∧ tm_messages (world e') queue
          = tm_messages (world e) queue ++ (if decide (rv = OK) then [a] else []))).
Proof.
  intros [v Hv] Hst Hq Hbuf packet. eapply wp_mono; [by eapply sendCommand_run|].
  intros rv e' (Hself & _ & Hcase). fold packet in Hcase. cbv zeta in Hcase.
  split; [by eexists|]. clear Hself.
  pose proof (getFreeElement_queues store (getSerializedSize packet) (world e) queue) as Hq1.
  destruct (getFreeElement store (getSerializedSize packet) (world e)) as [[got a] w1]. simpl in Hq1.
  case_decide as Hgot.
  2: { left. destruct Hcase as (-> & Hc & Hw). rewrite Hw in *. by split_and!. }
  destruct Hcase as [Hnone Hcase]. unfold packet_bytes.
  destruct (serializeBe packet (getSerializedSize packet)) as [ser bytes].
  pose proof (fillElement_queues store a bytes w1 queue) as Hq2.
  case_decide as Hser.
  2: { left. destruct Hcase as (-> & Hc & Hw). split_and!; [done| |done].
       by rewrite Hw, deleteData_queues, Hq2, Hq1. }
  right. destruct Hcase as (Hc2 & _ & Hsend). exists a.
  pose proof (send_TmTc_queue queue _ a (fillElement store a bytes w1) Hq) as Hq3.
  pose proof (send_TmTc_stores (serviceRequestQueue (self e)) a (fillElement store a bytes w1) store) as Hc3.
  assert (send_TmTcMessage (serviceRequestQueue (self e)) a (fillElement store a bytes w1)
          = (rv, world e')) as Heq by (rewrite Hsend; by destruct (self e)).
  rewrite Heq in Hq3, Hc3. simpl in *. split_and!; [done|congruence|].
  rewrite Hq3, Hq2, Hq1. case_decide; [done|by rewrite app_nil_r].
Qed.

(** The bytes of waiting packets stay while their elements do. *)
Lemma waiting_kept (w w' : W) (msgs : list Z) :
  (∀ a, a ∈ msgs → contents w' store !! a = contents w store !! a) →
  (λ a, contents w' store !! a) <$> msgs = (λ a, contents w store !! a) <$> msgs.
Proof. intros Hkeep. apply list_fmap_ext. intros i a Ha. apply Hkeep. by eapply list_elem_of_lookup_2. Qed.

Lemma send_inv e0 trace e lost subservice data dataLen :
  uplink_inv e0 trace e lost → buffer_ok data dataLen →
  wp (send subservice data dataLen) e (λ rv e', ∃ lost',
    uplink_inv e0 (trace ++ [if decide (rv = OK)
                             then Sent (command_packet (self e) subservice data dataLen)
                             else Refused]) e' lost').
Proof.
  intros [Hv Hst Hq Htr Hfifo Hlost] Hbuf.
  eapply wp_mono; [by apply send_effect|]. intros rv e' [[k Hself] Hcase].
  assert (is_Some (registeredService (self e')) ∧ tcStore (self e') = Some store
          ∧ queue_getId (W:=W) queue = serviceRequestQueue (self e')) as (Hv' & Hst' & Hq')
    by (rewrite Hself; by destruct (self e)).
  destruct Hcase as [(Hrv & Hmsgs & Hcont) | (a & Hnone & Hcont & Hmsgs)].
  - rewrite decide_False by done. exists lost.
    split; [done|done|done|by rewrite Hmsgs, Hcont| |rewrite refusals_snoc; lia].
    rewrite sent_snoc, taken_snoc, !app_nil_r, Hfifo. unfold waiting. by rewrite Hmsgs, Hcont.
  - pose proof (tracks_insert _ _ _ _ (packet_bytes (command_packet (TC:=TC) (self e) subservice data dataLen))
      Hnone Htr) as Htr'. rewrite <- Hcont in Htr'.
    assert (waiting (world e) = (λ a, contents (world e') store !! a) <$> tm_messages (world e) queue) as Hkeep.
    { symmetry. apply waiting_kept. intros b Hb. rewrite Hcont, lookup_insert_ne; [done|].
      intros ->. destruct (proj1 (proj2 Htr) b) as [? ?]; [set_solver|congruence]. }
    case_decide as Hrv.
    + exists lost. split; [done|done|done| | |rewrite refusals_snoc; lia].
      * eapply tracks_perm; [|exact Htr']. rewrite Hmsgs. solve_Permutation.
      * rewrite sent_snoc, taken_snoc, app_nil_r, fmap_app, Hfifo, Hkeep, <- app_assoc. f_equal.
        unfold waiting. rewrite Hmsgs, fmap_app. f_equal. simpl. by rewrite Hcont, lookup_insert_eq.
    + exists (a :: lost). rewrite app_nil_r in Hmsgs.
      split; [done|done|done| | |rewrite refusals_snoc; simpl; lia].
      * eapply tracks_perm; [|exact Htr']. rewrite Hmsgs. solve_Permutation.
      * rewrite sent_snoc, taken_snoc, !app_nil_r, Hfifo, Hkeep. unfold waiting. by rewrite Hmsgs.
Qed.

Lemma uplink_step_inv e0 trace e ev e' lost :
  uplink_inv e0 trace e lost → uplink_step e ev e' → ∃ lost', uplink_inv e0 (trace ++ [ev]) e' lost'.
Proof.
  intros Hinv Hstep. destruct Hstep as [sub data len rv e e' Hbuf Hrun|a rest bytes e out w' Hq Ha Hq' Hc'|e out w' Hq' Hc'].
  - pose proof (send_inv _ _ _ _ sub data len Hinv Hbuf) as Hwp. unfold wp in Hwp. by rewrite Hrun in Hwp.
  - destruct Hinv as [Hv Hst Hid Htr Hfifo Hlost]. exists lost.
    rewrite Hq in Htr. split; cbn [self world]; [done|done|done| | |rewrite refusals_snoc; lia].
    + rewrite Hq', Hc'. by apply tracks_delete.
    + rewrite sent_snoc, taken_snoc, app_nil_r, fmap_app, Hfifo, <- app_assoc. f_equal.
      unfold waiting. rewrite Hq, Hq'. simpl. rewrite Ha. f_equal. symmetry. apply waiting_kept.
      intros b Hb. rewrite Hc', lookup_delete_ne; [done|]. intros ->.
      destruct Htr as [Hd _]. simpl in Hd. apply list_relations.list.NoDup_cons in Hd as [Hn _].
      set_solver.
  - destruct Hinv as [Hv Hst Hid Htr Hfifo Hlost]. exists lost.
    split; cbn [self world]; [done|done|done|by rewrite Hq', Hc'| |rewrite refusals_snoc; lia].
    rewrite sent_snoc, taken_snoc, !app_nil_r, Hfifo. unfold waiting. by rewrite Hq', Hc'.
Qed.

Lemma uplink_run_inv e0 trace e : uplink_ready e0 → uplink_run e0 trace e →
  ∃ lost, uplink_inv e0 trace e lost.
Proof.
  intros Hready Hrun. induction Hrun as [|trace e ev e' Hrun [lost Hinv] Hstep].
  - exists []. by apply uplink_inv_start.
  - by eapply uplink_step_inv.
Qed.

(** (C10) Telecommands arrive as they were sent. Whatever is sent, taken and done in between,
    the packets the service has taken, followed by those that wait in its queue, are
    byte for byte the serialised packets of the commands whose [sendCommand] returned
    [OK], in order: none is lost, altered, repeated or overtaken, and no command that was
    refused arrives. *)
Theorem uplink_fifo e0 trace e : uplink_ready e0 → uplink_run e0 trace e →
  ∃ rest, sent trace = taken trace ++ rest ∧ waiting (world e) = Some <$> rest.
Proof.
  intros Hready Hrun. destruct (uplink_run_inv _ _ _ Hready Hrun) as [lost [_ _ _ _ Hfifo _]].
  apply fmap_app_inv in Hfifo as (l1 & l2 & Ht & Hw & Hs).
  exists l2. apply (inj (fmap Some)) in Ht. by subst l1.
Qed.

(** (C11) The TC store is accounted for in every run: beyond what it held at the start it
    holds one element for each packet in the service's queue, and one for each packet
    that could not be delivered, of which there are no more than commands refused.
    When every command was accepted and all packets are taken, it is as at the start. *)
Theorem tc_store_accounted e0 trace e : uplink_ready e0 → uplink_run e0 trace e →
  let msgs := tm_messages (world e) queue in
  ∃ lost, NoDup (msgs ++ lost)
    ∧ (∀ a, a ∉ msgs ++ lost → contents (world e) store !! a = contents (world e0) store !! a)
    ∧ (∀ a, a ∈ msgs ++ lost → is_Some (contents (world e) store !! a)
                               ∧ contents (world e0) store !! a = None)
    ∧ size (contents (world e) store)
      = size (contents (world e0) store) + length msgs + length lost
    ∧ length lost ≤ refusals trace
    ∧ (msgs = [] → refusals trace = 0 → contents (world e) store = contents (world e0) store).
Proof.
  intros Hready Hrun msgs. destruct (uplink_run_inv _ _ _ Hready Hrun) as [lost [_ _ _ Htr _ Hlost]].
  exists lost. fold msgs in Htr. pose proof (tracks_size _ _ _ Htr) as Hsize.
  destruct Htr as (Hd & Hin & Hrest). rewrite length_app in Hsize. split_and!; [done| | |lia|done|].
  - intros a Ha. by rewrite <- Hrest, foldr_delete_lookup, decide_False.
  - intros a Ha. split; [by apply Hin|]. by rewrite <- Hrest, foldr_delete_lookup, decide_True.
  - intros Hm Hr. rewrite <- Hrest, Hm. by destruct lost; [|simpl in Hlost; lia].
Qed.
End Uplink.

(** * A command sent and taken, and one that finds the queue full *)

Definition example_packet : tc_params :=
  command_packet (TC:=tc_params) (self example_distributor) 3 None 0.
Definition example_bytes : list byte := [Byte.x01; Byte.xff; Byte.xc8; Byte.x03].

Lemma example_ready : uplink_ready (Queue:=Z) 7%Z 11%Z example_distributor.
Proof. split_and!; by try eexists. Qed.

(** The distributor after the command was sent, and after its packet was taken. *)
Lemma example_uplink : ∃ e, uplink_run (Queue:=Z) (TC:=tc_params) 7%Z 11%Z example_distributor
  [Sent example_packet; Taken example_bytes] e ∧ tm_messages (world e) 7%Z = [].
Proof.
  destruct (sendCommand (Queue:=Z) (TC:=tc_params) 3 None 0 example_distributor) as [[rv e1]| |] eqn:Hrun;
    [|done..].
  assert (rv = OK ∧ tm_messages (world e1) 7%Z = [0%Z] ∧ contents (world e1) 11%Z !! 0%Z = Some example_bytes)
    as (-> & Hq & Ha).
  { vm_compute in Hrun. injection Hrun as <- <-. split_and!; by vm_compute. }
  set (w' := (deleteData 11%Z 0%Z (receive_TmTcMessage 7%Z (world e1)).2).2).
  exists (Env (self e1) (console e1) w').
  assert (tm_messages w' 7%Z = []) as Hq'.
  { unfold w'. by rewrite deleteData_queues, receive_TmTc_rest, Hq. }
  split; [|done].
  apply (uplink_next _ _ _ [Sent example_packet] e1).
  - apply (uplink_next _ _ _ [] example_distributor); [apply uplink_start|].
    pose proof (step_send (Queue:=Z) (TC:=tc_params) 7%Z 11%Z 3 None 0 OK example_distributor e1 I Hrun)
      as Hstep.
    by rewrite decide_True in Hstep.
  - eapply step_take; [exact Hq|exact Ha|exact Hq'|].
    unfold w'. by rewrite deleteData_contents, (receive_TmTc_stores (Store:=Z)).
Qed.

Theorem uplink_fifo_witness : ∃ (e : env (Distributor Z Z) model_world) rest,
  sent [Sent example_packet; Taken example_bytes] = [example_bytes] ++ rest
  ∧ waiting (Queue:=Z) 7%Z 11%Z (world e) = Some <$> rest.
Proof.
  destruct example_uplink as (e & Hrun & _). exists e.
  exact (uplink_fifo (Queue:=Z) (TC:=tc_params) 7%Z 11%Z example_distributor
    [Sent example_packet; Taken example_bytes] e example_ready Hrun).
Defined.

Theorem tc_store_accounted_witness : ∃ e,
  uplink_run (Queue:=Z) (TC:=tc_params) 7%Z 11%Z example_distributor
    [Sent example_packet; Taken example_bytes] e
  ∧ contents (world e) 11%Z = contents (world example_distributor) 11%Z.
Proof.
  destruct example_uplink as (e & Hrun & Hq). exists e. split; [exact Hrun|].
  destruct (tc_store_accounted (Queue:=Z) (TC:=tc_params) 7%Z 11%Z example_distributor
    [Sent example_packet; Taken example_bytes] e example_ready Hrun)
    as (lost & _ & _ & _ & _ & _ & Hall).
  by apply Hall.
Defined.
