(* ===== verification/Downlink.v ===== *)
(** The way back: the replies that [handleReply] of [mission/tmtc/WebcamCommandingService.cpp]
    turns into telemetry, through the TM store and the sink's queue, to what [StubTelemetrySink] of
    [mission/tmtc/TmtcInfrastructure.cpp] prints. Runs interleave replies, operations of the sink
    and other activity. *)

From S2P Require Import Prelude Words Fsfw FsfwModel WebcamDefinitions MessageTypes.
From S2P Require Import WebcamCommandingService CommandingProperties TmtcInfrastructure TmtcProperties.

(** What the base class promises of a packet it could send: it is in a fresh element of the
    TM store whose address is the newest in the sink's queue, and the sink's parser finds in
    it the header that such a packet has. A packet that was not sent leaves nothing. *)
Class TelemetrySendLaws {W Queue Store TC TimeReader : Type} (tm : Store) (queue : Queue)
    (reader : option TimeReader) (header : Z → tm_content → tm_header)
    `{FsfwConstants, StorageView W Store, QueueView W Queue, !PusIF TC TimeReader,
      !CommandingServiceBaseIF W Store} : Prop := {
  packet_telemetry subservice content w w' :
    base_sendTmPacket subservice content w = (OK, w') → ∃ a bytes,
      contents w tm !! a = None ∧ contents w' tm = <[a := bytes]> (contents w tm)
      ∧ tm_messages w' queue = tm_messages w queue ++ [a]
      ∧ parseDataWithoutCrcCheck (TC:=TC) reader bytes = (OK, header subservice content);
  no_telemetry subservice content w rv w' :
    base_sendTmPacket subservice content w = (rv, w') → rv ≠ OK →
      contents w' tm = contents w tm ∧ tm_messages w' queue = tm_messages w queue;
  header_of_packet subservice content :
    tm_service (header subservice content) = SERVICE_ID
    ∧ tm_subservice (header subservice content) = subservice;
}.

(** * The service and the sink *)

Record Downlink (Queue Store TimeReader : Type) := mkDownlink {
  down_service : Service Store;
  down_sink : Sink Queue Store TimeReader;
}.
Arguments mkDownlink {_ _ _} _ _.
Arguments down_service {_ _ _} _.
Arguments down_sink {_ _ _} _.

(** What is seen of a run: a reply was handled, with the telemetry that was sent for it, if
    any; the sink operated, and printed; something else happened. *)
Inductive downlink_event :=
| Answered (telemetry : option (Z * tm_content))
| Printed (items : list console_item)
| Besides.

Section Downlink.
Context `{FsfwConstantsLaws} {W Queue Store TimeReader TC Msg : Type}.
Context `{!StorageManagerIF W Store, !StorageView W Store, !StorageManagerLaws W Store}.
Context `{!StoreSeparation W Store}.
Context `{!MessageQueueIF W Queue, !QueueView W Queue, !MessageQueueLaws W Queue Store}.
Context `{!StoreQueueLaws W Queue Store, !PusIF TC TimeReader}.
Context `{CommandMessageLaws Msg, !CommandingServiceBaseIF W Store}.
Context `{!ObjectManagerIF W Store TimeReader}.
Context (ipc tm : Store) (queue : Queue) (reader : option TimeReader).
Context (header : Z → tm_content → tm_header).
Context `{!TelemetrySendLaws (TC:=TC) tm queue reader header}.
Context (telemetry_kept : telemetry_preserves (W:=W) ipc) (stores_differ : tm ≠ ipc).

Abbreviation downlink_env := (env (Downlink Queue Store TimeReader) W).

Definition at_service (e : downlink_env) : env (Service Store) W :=
  Env (down_service (self e)) (console e) (world e).
Definition at_sink (e : downlink_env) : env (Sink Queue Store TimeReader) W :=
  Env (down_sink (self e)) (console e) (world e).

(** The TM store and the sink's queue are as they were. *)
Definition downlink_kept (w w' : W) : Prop :=
  contents w' tm = contents w tm ∧ tm_messages w' queue = tm_messages w queue.

(** The telemetry that a reply asks for: a data reply or a parameter dump whose data are in
    the IPC store. *)
Definition reply_telemetry (w : W) (reply : Msg) (objectId : object_id_t) : option (Z * tm_content) :=
  if decide (getMessageType reply = ACTION ∧ getCommand reply = DATA_REPLY) then
    data ← contents w ipc !! ActionMessage_getStoreId reply;
    Some (131, DataReply objectIdWebcamHandler (ActionMessage_getActionId reply) data
                 (uint16 (Z.of_nat (length data))))%Z
  else if decide (getMessageType reply = PARAMETER ∧ getCommand reply = REPLY_PARAMETER_DUMP) then
    data ← contents w ipc !! ParameterMessage_getStoreId reply;
    Some (130, ParameterDumpReply objectId (ParameterMessage_getParameterId reply) data
                 (Z.of_nat (length data)))%Z
  else None.

Inductive downlink_step : downlink_env → downlink_event → downlink_env → Prop :=
| down_reply reply objectId isStep rv step e e1 :
    handleReply (Some reply) objectId (Some isStep) (at_service e) = Done ((rv, step), e1) →
    downlink_step e
      (Answered (if decide (rv = OK) then reply_telemetry (world e) reply objectId else None))
      (Env (mkDownlink (self e1) (down_sink (self e))) (console e1) (world e1))
| down_print fuel op rv e e1 :
    length (tm_messages (world e) queue) < fuel →
    StubTelemetrySink_performOperation (TC:=TC) fuel op (at_sink e) = Done (rv, e1) →
    downlink_step e (Printed (drop (length (console e)) (console e1)))
      (Env (mkDownlink (down_service (self e)) (self e1)) (console e1) (world e1))
| down_besides e out w' :
    downlink_kept (world e) w' → downlink_step e Besides (Env (self e) out w').

Inductive downlink_run (e0 : downlink_env) : list downlink_event → downlink_env → Prop :=
| downlink_start : downlink_run e0 [] e0
| downlink_next trace e ev e' :
    downlink_run e0 trace e → downlink_step e ev e' → downlink_run e0 (trace ++ [ev]) e'.

(** Both objects are initialised, and no telemetry waits. *)
Definition downlink_ready (e : downlink_env) : Prop :=
  ipcStore (down_service (self e)) = Some ipc ∧ sink_queue (down_sink (self e)) = Some queue
  ∧ tmStore (down_sink (self e)) = Some tm ∧ timeReader (down_sink (self e)) = reader
  ∧ tm_messages (world e) queue = [].

Definition answered (trace : list downlink_event) : list (Z * tm_content) :=
  omap (λ ev, match ev with Answered t => t | _ => None end) trace.
Definition printed (trace : list downlink_event) : list console_item :=
  ev ← trace; match ev with Printed items => items | _ => [] end.

(** The line for a telemetry packet. *)
Definition telemetry_line (t : Z * tm_content) : console_item :=
  let h := header t.1 t.2 in
  Stdout ("[TM] service " +:+ printf_u (tm_service h) +:+ " subservice "
    +:+ printf_u (tm_subservice h) +:+ ", " +:+ printf_u (tm_userDataLen h)
    +:+ " bytes" +:+ newline).

(** ** One step *)

(** What handling a reply comes to. *)
Lemma released_telemetry a subservice content (e : env (Service Store) W) rv e' :
  reply_data_released ipc a subservice content e rv e' →
  self e' = self e ∧ match contents (world e) ipc !! a with
  | Some data => ∃ w1 w2, downlink_kept (world e) w1 ∧ downlink_kept w2 (world e')
      ∧ base_sendTmPacket subservice (content data) w1 = (rv, w2)
  | None => rv ≠ OK ∧ downlink_kept (world e) (world e')
  end.
Proof.
  intros (Hself & _ & _ & Hcase). split; [done|]. cbv zeta in Hcase.
  assert (downlink_kept (world e) (getData ipc a (world e)).2) as Hget.
  { split; [by apply getData_elsewhere|apply getData_queues]. }
  destruct (contents (world e) ipc !! a) as [data|].
  - destruct Hcase as [Hrv Hw].
    destruct (base_sendTmPacket subservice (content data) (getData ipc a (world e)).2) as [rv2 w2] eqn:Hsend.
    simpl in Hrv, Hw. subst rv2. eexists _, w2. split_and!; [exact Hget| |exact Hsend].
    rewrite Hw. split; [by apply deleteData_elsewhere|apply deleteData_queues].
  - destruct Hcase as [Hrv ->]. by split.
Qed.

Lemma reply_effect reply objectId b (e : env (Service Store) W) : ipcStore (self e) = Some ipc →
  wp (handleReply (Some reply) objectId (Some b)) e (λ r e', self e' = self e ∧
    match reply_telemetry (world e) reply objectId with
    | Some (subservice, content) => ∃ w1 w2, downlink_kept (world e) w1 ∧ downlink_kept w2 (world e')
        ∧ base_sendTmPacket subservice content w1 = (r.1, w2)
    | None => downlink_kept (world e) (world e')
    end).
Proof.
  intros Hipc. unfold reply_telemetry.
  destruct (decide (getMessageType reply = ACTION ∧ getCommand reply = DATA_REPLY)) as [[Ha Hd]|Hn].
  { eapply wp_mono; [by apply (data_reply_run ipc)|].
    intros r e' [_ [Hself Hr]%released_telemetry]. split; [done|].
    destruct (contents (world e) ipc !! _) as [data|]; [exact Hr|by destruct Hr]. }
  destruct (decide (getMessageType reply = PARAMETER)) as [Hp|Hp].
  - pose proof (parameter_reply_released ipc reply (Some b) objectId e telemetry_kept Hipc Hp) as Hrun.
    case_decide as Hc.
    + rewrite decide_True by done. eapply wp_mono; [exact Hrun|].
      intros r e' [_ [Hself Hr]%released_telemetry]. split; [done|].
      destruct (contents (world e) ipc !! _) as [data|]; [exact Hr|by destruct Hr].
    + rewrite decide_False by naive_solver. unfold wp. by rewrite Hrun.
  - rewrite decide_False by naive_solver.
    destruct (decide (getCommand reply = DATA_REPLY)) as [Hd|Hd].
    + unfold handleReply. apply wp_bind, (wp_deref _ reply); [done|].
      rewrite !decide_False by naive_solver. by apply wp_ret.
    + unfold wp. by rewrite plain_replies.
Qed.

(** ** Whole runs *)

(** An element holds the packet of some telemetry. *)
Definition holds (c : gmap Z (list byte)) (a : Z) (t : Z * tm_content) : Prop :=
  ∃ bytes, c !! a = Some bytes
    ∧ parseDataWithoutCrcCheck (TC:=TC) reader bytes = (OK, header t.1 t.2).

(** [rest] is the telemetry that waits for the sink. *)
Record downlink_inv (e0 : downlink_env) (trace : list downlink_event) (e : downlink_env)
    (rest : list (Z * tm_content)) : Prop := {
  dl_ipc : ipcStore (down_service (self e)) = Some ipc;
  dl_queue : sink_queue (down_sink (self e)) = Some queue;
  dl_store : tmStore (down_sink (self e)) = Some tm;
  dl_reader : timeReader (down_sink (self e)) = reader;
  dl_tracks : tracks (contents (world e0) tm) (contents (world e) tm) (tm_messages (world e) queue);
  dl_waiting : Forall2 (holds (contents (world e) tm)) (tm_messages (world e) queue) rest;
  dl_lines : telemetry_line <$> answered trace = printed trace ++ (telemetry_line <$> rest);
}.

Lemma downlink_inv_start e : downlink_ready e → downlink_inv e [] e [].
Proof.
  intros (Hipc & Hq & Hst & Hr & Hempty). split; [done|done|done|done| | |done]; rewrite Hempty; [|done].
  split_and!; [constructor|set_solver|done].
Qed.

Lemma answered_snoc trace ev :
  answered (trace ++ [ev]) = answered trace ++ match ev with Answered (Some t) => [t] | _ => [] end.
Proof. unfold answered. rewrite omap_app. by destruct ev as [[]| |]. Qed.
Lemma printed_snoc trace ev :
  printed (trace ++ [ev]) = printed trace ++ match ev with Printed items => items | _ => [] end.
Proof. unfold printed. rewrite bind_app. simpl. by rewrite app_nil_r. Qed.

(** An invariant of an unchanged TM store and queue. *)
Lemma inv_kept e0 trace e rest ev s' out w' :
  downlink_inv e0 trace e rest → downlink_kept (world e) w' →
  (ev = Answered None ∨ ev = Besides) → s' = self e → downlink_inv e0 (trace ++ [ev]) (Env s' out w') rest.
Proof.
  intros [Hipc Hq Hst Hr Htr Hw Hl] [Hc Hm] Hev ->.
  split; cbn [self world]; [done|done|done|done|by rewrite Hc, Hm|by rewrite Hc, Hm|].
  rewrite answered_snoc, printed_snoc. destruct Hev as [-> | ->]; by rewrite !app_nil_r.
Qed.

Lemma holds_telemetry_kept c c' msgs ts : (∀ a, a ∈ msgs → c' !! a = c !! a) →
  Forall2 (holds c) msgs ts → Forall2 (holds c') msgs ts.
Proof.
  intros Hkeep Hall. revert Hkeep. induction Hall as [|a t msgs ts (bytes & Ha & Hp) _ IH]; [done|].
  intros Hkeep. constructor; [|by apply IH; set_solver].
  exists bytes. split; [|done]. rewrite Hkeep by set_solver. done.
Qed.

(** What the sink prints for waiting telemetry is its lines. *)
Lemma queue_lines msgs : ∀ c ts, NoDup msgs → Forall2 (holds c) msgs ts →
  queue_items (TC:=TC) reader c msgs = telemetry_line <$> ts.
Proof.
  induction msgs as [|a msgs IH]; intros c ts Hd Hall; [by apply Forall2_nil_inv_l in Hall; subst|].
  apply Forall2_cons_inv_l in Hall as (t & ts' & (bytes & Ha & Hparse) & Hall & ->).
  apply list_relations.list.NoDup_cons in Hd as [Hn Hd]. cbn [queue_items]. rewrite Ha, fmap_cons.
  cbn [from_option]. unfold telemetry_items. rewrite Hparse, decide_True by done.
  cbn [app]. f_equal. apply IH; [done|]. eapply holds_telemetry_kept; [|exact Hall].
  intros b Hb. rewrite lookup_delete_ne; [done|]. by intros ->.
Qed.

Lemma reply_inv e0 trace e rest reply objectId b : downlink_inv e0 trace e rest →
  wp (handleReply (Some reply) objectId (Some b)) (at_service e) (λ r e1, ∃ rest',
    downlink_inv e0
      (trace ++ [Answered (if decide (r.1 = OK) then reply_telemetry (world e) reply objectId else None)])
      (Env (mkDownlink (self e1) (down_sink (self e))) (console e1) (world e1)) rest').
Proof.
  intros Hinv. eapply wp_mono; [apply reply_effect; apply Hinv|].
  intros r [s1 c1 w'] [Hself Hcase]. cbn [self console world at_service] in *. subst s1.
  destruct e as [[sv sk] c w]. cbn [self console world down_service down_sink] in *.
  destruct (reply_telemetry w reply objectId) as [[s content]|].
  2: { exists rest. eapply inv_kept; [done|exact Hcase|left; by case_decide|done]. }
  destruct Hcase as (w1 & w2 & [Hc1 Hm1] & [Hc2 Hm2] & Hsend). case_decide as Hrv.
  2: { destruct (no_telemetry _ _ _ _ _ Hsend Hrv) as [Hc Hm]. exists rest.
       eapply inv_kept; [done| |by left|done]. split; cbn [world]; congruence. }
  rewrite Hrv in Hsend. destruct (packet_telemetry _ _ _ _ Hsend) as (a & bytes & Hnone & Hc & Hm & Hp).
  destruct Hinv as [Hipc Hq Hst Hr Htr Hw Hl]. cbn [self console world down_service down_sink] in *.
  rewrite Hc1 in Hc, Hnone. rewrite <- Hc2 in Hc. rewrite Hm1 in Hm. rewrite <- Hm2 in Hm.
  exists (rest ++ [(s, content)]). split; cbn [self world down_service down_sink]; try done.
  - rewrite Hm, Hc. eapply tracks_perm; [|by apply tracks_insert]. solve_Permutation.
  - rewrite Hm. apply Forall2_app.
    + eapply holds_telemetry_kept; [|exact Hw]. intros b' Hb'. rewrite Hc, lookup_insert_ne; [done|].
      intros ->. destruct (proj1 (proj2 Htr) _ Hb'). congruence.
    + constructor; [|constructor]. exists bytes. by rewrite Hc, lookup_insert_eq.
  - by rewrite answered_snoc, printed_snoc, app_nil_r, !fmap_app, Hl, <- app_assoc.
Qed.

Lemma print_inv e0 trace e rest fuel op : downlink_inv e0 trace e rest →
  length (tm_messages (world e) queue) < fuel →
  wp (StubTelemetrySink_performOperation (TC:=TC) fuel op) (at_sink e) (λ _ e1,
    downlink_inv e0 (trace ++ [Printed (drop (length (console e)) (console e1))])
      (Env (mkDownlink (down_service (self e)) (self e1)) (console e1) (world e1)) []
    ∧ tm_messages (world e1) queue = []).
Proof.
  intros [Hipc Hq Hst Hr Htr Hw Hl] Hfuel.
  eapply wp_mono; [by apply (sink_operation_run fuel op queue tm)|].
  intros rv [s1 c1 w1] (_ & Hself & Hempty & Hcont & Hcons).
  cbn [self console world at_sink] in *. subst s1 c1. split; [|done].
  assert (contents w1 tm = contents (world e0) tm) as Hsame.
  { destruct Htr as (_ & _ & <-). apply map_eq. intros a. by rewrite Hcont, foldr_delete_lookup. }
  split; cbn [self world down_service down_sink]; try done; rewrite ?Hempty; try done.
  - split_and!; [constructor|set_solver|done].
  - rewrite answered_snoc, printed_snoc, !app_nil_r, Hl, drop_app_length. f_equal.
    rewrite Hr. symmetry. by apply queue_lines; [apply Htr|].
Qed.

Lemma downlink_run_inv e0 trace e : downlink_ready e0 → downlink_run e0 trace e →
  ∃ rest, downlink_inv e0 trace e rest.
Proof.
  intros Hready Hrun. induction Hrun as [|trace e ev e' Hrun [rest Hinv] Hstep].
  - exists []. by apply downlink_inv_start.
  - destruct Hstep as [reply oid b rv step e e1 Hreply|fuel op rv e e1 Hfuel Hop|e out w' Hk].
    + pose proof (reply_inv _ _ _ _ reply oid b Hinv) as Hwp. unfold wp in Hwp. by rewrite Hreply in Hwp.
    + pose proof (print_inv _ _ _ _ fuel op Hinv Hfuel) as Hwp. unfold wp in Hwp. rewrite Hop in Hwp.
      exists []. apply Hwp.
    + exists rest. eapply inv_kept; [done|done|by right|done].
Qed.

(** (C7) Replies reach the console. In every run of the service and the sink the sink has
    printed one line for each piece of telemetry the service has sent for a reply, in order,
    but for those that wait in its queue, as many as there are messages: the line shows the
    service's identifier and the subservice of the reply, 131 for data and 130 for a
    parameter dump. The TM store holds, beyond what it held at the start, one element for
    each message. *)
Theorem replies_are_printed e0 trace e : downlink_ready e0 → downlink_run e0 trace e →
  let msgs := tm_messages (world e) queue in
  ∃ rest, telemetry_line <$> answered trace = printed trace ++ (telemetry_line <$> rest)
    ∧ length rest = length msgs
    ∧ NoDup msgs ∧ size (contents (world e) tm) = size (contents (world e0) tm) + length msgs
    ∧ (∀ a, a ∉ msgs → contents (world e) tm !! a = contents (world e0) tm !! a)
    ∧ (∀ s content, telemetry_line (s, content) =
         Stdout ("[TM] service 200 subservice " +:+ printf_u s +:+ ", "
           +:+ printf_u (tm_userDataLen (header s content)) +:+ " bytes" +:+ newline)).
Proof.
  intros Hready Hrun msgs. destruct (downlink_run_inv _ _ _ Hready Hrun) as [rest Hinv].
  destruct Hinv as [_ _ _ _ Htr Hw Hl]. exists rest. fold msgs in Htr, Hw.
  pose proof (tracks_size _ _ _ Htr) as Hsize. destruct Htr as (Hd & _ & Hrest).
  split_and!; [done|symmetry; by eapply Forall2_length|done|done| |].
  - intros a Ha. by rewrite <- Hrest, foldr_delete_lookup, decide_False.
  - intros s content. unfold telemetry_line. cbn [fst snd]. destruct (header_of_packet s content) as [-> ->]. done.
Qed.

(** (C6) Nothing that was reported stays unseen: in every state a run can reach, an operation
    of the sink with fuel for the messages that wait returns, and then the sink has
    printed exactly one line for each piece of telemetry sent for a reply, in order; its
    queue is empty and the TM store is as it was at the start. *)
Theorem sink_prints_everything e0 trace e fuel op : downlink_ready e0 → downlink_run e0 trace e →
  length (tm_messages (world e) queue) < fuel →
  ∃ rv e1 items,
    StubTelemetrySink_performOperation (TC:=TC) fuel op (at_sink e) = Done (rv, e1)
    ∧ console e1 = console e ++ items
    ∧ printed trace ++ items = telemetry_line <$> answered trace
    ∧ tm_messages (world e1) queue = [] ∧ contents (world e1) tm = contents (world e0) tm.
Proof.
  intros Hready Hrun Hfuel. destruct (downlink_run_inv _ _ _ Hready Hrun) as [rest Hinv].
  destruct (wp_inv _ _ _ (sink_operation_run (TC:=TC) fuel op queue tm (at_sink e)
    (dl_queue _ _ _ _ Hinv) (dl_store _ _ _ _ Hinv) Hfuel))
    as (rv & e1 & Hop & _ & _ & Hempty & Hcont & Hcons).
  destruct Hinv as [_ _ _ Hr Htr Hw Hl]. exists rv, e1, (telemetry_line <$> rest).
  split_and!; [done| |by rewrite Hl|done|].
  - cbn [at_sink self console world] in *. rewrite Hcons, Hr. f_equal.
    apply queue_lines; [apply Htr|exact Hw].
  - destruct Htr as (_ & _ & <-). apply map_eq. intros a. by rewrite Hcont, foldr_delete_lookup.
Qed.
End Downlink.

(** * A data reply on its way to the console *)

(** The model's service, sending its telemetry to the TM store 12 and the queue 9. A packet is
    the service, the subservice and the data. *)
Definition content_data (content : tm_content) : list byte :=
  match content with DataReply _ _ data _ | ParameterDumpReply _ _ data _ => data end.

#[local] Instance storing_service_base : CommandingServiceBaseIF model_world Z := {|
  base_initialize w := ((0, Some 10), w);
  base_sendTmPacket subservice content w :=
    match free_slot (model_contents w 12) with
    | Some a =>
        if decide (0 ≤ subservice < 256) then
          let bytes := byte_of_Z 200 :: byte_of_Z subservice :: content_data content in
          let w := set_contents 12 (<[a := bytes]> (model_contents w 12)) w in
          (0, w <| mw_tm := <[9 := (mw_tm w !!! 9) ++ [a]]> (mw_tm w) |>)
        else (1, w)
    | None => (1, w)
    end;
|}%Z.

Definition model_header (subservice : Z) (content : tm_content) : tm_header :=
  {| tm_service := 200; tm_subservice := subservice;
     tm_userDataLen := Z.of_nat (length (content_data content)) |}.

#[local] Instance storing_service_laws :
  TelemetrySendLaws (W:=model_world) (TC:=tc_params) 12%Z 9%Z (Some ()) model_header.
Proof.
  split; unfold contents, model_store_view; cbn [base_sendTmPacket storing_service_base tm_messages
    model_queue_view OK model_constants].
  - intros s content w w'. destruct (free_slot _) as [a|] eqn:Ha; [|done]. case_decide as Hs; [|done].
    intros [= <-]. apply free_slot_spec in Ha as [Ha _].
    eexists a, _. split_and!; [done|apply model_contents_set|simpl; by rewrite lookup_total_insert_eq|].
    cbn [parseDataWithoutCrcCheck model_pus]. unfold model_header.
    by rewrite !byte_unsigned_of_Z, (Z.mod_small s).
  - intros s content w rv w'. destruct (free_slot _); [case_decide|]; intros [= <- <-]; done.
  - done.
Qed.

Definition example_downlink : env (Downlink Z Z unit) model_world :=
  Env (mkDownlink (self example_replying) (mkSink (Some 9%Z) (Some 12%Z) (Some ()))) []
    (world example_replying).

Lemma example_downlink_ready : downlink_ready 10%Z 12%Z 9%Z (Some ()) example_downlink.
Proof. by split_and!. Qed.

Lemma storing_telemetry_kept : telemetry_preserves (W:=model_world) 10%Z.
Proof.
  intros s content w. unfold contents, model_store_view. cbn [base_sendTmPacket storing_service_base].
  destruct (free_slot _); [|done]. case_decide; [|done]. unfold set_contents, model_contents. simpl.
  by rewrite lookup_total_insert_ne.
Qed.

Definition example_telemetry : Z * tm_content :=
  (131%Z, DataReply objectIdWebcamHandler 1 example_rate_bytes 8).

(** The state after a data reply was handled: its telemetry waits for the sink. *)
Lemma example_answered : ∃ e,
  downlink_run (TC:=tc_params) (Msg:=model_msg) 10%Z 12%Z 9%Z example_downlink
    [Answered (Some example_telemetry)] e ∧ length (tm_messages (world e) 9%Z) = 1.
Proof.
  destruct (handleReply (Some (ModelMsg 0x0503 1 3)) 0 (Some false) (at_service example_downlink))
    as [[[rv step] e1]| |] eqn:Hrun; [|by vm_compute in Hrun..].
  assert (rv = OK ∧ length (tm_messages (world e1) 9%Z) = 1) as [-> Hlen].
  { vm_compute in Hrun. injection Hrun as <- _ <-. by vm_compute. }
  exists (Env (mkDownlink (self e1) (down_sink (self example_downlink))) (console e1) (world e1)).
  split; [|exact Hlen].
  apply (downlink_next (Msg:=model_msg) _ _ _ example_downlink [] example_downlink); [apply downlink_start|].
  pose proof (down_reply (TC:=tc_params) 10%Z 12%Z 9%Z _ _ _ _ _ example_downlink _ Hrun) as Hstep.
  by rewrite decide_True in Hstep.
Qed.

Theorem replies_are_printed_witness : ∃ (e : env (Downlink Z Z unit) model_world) rest,
  telemetry_line model_header <$> [example_telemetry] = telemetry_line model_header <$> rest
  ∧ length rest = length (tm_messages (world e) 9%Z).
Proof.
  destruct example_answered as (e & Hrun & _). exists e.
  destruct (replies_are_printed (TC:=tc_params) 10%Z 12%Z 9%Z (Some ()) model_header storing_telemetry_kept
    ltac:(done) example_downlink _ e example_downlink_ready Hrun) as (rest & Hlines & Hlen & _).
  exists rest. by split.
Defined.

(** The sink prints that eight bytes of packet 131 came. *)
Theorem sink_prints_everything_witness : ∃ e rv e1,
  StubTelemetrySink_performOperation (TC:=tc_params) 2 0 (at_sink e) = Done (rv, e1)
  ∧ console e1 = console e ++ [Stdout ("[TM] service 200 subservice 131, 8 bytes" +:+ newline)].
Proof.
  destruct example_answered as (e & Hrun & Hlen).
  destruct (sink_prints_everything (TC:=tc_params) 10%Z 12%Z 9%Z (Some ()) model_header storing_telemetry_kept
    ltac:(done) example_downlink _ e 2 0 example_downlink_ready Hrun) as (rv & e1 & items & Hop & Hcons & Hitems & _).
  { rewrite Hlen. lia. }
  exists e, rv, e1. split; [exact Hop|]. simpl in Hitems. rewrite Hcons, Hitems. by vm_compute.
Defined.
