(* ===== verification/EndToEnd.v ===== *)
(** The path of a telecommand through the program: the commanding service prepares
    a message and stores its data ([WebcamCommandingService]), the framework hands
    the message to the device handler ([letChildHandleMessage]), whose action
    helper calls back into [buildCommandFromCommand], and the next poll issues the
    command. The two objects share the framework and the console. *)

From S2P Require Import Prelude Words Fsfw FsfwModel WebcamDefinitions MessageTypes.
From S2P Require Import WebcamDeviceHandler CommandArbiter HandlerRefinement.
From S2P Require Import WebcamCommandingService CommandingProperties.

Record System (Store : Type) := mkSystem { sys_service : Service Store; sys_handler : Handler }.
Arguments mkSystem {_} _ _.
Arguments sys_service {_} _.
Arguments sys_handler {_} _.

Section System.
Context {W Store A : Type}.

(** A member function of one object, run in the system. *)
Definition on_service (m : M (env (Service Store) W) A) : M (env (System Store) W) A := λ e,
  match m (Env (sys_service (self e)) (console e) (world e)) with
  | Done (a, e') =>
      Done (a, Env (mkSystem (self e') (sys_handler (self e))) (console e') (world e'))
  | Undefined => Undefined
  | OutOfFuel => OutOfFuel
  end.

Definition on_handler (m : M (env Handler W) A) : M (env (System Store) W) A := λ e,
  match m (Env (sys_handler (self e)) (console e) (world e)) with
  | Done (a, e') =>
      Done (a, Env (mkSystem (sys_service (self e)) (self e')) (console e') (world e'))
  | Undefined => Undefined
  | OutOfFuel => OutOfFuel
  end.

Lemma wp_on_service m (e : env (System Store) W) (Q : A → env (System Store) W → Prop) :
  wp m (Env (sys_service (self e)) (console e) (world e)) (λ a e',
    Q a (Env (mkSystem (self e') (sys_handler (self e))) (console e') (world e'))) →
  wp (on_service m) e Q.
Proof. unfold wp, on_service. by destruct (m _) as [[a e']| |]. Qed.

Lemma wp_on_handler m (e : env (System Store) W) (Q : A → env (System Store) W → Prop) :
  wp m (Env (sys_handler (self e)) (console e) (world e)) (λ a e',
    Q a (Env (mkSystem (sys_service (self e)) (self e')) (console e') (world e'))) →
  wp (on_handler m) e Q.
Proof. unfold wp, on_handler. by destruct (m _) as [[a e']| |]. Qed.
End System.

(** What the framework's action helper does with an action message whose store
    address is in use: it fetches the data, has its owner execute the action with
    them, and releases the element. *)
Class ActionHelperLaws {W Store Msg : Type} (host : byte_order) (ipc : Store)
    `{FsfwConstants, StorageManagerIF W Store, !StorageView W Store, CommandMessageIF Msg,
      !ActionHelperIF Handler W Msg} : Prop :=
  action_executed actionId storeId m e data :
    contents (world e) ipc !! storeId = Some data →
    wp (handleActionMessage (ActionMessage_setCommand actionId storeId m)) e (λ r e',
      r.1 = OK ∧ ∃ w1 rv w2, contents w1 ipc = contents (world e) ipc
        ∧ buildCommandFromCommand host actionId (Some data) (Z.of_nat (length data))
            (Env (self e) (console e) w1) = Done (rv, Env (self e') (console e') w2)
        ∧ contents (world e') ipc = delete storeId (contents w2 ipc)).

Section Flow.
Context `{FsfwConstantsLaws} {W Store TimeReader Msg PW : Type}.
Context `{CommandMessageLaws Msg, !StorageManagerIF W Store, !StorageView W Store}.
Context `{!StorageManagerLaws W Store, !CommandingServiceBaseIF W Store}.
Context `{!ObjectManagerIF W Store TimeReader}.
Context `{!ParameterWrapperIF PW, !DeviceHandlerBaseIF W Msg PW, !ActionHelperIF Handler W Msg}.
Context (host : byte_order) (ipc : Store) `{!ActionHelperLaws host ipc}.

Abbreviation system_env := (env (System Store) W).

(** A telecommand from the service to the handler. *)
Definition telecommand (m : Msg) (subservice : Z) (tcData : option (list byte)) (tcDataLen : Z)
    : M system_env ReturnValue_t :=
  '(result, message) ← on_service (prepareCommand (Some m) subservice tcData tcDataLen);
  if decide (result = OK) then
    '(result, _) ← on_handler (letChildHandleMessage (PW:=PW) message);
    mret result
  else mret result.

(** The rate a telecommand carries. *)
Definition telecommand_rate (c : CommandId) (tcData : option (list byte)) : option double :=
  data_rate host (Some (device_payload c tcData))
    (Z.of_nat (length (device_payload c tcData))).

Lemma build_world id data len (e e' : env Handler W) rv :
  buildCommandFromCommand host id data len e = Done (rv, e') →
  world e' = world e ∧ console e' = console e ∧ replyReady (self e') = replyReady (self e).
Proof.
  destruct e as [[] c w]. unfold buildCommandFromCommand.
  destruct (command_cases id) as [-> | [-> | [-> | (_ & ? & ? & ?)]]]; eval_tests; run_handler;
    [by intros [= <- <-]| |by intros [= <- <-]..].
  destruct (decide (data ≠ None ∧ _)) as [[Hd Hl]|Hn]; run_handler; [|by intros [= <- <-]].
  destruct data; [|done]. case_decide; [|done]. by intros [= <- <-].
Qed.

Lemma build_step id bs (e e' : env Handler W) rv :
  buildCommandFromCommand host id (Some bs) (Z.of_nat (length bs)) e = Done (rv, e') →
  arb_step (abs_handler (self e)) (ARequest id (data_rate host (Some bs) (Z.of_nat (length bs))))
  = (abs_handler (self e'), [])
  ∧ communicationInterface (self e') = communicationInterface (self e).
Proof.
  intros Hrun.
  pose proof (command_step (Msg:=Msg) (PW:=PW) host e id (Some bs) (Z.of_nat (length bs)) eq_refl) as Hstep.
  unfold wp, handle_event, mbind, M_bind in Hstep. rewrite Hrun in Hstep.
  unfold mret, M_ret in Hstep. by destruct Hstep as (? & ? & _).
Qed.

(** Delivering a device message executes the command it names with the data at the
    address it carries, and releases them. *)
Lemma deliver_command (m : Msg) data (e : env Handler W) :
  getMessageType m = DEVICE_HANDLER_COMMAND →
  let raw := uint8 (Z.land (getCommand m) 255) in
  raw ∈ [1; 2; 3]%Z → contents (world e) ipc !! Fsfw.getParameter m = Some data →
  wp (letChildHandleMessage (PW:=PW) (Some m)) e (λ r e', r.1 = OK
    ∧ abs_handler (self e')
      = arb_request raw (data_rate host (Some data) (Z.of_nat (length data))) (abs_handler (self e))
    ∧ communicationInterface (self e') = communicationInterface (self e)
    ∧ contents (world e') ipc = delete (Fsfw.getParameter m) (contents (world e) ipc)
    ∧ console e' = console e ∧ replyReady (self e') = replyReady (self e)).
Proof.
  intros Ht raw Hraw Hdata. unfold letChildHandleMessage.
  rewrite decide_False by (intros Hx; by apply Hx).
  assert (is_named (mkCommandId raw) = true) as Hn by by apply is_named_raw.
  pose proof (of_raw_named _ None Hn) as Hacc. simpl in Hacc. fold raw. rewrite Hacc. cbn [negb].
  apply wp_bind. eapply wp_mono; [by eapply (action_executed (host:=host) (ipc:=ipc))|].
  intros [rv m2] e' (Hrv & w1 & rv2 & w2 & Hw1 & Hbuild & Hdel). simpl in Hrv. subst rv.
  rewrite decide_False by (intros Hx; by apply Hx). apply wp_ret.
  destruct (build_step _ _ _ _ _ Hbuild) as [Habs Hcif].
  destruct (build_world _ _ _ _ _ _ Hbuild) as (Hw2 & Hcons & Hready). simpl in *.
  rewrite decide_True in Habs by done. split_and!; [done|congruence|done| |done|done].
  by rewrite Hdel, Hw2, Hw1.
Qed.

Lemma telecommand_rate_bytes rate :
  double_wf rate → telecommand_rate commandSetFrameRate (Some (bytes_of_double host rate)) = Some rate.
Proof.
  intros Hwf. pose proof (length_bytes_of_double host rate) as Hlen.
  unfold telecommand_rate, device_payload. rewrite decide_True by done.
  change (default [] (Some (bytes_of_double host rate))) with (bytes_of_double host rate).
  rewrite (take_ge (bytes_of_double host rate)) by (rewrite Hlen; unfold sizeof_double; lia).
  unfold data_rate. simpl. rewrite Hlen, decide_True by done.
  by rewrite take_ge, double_of_bytes_of_double by (done || by rewrite Hlen).
Qed.

(** A poll calls nothing of the framework. *)
Lemma wp_poll_world (e : env Handler W) Q :
  wp (handle_event (PW:=PW) host EvPoll) e Q →
  wp (handle_event (PW:=PW) host EvPoll) e (λ outs e', Q outs e' ∧ world e' = world e).
Proof.
  destruct e as [[cur req s pow tr r g prog ready fid buf ci raw rawlen] c w].
  unfold handle_event, buildNormalDeviceCommand, prepareReply. run_handler.
  by destruct ci; [destruct s; [|destruct r; [|destruct g]]|].
Qed.

Lemma telecommand_run (m : Msg) s c tcData tcDataLen (e : system_env) :
  subservice_command s = Some c → ipcStore (sys_service (self e)) = Some ipc →
  valid_tc_data tcData tcDataLen → device_args_ok c tcData tcDataLen →
  wp (telecommand m s tcData tcDataLen) e (λ rv e',
    sys_service (self e') = sys_service (self e) ∧ console e' = console e
    ∧ contents (world e') ipc = contents (world e) ipc
    ∧ communicationInterface (sys_handler (self e')) = communicationInterface (sys_handler (self e))
    ∧ (rv = OK → abs_handler (sys_handler (self e'))
         = arb_request (CommandId_raw c) (telecommand_rate c tcData) (abs_handler (sys_handler (self e))))
    ∧ (rv ≠ OK → sys_handler (self e') = sys_handler (self e))).
Proof.
  intros Hs Hipc Hbuf Hargs. unfold telecommand.
  rewrite (prepareCommand_device m s c tcData tcDataLen Hs).
  destruct (prepareDeviceCommand_run (W:=W) m c tcData tcDataLen ipc
    (Env (sys_service (self e)) (console e) (world e)) Hipc Hbuf) as [Hok _].
  apply wp_bind, wp_on_service. eapply wp_mono; [by apply Hok|].
  intros [rv m'] e1 (Hself & Hcons & Hcase). simpl in *.
  destruct Hcase as [(-> & a & Hnone & Ha & Hcont & ->) | (Hrv & -> & Hcont)].
  2: { rewrite decide_False by done. apply wp_ret. simpl. by rewrite Hself. }
  rewrite decide_True by done.
  destruct (device_message_fields c a m) as (Ht & Hraw & Hp); [by eapply subservice_raw|done|].
  apply wp_bind, wp_on_handler. simpl. eapply wp_mono; [eapply deliver_command; rewrite ?Hraw, ?Hp|].
  - done.
  - by eapply subservice_raw.
  - simpl. rewrite Hcont. apply lookup_insert_eq.
  - intros [rv m2] e2 (Hrv & Habs & Hcif & Hdel & Hcons2 & _). simpl in *. apply wp_ret. simpl.
    rewrite Hraw in Habs. subst rv.
    split_and!; [done|congruence| |done|done|done].
    by rewrite Hdel, Hp, Hcont, delete_insert_id.
Qed.

(** A telecommand reaches the handler, and leaves nothing behind. When a valid
    telecommand of subservice 1, 2 or 3 is accepted, exactly its command becomes
    pending at the handler, a set-frame-rate command with the rate in its bytes;
    when the service has to refuse it, the handler is not touched. In both cases the
    IPC store holds afterwards what it held before, so no telecommand leaks store
    space, and service and console are unchanged. *)
Theorem telecommand_reaches_handler (m : Msg) s c tcData tcDataLen (e : system_env) :
  subservice_command s = Some c → ipcStore (sys_service (self e)) = Some ipc →
  valid_tc_data tcData tcDataLen → device_args_ok c tcData tcDataLen →
  wp (telecommand m s tcData tcDataLen) e (λ rv e',
    sys_service (self e') = sys_service (self e) ∧ console e' = console e
    ∧ contents (world e') ipc = contents (world e) ipc
    ∧ if decide (rv = OK)
      then abs_handler (sys_handler (self e'))
           = arb_request (CommandId_raw c) (telecommand_rate c tcData)
               (abs_handler (sys_handler (self e)))
      else sys_handler (self e') = sys_handler (self e)).
Proof.
  intros. eapply wp_mono; [by eapply telecommand_run|].
  intros rv e' (? & ? & ? & _ & ? & ?). split_and!; [done..|]. case_decide; auto.
Qed.

(** The commanded frame rate is the rate the device gets: when the telecommand
    "set frame rate" with the eight bytes of a double is accepted, the poll that
    follows, with no snapshot pending, issues the set-frame-rate command and exactly
    that double is then the current rate. *)
Theorem commanded_rate_applied (m : Msg) (rate : double) (e : system_env) :
  ipcStore (sys_service (self e)) = Some ipc →
  communicationInterface (sys_handler (self e)) ≠ None →
  snapshotRequested (sys_handler (self e)) = false → double_wf rate →
  wp (rv ← telecommand m 2 (Some (bytes_of_double host rate)) 8;
      outs ← on_handler (handle_event (PW:=PW) host EvPoll);
      mret (rv, outs)) e (λ r e',
    contents (world e') ipc = contents (world e) ipc
    ∧ (r.1 = OK → issued r.2 = [2%Z] ∧ currentFrameRate (sys_handler (self e')) = rate)).
Proof.
  intros Hipc Hcif Hsnap Hwf. pose proof (length_bytes_of_double host rate) as Hlen.
  apply wp_bind. eapply wp_mono; [eapply (telecommand_run m 2 commandSetFrameRate); try done|].
  { simpl. by rewrite Hlen. } { by right. }
  intros rv e1 (_ & _ & Hcont & Hcif1 & Hok & _).
  apply wp_bind, wp_on_handler.
  eapply wp_mono; [apply wp_poll_world, poll_step; simpl; by rewrite Hcif1|].
  intros outs e2 [(Habs & _) Hw]. apply wp_ret. cbn [self world fst snd sys_handler] in *.
  split; [by rewrite Hw|]. intros Hrv. specialize (Hok Hrv).
  rewrite Hok, telecommand_rate_bytes in Habs by done. cbn in Habs.
  unfold handler_pending in Habs. rewrite Hsnap, (proj1 (proj2 (pending_set_add _ _ _))) in Habs.
  rewrite arb_next_pending_set in Habs. injection Habs as Hp Hr Hc Hout.
  split; [done|]. by rewrite <- Hc.
Qed.
End Flow.

(** * A concrete system *)

(** An action helper that works on the store with identifier 10. *)
#[export] Instance model_action_helper : ActionHelperIF Handler model_world model_msg := λ m,
  '(result, data) ← call (getData 10%Z (ActionMessage_getStoreId m));
  if decide (result ≠ OK) then mret (result, m)
  else
    buildCommandFromCommand LittleEndian (ActionMessage_getActionId m) (Some data)
      (Z.of_nat (length data));;
    call (deleteData 10%Z (ActionMessage_getStoreId m));;
    mret (OK, m).

#[export] Instance model_action_helper_laws :
  ActionHelperLaws (W:=model_world) (Msg:=model_msg) LittleEndian 10%Z.
Proof.
  intros actionId storeId m [h c w] data Hdata. unfold handleActionMessage, model_action_helper.
  apply wp_bind. simpl. pose proof (getData_contents (Store:=Z) 10%Z storeId w) as Hsame.
  pose proof (getData_OK (Store:=Z) 10%Z storeId w data Hdata) as Hget.
  destruct (getData 10%Z storeId w) as [[rv bs] w1] eqn:Hw1. simpl in Hget, Hsame.
  injection Hget as -> ->. apply (wp_call _ (OK, data) w1); [done|].
  rewrite decide_False by (intros Hx; by apply Hx). apply wp_bind. simpl.
  assert (wp (buildCommandFromCommand LittleEndian actionId (Some data) (Z.of_nat (length data)))
    (Env h c w1) (λ _ _, True)) as Hbuild.
  { pose proof (command_step (Msg:=model_msg) (PW:=model_wrapper) LittleEndian (Env h c w1)
      actionId (Some data) (Z.of_nat (length data)) eq_refl) as Hstep.
    unfold wp, handle_event, mbind, M_bind in *. by destruct (buildCommandFromCommand _ _ _ _ _) as [[??]| |]. }
  destruct (wp_inv _ _ _ Hbuild) as (rv & [h2 c2 w2] & Hrun & _).
  eapply wp_done; [exact Hrun|].
  pose proof (deleteData_contents (Store:=Z) 10%Z storeId w2) as Hdel.
  destruct (deleteData 10%Z storeId w2) as [rv3 w3] eqn:Hd. simpl in Hdel.
  apply wp_bind, (wp_call _ rv3 w3); [done|]. apply wp_ret. split; [done|].
  by exists w1, rv, w2.
Qed.

Definition example_system : env (System Z) model_world :=
  Env (mkSystem (mkService (Some 10%Z)) (WebcamDeviceHandler
         {| base_communicationInterface := Some objectIdWebcamComIF;
            base_rawPacket := None; base_rawPacketLen := 0 |})) [] model_init.

Theorem telecommand_reaches_handler_witness :
  wp (telecommand (PW:=model_wrapper) (ModelMsg 0 0 0) 3 None 0) example_system (λ rv e',
    rv = OK → handler_pending (sys_handler (self e')) = {[3%Z]}).
Proof.
  pose proof (telecommand_reaches_handler (PW:=model_wrapper) LittleEndian 10%Z (ModelMsg 0 0 0) 3
    commandGetFrameRate None 0 example_system eq_refl eq_refl (Z.le_refl 0)) as Hreach.
  eapply wp_mono; [apply Hreach; left; split; [by right|done]|].
  intros rv e' (_ & _ & _ & Hcase) ->. rewrite decide_True in Hcase by done.
  by injection Hcase as ->.
Defined.

Theorem commanded_rate_applied_witness :
  wp (rv ← telecommand (PW:=model_wrapper) (ModelMsg 0 0 0) 2
             (Some (bytes_of_double LittleEndian (Double 0x4038000000000000))) 8;
      outs ← on_handler (handle_event (PW:=model_wrapper) LittleEndian EvPoll);
      mret (rv, outs)) example_system (λ r e',
    r.1 = OK ∧ currentFrameRate (sys_handler (self e')) = Double 0x4038000000000000).
Proof.
  assert (double_wf (Double 0x4038000000000000)) as Hwf by by vm_compute.
  pose proof (commanded_rate_applied (PW:=model_wrapper) LittleEndian 10%Z (ModelMsg 0 0 0)
    (Double 0x4038000000000000) example_system) as Happlied.
  specialize (Happlied eq_refl). specialize (Happlied ltac:(done)). specialize (Happlied eq_refl).
  specialize (Happlied Hwf).
  destruct (wp_inv _ _ _ Happlied) as ([rv outs] & e' & Hrun & _ & Hrate).
  eapply wp_done; [exact Hrun|]. assert (rv = OK) as Hrv.
  { vm_compute in Hrun. by injection Hrun as <- _ _. }
  split; [exact Hrv|]. by apply Hrate.
Defined.
