(* ===== verification/CommandPath.v ===== *)
(** Whole runs of the commanding service and the device handler over one framework.
    Telecommands are prepared, the messages wait in the handler's queue, are delivered,
    and the handler is polled, while replies come in and the rest of the framework
    works on: in any order. A run is a sequence of calls; what a run may do is given by
    the specification [Commanding], a queue in front of the command arbiter. *)

From S2P Require Import Prelude Words Fsfw FsfwModel WebcamDefinitions MessageTypes.
From S2P Require Import WebcamDeviceHandler CommandArbiter HandlerRefinement DeviceCycles.
From S2P Require Import WebcamCommandingService CommandingProperties EndToEnd.

(** The two objects, and the messages in the handler's queue, the oldest first. *)
Record Link (Store Msg : Type) := mkLink {
  link_system : System Store;
  in_transit : list Msg;
}.
Arguments mkLink {_ _} _ _.
Arguments link_system {_ _} _.
Arguments in_transit {_ _} _.

(** What a call of a run answers. *)
Inductive answer :=
| Result (rv : ReturnValue_t)
| Outputs (outs : list handler_output)
| NoAnswer.

(** * The specification *)

(** Accepted commands that are not yet delivered, with the rate they bring, and the
    arbiter of those that are. *)
Record Commanding := mkCommanding {
  requests : list (Z * option double);
  arbiter_of : arbiter;
}.

(** The rate that the commands of a list ask for last. *)
Definition latest_rate (rate : double) (rs : list (Z * option double)) : double :=
  foldl (λ rate r, if decide (r.1 = arb_set_rate) then default rate r.2 else rate) rate rs.

(** What a list of requests makes of an arbiter. *)
Lemma arb_requests rs a :
  let a' := foldl (λ a r, arb_request r.1 r.2 a) a rs in
  (∀ c, c ∈ pending a' ↔ c ∈ pending a ∨ c ∈ rs.*1)
  ∧ requested a' = latest_rate (requested a) rs ∧ current a' = current a.
Proof.
  revert a. induction rs as [|r rs IH]; intros a; simpl; [set_solver|].
  destruct (IH (arb_request r.1 r.2 a)) as (Hp & Hr & Hc). split_and!; [|done|done].
  intros c. rewrite Hp. simpl. set_solver.
Qed.

Section Link.
Context `{FsfwConstants} {W Store TimeReader Msg PW : Type}.
Context `{CommandMessageIF Msg, !StorageManagerIF W Store, !StorageView W Store}.
Context `{!CommandingServiceBaseIF W Store, !ObjectManagerIF W Store TimeReader}.
Context `{!ParameterWrapperIF PW, !DeviceHandlerBaseIF W Msg PW, !ActionHelperIF Handler W Msg}.
Context (host : byte_order) (ipc : Store).

Abbreviation link_env := (env (Link Store Msg) W).

Inductive link_call :=
| Telecommand (m : Msg) (subservice : Z) (tcData : option (list byte)) (tcDataLen : Z)
| Deliver
| HandlerCall (ev : handler_event PW)
| Reply (reply : Msg) (objectId : object_id_t) (isStep : bool)
| Framework (activity : W → W).

Definition on_system {A} (m : M (env (System Store) W) A) : M link_env A := λ e,
  match m (Env (link_system (self e)) (console e) (world e)) with
  | Done (a, e') =>
      Done (a, Env (mkLink (self e') (in_transit (self e))) (console e') (world e'))
  | Undefined => Undefined
  | OutOfFuel => OutOfFuel
  end.

Definition set_transit (q : list Msg) : M link_env unit :=
  update (λ l, mkLink (link_system l) q).

(** A prepared device command goes into the handler's queue; a parameter dump goes to
    the framework's parameter helper. *)
Definition link_step (c : link_call) : M link_env answer :=
  match c with
  | Telecommand m subservice tcData tcDataLen =>
      '(result, message) ← on_system (on_service (prepareCommand (Some m) subservice tcData tcDataLen));
      l ← this;
      (if decide (result = OK ∧ subservice ≠ Subservice_raw PARAMETER_DUMP)
       then set_transit (in_transit l ++ option_list message) else mret ());;
      mret (Result result)
  | Deliver =>
      l ← this;
      match in_transit l with
      | [] => mret NoAnswer
      | m :: q =>
          set_transit q;;
          '(result, _) ← on_system (on_handler (letChildHandleMessage (PW:=PW) (Some m)));
          mret (Result result)
      end
  | HandlerCall ev => outs ← on_system (on_handler (handle_event host ev)); mret (Outputs outs)
  | Reply reply objectId isStep =>
      '(result, _) ← on_system (on_service (handleReply (Some reply) objectId (Some isStep)));
      mret (Result result)
  | Framework activity => call_void activity;; mret NoAnswer
  end.

(** Several calls, one after the other. *)
Fixpoint link_steps (cs : list link_call) : M link_env (list answer) :=
  match cs with
  | [] => mret []
  | c :: cs => a ← link_step c; rest ← link_steps cs; mret (a :: rest)
  end.

(** The store element a reply hands over, if it is one with data. *)
Definition reply_store (reply : Msg) : option store_address_t :=
  if decide (getMessageType reply = ACTION ∧ getCommand reply = DATA_REPLY)
  then Some (ActionMessage_getStoreId reply)
  else if decide (getMessageType reply = PARAMETER ∧ getCommand reply = REPLY_PARAMETER_DUMP)
  then Some (ParameterMessage_getStoreId reply)
  else None.

(** The store elements of the messages in the queue. *)
Definition addresses (l : Link Store Msg) : list store_address_t :=
  Fsfw.getParameter <$> in_transit l.

(** What the framework keeps to: buffers are as long as it says, a message is delivered
    only when there is one, a reply does not name an element that belongs to a waiting
    command, and nobody else touches those elements. *)
Definition call_ok (c : link_call) (e : link_env) : Prop :=
  match c with
  | Telecommand _ subservice tcData tcDataLen => (0 ≤ subservice < 256)%Z ∧ valid_tc_data tcData tcDataLen
  | Deliver => in_transit (self e) ≠ []
  | HandlerCall ev => event_ok ev
  | Reply reply _ _ => ∀ a, reply_store reply = Some a → a ∉ addresses (self e)
  | Framework activity => ∀ a, a ∈ addresses (self e) →
      contents (activity (world e)) ipc !! a = contents (world e) ipc !! a
  end.

(** A run, with the calls and their answers. *)
Inductive link_run (e0 : link_env) : list (link_call * answer) → link_env → Prop :=
| run_start : link_run e0 [] e0
| run_call trace e c a e' :
    link_run e0 trace e → call_ok c e → link_step c e = Done (a, e') →
    link_run e0 (trace ++ [(c, a)]) e'.

(** ** What the specification allows *)

(** Device commands fit when their data do; a parameter dump may be accepted. *)
Definition telecommand_fits (subservice : Z) (tcData : option (list byte)) (tcDataLen : Z) : Prop :=
  match subservice_command subservice with
  | Some command => device_args_ok command tcData tcDataLen
  | None => subservice = Subservice_raw PARAMETER_DUMP
  end.
#[export] Instance telecommand_fits_dec subservice tcData tcDataLen :
  Decision (telecommand_fits subservice tcData tcDataLen).
Proof. unfold telecommand_fits. destruct (subservice_command subservice); apply _. Defined.

(** The command an accepted telecommand stands for. *)
Definition accepted_command (c : link_call) (a : answer) : option (Z * option double) :=
  match c, a with
  | Telecommand _ subservice tcData tcDataLen, Result rv =>
      if decide (rv = OK) then
        command ← subservice_command subservice;
        Some (CommandId_raw command, telecommand_rate host command tcData)
      else None
  | _, _ => None
  end.

(** One call with its answer; [None] when the answer is not allowed. *)
Definition spec_step (s : Commanding) (call : link_call * answer) : option Commanding :=
  let '(c, a) := call in
  match c, a with
  | Telecommand _ subservice tcData tcDataLen, Result rv =>
      if decide (rv = OK → telecommand_fits subservice tcData tcDataLen)
      then Some (mkCommanding (requests s ++ option_list (accepted_command c a)) (arbiter_of s))
      else None
  | Deliver, Result rv =>
      match requests s with
      | (command, rate) :: rest =>
          if decide (rv = OK) then Some (mkCommanding rest (arb_request command rate (arbiter_of s)))
          else None
      | [] => None
      end
  | HandlerCall ev, Outputs outs =>
      let '(arbiter', commands) := arb_step (arbiter_of s) (abs_event host ev) in
      if decide (issued outs = commands) then Some (mkCommanding (requests s) arbiter') else None
  | Reply _ _ _, Result _ => Some s
  | Framework _, NoAnswer => Some s
  | _, _ => None
  end.

Fixpoint spec_run (s : Commanding) (trace : list (link_call * answer)) : option Commanding :=
  match trace with
  | [] => Some s
  | call :: trace => s' ← spec_step s call; spec_run s' trace
  end.

Lemma spec_run_app s trace1 trace2 :
  spec_run s (trace1 ++ trace2) = (s' ← spec_run s trace1; spec_run s' trace2).
Proof.
  revert s. induction trace1 as [|call trace1 IH]; intros s; [done|].
  simpl. destruct (spec_step s call); [apply IH|done].
Qed.

(** ** What is read off a run *)

(** The elements handed over by replies. *)
Definition replied (trace : list (link_call * answer)) : list store_address_t :=
  omap (λ call, match call.1 with Reply reply _ _ => reply_store reply | _ => None end) trace.

(** The commands accepted, in order, and how many messages were delivered. *)
Definition accepted (trace : list (link_call * answer)) : list (Z * option double) :=
  omap (λ call, accepted_command call.1 call.2) trace.

Definition deliveries (trace : list (link_call * answer)) : nat :=
  length (omap (λ call, match call.1 with Deliver => Some () | _ => None end) trace).

(** Frame rates come from telecommands alone: nobody calls the handler's
    [buildCommandFromCommand] past the queue or writes its parameter. *)
Definition commanded_only (call : link_call * answer) : Prop :=
  match call.1 with
  | HandlerCall (EvCommand _ _ _) | HandlerCall (EvParameter _ _ _ (Some _) _) => False
  | _ => True
  end.

(** Framework activity that leaves an element of the store, or its absence, as it is. *)
Definition spares (a : store_address_t) (call : link_call * answer) : Prop :=
  match call.1 with
  | Framework activity => ∀ w, contents (activity w) ipc !! a = contents w ipc !! a
  | _ => True
  end.
End Link.
Arguments link_call : clear implicits.
