(* ===== verification/CommandPathSteps.v ===== *)
(** One call of a run ([CommandPath]): it returns, it answers as the specification allows,
    and it leaves the store elements it has no business with alone. *)

From S2P Require Import Prelude Words Fsfw FsfwModel WebcamDefinitions MessageTypes.
From S2P Require Import WebcamDeviceHandler CommandArbiter HandlerRefinement DeviceCycles.
From S2P Require Import WebcamCommandingService CommandingProperties EndToEnd CommandPath.

Section LinkProofs.
Context `{FsfwConstantsLaws} {W Store TimeReader Msg PW : Type}.
Context `{CommandMessageLaws Msg, !StorageManagerIF W Store, !StorageView W Store}.
Context `{!StorageManagerLaws W Store, !CommandingServiceBaseIF W Store}.
Context `{!ObjectManagerIF W Store TimeReader}.
Context `{!ParameterWrapperIF PW, !DeviceHandlerBaseIF W Msg PW, !ActionHelperIF Handler W Msg}.
Context `{!DeviceHandlerBaseLaws W Msg PW Store}.
Context (host : byte_order) (ipc : Store) `{!ActionHelperLaws host ipc}.
Context (telemetry_kept : telemetry_preserves (W:=W) ipc).

Abbreviation link_env := (env (Link Store Msg) W).
Abbreviation calls := (link_call W Msg PW).
Abbreviation handler_of e := (sys_handler (link_system (self e))).
Abbreviation service_of e := (sys_service (link_system (self e))).

Lemma wp_on_system {A} (m : M (env (System Store) W) A) (e : link_env) Q :
  wp m (Env (link_system (self e)) (console e) (world e)) (λ a e',
    Q a (Env (mkLink (self e') (in_transit (self e))) (console e') (world e'))) →
  wp (on_system m) e Q.
Proof. unfold wp, on_system. by destruct (m _) as [[a e']| |]. Qed.

(** ** What the calls do to the objects and the store *)

(** Telecommands that are no device commands leave everything as it is. *)
Lemma prepareCommand_rest (m : Msg) s tcData tcDataLen (e : env (Service Store) W) :
  subservice_command s = None → valid_tc_data tcData tcDataLen →
  wp (prepareCommand (Some m) s tcData tcDataLen) e (λ r e',
    e' = e ∧ (r.1 = OK → s = Subservice_raw PARAMETER_DUMP)).
Proof.
  intros Hs Hbuf. unfold prepareCommand.
  destruct (subservice_cases s) as [-> | [-> | [-> | [-> | (_ & ? & ? & ? & ?)]]]]; try done;
    decide_subservice.
  - change (wp (prepareCommand (Some m) 4 tcData tcDataLen) e (λ r e',
      e' = e ∧ (r.1 = OK → 4%Z = Subservice_raw PARAMETER_DUMP))).
    unfold wp. by rewrite prepareParameterDump_correct.
  - apply wp_ret. split; [done|]. intros Heq. exfalso. apply errors_not_OK. rewrite <- Heq. set_solver.
Qed.

Lemma action_not_parameter (m : Msg) : getMessageType m = ACTION → getMessageType m ≠ PARAMETER.
Proof.
  intros -> Heq. pose proof message_types_distinct as Hd.
  rewrite !list_relations.list.NoDup_cons in Hd. set_solver.
Qed.

(** A reply releases the element it hands over, and nothing else. *)
Lemma reply_run (reply : Msg) objectId isStep (e : env (Service Store) W) :
  ipcStore (self e) = Some ipc →
  wp (handleReply (Some reply) objectId (Some isStep)) e (λ _ e', self e' = self e
    ∧ contents (world e') ipc = match reply_store reply with
                                | Some a => delete a (contents (world e) ipc)
                                | None => contents (world e) ipc
                                end).
Proof.
  intros Hipc. unfold reply_store.
  destruct (decide (getMessageType reply = PARAMETER)) as [Hp|Hp].
  - rewrite decide_False by (intros [Ha _]; by eapply action_not_parameter).
    pose proof (parameter_reply_released ipc reply (Some isStep) objectId e telemetry_kept Hipc Hp) as Hrun.
    case_decide as Hc; [rewrite decide_True by done|rewrite decide_False by naive_solver].
    + eapply wp_mono; [exact Hrun|]. by intros r e' (_ & ? & _ & ? & _).
    + unfold wp. by rewrite Hrun.
  - rewrite (decide_False (P := getMessageType reply = PARAMETER ∧ _)) by naive_solver.
    destruct (decide (getMessageType reply = ACTION ∧ getCommand reply = DATA_REPLY)) as [[Ha Hd]|Hn].
    + eapply wp_mono; [by apply (data_reply_run ipc)|]. by intros r e' (_ & ? & _ & ? & _).
    + destruct (decide (getCommand reply = DATA_REPLY)) as [Hd|Hd].
      * unfold handleReply. apply wp_bind, (wp_deref _ reply); [done|].
        rewrite !decide_False by naive_solver. by apply wp_ret.
      * unfold wp. by rewrite plain_replies.
Qed.

(** Calls of the framework to the handler do not touch the store. *)
Lemma parameter_contents d p (wrapper values : option PW) start (e : env Handler W) :
  wp (WebcamDeviceHandler.getParameter d p wrapper values start) e (λ _ e',
    contents (world e') ipc = contents (world e) ipc).
Proof.
  pose proof (getParameter_contents d p wrapper values start (world e) ipc) as Hbase.
  unfold wp, WebcamDeviceHandler.getParameter, call, mbind, M_bind, this. cbv beta.
  repeat case_decide;
    try (destruct (base_getParameter d p wrapper values start (world e)); exact Hbase);
    destruct values as [values|], wrapper; try done; cbn [self];
    destruct (wrapper_getElement values (currentFrameRate (self e))); by case_decide.
Qed.

Lemma event_contents ev (e : env Handler W) :
  communicationInterface (self e) ≠ None → event_ok ev →
  wp (handle_event (PW:=PW) host ev) e (λ outs e', step_post host ev e outs e'
    ∧ contents (world e') ipc = contents (world e) ipc).
Proof.
  intros Hcif Hok. pose proof (event_step host ev e Hcif Hok) as Hstep.
  destruct (wp_inv _ _ _ Hstep) as (outs & e' & Hrun & Hpost).
  eapply wp_done; [exact Hrun|]. split; [exact Hpost|]. clear Hstep Hpost Hok.
  revert Hrun. destruct e as [[cur req s pow tr r g prog ready fid buf [cif|] raw rawlen] c w]; [|done].
  destruct ev as [id data len| | |d p wrapper values start| | |]; cbn [handle_event]; cbn [world].
  - unfold mbind, M_bind.
    destruct (buildCommandFromCommand host id data len _) as [[rv e1]| |] eqn:Hb; [|done..].
    intros [= <- <-]. by destruct (build_world _ _ _ _ _ _ _ Hb) as [-> _].
  - unfold buildNormalDeviceCommand, prepareReply. run_handler.
    destruct s; [|destruct r; [|destruct g]]; by intros [= <- <-].
  - unfold scanForReply, interpretDeviceReply. run_handler.
    destruct ready; repeat (case_decide; run_handler); by intros [= <- <-].
  - pose proof (parameter_contents d p wrapper values start
      (Env (Build_Handler cur req s pow tr r g prog ready fid buf (Some cif) raw rawlen) c w)) as Hp.
    unfold wp, mbind, M_bind, mret, M_ret in *.
    destruct (WebcamDeviceHandler.getParameter _ _ _ _ _ _) as [[rv e1]| |]; [|done..].
    by intros [= <- <-].
  - by intros [= <- <-].
  - intros [= <- <-]. apply setMode_contents.
  - intros [= <- <-]. apply setMode_contents.
Qed.

(** ** The abstraction *)

(** A message in the queue carries a request, with its data in the store. *)
Definition carries (w : W) (m : Msg) (r : Z * option double) : Prop :=
  getMessageType m = DEVICE_HANDLER_COMMAND ∧ uint8 (Z.land (getCommand m) 255) = r.1
  ∧ r.1 ∈ [1; 2; 3]%Z
  ∧ ∃ data, contents w ipc !! Fsfw.getParameter m = Some data
      ∧ data_rate host (Some data) (Z.of_nat (length data)) = r.2.

Record related (e : link_env) (s : Commanding) : Prop := {
  rel_ipc : ipcStore (service_of e) = Some ipc;
  rel_interface : communicationInterface (handler_of e) ≠ None;
  rel_arbiter : abs_handler (handler_of e) = arbiter_of s;
  rel_requests : Forall2 (carries (world e)) (in_transit (self e)) (requests s);
  rel_addresses : NoDup (addresses (self e));
}.

(** The elements of the IPC store that do not belong to a waiting command. *)
Definition others (e : link_env) : gmap Z (list byte) :=
  foldr delete (contents (world e) ipc) (addresses (self e)).

(** What a call does to them: a reply releases the element it hands over, an activity of
    the framework does what it does, and nothing else changes them. *)
Definition accounted (c : calls) (e e' : link_env) : Prop :=
  match c with
  | Framework activity => others e' = foldr delete (contents (activity (world e)) ipc) (addresses (self e))
  | Reply reply _ _ =>
      others e' = match reply_store reply with Some a => delete a (others e) | None => others e end
  | _ => others e' = others e
  end.

(** Messages keep their meaning while their elements are left alone. *)
Lemma carries_kept (w w' : W) ms rs :
  (∀ m, m ∈ ms → contents w' ipc !! Fsfw.getParameter m = contents w ipc !! Fsfw.getParameter m) →
  Forall2 (carries w) ms rs → Forall2 (carries w') ms rs.
Proof.
  intros Hkeep Hall. induction Hall as [|m r ms rs (Ht & Hc & Hr & data & Hd & Hrate) Hall IH];
    constructor.
  - split_and!; [done..|]. exists data. by rewrite Hkeep by set_solver.
  - apply IH. intros. apply Hkeep. set_solver.
Qed.

Lemma elem_of_addresses (l : Link Store Msg) m : m ∈ in_transit l → Fsfw.getParameter m ∈ addresses l.
Proof. intros. by apply list_elem_of_fmap_2. Qed.

Lemma carries_used (w : W) ms rs a : Forall2 (carries w) ms rs →
  a ∈ Fsfw.getParameter <$> ms → is_Some (contents w ipc !! a).
Proof.
  intros Hall. induction Hall as [|m r ms rs (_ & _ & _ & data & Hd & _) Hall IH]; [by intros ?%elem_of_nil|].
  rewrite fmap_cons, elem_of_cons. intros [-> | Ha]; [by eexists|by apply IH].
Qed.

(** ** One call *)

Definition call_post (c : calls) (e : link_env) (s : Commanding) (a : answer) (e' : link_env) : Prop :=
  ∃ s', spec_step host s (c, a) = Some s' ∧ related e' s' ∧ accounted c e e'.

Lemma framework_call f e s : related e s → call_ok ipc (Framework f : calls) e →
  wp (link_step host (Framework f : calls)) e (call_post (Framework f) e s).
Proof.
  intros [] Hok. exists s. split_and!; [done|split|done]; simpl; [done..| |done].
  eapply carries_kept; [|done]. intros m Hm. by apply Hok, elem_of_addresses.
Qed.

Lemma handler_call ev e s : related e s → event_ok ev →
  wp (link_step host (HandlerCall ev)) e (call_post (HandlerCall ev) e s).
Proof.
  intros [Hipc Hcif Harb Hreq Hnd] Hok. cbn [link_step]. apply wp_bind, wp_on_system, wp_on_handler.
  eapply wp_mono; [by apply event_contents|].
  intros outs e' [(Habs & Hcif' & _) Hcont]. cbn [self world console] in *. apply wp_ret.
  exists (mkCommanding (requests s) (abs_handler (self e'))).
  split_and!.
  - cbn [spec_step]. rewrite <- Harb, Habs, decide_True; done.
  - split; simpl; [done|by rewrite Hcif'|done| |done].
    eapply carries_kept; [|done]. intros. by rewrite Hcont.
  - simpl. unfold others, addresses. simpl. by rewrite Hcont.
Qed.

Lemma reply_call reply objectId isStep e s :
  related e s → call_ok ipc (Reply reply objectId isStep : calls) e →
  wp (link_step host (Reply reply objectId isStep : calls)) e (call_post (Reply reply objectId isStep) e s).
Proof.
  intros [Hipc Hcif Harb Hreq Hnd] Hok. cbn [link_step]. apply wp_bind, wp_on_system, wp_on_service.
  eapply wp_mono; [by apply reply_run|].
  intros [rv b] e' [Hself Hcont]. cbn [self world console] in *. apply wp_ret.
  exists s. split_and!; [done|split; simpl; [by rewrite Hself|done..| |done]|].
  - eapply carries_kept; [|done]. intros m Hm. rewrite Hcont.
    destruct (reply_store reply) as [a|] eqn:Hr; [|done]. apply lookup_delete_ne.
    intros ->. by apply (Hok _ Hr), elem_of_addresses.
  - cbn [accounted]. unfold others. cbn [self world addresses in_transit]. rewrite Hcont.
    destruct (reply_store reply); [apply foldr_delete_comm|done].
Qed.

Lemma addresses_app (sys : System Store) (l : Link Store Msg) ms :
  addresses (mkLink sys (in_transit l ++ ms)) = addresses l ++ (Fsfw.getParameter <$> ms).
Proof. unfold addresses. simpl. by rewrite fmap_app. Qed.

(** A prepared command joins the queue. *)
Lemma accept_related e s c a data m w :
  related e s → CommandId_raw c ∈ [1; 2; 3]%Z → (0 ≤ a < 2 ^ 32)%Z →
  contents (world e) ipc !! a = None → contents w ipc = <[a := data]> (contents (world e) ipc) →
  let e' := Env (mkLink (mkSystem (service_of e) (handler_of e))
                   (in_transit (self e) ++ [device_message c a m])) (console e) w in
  related e' (mkCommanding
    (requests s ++ [(CommandId_raw c, data_rate host (Some data) (Z.of_nat (length data)))]) (arbiter_of s))
  ∧ others e' = others e.
Proof.
  intros [Hipc Hcif Harb Hreq Hnd] Hc Ha Hnone Hcont e'.
  destruct (device_message_fields c a m Hc Ha) as (Ht & Hraw & Hp).
  assert (a ∉ addresses (self e)) as Hfresh.
  { intros Hin. destruct (carries_used _ _ _ _ Hreq Hin). congruence. }
  assert (addresses (self e') = addresses (self e) ++ [a]) as Haddr.
  { unfold e'. cbn [self]. rewrite addresses_app. cbn. by rewrite Hp. }
  split; [split|].
  - done.
  - done.
  - done.
  - apply Forall2_app.
    + eapply carries_kept; [|done]. intros m' Hm'. cbn [world e']. rewrite Hcont, lookup_insert_ne; [done|].
      intros ->. by apply Hfresh, elem_of_addresses.
    + constructor; [|constructor]. split_and!; [done..|]. exists data. cbn [world e' snd].
      by rewrite Hcont, Hp, lookup_insert_eq.
  - rewrite Haddr. apply list_relations.list.NoDup_app.
    split_and!; [done| |apply list_relations.list.NoDup_singleton].
    intros x Hx ->%list_elem_of_singleton. done.
  - unfold others. rewrite Haddr, foldr_app. cbn [world e' foldr]. by rewrite Hcont, delete_insert_id.
Qed.

Lemma refuse_related e s (e' : env (Service Store) W) q : related e s →
  self e' = service_of e → contents (world e') ipc = contents (world e) ipc → q = in_transit (self e) →
  let e1 := Env (mkLink (mkSystem (self e') (handler_of e)) q) (console e') (world e') in
  related e1 s ∧ others e1 = others e.
Proof.
  intros [Hipc Hcif Harb Hreq Hnd] Hself Hcont -> e1. split; [split|]; try done.
  - cbn. by rewrite Hself.
  - eapply carries_kept; [|done]. intros. cbn. by rewrite Hcont.
  - unfold others. cbn. by rewrite Hcont.
Qed.

(** A telecommand whose result is not a new message in the queue. *)
Lemma telecommand_kept m subservice tcData tcDataLen e s rv (m' : option Msg) (e1 : env (Service Store) W) :
  related e s → self e1 = service_of e → contents (world e1) ipc = contents (world e) ipc →
  (rv = OK → subservice = Subservice_raw PARAMETER_DUMP) →
  wp (l ← this;
      (if decide (rv = OK ∧ subservice ≠ Subservice_raw PARAMETER_DUMP)
       then set_transit (in_transit l ++ option_list m') else mret ());;
      mret (Result rv))
    (Env (mkLink (mkSystem (self e1) (handler_of e)) (in_transit (self e))) (console e1) (world e1))
    (call_post (Telecommand m subservice tcData tcDataLen) e s).
Proof.
  intros Hrel Hself Hcont Hrv. apply wp_bind, wp_this.
  rewrite (decide_False (P := rv = OK ∧ _)) by naive_solver. apply wp_bind, wp_ret, wp_ret.
  destruct (refuse_related e s e1 _ Hrel Hself Hcont eq_refl) as [Hrel' Hoth].
  exists s. split_and!; [|exact Hrel'|exact Hoth].
  unfold spec_step, accepted_command. destruct (decide (rv = OK)) as [Heq|Hne].
  - rewrite (Hrv Heq), decide_True by done. cbn. rewrite app_nil_r. by destruct s.
  - rewrite decide_True by done. cbn. rewrite app_nil_r. by destruct s.
Qed.

Lemma telecommand_call m subservice tcData tcDataLen e s :
  related e s → valid_tc_data tcData tcDataLen →
  wp (link_step host (Telecommand m subservice tcData tcDataLen : calls)) e
    (call_post (Telecommand m subservice tcData tcDataLen) e s).
Proof.
  intros Hrel Hbuf. cbn [link_step]. apply wp_bind, wp_on_system, wp_on_service.
  destruct (subservice_command subservice) as [c|] eqn:Hs.
  2: { eapply wp_mono; [by apply prepareCommand_rest|]. intros [rv m'] e1 [-> Hok].
       by apply (telecommand_kept m subservice tcData tcDataLen e s rv m'
                  (Env (service_of e) (console e) (world e))). }
  rewrite (prepareCommand_device m subservice c tcData tcDataLen Hs).
  destruct (prepareDeviceCommand_run (W:=W) m c tcData tcDataLen ipc
    (Env (service_of e) (console e) (world e)) (rel_ipc _ _ Hrel) Hbuf) as [Hok Hbad].
  destruct (decide (device_args_ok c tcData tcDataLen)) as [Hargs|Hargs].
  2: { eapply wp_done; [by apply Hbad|].
       apply (telecommand_kept m subservice tcData tcDataLen e s INVALID_TC (Some m)
                (Env (service_of e) (console e) (world e))); [done..|].
       intros Heq. exfalso. apply errors_not_OK. rewrite <- Heq. set_solver. }
  eapply wp_mono; [by apply Hok|]. intros [rv m'] [service out w] (Hself & Hcons & Hcase).
  cbn [self world console fst snd] in *. subst service out.
  destruct Hcase as [(-> & a & Hnone & Ha & Hcont & ->) | (Hrv & -> & Hcont)].
  2: { by apply (telecommand_kept m subservice tcData tcDataLen e s rv (Some m)
                  (Env (service_of e) (console e) w)). }
  destruct (accept_related e s c a (device_payload c tcData) m w) as [Hrel' Hoth];
    [done|by eapply subservice_raw|done..|].
  apply wp_bind, wp_this. rewrite decide_True by (split; [done|by intros ->]).
  apply wp_bind, wp_update, wp_ret. eexists. split_and!.
  - assert (telecommand_fits subservice tcData tcDataLen) by (unfold telecommand_fits; by rewrite Hs).
    unfold spec_step, accepted_command. rewrite Hs, !decide_True by done. done.
  - exact Hrel'.
  - exact Hoth.
Qed.

Lemma deliver_call e s : related e s → in_transit (self e) ≠ [] →
  wp (link_step host (Deliver : calls)) e (λ a e', call_post Deliver e s a e'
    ∧ console e' = console e ∧ replyReady (handler_of e') = replyReady (handler_of e)).
Proof.
  intros [Hipc Hcif Harb Hreq Hnd] Hq. cbn [link_step]. apply wp_bind, wp_this.
  destruct s as [rs arb]. cbn [requests arbiter_of] in *. unfold addresses in Hnd.
  destruct (in_transit (self e)) as [|m q] eqn:Htr; [done|].
  destruct rs as [|[c rate] rs]; [by apply Forall2_cons_nil_inv in Hreq|].
  apply list_relations.list.Forall2_cons in Hreq as [(Ht & Hraw & Hc & data & Hd & Hrate) Hreq].
  rewrite fmap_cons, list_relations.list.NoDup_cons in Hnd. destruct Hnd as [Hfresh Hnd].
  cbn [fst snd] in *. apply wp_bind, wp_update. apply wp_bind, wp_on_system, wp_on_handler.
  eapply wp_mono; [eapply (deliver_command host ipc); [exact Ht|by rewrite Hraw|exact Hd]|].
  intros [rv m'] e1 (Hrv & Habs & Hcif1 & Hcont & Hcons & Hready).
  cbn [self world console fst snd link_system sys_handler] in *.
  apply wp_ret. rewrite Hraw, Hrate, Harb in Habs.
  split; [|done]. exists (mkCommanding rs (arb_request c rate arb)). split_and!.
  - unfold spec_step. cbn [requests arbiter_of]. by rewrite Hrv, decide_True.
  - split; cbn; [done|by rewrite Hcif1|done| |done].
    eapply carries_kept; [|done]. intros m1 Hm1. rewrite Hcont. apply lookup_delete_ne.
    intros Heq. apply Hfresh. rewrite Heq. by apply list_elem_of_fmap_2.
  - unfold accounted, others, addresses. cbn. rewrite Htr, Hcont. cbn. apply foldr_delete_comm.
Qed.

(** Every call the framework may make returns, with an answer of the specification. *)
Lemma link_call_post c e s : related e s → call_ok ipc (c : calls) e →
  wp (link_step host c) e (call_post c e s).
Proof.
  intros Hrel Hok. destruct c as [m s' data len| |ev|reply oid step|f].
  - by apply telecommand_call, Hok.
  - eapply wp_mono; [by apply deliver_call|]. naive_solver.
  - by apply handler_call.
  - by apply reply_call.
  - by apply framework_call.
Qed.
End LinkProofs.
