(* ===== verification/CommandPathProperties.v ===== *)
(** What holds in whole runs of service and handler ([CommandPath]): every run refines the
    specification, never gets stuck, accounts for the IPC store, serves every kind of
    command accepted, and works with the frame rate commanded last. *)

From S2P Require Import Prelude Words Fsfw FsfwModel WebcamDefinitions MessageTypes.
From S2P Require Import WebcamDeviceHandler CommandArbiter HandlerRefinement DeviceCycles.
From S2P Require Import WebcamCommandingService CommandingProperties EndToEnd CommandPath CommandPathSteps.

Section Runs.
Context `{FsfwConstantsLaws} {W Store TimeReader Msg PW : Type}.
Context `{CommandMessageLaws Msg, !StorageManagerIF W Store, !StorageView W Store}.
Context `{!StorageManagerLaws W Store, !CommandingServiceBaseIF W Store}.
Context `{!ObjectManagerIF W Store TimeReader}.
Context `{!ParameterWrapperIF PW, !DeviceHandlerBaseIF W Msg PW, !ActionHelperIF Handler W Msg}.
Context `{!DeviceHandlerBaseLaws W Msg PW Store}.
Context (host : byte_order) (ipc : Store) `{!ActionHelperLaws host ipc}.
Context (telemetry_kept : telemetry_preserves (W:=W) ipc).

Abbreviation link_env := (env (Link Store Msg) W).
Abbreviation calls := (link_call W Msg PW).
Abbreviation handler_of e := (sys_handler (link_system (self e))).
Abbreviation service_of e := (sys_service (link_system (self e))).
Abbreviation related := (related host ipc).
Abbreviation others := (others ipc).
Abbreviation carries := (carries host ipc).

(** ** Runs *)

(** The system before the first telecommand. *)
Definition idle (e : link_env) : Prop :=
  ipcStore (service_of e) = Some ipc ∧ communicationInterface (handler_of e) ≠ None
  ∧ in_transit (self e) = [].

Definition spec_start (e : link_env) : Commanding := mkCommanding [] (abs_handler (handler_of e)).

Lemma idle_related e : idle e → related e (spec_start e).
Proof.
  intros (Hipc & Hcif & Hq). split; [done|done|done| |].
  - rewrite Hq. constructor.
  - unfold addresses. rewrite Hq. constructor.
Qed.

Lemma run_related e0 trace e : idle e0 → link_run host ipc e0 (trace : list (calls * answer)) e →
  ∃ s, spec_run host (spec_start e0) trace = Some s ∧ related e s.
Proof.
  intros Hidle Hrun. induction Hrun as [|trace e c a e' Hrun (s & Hs & Hrel) Hok Hstep].
  - eexists. split; [done|]. by apply idle_related.
  - pose proof (link_call_post host ipc telemetry_kept c e s Hrel Hok) as Hpost.
    unfold wp in Hpost. rewrite Hstep in Hpost. destruct Hpost as (s' & Hspec & Hrel' & _). exists s'. split; [|done].
    rewrite spec_run_app, Hs. cbn [mbind option_bind spec_run]. by rewrite Hspec.
Qed.

(** What each call of a run does to the IPC store. *)
Lemma call_accounted e0 trace e c a e' : idle e0 → link_run host ipc e0 (trace : list (calls * answer)) e →
  call_ok ipc c e → link_step host c e = Done (a, e') → accounted ipc c e e'.
Proof.
  intros Hidle Hrun Hok Hstep. destruct (run_related _ _ _ Hidle Hrun) as (s & _ & Hrel).
  pose proof (link_call_post host ipc telemetry_kept c e s Hrel Hok) as Hpost.
  unfold wp in Hpost. rewrite Hstep in Hpost. by destruct Hpost as (_ & _ & _ & Hacc).
Qed.

(** What becomes of an element that no activity of the framework touches. *)
Lemma run_accounted e0 trace e x : idle e0 → link_run host ipc e0 (trace : list (calls * answer)) e →
  Forall (spares ipc x) trace →
  others e !! x = foldl (λ c a, delete a c) (contents (world e0) ipc) (replied trace) !! x.
Proof.
  intros Hidle Hrun. induction Hrun as [|trace e c a e' Hrun IH Hok Hstep]; intros Hall.
  - unfold others, addresses. destruct Hidle as (_ & _ & ->). done.
  - rewrite list_relations.list.Forall_app, list_relations.list.Forall_singleton in Hall.
    destruct Hall as [Hall Hc]. specialize (IH Hall).
    pose proof (call_accounted _ _ _ _ _ _ Hidle Hrun Hok Hstep) as Hacc.
    unfold replied. rewrite omap_app, foldl_app. fold (replied trace).
    destruct c as [| | |reply|f]; cbn in Hacc, Hc |- *; rewrite Hacc; try exact IH.
    + destruct (reply_store reply) as [y|]; [|exact IH].
      cbn. destruct (decide (x = y)) as [->|Hne]; [by rewrite !lookup_delete_eq|].
      by rewrite !lookup_delete_ne.
    + rewrite <- IH. unfold others. by rewrite !foldr_delete_lookup, Hc.
Qed.

(** (C1) Refinement: whatever the order in which telecommands arrive, messages are
    delivered, the handler is called, replies come in and the framework works, the
    answers of service and handler are ones of the specification, a first-in
    first-out queue of accepted commands in front of the command arbiter: only fitting
    telecommands are accepted, each message delivered is the oldest command accepted,
    with the rate in its telecommand, and the handler issues what the arbiter issues.
    The specification's state is the handler's and that of its message queue. *)
Theorem link_refines_commanding e0 (trace : list (calls * answer)) e :
  idle e0 → link_run host ipc e0 trace e →
  ∃ s, spec_run host (spec_start e0) trace = Some s
    ∧ abs_handler (handler_of e) = arbiter_of s
    ∧ Forall2 (carries (world e)) (in_transit (self e)) (requests s).
Proof.
  intros Hidle Hrun. destruct (run_related _ _ _ Hidle Hrun) as (s & Hs & Hrel).
  exists s. split_and!; [done|apply Hrel..].
Qed.

(** No call fails: in every state a run can reach, every call the framework may make
    returns, without undefined behaviour, and the run goes on. *)
Theorem link_never_stuck e0 (trace : list (calls * answer)) e c :
  idle e0 → link_run host ipc e0 trace e → call_ok ipc c e →
  ∃ a e', link_step host c e = Done (a, e') ∧ link_run host ipc e0 (trace ++ [(c, a)]) e'.
Proof.
  intros Hidle Hrun Hok. destruct (run_related _ _ _ Hidle Hrun) as (s & _ & Hrel).
  destruct (wp_inv _ _ _ (link_call_post host ipc telemetry_kept c e s Hrel Hok)) as (a & e' & Hstep & _).
  exists a, e'. split; [done|]. by econstructor.
Qed.

(** (C9) The IPC store is accounted for in every run of service and handler, whatever else
    the framework does. Each command on its way to the handler has one element, in use,
    whose address only its message has, and the store holds these and nothing else but
    the [others]. To the others a call does only this: a reply takes away the element it
    hands over, an activity of the framework does what it does to the store, and no
    telecommand, accepted or refused, no delivery and no call of the handler changes
    them. So an element that the framework's own activity does not touch is there at the
    end just when it was at the start and no reply has handed it over; when that is all
    of the store and no command is on its way, nothing is left behind. *)
Theorem ipc_store_accounted e0 (trace : list (calls * answer)) e :
  idle e0 → link_run host ipc e0 trace e →
  let kept := foldl (λ c a, delete a c) (contents (world e0) ipc) (replied trace) in
  NoDup (addresses (self e))
  ∧ (∀ x, x ∈ addresses (self e) → is_Some (contents (world e) ipc !! x) ∧ others e !! x = None)
  ∧ (∀ x, x ∉ addresses (self e) → contents (world e) ipc !! x = others e !! x)
  ∧ size (contents (world e) ipc) = size (others e) + length (in_transit (self e))
  ∧ (∀ c a e', call_ok ipc c e → link_step host c e = Done (a, e') → accounted ipc c e e')
  ∧ (∀ x, Forall (spares ipc x) trace → others e !! x = kept !! x)
  ∧ ((∀ x, Forall (spares ipc x) trace) → in_transit (self e) = [] → contents (world e) ipc = kept).
Proof.
  intros Hidle Hrun kept. destruct (run_related _ _ _ Hidle Hrun) as (s & _ & Hrel).
  assert (∀ x, Forall (spares ipc x) trace → others e !! x = kept !! x) as Hkept
    by (intros; by apply run_accounted).
  split_and!; [apply Hrel|..|by intros; eapply call_accounted|done|].
  - intros x Hx. split; [by eapply carries_used; [apply Hrel|]|].
    unfold others. by rewrite foldr_delete_lookup, decide_True.
  - intros x Hx. unfold others. by rewrite foldr_delete_lookup, decide_False.
  - unfold others. rewrite (foldr_delete_size _ (addresses (self e))).
    + unfold addresses. by rewrite length_fmap.
    + apply Hrel.
    + intros a. by eapply carries_used, Hrel.
  - intros Hall Hnil. apply map_eq. intros x. rewrite <- Hkept by done.
    unfold others, addresses. by rewrite Hnil.
Qed.

(** ** Serving everything that was accepted *)

Lemma link_steps_app cs1 cs2 (e : link_env) Q :
  wp (link_steps host (cs1 : list calls)) e (λ as1 e1,
    wp (link_steps host cs2) e1 (λ as2 e2, Q (as1 ++ as2) e2)) →
  wp (link_steps host (cs1 ++ cs2)) e Q.
Proof.
  revert e Q. induction cs1 as [|c cs1 IH]; intros e Q; [done|].
  simpl. intros Hwp. apply wp_bind_inv in Hwp. apply wp_bind.
  eapply wp_mono; [exact Hwp|]. intros a1 e1 Hwp1. apply wp_bind_inv in Hwp1.
  apply wp_bind, IH. eapply wp_mono; [exact Hwp1|]. intros as1 e2 Hwp2. simpl in *.
  eapply wp_mono; [exact Hwp2|]. intros as2 e3 HQ. by apply wp_ret.
Qed.

Lemma deliver_all rs : ∀ e arb, related e (mkCommanding rs arb) →
  wp (link_steps host (replicate (length rs) (Deliver : calls))) e (λ _ e',
    related e' (mkCommanding [] (foldl (λ a r, arb_request r.1 r.2 a) arb rs))
    ∧ others e' = others e ∧ console e' = console e
    ∧ replyReady (handler_of e') = replyReady (handler_of e)).
Proof.
  induction rs as [|r rs IH]; intros e arb Hrel; [by apply wp_ret|].
  cbn [length replicate link_steps foldl]. apply wp_bind.
  eapply wp_mono; [apply (deliver_call host ipc telemetry_kept); [exact Hrel|]|].
  { intros Hnil. apply (rel_requests host ipc) in Hrel. rewrite Hnil in Hrel.
    by apply Forall2_nil_cons_inv in Hrel. }
  intros a e1 [(s' & Hspec & Hrel1 & Hacc) [Hcons Hready]].
  assert (s' = mkCommanding rs (arb_request r.1 r.2 arb)) as ->.
  { destruct r as [c rate], a; simpl in Hspec; try done. by case_decide; simplify_eq. }
  apply wp_bind. eapply wp_mono; [by apply IH|].
  intros as2 e2 (Hrel2 & Hoth & Hcons2 & Hready2). apply wp_ret.
  split_and!; [done|simpl in Hacc; congruence..].
Qed.

Lemma handler_calls evs : ∀ e Q,
  wp (handle_events (PW:=PW) host evs) (Env (handler_of e) (console e) (world e)) (λ outs e',
    Q (Env (mkLink (mkSystem (service_of e) (self e')) (in_transit (self e))) (console e') (world e'))) →
  wp (link_steps host (HandlerCall <$> evs : list calls)) e (λ _ e', Q e').
Proof.
  induction evs as [|ev evs IH]; intros e Q Hwp; cbn [fmap list_fmap link_steps handle_events] in *.
  - destruct e as [[[] ] c w]. by apply wp_ret.
  - apply wp_bind_inv in Hwp. apply wp_bind, wp_bind, wp_on_system, wp_on_handler.
    eapply wp_mono; [exact Hwp|]. intros outs1 e1 Hwp1. apply wp_bind_inv in Hwp1.
    apply wp_ret, wp_bind.
    eapply wp_mono; [apply (IH _ Q)|by intros; apply wp_ret].
    destruct e1 as [h c w]. exact Hwp1.
Qed.

(** (C8) Every kind of command that was accepted is served. From any state a run can reach
    in which no reply waits to be found, delivering the messages on their way and three
    cycles of the handler empty the queue and the pending commands. The handler keeps
    one flag for each kind of command, so several commands of a kind that are pending or
    on their way are served as one: of the three kinds - snapshot, set the rate, query
    it, in this order of priority - each that is pending or on its way is served once,
    and the console gets one line for it. The current rate is then, if a set-frame-rate
    command was among them, the one asked for by the last of these on its way that
    carries a rate (the rate requested before, when there is none), and otherwise what
    it was; the lines about the rate show this rate. The store elements of all the
    messages delivered are released. *)
Theorem accepted_kinds_served e0 (trace : list (calls * answer)) e s :
  idle e0 → link_run host ipc e0 trace e → spec_run host (spec_start e0) trace = Some s →
  replyReady (handler_of e) = false →
  let commands := filter (λ c, c ∈ handler_pending (handler_of e) ∨ c ∈ (requests s).*1) [1; 2; 3]%Z in
  let rate := if decide (2%Z ∈ commands) then latest_rate (requestedFrameRate (handler_of e)) (requests s)
              else currentFrameRate (handler_of e) in
  wp (link_steps host (replicate (length (in_transit (self e))) (Deliver : calls)
        ++ (HandlerCall <$> device_cycles 3))) e (λ _ e',
    in_transit (self e') = [] ∧ handler_pending (handler_of e') = ∅
    ∧ console e' = console e ++ (report_line rate <$> commands)
    ∧ currentFrameRate (handler_of e') = rate
    ∧ contents (world e') ipc = others e).
Proof.
  intros Hidle Hrun Hs Hready commands rate.
  destruct (run_related _ _ _ Hidle Hrun) as (s2 & Hs2 & Hrel). rewrite Hs in Hs2. injection Hs2 as <-.
  destruct s as [rs arb]. pose proof (rel_arbiter _ _ _ _ Hrel) as Harb. cbn [requests arbiter_of] in *.
  rewrite (Forall2_length (rel_requests _ _ _ _ Hrel)). apply link_steps_app.
  eapply wp_mono; [by apply deliver_all|]. intros as1 e1 (Hrel1 & Hoth & Hcons & Hready1).
  destruct (arb_requests rs arb) as (Hp & Hr & Hc). set (arb' := foldl _ arb rs) in *.
  assert (arb_queue (pending arb') = commands) as Hqueue.
  { apply list_filter_iff. intros c. rewrite Hp, <- Harb. done. }
  assert (settled_rate arb' = rate) as Hrate.
  { unfold settled_rate, rate, arb_set_rate. rewrite Hr, Hc, <- Harb, <- Hqueue.
    cbn [requested current abs_handler].
    apply decide_ext. rewrite elem_of_arb_queue, elem_of_arb_commands. naive_solver. }
  apply handler_calls. eapply wp_mono; [apply (cycles_run (PW:=PW) host 3)|].
  - apply Hrel1.
  - simpl. congruence.
  - cbn [self console world]. intros outs e2 (_ & Hcons2 & Hq & Hs2 & _ & Hw & _).
    assert (in_transit (self e1) = []) as Hempty.
    { pose proof (rel_requests _ _ _ _ Hrel1) as Hall. by apply Forall2_nil_inv_r in Hall. }
    pose proof (rel_arbiter _ _ _ _ Hrel1) as Habs. cbn [requests arbiter_of] in Habs. fold arb' in Habs.
    change (handler_pending (handler_of e1)) with (pending (abs_handler (handler_of e1))) in *.
    rewrite Habs, Hqueue in *. rewrite Hrate in *.
    assert (length commands ≤ 3) by apply length_filter.
    rewrite take_ge in Hcons2 by done. rewrite drop_ge in Hq by done. apply nothing_queued in Hq.
    cbn [link_system sys_handler in_transit]. split_and!; [done|done|congruence| |].
    + rewrite <- Hs2. unfold settled_rate. cbn [pending abs_handler].
      by rewrite Hq, decide_False by set_solver.
    + rewrite Hw, <- Hoth. unfold others, addresses. by rewrite Hempty.
Qed.

(** ** The frame rate in whole runs *)

(** What the specification has come to after a run in which rates come from
    telecommands alone. *)
Record follows (r0 : double) (trace : list (calls * answer)) (s : Commanding)
    (delivered : list (Z * option double)) : Prop := {
  follows_accepted : accepted host trace = delivered ++ requests s;
  follows_count : deliveries trace = length delivered;
  follows_pending c : c ∈ pending (arbiter_of s) → c ∈ delivered.*1;
  follows_requested : requested (arbiter_of s) = latest_rate r0 delivered;
  follows_current : arb_set_rate ∉ pending (arbiter_of s) →
    current (arbiter_of s) = latest_rate r0 delivered;
}.

Lemma deliveries_snoc trace (call : calls * answer) :
  deliveries (trace ++ [call])
  = deliveries trace + match call.1 with Deliver => 1 | _ => 0 end.
Proof. unfold deliveries. rewrite omap_app, length_app. simpl. by destruct (call.1). Qed.

Lemma accepted_snoc (trace : list (calls * answer)) call :
  accepted host (trace ++ [call])
  = accepted host trace ++ option_list (accepted_command host call.1 call.2).
Proof. unfold accepted. rewrite omap_app. simpl. by destruct (accepted_command _ _ _). Qed.

(** The handler's own calls make no new request, and bring the current rate closer to
    the requested one. *)
Lemma settled_step a ev a' cs rate :
  commanded_only (HandlerCall ev : calls, Outputs []) → arb_step a (abs_event host ev) = (a', cs) →
  requested a = rate → (arb_set_rate ∉ pending a → current a = rate) →
  (∀ c, c ∈ pending a' → c ∈ pending a) ∧ requested a' = rate
  ∧ (arb_set_rate ∉ pending a' → current a' = rate).
Proof.
  intros Hok Hstep Hr Hc. destruct ev as [| | |d p wrapper [values|] start| | |]; try done; simpl in Hstep;
    try by injection Hstep as <- <-.
  destruct (arb_next (pending a)) as [c|]; [|by injection Hstep as <- <-].
  injection Hstep as <- <-. unfold arb_issue, arb_set_rate in *. cbn [pending requested current].
  split_and!; [set_solver|done|]. case_decide; [done|]. intros Hn. apply Hc. set_solver.
Qed.

Lemma follows_step r0 trace s delivered c a s' :
  follows r0 trace s delivered → commanded_only (c, a) → spec_step host s ((c : calls), a) = Some s' →
  ∃ delivered', follows r0 (trace ++ [(c, a)]) s' delivered'.
Proof.
  intros [Hacc Hn Hp Hr Hc] Hok Hspec.
  destruct c as [m sub data len| |ev|reply oid step|f], a as [rv|outs|]; try done.
  - unfold spec_step in Hspec. case_decide; simplify_eq. exists delivered.
    split; cbn [requests arbiter_of]; try done.
    + by rewrite accepted_snoc, Hacc, <- app_assoc.
    + rewrite deliveries_snoc. simpl. lia.
  - cbn [spec_step] in Hspec. destruct (requests s) as [|[c rate] rs] eqn:Hq; [done|].
    case_decide; simplify_eq. exists (delivered ++ [(c, rate)]).
    split; cbn [requests arbiter_of arb_request pending requested current].
    + by rewrite accepted_snoc, Hacc, app_nil_r, <- app_assoc.
    + rewrite deliveries_snoc, length_app. simpl. lia.
    + intros x. rewrite elem_of_union, elem_of_singleton, fmap_app, elem_of_app. set_solver.
    + unfold latest_rate. rewrite foldl_app. simpl. by rewrite Hr.
    + rewrite not_elem_of_union, not_elem_of_singleton. intros [Hne Hnp].
      unfold latest_rate. rewrite foldl_app. simpl. rewrite decide_False by done. by apply Hc.
  - cbn [spec_step] in Hspec. destruct (arb_step _ _) as [arb' cs] eqn:Hstep.
    case_decide; simplify_eq. exists delivered.
    split; cbn [requests arbiter_of];
      [by rewrite accepted_snoc, app_nil_r|rewrite deliveries_snoc; simpl; lia|..].
    all: destruct (settled_step (arbiter_of s) ev arb' (issued outs) (latest_rate r0 delivered))
      as (Hp' & Hr' & Hc'); [done..|]; auto.
  - cbn [spec_step] in Hspec. simplify_eq. exists delivered.
    split; [by rewrite accepted_snoc, app_nil_r|rewrite deliveries_snoc; simpl; lia|done..].
  - cbn [spec_step] in Hspec. simplify_eq. exists delivered.
    split; [by rewrite accepted_snoc, app_nil_r|rewrite deliveries_snoc; simpl; lia|done..].
Qed.

Lemma run_follows e0 trace s base : handler_of e0 = WebcamDeviceHandler base →
  spec_run host (spec_start e0) (trace : list (calls * answer)) = Some s → Forall commanded_only trace →
  ∃ delivered, follows double_zero trace s delivered.
Proof.
  intros Hnew Hs Hall. revert s Hs. induction trace as [|[c a] trace IH] using rev_ind; intros s Hs.
  - exists []. injection Hs as <-. unfold spec_start. rewrite Hnew.
    split; cbn; [done|done| |done|done]. unfold handler_pending. cbn. set_solver.
  - rewrite list_relations.list.Forall_app, list_relations.list.Forall_singleton in Hall.
    destruct Hall as [Hall Hc]. rewrite spec_run_app in Hs.
    destruct (spec_run host (spec_start e0) trace) as [s1|] eqn:Hs1; [|done].
    destruct (IH Hall s1 eq_refl) as [delivered Hf]. cbn [mbind option_bind spec_run] in Hs.
    destruct (spec_step host s1 (c, a)) as [s2|] eqn:Hstep; [|done]. injection Hs as <-.
    by eapply follows_step.
Qed.

Lemma served_rate base e0 (trace : list (calls * answer)) e c :
  handler_of e0 = WebcamDeviceHandler base → idle e0 →
  link_run host ipc e0 (trace ++ [(HandlerCall EvPoll, Outputs [Issued c])]) e →
  Forall commanded_only trace → c ≠ 1%Z →
  let delivered := take (deliveries trace) (accepted host trace) in
  delivered `prefix_of` accepted host trace ∧ c ∈ delivered.*1
  ∧ currentFrameRate (handler_of e) = latest_rate double_zero delivered.
Proof.
  intros Hnew Hidle Hrun Hall Hc delivered.
  destruct (run_related _ _ _ Hidle Hrun) as (s & Hs & Hrel).
  rewrite spec_run_app in Hs.
  destruct (spec_run host (spec_start e0) trace) as [s1|] eqn:Hs1; [|done].
  destruct (run_follows e0 trace s1 base Hnew Hs1 Hall) as [d [Hacc Hn Hp Hr Hcur]].
  assert (delivered = d) as -> by (unfold delivered; by rewrite Hn, Hacc, take_app_length).
  split; [rewrite Hacc; by eexists|].
  change (currentFrameRate (handler_of e)) with (current (abs_handler (handler_of e))).
  rewrite (rel_arbiter _ _ _ _ Hrel). cbn [mbind option_bind spec_run spec_step abs_event arb_step] in Hs.
  destruct (arb_next (pending (arbiter_of s1))) as [c'|] eqn:Hnext; [|by case_decide].
  case_decide as Hout; [|done]. injection Hs as <-. injection Hout as <-.
  destruct (arb_next_cases _ _ Hnext) as [Hcase Hin]. split; [by apply Hp|].
  cbn [arbiter_of arb_issue current]. unfold arb_set_rate in *. case_decide; [done|].
  apply Hcur. naive_solver.
Qed.

(** When no message waits, every command accepted was delivered. *)
Lemma all_delivered base e0 (trace : list (calls * answer)) e :
  handler_of e0 = WebcamDeviceHandler base → idle e0 → link_run host ipc e0 trace e →
  Forall commanded_only trace → in_transit (self e) = [] →
  deliveries trace = length (accepted host trace).
Proof.
  intros Hnew Hidle Hrun Hall Hnil. destruct (run_related _ _ _ Hidle Hrun) as (s & Hs & Hrel).
  destruct (run_follows e0 trace s base Hnew Hs Hall) as [d [Hacc Hn _ _ _]].
  pose proof (rel_requests _ _ _ _ Hrel) as Hreq. rewrite Hnil in Hreq.
  apply Forall2_nil_inv_l in Hreq. by rewrite Hacc, Hreq, app_nil_r.
Qed.

(** The rate the device works with is the one commanded last. In every run of a new
    handler in which frame rates come from telecommands, whenever a poll issues the
    set-frame-rate or the get-frame-rate command, that command is one of those
    delivered, which are the first of those accepted, in order; and the current frame
    rate is then the one the last set-frame-rate command among them asked for. So a
    query never reports a rate older than the last one accepted before it. *)
Theorem served_rate_is_latest base e0 (trace : list (calls * answer)) e c :
  handler_of e0 = WebcamDeviceHandler base → idle e0 →
  link_run host ipc e0 (trace ++ [(HandlerCall EvPoll, Outputs [Issued c])]) e →
  Forall commanded_only trace → c ≠ 1%Z →
  let delivered := take (deliveries trace) (accepted host trace) in
  c ∈ delivered.*1 ∧ currentFrameRate (handler_of e) = latest_rate double_zero delivered.
Proof. intros. by eapply served_rate. Qed.

(** ** Runs of given calls *)

(** The calls are allowed where they are made. *)
Fixpoint calls_ok (cs : list calls) (e : link_env) : Prop :=
  match cs with
  | [] => True
  | c :: cs => call_ok ipc c e ∧ match link_step host c e with
                                 | Done (_, e') => calls_ok cs e'
                                 | _ => True
                                 end
  end.

Lemma steps_run cs : ∀ e0 trace e answers e',
  link_run host ipc e0 trace e → calls_ok cs e → link_steps host cs e = Done (answers, e') →
  link_run host ipc e0 (trace ++ zip cs answers) e'.
Proof.
  induction cs as [|c cs IH]; intros e0 trace e answers e' Hrun Hok Hsteps.
  - injection Hsteps as <- <-. by rewrite app_nil_r.
  - destruct Hok as [Hc Hok]. cbn [link_steps] in Hsteps. unfold mbind, M_bind in Hsteps.
    destruct (link_step host c e) as [[a e1]| |] eqn:Hstep; [|done..].
    destruct (link_steps host cs e1) as [[rest e2]| |] eqn:Hrest; [|done..].
    injection Hsteps as <- <-. simpl. rewrite cons_middle, app_assoc.
    eapply IH; [by econstructor|done|done].
Qed.
End Runs.

(** * The commands of [main] at start-up *)

Definition start_link : env (Link Z model_msg) model_world :=
  Env (mkLink (self example_system) []) [] model_init.

Definition rate_24 : double := Double 0x4038000000000000.

Abbreviation model_call := (link_call model_world model_msg model_wrapper).

(** Set the frame rate, query it, dump the parameter. *)
Definition startup_telecommands : list model_call :=
  [Telecommand (ModelMsg 0 0 0) 2 (Some (bytes_of_double LittleEndian rate_24)) 8;
   Telecommand (ModelMsg 0 0 0) 3 None 0; Telecommand (ModelMsg 0 0 0) 4 None 0]%Z.

Definition startup_calls : list model_call :=
  startup_telecommands ++ [Deliver; Deliver; HandlerCall EvPoll; HandlerCall EvReply].

Definition startup_answers : list answer :=
  [Result OK; Result OK; Result OK; Result OK; Result OK; Outputs [Issued 2%Z]; Outputs [Replied 2%Z]].

Lemma start_idle : idle 10%Z start_link.
Proof. by split_and!. Qed.

Lemma startup_ends cs answers :
  calls_ok LittleEndian 10%Z cs start_link →
  (match link_steps LittleEndian cs start_link with
   | Done (as_, _) => Some as_
   | _ => None
   end) = Some answers →
  ∃ e, link_steps LittleEndian cs start_link = Done (answers, e)
    ∧ link_run LittleEndian 10%Z start_link (zip cs answers) e.
Proof.
  intros Hok Hsteps. destruct (link_steps _ _ _) as [[as_ e]| |] eqn:Heq; [|done..].
  injection Hsteps as ->. exists e. split; [done|].
  by apply (steps_run LittleEndian 10%Z cs start_link [] start_link answers e (run_start _ _ _)).
Qed.

Lemma startup_run : ∃ e, link_run LittleEndian 10%Z start_link (zip startup_calls startup_answers) e
  ∧ in_transit (self e) = [].
Proof.
  destruct (startup_ends startup_calls startup_answers) as (e & Hsteps & Hrun).
  - vm_compute. split_and!; by intuition congruence.
  - by vm_compute.
  - exists e. split; [done|]. vm_compute in Hsteps. by injection Hsteps as <-.
Qed.

Theorem link_refines_commanding_witness : ∃ (e : env (Link Z model_msg) model_world) s,
  spec_run LittleEndian (spec_start start_link) (zip startup_calls startup_answers) = Some s
  ∧ abs_handler (sys_handler (link_system (self e))) = arbiter_of s ∧ requests s = [].
Proof.
  destruct startup_run as (e & Hrun & Hempty). exists e.
  destruct (link_refines_commanding LittleEndian 10%Z (model_telemetry_preserves 10%Z)
    start_link (zip startup_calls startup_answers) e start_idle Hrun) as (s & Hs & Habs & Hreq).
  exists s. split; [exact Hs|]. split; [exact Habs|].
  rewrite Hempty in Hreq. by apply Forall2_nil_inv_l in Hreq.
Defined.

Theorem link_never_stuck_witness : ∃ a e e',
  link_step LittleEndian (HandlerCall EvPoll : model_call) e = Done (a, e').
Proof.
  destruct startup_run as (e & Hrun & _).
  destruct (link_never_stuck LittleEndian 10%Z (model_telemetry_preserves 10%Z)
    start_link (zip startup_calls startup_answers) e (HandlerCall EvPoll) start_idle Hrun I)
    as (a & e' & Hstep & _).
  exists a, e, e'. exact Hstep.
Defined.

Theorem ipc_store_accounted_witness : ∃ e,
  link_run LittleEndian 10%Z start_link (zip startup_calls startup_answers) e
  ∧ contents (world e) 10%Z = contents (world start_link) 10%Z.
Proof.
  destruct startup_run as (e & Hrun & Hempty). exists e. split; [exact Hrun|].
  destruct (ipc_store_accounted LittleEndian 10%Z (model_telemetry_preserves 10%Z)
    start_link (zip startup_calls startup_answers) e start_idle Hrun) as (_ & _ & _ & _ & _ & _ & Hall).
  apply Hall; [|exact Hempty]. intros x. by repeat constructor.
Defined.

(** With the two device commands accepted but not delivered, the rest serves them: the
    console shows the rate set and then queried, 24 both times. *)
Theorem accepted_kinds_served_witness : ∃ e,
  link_run LittleEndian 10%Z start_link (zip startup_telecommands (replicate 3 (Result OK))) e
  ∧ wp (link_steps LittleEndian
          (replicate 2 Deliver ++ (HandlerCall <$> device_cycles 3 : list model_call))) e
      (λ _ e', console e' = [SifInfo "[Webcam] Frame rate set to %.2f fps.\n" [ArgDouble rate_24];
                             SifInfo "[Webcam] Current frame rate is %.2f fps.\n" [ArgDouble rate_24]]).
Proof.
  destruct (startup_ends startup_telecommands (replicate 3 (Result OK))) as (e & Hsteps & Hrun).
  { vm_compute. split_and!; by intuition congruence. }
  { by vm_compute. }
  exists e. split; [exact Hrun|].
  pose proof (accepted_kinds_served LittleEndian 10%Z (model_telemetry_preserves 10%Z)
    start_link (zip startup_telecommands (replicate 3 (Result OK))) e
    (mkCommanding [(2%Z, Some rate_24); (3%Z, None)] (Arbiter ∅ double_zero double_zero))
    start_idle Hrun) as Hserved.
  vm_compute in Hsteps. injection Hsteps as <-.
  specialize (Hserved ltac:(by vm_compute) eq_refl). cbn [in_transit self length] in Hserved.
  eapply wp_mono; [exact Hserved|]. intros _ e' (_ & _ & Hcons & _). rewrite Hcons. by vm_compute.
Defined.

Theorem served_rate_is_latest_witness : ∃ e,
  link_run LittleEndian 10%Z start_link
    (zip startup_calls startup_answers ++ [(HandlerCall EvPoll, Outputs [Issued 3%Z])]) e
  ∧ currentFrameRate (sys_handler (link_system (self e))) = rate_24.
Proof.
  destruct (startup_ends (startup_calls ++ [HandlerCall EvPoll]) (startup_answers ++ [Outputs [Issued 3%Z]]))
    as (e & _ & Hrun).
  { vm_compute. split_and!; by intuition congruence. }
  { by vm_compute. }
  exists e. split; [exact Hrun|].
  destruct (served_rate_is_latest LittleEndian 10%Z (model_telemetry_preserves 10%Z)
    {| base_communicationInterface := Some objectIdWebcamComIF;
       base_rawPacket := None; base_rawPacketLen := 0 |}
    start_link (zip startup_calls startup_answers) e 3%Z eq_refl start_idle Hrun) as [_ Hrate].
  { by repeat constructor. }
  { done. }
  rewrite Hrate. by vm_compute.
Defined.
