(* ===== verification/PeriodicTasks.v ===== *)
(** [ws-tasks/tasks-solutions/main-01.cpp] to [main-03.cpp]: threads that print a line,
    sleep for a fixed time, and start again. Time is part of the state, in
    milliseconds; [sleep_for] promises to sleep no less than it is told, and nothing
    says when a thread that could run does. Writing the line and [endl] are two
    operations of [cout], between which the other threads may write.

    [operations_spaced] holds for every schedule, [lines_interleave] for some;
    [prompt_schedule] is the one without any delay, which attains the bound. *)

From S2P Require Import Prelude Words.
Local Open Scope Z_scope.

(** * The programs *)

(** [MyExecutableObjectIF], with the line each implementation prints. *)
Inductive executable_object :=
| mySimpleTask | MyExecutableObject
| MyExecutableObject0 | MyExecutableObject1 | MyExecutableObject2.
#[export] Instance executable_object_eq_dec : EqDecision executable_object.
Proof. solve_decision. Defined.

Definition performOperation (e : executable_object) : string :=
  match e with
  | mySimpleTask | MyExecutableObject => "Hello World"
  | MyExecutableObject0 => "Task 0"
  | MyExecutableObject1 => "Task 1"
  | MyExecutableObject2 => "Task 2"
  end.

Record MyPeriodicTask := mkPeriodicTask { executable : executable_object; taskFreqMs : Z }.

(** The loops of the first two programs have the same shape: the function of the first
    with its constants in it, the object of the second with its delay as a member. *)
Definition mySimpleTask_thread : MyPeriodicTask := mkPeriodicTask mySimpleTask 1000.
Definition MyExecutableObject_thread (delayMs : Z) : MyPeriodicTask :=
  mkPeriodicTask MyExecutableObject delayMs.

(** The threads each [main] starts, in order. *)
Definition main_01 : list MyPeriodicTask := [mySimpleTask_thread].
Definition main_02 : list MyPeriodicTask := [MyExecutableObject_thread 1000].
Definition main_03 : list MyPeriodicTask :=
  [mkPeriodicTask MyExecutableObject0 1000; mkPeriodicTask MyExecutableObject1 2000;
   mkPeriodicTask MyExecutableObject2 5000].

(** * Threads *)

(** Where a thread is: not started yet, about to perform its operation, about to
    write [endl], about to sleep, or asleep until a time. *)
Inductive pc := NotStarted | AtOperation | AtEndl | AtSleep | AsleepUntil (t : Z).

Inductive written := Text (s : string) | Endl.

(** What was written, by which thread and when, the newest first. *)
Record timed := Timed {
  now : Z;
  threads : list (MyPeriodicTask * pc);
  output : list (Z * nat * written);
}.

(** Before [main] has started any thread. *)
Definition not_started (tasks : list MyPeriodicTask) : timed :=
  Timed 0 ((λ t, (t, NotStarted)) <$> tasks) [].

(** One step of thread [i], which is at [p], in its loop. *)
Definition thread_step (now : Z) (task : MyPeriodicTask) (p : pc) : option (pc * option written) :=
  match p with
  | NotStarted => None
  | AtOperation => Some (AtEndl, Some (Text (performOperation (executable task))))
  | AtEndl => Some (AtSleep, Some Endl)
  | AtSleep => Some (AsleepUntil (now + taskFreqMs task), None)
  | AsleepUntil t => if decide (t ≤ now) then Some (AtOperation, None) else None
  end.

Definition write (now : Z) (i : nat) (w : option written) (out : list (Z * nat * written)) :=
  match w with Some w => (now, i, w) :: out | None => out end.

Inductive timed_step : timed → timed → Prop :=
| step_time t n ts out : t ≤ n → timed_step (Timed t ts out) (Timed n ts out)
(* [main] starts the threads in order *)
| step_start t ts1 task ts2 out :
    (∀ x, x ∈ ts1 → x.2 ≠ NotStarted) →
    timed_step (Timed t (ts1 ++ (task, NotStarted) :: ts2) out)
               (Timed t (ts1 ++ (task, AtOperation) :: ts2) out)
| step_thread t ts i task p p' w out :
    ts !! i = Some (task, p) → thread_step t task p = Some (p', w) →
    timed_step (Timed t ts out) (Timed t (<[i := (task, p')]> ts) (write t i w out)).

Definition timed_reachable (tasks : list MyPeriodicTask) (s : timed) : Prop :=
  rtc timed_step (not_started tasks) s.

(** When thread [i] performed its operation, the latest first. *)
Definition operation_times (i : nat) (out : list (Z * nat * written)) : list Z :=
  omap (λ x, match x with (t, j, Text _) => if decide (j = i) then Some t else None | _ => None end) out.

(** * Every schedule *)

(** Consecutive times, the latest first, are at least [d] apart and none is negative. *)
Fixpoint spaced (d : Z) (ts : list Z) : Prop :=
  match ts with
  | [] => True
  | t :: ts => 0 ≤ t ∧ match ts with [] => True | t' :: _ => t' + d ≤ t end ∧ spaced d ts
  end.

(** The time from which the next operation is allowed: a period after the last. *)
Definition allowed (d : Z) (ts : list Z) (t : Z) : Prop :=
  0 ≤ t ∧ match ts with [] => True | t' :: _ => t' + d ≤ t end.

Lemma spaced_cons d t ts : allowed d ts t → spaced d ts → spaced d (t :: ts).
Proof. unfold allowed. destruct ts; simpl; naive_solver. Qed.

Lemma spaced_head d t ts : spaced d (t :: ts) → 0 ≤ t.
Proof. simpl. tauto. Qed.

(** The bound on their number. *)
Lemma spaced_length d ts n : 0 < d → spaced d ts → (∀ t, head ts = Some t → t ≤ n) → 0 ≤ n →
  d * (Z.of_nat (length ts) - 1) ≤ n.
Proof.
  intros Hd. revert n. induction ts as [|t ts IH]; intros n Hs Hn Hn0; [simpl; lia|].
  destruct Hs as (H0 & Hnext & Hs). specialize (Hn t eq_refl). destruct ts as [|t' ts].
  - simpl. lia.
  - specialize (IH (t - d) Hs). cbn [length] in *.
    assert (d * (Z.of_nat (S (length ts)) - 1) ≤ t - d); [|lia].
    apply IH; [by intros ? [= <-]; lia|]. pose proof (spaced_head _ _ _ Hs). lia.
Qed.

(** A thread's own clause of the invariant: its operations are spaced, the last one is
    not in the future, and where it is in its loop says when the next one can be. *)
Definition thread_inv (now : Z) (out : list (Z * nat * written)) (i : nat) (x : MyPeriodicTask * pc) : Prop :=
  let d := taskFreqMs x.1 in let ts := operation_times i out in
  spaced d ts ∧ (∀ t, head ts = Some t → t ≤ now) ∧
  match x.2 with
  | NotStarted => ts = []
  | AtOperation => allowed d ts now
  | AtEndl | AtSleep => True
  | AsleepUntil u => allowed d ts u
  end.

Record timed_inv (tasks : list MyPeriodicTask) (s : timed) : Prop := {
  inv_now : 0 ≤ now s;
  inv_tasks : fst <$> threads s = tasks;
  inv_threads i x : threads s !! i = Some x → thread_inv (now s) (output s) i x;
}.

Lemma operation_times_other i j t w out : i ≠ j →
  operation_times i ((t, j, w) :: out) = operation_times i out.
Proof. intros Hij. unfold operation_times. simpl. destruct w; [|done]. by rewrite decide_False. Qed.

Lemma operation_times_text i t s out :
  operation_times i ((t, i, Text s) :: out) = t :: operation_times i out.
Proof. unfold operation_times. simpl. by rewrite decide_True. Qed.

Lemma operation_times_endl i j t out :
  operation_times i ((t, j, Endl) :: out) = operation_times i out.
Proof. done. Qed.

(** Time passes, or another thread writes. *)
Lemma thread_inv_time t n out i x : t ≤ n → thread_inv t out i x → thread_inv n out i x.
Proof.
  unfold thread_inv, allowed. intros Hle (H1 & H2 & H3). split_and!; [done|intros t' Ht'; specialize (H2 t' Ht'); lia|].
  destruct (x.2), (operation_times i out); simpl in *; try done; lia.
Qed.

Lemma thread_inv_other t i j w out x : i ≠ j →
  thread_inv t out i x → thread_inv t (write t j w out) i x.
Proof. intros Hij. destruct w as [w|]; [|done]. unfold thread_inv.
  cbn [write]. by rewrite operation_times_other.
Qed.

(** A thread's own step. *)
Lemma thread_inv_step t i task p p' w out : 0 ≤ t → 0 ≤ taskFreqMs task →
  thread_step t task p = Some (p', w) → thread_inv t out i (task, p) →
  thread_inv t (write t i w out) i (task, p').
Proof.
  intros Ht Hd Hstep (H1 & H2 & H3). unfold thread_step in Hstep. cbn [fst snd] in *.
  destruct p; try done; simplify_option_eq.
  - unfold thread_inv. cbn [fst snd write]. rewrite operation_times_text.
    split_and!; [by apply spaced_cons|by intros ? [= <-]|done].
  - done.
  - unfold thread_inv. cbn [fst snd write]. split_and!; [done..|]. split; [lia|].
    destruct (operation_times i out); [done|]. specialize (H2 _ eq_refl). lia.
  - unfold thread_inv, allowed in *. cbn [fst snd write]. split_and!; [done..|lia|].
    destruct (operation_times i out); [done|lia].
Qed.

Lemma timed_inv_start tasks : timed_inv tasks (not_started tasks).
Proof.
  split; simpl; [done| |].
  - rewrite <- list_fmap_compose. apply list_fmap_id.
  - intros i x Hx. apply list_lookup_fmap_Some in Hx as (t & -> & _). by split_and!.
Qed.

Lemma timed_inv_step tasks s s' : Forall (λ t, 0 ≤ taskFreqMs t) tasks →
  timed_step s s' → timed_inv tasks s → timed_inv tasks s'.
Proof.
  intros Hd Hstep [H1 H2 H3]. destruct Hstep as [t n ts out Hle|t ts1 task ts2 out Hs|t ts i task p p' w out Hi Hstep];
    cbn [now threads output] in *.
  - split; cbn; [lia|done|]. intros i x Hx. by eapply thread_inv_time; [|apply H3].
  - split; cbn; [done|by rewrite fmap_app in H2 |- *|]. intros i x Hx.
    destruct (decide (i = length ts1)) as [->|Hi].
    + rewrite list_lookup_middle in Hx by done. injection Hx as <-.
      destruct (H3 (length ts1) (task, NotStarted)) as (Hsp & Hhd & Hnil);
        [by rewrite list_lookup_middle|]. cbn [fst snd] in *.
      split_and!; [done..|]. cbn [snd]. rewrite Hnil. by split.
    + apply H3. rewrite <- Hx.
      assert (ts1 ++ (task, AtOperation) :: ts2
        = <[length ts1 := (task, AtOperation)]> (ts1 ++ (task, NotStarted) :: ts2)) as ->
        by (by rewrite insert_app_r_alt, Nat.sub_diag by done).
      by rewrite list_lookup_insert_ne.
  - assert (Hdi : 0 ≤ taskFreqMs task).
    { rewrite Forall_lookup in Hd. apply (Hd i). by rewrite <- H2, list_lookup_fmap, Hi. }
    split; cbn; [done| |].
    + rewrite list_fmap_insert. cbn [fst]. rewrite list_insert_id; [done|].
      by rewrite list_lookup_fmap, Hi.
    + intros j x Hx. destruct (decide (j = i)) as [->|Hji].
      * rewrite list_lookup_insert_eq in Hx by (by eapply lookup_lt_Some). injection Hx as <-.
        eapply thread_inv_step; [done|done|done|]. by apply H3.
      * rewrite list_lookup_insert_ne in Hx by done. apply thread_inv_other; [done|]. by apply H3.
Qed.

Lemma timed_reachable_inv tasks s : Forall (λ t, 0 ≤ taskFreqMs t) tasks →
  timed_reachable tasks s → timed_inv tasks s.
Proof.
  intros Hd Hr. unfold timed_reachable in Hr. pose proof (timed_inv_start tasks) as Hinv.
  induction Hr as [|s1 s2 s3 Hstep Hr IH]; [done|]. apply IH. by eapply timed_inv_step.
Qed.

(** (C34) Whatever the scheduler does, a periodic task never runs early: its operations are
    at least a period apart, and up to any time there are no more of them than the
    time has periods, and one. This is the same for the loop of a plain thread, of an
    executable object, and of [MyPeriodicTask]. *)
Theorem operations_spaced tasks s i task :
  Forall (λ t, 0 < taskFreqMs t) tasks → timed_reachable tasks s → tasks !! i = Some task →
  let ts := operation_times i (output s) in
  spaced (taskFreqMs task) ts ∧ (∀ t, head ts = Some t → t ≤ now s) ∧
  Z.of_nat (length ts) ≤ now s `div` taskFreqMs task + 1.
Proof.
  intros Hd Hr Hi ts. destruct (timed_reachable_inv tasks s) as [H1 H2 H3]; [|done|].
  { rewrite Forall_lookup in *. intros j t Ht. specialize (Hd j t Ht). simpl in Hd. lia. }
  assert (0 < taskFreqMs task) as Hdi by (rewrite Forall_lookup in Hd; by apply (Hd i)).
  rewrite <- H2 in Hi. apply list_lookup_fmap_Some in Hi as (x & -> & Hx).
  destruct (H3 i x Hx) as (Hs & Hhd & _). split_and!; [done..|].
  pose proof (spaced_length _ _ (now s) Hdi Hs Hhd H1).
  assert (Z.of_nat (length ts) - 1 ≤ now s `div` taskFreqMs x.1); [|lia].
  by apply Z.div_le_lower_bound.
Qed.

(** * The schedule without delay *)

Definition due (t : Z) (x : MyPeriodicTask * pc) : bool :=
  match x.2 with
  | AtOperation => true
  | AsleepUntil u => bool_decide (u ≤ t)
  | _ => false
  end.

(** A whole iteration of the loop of a thread that is due. *)
Definition advance (t : Z) (x : MyPeriodicTask * pc) : MyPeriodicTask * pc :=
  if due t x then (x.1, AsleepUntil (t + taskFreqMs x.1)) else x.
Definition line (t : Z) (i : nat) (x : MyPeriodicTask * pc) (out : list (Z * nat * written)) :=
  if due t x then (t, i, Endl) :: (t, i, Text (performOperation (executable x.1))) :: out else out.

Fixpoint lines (t : Z) (i : nat) (ts : list (MyPeriodicTask * pc)) (out : list (Z * nat * written)) :=
  match ts with [] => out | x :: ts => lines t (S i) ts (line t i x out) end.

(** Every thread that is due at [t] runs at [t], one after the other. *)
Definition run_due (t : Z) (s : timed) : timed :=
  Timed t (advance t <$> threads s) (lines t 0 (threads s) (output s)).

Definition all_started (tasks : list MyPeriodicTask) : timed :=
  Timed 0 ((λ t, (t, AtOperation)) <$> tasks) [].

Fixpoint prompt (tasks : list MyPeriodicTask) (n : nat) : timed :=
  match n with
  | O => run_due 0 (all_started tasks)
  | S m => run_due (Z.of_nat n) (prompt tasks m)
  end.

Lemma thread_steps t pre x x' post out w :
  thread_step t x.1 x.2 = Some (x'.2, w) → x'.1 = x.1 →
  timed_step (Timed t (pre ++ x :: post) out)
             (Timed t (pre ++ x' :: post) (write t (length pre) w out)).
Proof.
  destruct x as [task p], x' as [task' p']. cbn. intros Hstep ->.
  assert (pre ++ (task, p') :: post = <[length pre := (task, p')]> (pre ++ (task, p) :: post)) as ->
    by (by rewrite insert_app_r_alt, Nat.sub_diag by done).
  eapply step_thread; [by rewrite list_lookup_middle|done].
Qed.

Lemma line_reachable t pre x post out :
  rtc timed_step (Timed t (pre ++ x :: post) out)
                 (Timed t (pre ++ advance t x :: post) (line t (length pre) x out)).
Proof.
  destruct x as [task p]. unfold advance, line.
  assert (Hrun : ∀ out, rtc timed_step (Timed t (pre ++ (task, AtOperation) :: post) out)
    (Timed t (pre ++ (task, AsleepUntil (t + taskFreqMs task)) :: post)
       ((t, length pre, Endl) :: (t, length pre, Text (performOperation (executable task))) :: out))).
  { clear. intros out.
    eapply rtc_l; [apply (thread_steps t pre (task, AtOperation) (task, AtEndl)); done|].
    eapply rtc_l; [apply (thread_steps t pre (task, AtEndl) (task, AtSleep)); done|].
    eapply rtc_once. by apply (thread_steps t pre (task, AtSleep) (task, AsleepUntil _) post _ None). }
  destruct p as [| | | |u]; unfold due; cbn [snd fst]; try done.
  case_bool_decide; [|done].
  eapply rtc_l; [|apply Hrun].
  apply (thread_steps t pre (task, AsleepUntil u) (task, AtOperation) post out None); [|done].
  simpl. by rewrite decide_True.
Qed.

Lemma lines_reachable t ts : ∀ pre out,
  rtc timed_step (Timed t (pre ++ ts) out)
                 (Timed t (pre ++ (advance t <$> ts)) (lines t (length pre) ts out)).
Proof.
  induction ts as [|x ts IH]; intros pre out; [done|]. cbn [lines].
  etrans; [apply line_reachable|]. specialize (IH (pre ++ [advance t x]) (line t (length pre) x out)).
  rewrite length_app, Nat.add_1_r, <- !app_assoc in IH. exact IH.
Qed.

Lemma run_due_reachable t s : now s ≤ t → rtc timed_step s (run_due t s).
Proof.
  destruct s as [n ts out]. intros Hle. eapply rtc_l; [by apply step_time|].
  apply (lines_reachable t ts [] out).
Qed.

Lemma all_started_reachable tasks : timed_reachable tasks (all_started tasks).
Proof.
  unfold timed_reachable, not_started, all_started.
  assert (∀ done_, rtc timed_step
    (Timed 0 (((λ t, (t, AtOperation)) <$> done_) ++ ((λ t, (t, NotStarted)) <$> tasks)) [])
    (Timed 0 ((λ t, (t, AtOperation)) <$> done_ ++ tasks) [])) as H; [|apply (H [])].
  induction tasks as [|task tasks IH]; intros done_; [by rewrite !app_nil_r|].
  cbn [fmap list_fmap]. eapply rtc_l.
  { apply step_start. intros x Hx. by apply list_elem_of_fmap in Hx as (t & -> & _). }
  specialize (IH (done_ ++ [task])). rewrite fmap_app, <- !app_assoc in IH. exact IH.
Qed.

Lemma prompt_reachable tasks n : timed_reachable tasks (prompt tasks n).
Proof.
  unfold timed_reachable. induction n as [|n IH].
  - etrans; [apply all_started_reachable|]. by apply run_due_reachable.
  - etrans; [exact IH|]. apply run_due_reachable. destruct n; simpl; lia.
Qed.

(** What the lines of one time add to the operations of each thread. *)
Lemma lines_times j t ts : ∀ i out,
  operation_times j (lines t i ts out)
  = match (if decide (i ≤ j)%nat then ts !! (j - i)%nat else None) with
    | Some x => if due t x then t :: operation_times j out else operation_times j out
    | None => operation_times j out
    end.
Proof.
  induction ts as [|x ts IH]; intros i out; [by case_decide|]. cbn [lines]. rewrite IH.
  assert (Hline : operation_times j (line t i x out)
    = if decide (i = j) then (if due t x then t :: operation_times j out else operation_times j out)
      else operation_times j out).
  { unfold line. destruct (due t x); [|by case_decide]. rewrite operation_times_endl.
    case_decide as Hij; [subst; apply operation_times_text|by apply operation_times_other]. }
  rewrite Hline. clear Hline. destruct (decide (i = j)) as [->|Hij].
  - rewrite decide_False, decide_True, Nat.sub_diag by lia. done.
  - destruct (decide (i ≤ j)%nat) as [Hle|Hle].
    + rewrite decide_True by lia. by replace (j - i)%nat with (S (j - S i)) by lia.
    + by rewrite decide_False by lia.
Qed.

(** The wake-up times of the prompt schedule are the multiples of the period. *)
Definition asleep (n : Z) (task : MyPeriodicTask) : MyPeriodicTask * pc :=
  (task, AsleepUntil (taskFreqMs task * (n `div` taskFreqMs task + 1))).

Lemma next_multiple d n : 0 < d → 0 ≤ n →
  (if bool_decide (d * (n `div` d + 1) ≤ n + 1) then (n + 1) `div` d = n `div` d + 1 ∧ d * (n `div` d + 1) = n + 1
   else (n + 1) `div` d = n `div` d).
Proof.
  intros Hd Hn. pose proof (Z.div_mod n d ltac:(lia)). pose proof (Z.mod_pos_bound n d Hd).
  case_bool_decide as Hle.
  - assert (d * (n `div` d + 1) = n + 1) as Heq by lia. split; [|done].
    rewrite <- Heq, Z.mul_comm, Z.div_mul by lia. done.
  - symmetry. apply Z.div_unique with (n `mod` d + 1); lia.
Qed.

Lemma prompt_threads tasks n : Forall (λ t, 0 < taskFreqMs t) tasks →
  threads (prompt tasks n) = asleep (Z.of_nat n) <$> tasks.
Proof.
  intros Hd. induction n as [|n IH].
  - cbn [prompt run_due threads all_started]. rewrite <- list_fmap_compose. apply list_fmap_ext.
    intros i task Hi. rewrite Forall_lookup in Hd. specialize (Hd i task Hi).
    unfold compose, advance, due, asleep. cbn [fst snd].
    change (Z.of_nat 0) with 0. rewrite Z.div_0_l by lia. do 2 f_equal. lia.
  - cbn [prompt run_due threads]. rewrite IH, <- list_fmap_compose. apply list_fmap_ext.
    intros i task Hi. rewrite Forall_lookup in Hd. specialize (Hd i task Hi).
    pose proof (next_multiple (taskFreqMs task) (Z.of_nat n) Hd ltac:(lia)) as Hnext.
    unfold compose, advance, due, asleep. cbn [fst snd].
    replace (Z.of_nat (S n)) with (Z.of_nat n + 1) by lia.
    case_bool_decide; [destruct Hnext as [-> Heq]|by rewrite Hnext]. do 2 f_equal. lia.
Qed.

(** (C35) The spacing bound is attained: the schedule in which every thread runs as soon as
    it may is one of the program's, and up to any millisecond [n] each thread performs
    its operation at exactly the multiples of its period, [n / period + 1] times. *)
Theorem prompt_schedule tasks n i task :
  Forall (λ t, 0 < taskFreqMs t) tasks → tasks !! i = Some task →
  timed_reachable tasks (prompt tasks n) ∧ now (prompt tasks n) = Z.of_nat n ∧
  operation_times i (output (prompt tasks n))
  = (λ k, taskFreqMs task * k) <$> reverse (seqZ 0 (Z.of_nat n `div` taskFreqMs task + 1)).
Proof.
  intros Hd Hi. split_and!; [apply prompt_reachable|by destruct n|].
  assert (0 < taskFreqMs task) as Hdi by (rewrite Forall_lookup in Hd; by apply (Hd i)).
  induction n as [|n IH].
  - cbn [prompt run_due output all_started threads]. rewrite lines_times, decide_True, Nat.sub_0_r by lia.
    rewrite list_lookup_fmap, Hi. cbn [fmap option_fmap option_map]. unfold due. cbn [snd].
    change (Z.of_nat 0) with 0. rewrite Z.div_0_l by lia. simpl. f_equal. lia.
  - cbn [prompt run_due output]. rewrite lines_times, decide_True, Nat.sub_0_r by lia.
    rewrite prompt_threads, list_lookup_fmap, Hi, IH by done. cbn [fmap option_fmap option_map].
    pose proof (next_multiple (taskFreqMs task) (Z.of_nat n) Hdi ltac:(lia)) as Hnext.
    unfold due, asleep. cbn [snd]. replace (Z.of_nat (S n)) with (Z.of_nat n + 1) by lia.
    case_bool_decide; [|by rewrite Hnext]. destruct Hnext as [-> Heq].
    assert (0 ≤ Z.of_nat n `div` taskFreqMs task) by (apply Z.div_pos; lia).
    rewrite (seqZ_app 0 (Z.of_nat n `div` taskFreqMs task + 1) 1) by lia.
    rewrite reverse_app. simpl. f_equal. lia.
Qed.

Lemma operations_spaced_witness :
  let ts := operation_times 1 (output (prompt main_03 7)) in
  spaced 2000 ts ∧ (∀ t, head ts = Some t → t ≤ now (prompt main_03 7)) ∧
  Z.of_nat (length ts) ≤ now (prompt main_03 7) `div` 2000 + 1.
Proof.
  apply (operations_spaced main_03 (prompt main_03 7) 1 (mkPeriodicTask MyExecutableObject1 2000)).
  - repeat constructor.
  - apply prompt_reachable.
  - reflexivity.
Defined.

Lemma prompt_schedule_witness :
  timed_reachable main_03 (prompt main_03 5000) ∧ now (prompt main_03 5000) = 5000 ∧
  operation_times 2 (output (prompt main_03 5000))
  = (λ k, 5000 * k) <$> reverse (seqZ 0 (5000 `div` 5000 + 1)).
Proof.
  apply (prompt_schedule main_03 5000 2 (mkPeriodicTask MyExecutableObject2 5000)).
  - repeat constructor.
  - reflexivity.
Defined.

(** A line and its end are two writes, and another thread may write in between. *)
Lemma lines_interleave : ∃ s, timed_reachable main_03 s ∧
  (λ x, x.2) <$> output s = [Endl; Endl; Text "Task 1"; Text "Task 0"].
Proof.
  eexists. split.
  - unfold timed_reachable. etrans; [apply all_started_reachable|].
    eapply rtc_l; [by eapply (step_thread 0 _ 0%nat _ AtOperation AtEndl (Some _))|].
    eapply rtc_l; [by eapply (step_thread 0 _ 1%nat _ AtOperation AtEndl (Some _))|].
    eapply rtc_l; [by eapply (step_thread 0 _ 0%nat _ AtEndl AtSleep (Some _))|].
    eapply rtc_once. by eapply (step_thread 0 _ 1%nat _ AtEndl AtSleep (Some _)).
  - reflexivity.
Qed.
