(* ===== verification/FrameworkTasks.v ===== *)
(** The exercises that use the framework's tasks and objects:
    [ws-tasks/tasks-solutions/main-04.cpp] and
    [ws-objects/objects-solutions/main-01.cpp] to [main-03.cpp]. *)

From Stdlib Require Import Ascii.
From S2P Require Import Prelude Words Fsfw FsfwModel TmtcInfrastructure TmtcProperties.
Local Open Scope Z_scope.

(** * ws-tasks, main-04: three executable objects in two periodic tasks *)

Inductive MyExecutable := MyExecutableObject0 | MyExecutableObject1 | MyExecutableObject2.
#[export] Instance MyExecutable_eq_dec : EqDecision MyExecutable.
Proof. solve_decision. Defined.

(** [0.5] and [1.0] *)
Definition double_0_5 : double := Double 0x3fe0000000000000.
Definition double_1_0 : double := Double 0x3ff0000000000000.

Section Tasks.
Context `{FsfwConstants} {W Task : Type} `{!TaskFactoryIF W Task MyExecutable}.

(** The call of the framework back into the objects. *)
Definition performOperation (o : MyExecutable) (opCode : Z) : M (env unit W) ReturnValue_t :=
  print (Stdout (match o with
                 | MyExecutableObject0 => "Task 0"
                 | MyExecutableObject1 => "Task 1"
                 | MyExecutableObject2 => "Task 2"
                 end +:+ newline));;
  mret OK.

(** [main] up to its last loop, which only sleeps. [prio] is 0, or on Windows what
    [makeWinPriority] returns. *)
Definition main_04 (prio : Z) : M (env unit W) (option Task * option Task) :=
  periodicTask0 ← call (createPeriodicTask (Exec:=MyExecutable) "TASK_0" prio
    (MINIMUM_STACK_SIZE (Exec:=MyExecutable)) double_0_5);
  periodicTask1 ← call (createPeriodicTask (Exec:=MyExecutable) "TASK_1" prio
    (MINIMUM_STACK_SIZE (Exec:=MyExecutable)) double_1_0);
  t0 ← deref periodicTask0; call (addComponent t0 (inl MyExecutableObject0));;
  t0 ← deref periodicTask0; call (addComponent t0 (inl MyExecutableObject1));;
  t1 ← deref periodicTask1; call (addComponent t1 (inl MyExecutableObject2));;
  t0 ← deref periodicTask0; call (startTask (Exec:=MyExecutable) t0);;
  t1 ← deref periodicTask1; call (startTask (Exec:=MyExecutable) t1);;
  mret (periodicTask0, periodicTask1).
End Tasks.

(** * ws-objects: objects and the object manager *)

(** [SystemObject], which registers itself unless told not to, and [ObjectManager]. Its
    [initialize()] calls that of every registered object; [initialize_order] is the
    order it takes. *)
Class SystemObjectIF (W Obj : Type) := {
  new_object : object_id_t → bool → W → Obj * W;
  getObjectId : Obj → W → object_id_t;
  delete_object : Obj → W → W;
  get_object : object_id_t → W → option Obj;
  initialize_order : W → list Obj;
}.

Class SystemObjectLaws W Obj `{SystemObjectIF W Obj} : Prop := {
  new_object_id i r w o w' : new_object i r w = (o, w') → getObjectId o w' = i;
  new_object_get i j r w o w' : new_object i r w = (o, w') →
    get_object j w' = if decide (r = true ∧ j = i) then Some o else get_object j w;
  delete_object_get o j w : get_object (getObjectId o w) w ≠ Some o →
    get_object j (delete_object o w) = get_object j w;
  new_object_order i r w o w' : new_object i r w = (o, w') →
    initialize_order w' ≡ₚ if r then o :: initialize_order w else initialize_order w;
}.

(** The digits of [hex], and [setfill('0') << setw(8)]. *)
Fixpoint hex_digits (n : nat) (z : Z) : list Ascii.ascii :=
  match n with
  | O => []
  | S n => if decide (z < 16) then [hex_digit z] else hex_digits n (z `div` 16) ++ [hex_digit (z `mod` 16)]
  end.
Definition setw (n : nat) (s : list Ascii.ascii) : list Ascii.ascii :=
  replicate (n - length s) "0"%char ++ s.
(** A 32-bit number has no more than eight digits. *)
Definition print_object_id (z : Z) : string := String.string_of_list_ascii (setw 8 (hex_digits 8 (uint32 z))).

Definition TEST_OBJECT : object_id_t := 0x10101010.

Section Objects.
Context `{FsfwConstants} {W Obj Task : Type} `{!SystemObjectIF W Obj, !TaskFactoryIF W Task Obj}.
Abbreviation prog := (M (env unit W)).

Definition MySystemObject_initialize (o : Obj) : prog ReturnValue_t :=
  print (Stdout ("MySystemObject::initialize: Custom init" +:+ newline));; mret OK.
Definition MyObject_initialize (o : Obj) : prog ReturnValue_t :=
  print (Stdout ("MyObject::initialize: Custom init" +:+ newline));; mret OK.
Definition MyObject_performOperation (o : Obj) (opCode : Z) : prog ReturnValue_t :=
  print (Stdout ("MyObject::performOperation: Periodic handling" +:+ newline));; mret OK.

Definition print_id (o : Obj) : prog unit :=
  i ← ask (getObjectId o);
  print (Stdout ("Object ID: 0x" +:+ print_object_id i +:+ newline)).

(** [objManager->initialize()] *)
Fixpoint initialize_objects (initialize : Obj → prog ReturnValue_t) (os : list Obj) : prog unit :=
  match os with [] => mret () | o :: os => initialize o;; initialize_objects initialize os end.
Definition objectManager_initialize (initialize : Obj → prog ReturnValue_t) : prog unit :=
  os ← ask initialize_order; initialize_objects initialize os.

Definition objects_main_01 : prog Z :=
  mySysObj ← call (new_object TEST_OBJECT false);
  print_id mySysObj;;
  MySystemObject_initialize mySysObj;;
  call_void (delete_object mySysObj);;
  mret 0.

Definition objects_main_02 : prog Z :=
  call (new_object TEST_OBJECT true);;
  objectManager_initialize MySystemObject_initialize;;
  mySysObj ← ask (get_object TEST_OBJECT);
  o ← deref mySysObj;
  print_id o;;
  mret 0.

(** Up to its last loop, which only sleeps. *)
Definition objects_main_03 (prio : Z) : prog (option Task) :=
  call (new_object TEST_OBJECT true);;
  objectManager_initialize MyObject_initialize;;
  mySysObj ← ask (get_object TEST_OBJECT);
  o ← deref mySysObj;
  print_id o;;
  periodicTask ← call (createPeriodicTask (Exec:=Obj) "TEST_TASK" prio (MINIMUM_STACK_SIZE (Exec:=Obj)) double_1_0);
  t ← deref periodicTask; call (addComponent t (inr TEST_OBJECT));;
  t ← deref periodicTask; call (startTask (Exec:=Obj) t);;
  mret periodicTask.
End Objects.

(** * Properties: the printed identifier *)

Fixpoint read_hex (acc : Z) (s : list Ascii.ascii) : option Z :=
  match s with [] => Some acc | c :: s => d ← hex_value c; read_hex (16 * acc + d) s end.

Lemma hex_value_digit z : 0 ≤ z < 16 → hex_value (hex_digit z) = Some z.
Proof.
  intros Hz. assert (z ∈ seqZ 0 16) as Hin by (apply elem_of_seqZ; lia).
  revert Hin. vm_compute seqZ. rewrite !elem_of_cons, elem_of_nil.
  intros Hin; repeat destruct Hin as [-> |Hin]; done.
Qed.

Lemma read_hex_app acc s1 s2 : read_hex acc (s1 ++ s2) = (v ← read_hex acc s1; read_hex v s2).
Proof.
  revert acc. induction s1 as [|c s1 IH]; intros acc; [done|]. cbn [app read_hex].
  destruct (hex_value c); [apply IH|done].
Qed.

Lemma read_hex_zeros n s : read_hex 0 (replicate n "0"%char ++ s) = read_hex 0 s.
Proof. induction n as [|n IH]; [done|]. exact IH. Qed.

Lemma hex_digits_S n z : hex_digits (S n) z
  = if decide (z < 16) then [hex_digit z] else hex_digits n (z `div` 16) ++ [hex_digit (z `mod` 16)].
Proof. done. Qed.

Lemma read_hex_digits n z : 0 ≤ z < 16 ^ Z.of_nat (S n) → read_hex 0 (hex_digits (S n) z) = Some z.
Proof.
  revert z. induction n as [|n IH]; intros z Hz.
  - cbn [hex_digits]. rewrite decide_True by (simpl in Hz; lia). cbn [read_hex].
    rewrite hex_value_digit by (simpl in Hz; lia). done.
  - rewrite hex_digits_S. case_decide as Hs.
    + cbn [read_hex]. by rewrite hex_value_digit by lia.
    + rewrite Nat2Z.inj_succ, Z.pow_succ_r in Hz by lia. rewrite read_hex_app, IH.
      * pose proof (Z.div_mod z 16 ltac:(lia)). pose proof (Z.mod_pos_bound z 16 ltac:(lia)).
        cbn [mbind option_bind read_hex]. rewrite hex_value_digit by lia. simpl. f_equal. lia.
      * split; [by apply Z.div_pos; lia|]. by apply Z.div_lt_upper_bound; lia.
Qed.

Lemma length_hex_digits n z : (length (hex_digits n z) ≤ n)%nat.
Proof.
  revert z. induction n as [|n IH]; intros z; cbn [hex_digits]; [done|].
  case_decide; [simpl; lia|]. rewrite length_app. specialize (IH (z `div` 16)). simpl. lia.
Qed.

(** The identifier of an object is printed with exactly eight digits, and reads back as
    the identifier, for every 32-bit number. *)
Theorem printed_id_roundtrip z : 0 ≤ z < 2 ^ 32 →
  String.length (print_object_id z) = 8%nat ∧
  read_hex 0 (String.list_ascii_of_string (print_object_id z)) = Some z.
Proof.
  intros Hz. unfold print_object_id. unfold uint32. rewrite wrap_small by done.
  rewrite String.list_ascii_of_string_of_list_ascii. split.
  - pose proof (length_hex_digits 8 z). assert (∀ s, String.length (String.string_of_list_ascii s) = length s) as ->
      by (intros s; induction s; simpl; congruence).
    unfold setw. rewrite length_app, length_replicate. lia.
  - unfold setw. rewrite read_hex_zeros. by apply read_hex_digits.
Qed.

Lemma printed_id_roundtrip_witness :
  String.length (print_object_id TEST_OBJECT) = 8%nat ∧
  read_hex 0 (String.list_ascii_of_string (print_object_id TEST_OBJECT)) = Some TEST_OBJECT.
Proof. apply printed_id_roundtrip. unfold TEST_OBJECT. lia. Defined.

(** * Properties: what the programs schedule and print *)

Section TaskProofs.
Context `{FsfwConstants} {W Task Exec : Type} `{!TaskFactoryIF W Task Exec}.
Context `{!TaskView W Task Exec, !TaskFactoryLaws W Task Exec}.

(** The framework has the resources for every task and component. *)
Record tasks_available : Prop := {
  available_task name prio stack period w :
    is_Some (createPeriodicTask (Exec:=Exec) (Task:=Task) name prio stack period w).1;
  available_component (t : Task) (c : Exec + object_id_t) (w : W) : (addComponent t c w).1 = OK;
  available_start (t : Task) (w : W) : (startTask (Exec:=Exec) t w).1 = OK;
}.

(** The rules for the three calls: they change one task and nothing else that is known. *)
Context {Self : Type}.

Lemma wp_createPeriodicTask name prio stack period (e : env Self W) (Q : option Task → env Self W → Prop) :
  tasks_available →
  (∀ t w', tasks_of (world e) t = None → tasks_of w' t = Some (PeriodicTask period [] false) →
     (∀ t', t' ≠ t → tasks_of w' t' = tasks_of (world e) t') →
     Q (Some t) (Env (self e) (console e) w')) →
  wp (call (createPeriodicTask (Exec:=Exec) name prio stack period)) e Q.
Proof.
  intros Ha HQ. destruct (available_task Ha name prio stack period (world e)) as [t Ht].
  destruct (createPeriodicTask name prio stack period (world e)) as [r w'] eqn:Hc. simpl in Ht. subst r.
  eapply wp_call; [exact Hc|]. destruct (createPeriodicTask_new _ _ _ _ _ _ _ Hc) as (H1 & H2 & H3). auto.
Qed.

Lemma wp_addComponent t c info (e : env Self W) (Q : ReturnValue_t → env Self W → Prop) :
  tasks_available → tasks_of (world e) t = Some info →
  (∀ w', tasks_of w' t = Some (PeriodicTask (task_period _ info) (task_components _ info ++ [c]) (task_started _ info)) →
     (∀ t', t' ≠ t → tasks_of w' t' = tasks_of (world e) t') →
     Q OK (Env (self e) (console e) w')) →
  wp (call (addComponent (Exec:=Exec) t c)) e Q.
Proof.
  intros Ha Hi HQ. pose proof (available_component Ha t c (world e)) as Hok.
  destruct (addComponent_tasks t c (world e) t info Hi Hok) as [H1 _].
  pose proof (λ t', proj2 (addComponent_tasks t c (world e) t' info Hi Hok)) as H2.
  destruct (addComponent t c (world e)) as [r w'] eqn:Hc. cbn [fst snd] in *. subst r.
  eapply wp_call; [exact Hc|]. auto.
Qed.

Lemma wp_startTask t info (e : env Self W) (Q : ReturnValue_t → env Self W → Prop) :
  tasks_available → tasks_of (world e) t = Some info →
  (∀ w', tasks_of w' t = Some (PeriodicTask (task_period _ info) (task_components _ info) true) →
     (∀ t', t' ≠ t → tasks_of w' t' = tasks_of (world e) t') →
     Q OK (Env (self e) (console e) w')) →
  wp (call (startTask (Exec:=Exec) t)) e Q.
Proof.
  intros Ha Hi HQ. pose proof (available_start Ha t (world e)) as Hok.
  destruct (startTask_tasks t (world e) t info Hi Hok) as [H1 _].
  pose proof (λ t', proj2 (startTask_tasks t (world e) t' info Hi Hok)) as H2.
  destruct (startTask t (world e)) as [r w'] eqn:Hc. cbn [fst snd] in *. subst r.
  eapply wp_call; [exact Hc|]. auto.
Qed.
End TaskProofs.
Arguments tasks_available {_} _ _ _ {_}.

Section TaskPrograms.
Context `{FsfwConstants} {W Task : Type} `{!TaskFactoryIF W Task MyExecutable}.
Context `{!TaskView W Task MyExecutable, !TaskFactoryLaws W Task MyExecutable}.

End TaskPrograms.

Section ObjectPrograms.
Context `{FsfwConstants} {W Task Obj : Type} `{!TaskFactoryIF W Task Obj}.
Context `{!TaskView W Task Obj, !TaskFactoryLaws W Task Obj}.
Context `{!SystemObjectIF W Obj, !SystemObjectLaws W Obj}.

(** A new object is found under its identifier, and is the only one to initialise. *)
Lemma wp_new_object i (e : env unit W) (Q : Obj → env unit W → Prop) :
  initialize_order (world e) = [] →
  (∀ o w', getObjectId o w' = i → get_object i w' = Some o → initialize_order w' = [o] →
     Q o (Env (self e) (console e) w')) →
  wp (call (new_object i true)) e Q.
Proof.
  intros Hnone HQ. destruct (new_object i true (world e)) as [o w'] eqn:Hnew.
  eapply wp_call; [exact Hnew|]. apply HQ.
  - by eapply new_object_id.
  - rewrite (new_object_get _ i _ _ _ _ Hnew). by rewrite decide_True.
  - pose proof (new_object_order _ _ _ _ _ Hnew) as Hord. rewrite Hnone in Hord.
    by apply Permutation_singleton_r in Hord.
Qed.

Lemma print_id_run o i (e : env unit W) : getObjectId o (world e) = i →
  print_id o e = Done ((), Env (self e)
    (console e ++ [Stdout ("Object ID: 0x" +:+ print_object_id i +:+ newline)]) (world e)).
Proof. intros <-. by destruct e. Qed.

(** The first program prints the identifier of an object it never registers, the second
    has the manager initialise a registered one first. *)
Lemma objects_main_01_prints (e : env unit W) : wp objects_main_01 e (λ rv e', rv = 0 ∧
  console e' = console e ++ [Stdout ("Object ID: 0x10101010" +:+ newline);
                             Stdout ("MySystemObject::initialize: Custom init" +:+ newline)]).
Proof.
  unfold objects_main_01. apply wp_bind.
  destruct (new_object TEST_OBJECT false (world e)) as [o w1] eqn:Hnew.
  eapply wp_call; [exact Hnew|]. pose proof (new_object_id _ _ _ _ _ Hnew) as Hid.
  apply wp_bind. eapply wp_done; [by apply print_id_run|].
  apply wp_bind, wp_bind, wp_print, wp_ret, wp_bind, wp_call_void, wp_ret. cbn [console]. by rewrite <- app_assoc.
Qed.

Lemma objects_main_02_prints (e : env unit W) : initialize_order (world e) = [] →
  wp objects_main_02 e (λ rv e', rv = 0 ∧
    console e' = console e ++ [Stdout ("MySystemObject::initialize: Custom init" +:+ newline);
                               Stdout ("Object ID: 0x10101010" +:+ newline)]).
Proof.
  intros Hnone. unfold objects_main_02. apply wp_bind, wp_new_object; [done|].
  intros o w1 Hid Hget Hord. apply wp_bind. unfold objectManager_initialize.
  apply wp_bind, wp_ask. cbn [world]. rewrite Hord. cbn [initialize_objects].
  apply wp_bind, wp_bind, wp_print, wp_ret, wp_ret.
  apply wp_bind, wp_ask. cbn [self console world]. rewrite Hget.
  apply wp_bind, (wp_deref _ o); [done|].
  apply wp_bind. eapply wp_done; [by apply print_id_run|]. apply wp_ret. cbn [console].
  by rewrite <- app_assoc.
Qed.

(** The last object exercise: its object is initialised once, by the object manager, found
    again under its identifier, which is printed, and scheduled by that identifier
    alone in a started task with a period of one second. *)
Theorem objects_main_03_correct prio (e : env unit W) : tasks_available W Task Obj →
  initialize_order (world e) = [] →
  wp (objects_main_03 (Task:=Task) prio) e (λ r e', ∃ t, r = Some t ∧
    console e' = console e ++ [Stdout ("MyObject::initialize: Custom init" +:+ newline);
                               Stdout ("Object ID: 0x10101010" +:+ newline)] ∧
    tasks_of (world e') t = Some (PeriodicTask double_1_0 [inr TEST_OBJECT] true)).
Proof.
  intros Ha Hnone. unfold objects_main_03. apply wp_bind, wp_new_object; [done|].
  intros o w1 Hid Hget Hord. apply wp_bind. unfold objectManager_initialize.
  apply wp_bind, wp_ask. cbn [world]. rewrite Hord. cbn [initialize_objects].
  apply wp_bind, wp_bind, wp_print, wp_ret, wp_ret.
  apply wp_bind, wp_ask. cbn [self console world]. rewrite Hget.
  apply wp_bind, (wp_deref _ o); [done|].
  apply wp_bind. eapply wp_done; [by apply print_id_run|].
  apply wp_bind, wp_createPeriodicTask; [done|]. intros t w2 _ H2 _. cbn [self console world] in *.
  apply wp_bind, (wp_deref _ t); [done|].
  apply wp_bind. eapply wp_addComponent; [done|exact H2|]. intros w3 H3 _. cbn [self console world] in *.
  apply wp_bind, (wp_deref _ t); [done|].
  apply wp_bind. eapply wp_startTask; [done|exact H3|]. intros w4 H4 _. cbn [self console world] in *.
  apply wp_ret. exists t. cbn [console world]. split_and!; [done|by rewrite <- app_assoc|done].
Qed.
End ObjectPrograms.

(** * A model of tasks and objects, for the witnesses *)

(** Tasks are numbered in the order of their creation; an object is its identifier. *)
Record scheduler (Exec : Type) := Scheduler {
  sc_tasks : list (periodic_task Exec);
  sc_objects : list object_id_t;
}.
Arguments Scheduler {_} _ _.
Arguments sc_tasks {_} _.
Arguments sc_objects {_} _.

#[export] Instance scheduler_tasks Exec : TaskFactoryIF (scheduler Exec) nat Exec := {|
  MINIMUM_STACK_SIZE := 4096;
  createPeriodicTask name prio stack period w :=
    (Some (length (sc_tasks w)),
     Scheduler (sc_tasks w ++ [PeriodicTask period [] false]) (sc_objects w));
  addComponent t c w :=
    (OK, Scheduler (alter (λ i, PeriodicTask (task_period _ i) (task_components _ i ++ [c]) (task_started _ i))
           t (sc_tasks w)) (sc_objects w));
  startTask t w :=
    (OK, Scheduler (alter (λ i, PeriodicTask (task_period _ i) (task_components _ i) true)
           t (sc_tasks w)) (sc_objects w));
|}.
#[export] Instance scheduler_view Exec : TaskView (scheduler Exec) nat Exec := λ w t, sc_tasks w !! t.

#[export] Instance scheduler_laws Exec : TaskFactoryLaws (scheduler Exec) nat Exec.
Proof.
  split; unfold tasks_of, scheduler_view; cbn.
  - intros name prio stack period w t w' [= <- <-]. cbn. split_and!.
    + by apply lookup_ge_None_2.
    + by apply list_lookup_middle.
    + intros t' Ht'. destruct (decide (t' < length (sc_tasks w))%nat).
      * by rewrite lookup_app_l.
      * rewrite !lookup_ge_None_2; [done|lia|rewrite length_app; simpl; lia].
  - intros t c w t' info Hi _. rewrite list_lookup_alter_eq, Hi. split; [done|].
    intros. by rewrite list_lookup_alter_ne.
  - intros t w t' info Hi _. rewrite list_lookup_alter_eq, Hi. split; [done|].
    intros. by rewrite list_lookup_alter_ne.
Qed.

Lemma scheduler_available Exec : tasks_available (scheduler Exec) nat Exec.
Proof. split; [by eexists|done..]. Qed.


#[export] Instance scheduler_objects Exec : SystemObjectIF (scheduler Exec) object_id_t := {|
  new_object i r w := (i, if r then Scheduler (sc_tasks w) (i :: sc_objects w) else w);
  getObjectId o w := o;
  delete_object o w := Scheduler (sc_tasks w) (filter (λ i, i ≠ o) (sc_objects w));
  get_object i w := if decide (i ∈ sc_objects w) then Some i else None;
  initialize_order w := sc_objects w;
|}.

#[export] Instance scheduler_object_laws Exec : SystemObjectLaws (scheduler Exec) object_id_t.
Proof.
  split; cbn.
  - by intros i r w o w' [= <- <-].
  - intros i j r w o w' [= <- <-]. destruct r; cbn.
    + destruct (decide (j = i)) as [->|Hj].
      * by rewrite !decide_True by auto using list_elem_of_here.
      * rewrite (decide_False (P:=_ ∧ _)) by naive_solver.
        apply decide_ext. rewrite elem_of_cons. naive_solver.
    + by rewrite (decide_False (P:=_ ∧ _)) by naive_solver.
  - intros o j w Ho. apply decide_ext. rewrite list_elem_of_filter.
    destruct (decide (j = o)) as [->|]; [|naive_solver].
    destruct (decide (o ∈ sc_objects w)); [done|naive_solver].
  - intros i r w o w' [= <- <-]. by destruct r.
Qed.

Lemma objects_main_03_correct_witness :
  wp (objects_main_03 (W:=scheduler object_id_t) (Obj:=object_id_t) 0) (Env () [] (Scheduler [] []))
    (λ r e', ∃ t, r = Some t ∧
      console e' = [Stdout ("MyObject::initialize: Custom init" +:+ newline);
                    Stdout ("Object ID: 0x10101010" +:+ newline)] ∧
      tasks_of (world e') t = Some (PeriodicTask double_1_0 [inr TEST_OBJECT] true)).
Proof.
  apply (objects_main_03_correct 0 (Env () [] (Scheduler [] []))); [apply scheduler_available|reflexivity].
Defined.
