(* ===== verification/SharedCounter.v ===== *)
(** [ws-ipc/ipc-solutions/main-01.cpp]: two threads increment a shared counter
    under a mutex. The threads are a step relation in which every access to the
    shared variables is a step of its own, so that all interleavings are covered:
    the increment is a load and a store, and printing reads the counter again. *)

From S2P Require Import Prelude Words Fsfw.

(** * The program *)

Inductive task := task0 | task1.
#[export] Instance task_eq_dec : EqDecision task.
Proof. solve_decision. Defined.

(** Where a thread is in its loop; a loaded value is in a register. *)
Inductive pc := AtLock | Locked | Loaded (value : Z) | Stored | Printed | Sleeping.
#[export] Instance pc_eq_dec : EqDecision pc.
Proof. solve_decision. Defined.

Record shared := Shared {
  SHARED_LOCK : option task;
  SHARED_COUNTER : Z;
  printed : list (task * Z);
  pcs : task → pc;
}.

(** [main] starts both threads. *)
Definition counter_start : shared := Shared None 0 [] (λ _, AtLock).

Definition set_pc (t : task) (p : pc) (f : task → pc) : task → pc :=
  λ t', if decide (t' = t) then p else f t'.

(** One step of thread [t]. [SHARED_LOCK.lock()] of [task0] and the [lock_guard] of
    [task1] block alike while the mutex is held. *)
Definition task_step (t : task) (s : shared) : option shared :=
  match pcs s t with
  | AtLock =>
      match SHARED_LOCK s with
      | None => Some (Shared (Some t) (SHARED_COUNTER s) (printed s) (set_pc t Locked (pcs s)))
      | Some _ => None
      end
  | Locked =>
      Some (Shared (SHARED_LOCK s) (SHARED_COUNTER s) (printed s)
              (set_pc t (Loaded (SHARED_COUNTER s)) (pcs s)))
  | Loaded v =>
      Some (Shared (SHARED_LOCK s) (uint32 (v + 1)) (printed s) (set_pc t Stored (pcs s)))
  | Stored =>
      Some (Shared (SHARED_LOCK s) (SHARED_COUNTER s) (printed s ++ [(t, SHARED_COUNTER s)])
              (set_pc t Printed (pcs s)))
  | Printed => Some (Shared None (SHARED_COUNTER s) (printed s) (set_pc t Sleeping (pcs s)))
  | Sleeping => Some (Shared (SHARED_LOCK s) (SHARED_COUNTER s) (printed s) (set_pc t AtLock (pcs s)))
  end.

Inductive counter_step : shared → shared → Prop :=
| step_task t s s' : task_step t s = Some s' → counter_step s s'.

Definition counter_reachable (s : shared) : Prop := rtc counter_step counter_start s.

(** The line a thread prints. *)
Definition counter_line (t : task) : string :=
  match t with
  | task0 => "Task0: Shared counter after increment"
  | task1 => "Task1: Shared counter after increment"
  end.

(** * The invariant *)

Definition in_critical_section (p : pc) : bool :=
  match p with Locked | Loaded _ | Stored | Printed => true | AtLock | Sleeping => false end.

(** How many increments have taken effect: those printed, and one that is stored and
    not yet printed. *)
Definition pending_print (s : shared) (t : task) : Z := if decide (pcs s t = Stored) then 1 else 0.
Definition increments (s : shared) : Z :=
  (Z.of_nat (length (printed s)) + pending_print s task0 + pending_print s task1)%Z.

Record counter_inv (s : shared) : Prop := {
  inv_lock t : in_critical_section (pcs s t) = true ↔ SHARED_LOCK s = Some t;
  inv_counter : SHARED_COUNTER s = uint32 (increments s);
  inv_loaded t v : pcs s t = Loaded v → v = SHARED_COUNTER s;
  inv_printed : snd <$> printed s = uint32 <$> seqZ 1 (Z.of_nat (length (printed s)));
}.

Definition other (t : task) : task := match t with task0 => task1 | task1 => task0 end.

Lemma task_cases t t' : t' = t ∨ t' = other t.
Proof. destruct t, t'; auto. Qed.

Lemma increments_of t s :
  increments s = (Z.of_nat (length (printed s)) + pending_print s t + pending_print s (other t))%Z.
Proof. unfold increments. destruct t; simpl; lia. Qed.

Lemma set_pc_eq t p f : set_pc t p f t = p.
Proof. unfold set_pc. by rewrite decide_True. Qed.
Lemma set_pc_other t p f : set_pc t p f (other t) = f (other t).
Proof. unfold set_pc. by rewrite decide_False by (by destruct t). Qed.

Lemma other_outside t s :
  counter_inv s → SHARED_LOCK s = Some t → in_critical_section (pcs s (other t)) = false.
Proof.
  intros Hinv Hl. destruct (in_critical_section (pcs s (other t))) eqn:Hc; [|done].
  apply (inv_lock _ Hinv) in Hc. rewrite Hl in Hc. by destruct t.
Qed.

Lemma uint32_succ z : uint32 (uint32 z + 1) = uint32 (z + 1).
Proof. unfold uint32. by autorewrite with words. Qed.

(** The lock clause after a step of [t] that leaves the other thread alone. *)
Lemma lock_clause t p s lock' :
  (in_critical_section (pcs s (other t)) = true ↔ lock' = Some (other t)) →
  (in_critical_section p = true ↔ lock' = Some t) →
  ∀ t', in_critical_section (set_pc t p (pcs s) t') = true ↔ lock' = Some t'.
Proof.
  intros Ho Ht t'. destruct (task_cases t t') as [-> | ->]; by rewrite ?set_pc_eq, ?set_pc_other.
Qed.

Lemma outside_nothing_pending t s :
  in_critical_section (pcs s t) = false → pending_print s t = 0%Z.
Proof. unfold pending_print. intros Ht. case_decide as Hp; [by rewrite Hp in Ht|done]. Qed.

Lemma pending_print_set t p s lock counter out :
  pending_print (Shared lock counter out (set_pc t p (pcs s))) t = (if decide (p = Stored) then 1 else 0)%Z
  ∧ pending_print (Shared lock counter out (set_pc t p (pcs s))) (other t) = pending_print s (other t).
Proof. unfold pending_print. simpl. by rewrite set_pc_eq, set_pc_other. Qed.

(** A step to a program counter other than [Loaded], or to a fresh load, keeps the
    loaded values current, provided the other thread has loaded nothing or the
    counter is unchanged. *)
Lemma loaded_clause t p s counter :
  (∀ v, p = Loaded v → v = counter) →
  (∀ v, pcs s (other t) = Loaded v → v = counter) →
  ∀ t' v, set_pc t p (pcs s) t' = Loaded v → v = counter.
Proof.
  intros Hp Ho t' v. destruct (task_cases t t') as [-> | ->]; rewrite ?set_pc_eq, ?set_pc_other; auto.
Qed.

Lemma printed_app (out : list (task * Z)) n t :
  snd <$> out = uint32 <$> seqZ 1 (Z.of_nat (length out)) → n = Z.of_nat (length out) →
  snd <$> (out ++ [(t, uint32 (n + 1))])
  = uint32 <$> seqZ 1 (Z.of_nat (length (out ++ [(t, uint32 (n + 1))]))).
Proof.
  intros Hout ->. rewrite fmap_app, Hout, length_app. simpl.
  rewrite Nat2Z.inj_add, seqZ_app, fmap_app by lia. f_equal. cbn [length].
  assert (∀ m, seqZ m (Z.of_nat 1) = [m]) as -> by done.
  by rewrite Z.add_comm.
Qed.

Lemma counter_step_inv s s' : counter_inv s → counter_step s s' → counter_inv s'.
Proof.
  intros Hinv Hs. destruct Hs as [t s1 s2 Hstep]. pose proof (inv_lock _ Hinv) as Hl.
  pose proof (Hl t) as Hlt. pose proof (Hl (other t)) as Hlo.
  pose proof (inv_counter _ Hinv) as Hc. pose proof (inv_loaded _ Hinv) as Hld.
  pose proof (inv_printed _ Hinv) as Hpr. pose proof (other_outside t s1 Hinv) as Hout.
  rewrite (increments_of t) in Hc.
  assert (t ≠ other t) as Hne by (by destruct t).
  unfold task_step in Hstep. destruct (pcs s1 t) eqn:Hpc; simpl in Hlt;
    [destruct (SHARED_LOCK s1) eqn:Hlock; [done|]|..]; injection Hstep as <-.
  all: try (assert (SHARED_LOCK s1 = Some t) as Hlk by (by apply Hlt); specialize (Hout Hlk);
            rewrite (outside_nothing_pending (other t)) in Hc by done).
  all: assert (pending_print s1 t = if decide (pcs s1 t = Stored) then 1 else 0)%Z as Hpend by done;
       rewrite Hpc in Hpend; simpl in Hpend; rewrite Hpend in Hc.
  all: split; simpl;
    [ apply lock_clause; simpl; naive_solver
    | rewrite (increments_of t), (proj1 (pending_print_set _ _ _ _ _ _)),
        (proj2 (pending_print_set _ _ _ _ _ _)); simpl; rewrite ?length_app
    | apply loaded_clause; [intros v Hv; try done|intros v Hv; try by apply (Hld (other t))]
    | try done ].
  all: try (rewrite Hv in Hout; discriminate).
  all: try (rewrite (outside_nothing_pending (other t)) by done).
  all: try (rewrite Hc; f_equal; simpl; lia).
  all: try congruence.
  - rewrite (Hld t value Hpc), Hc, uint32_succ. f_equal. lia.
  - rewrite Hc. rewrite <- (Z.add_0_r (_ + 1)). rewrite Z.add_0_r.
    replace (Z.of_nat (length (printed s1)) + 1 + 0)%Z with (Z.of_nat (length (printed s1)) + 1)%Z by lia.
    by apply printed_app.
Qed.

Lemma counter_reachable_inv s : counter_reachable s → counter_inv s.
Proof.
  unfold counter_reachable. intros Hr. remember counter_start as s0 eqn:Hs0.
  assert (counter_inv s0) as H0 by (subst; by split).
  clear Hs0. induction Hr as [|s1 s2 s3 Hstep _ IH]; [done|]. by apply IH, (counter_step_inv s1).
Qed.

(** * Properties *)

(** Mutual exclusion: in every reachable state at most one thread is between
    taking and releasing the mutex, and then it is the one that holds it. *)
Theorem counter_mutual_exclusion s t :
  counter_reachable s →
  (in_critical_section (pcs s t) = true ↔ SHARED_LOCK s = Some t)
  ∧ (in_critical_section (pcs s task0) = true → in_critical_section (pcs s task1) = true → False).
Proof.
  intros Hr%counter_reachable_inv. split; [by apply inv_lock|].
  intros H0%(inv_lock _ Hr) H1%(inv_lock _ Hr). congruence.
Qed.

(** (C37) No increment is lost or seen twice: whatever the interleaving, the values
    printed are exactly 1, 2, 3, ... in this order, modulo 2^32, whichever thread
    prints them, and outside the critical section the counter is the number of
    lines printed. *)
Theorem counter_prints_in_order s :
  counter_reachable s →
  snd <$> printed s = uint32 <$> seqZ 1 (Z.of_nat (length (printed s)))
  ∧ (SHARED_LOCK s = None → SHARED_COUNTER s = uint32 (Z.of_nat (length (printed s)))).
Proof.
  intros Hr%counter_reachable_inv. split; [by apply inv_printed|]. intros Hl.
  rewrite (inv_counter _ Hr). unfold increments.
  assert (∀ t, in_critical_section (pcs s t) = false) as Hout.
  { intros t. destruct (in_critical_section (pcs s t)) eqn:Ht; [|done].
    apply (inv_lock _ Hr) in Ht. congruence. }
  rewrite !outside_nothing_pending by done. f_equal. lia.
Qed.

(** The threads never deadlock: in every reachable state some thread can take a
    step, and a thread that cannot is waiting for a mutex the other one holds and
    can release. *)
Theorem counter_never_blocks s t :
  counter_reachable s →
  (∃ s', counter_step s s')
  ∧ (task_step t s = None →
     pcs s t = AtLock ∧ SHARED_LOCK s = Some (other t) ∧ task_step (other t) s ≠ None).
Proof.
  intros Hr%counter_reachable_inv.
  assert (∀ t, task_step t s = None →
    pcs s t = AtLock ∧ SHARED_LOCK s = Some (other t) ∧ task_step (other t) s ≠ None) as Hblock.
  { intros u Hu. unfold task_step in Hu at 1.
    destruct (pcs s u) eqn:Hpc; try done. destruct (SHARED_LOCK s) as [v|] eqn:Hl; [|done].
    destruct (task_cases u v) as [-> | ->].
    - apply (inv_lock _ Hr) in Hl. by rewrite Hpc in Hl.
    - split_and!; [done..|]. apply (inv_lock _ Hr) in Hl. unfold task_step.
      by destruct (pcs s (other u)). }
  split; [|apply Hblock].
  destruct (task_step t s) as [s'|] eqn:Ht; [by exists s', t|].
  destruct (Hblock t Ht) as (_ & _ & Ho).
  destruct (task_step (other t) s) as [s'|] eqn:Ht'; [by exists s', (other t)|done].
Qed.

(** * A concrete interleaving *)

Fixpoint counter_run_schedule (schedule : list task) (s : shared) : option shared :=
  match schedule with
  | [] => Some s
  | t :: schedule => s' ← task_step t s; counter_run_schedule schedule s'
  end.

Lemma counter_run_schedule_rtc schedule s s' :
  counter_run_schedule schedule s = Some s' → rtc counter_step s s'.
Proof.
  revert s. induction schedule as [|t schedule IH]; intros s; simpl.
  - by intros [= ->].
  - destruct (task_step t s) as [s1|] eqn:Ht; [|done]. intros Hrun.
    eapply rtc_l; [by apply (step_task t)|]. by apply IH.
Qed.

(** [task1] prints, then [task0] waits for the mutex while [task1] sleeps and
    increments again. *)
Definition example_schedule : list task :=
  [task1; task1; task1; task1; task1; task1; task0; task0; task0].
Definition example_shared : shared := default counter_start (counter_run_schedule example_schedule counter_start).

Lemma example_shared_reachable : counter_reachable example_shared.
Proof. by apply (counter_run_schedule_rtc example_schedule). Qed.

Theorem counter_mutual_exclusion_witness : SHARED_LOCK example_shared = Some task0.
Proof.
  by apply (counter_mutual_exclusion example_shared task0 example_shared_reachable).
Defined.

Theorem counter_prints_in_order_witness :
  snd <$> printed example_shared = uint32 <$> seqZ 1 1.
Proof. exact (proj1 (counter_prints_in_order example_shared example_shared_reachable)). Defined.

Theorem counter_never_blocks_witness :
  (∃ s', counter_step example_shared s') ∧ task_step task0 example_shared ≠ None.
Proof.
  destruct (counter_never_blocks example_shared task1 example_shared_reachable) as [Hstep Hblock].
  split; [exact Hstep|]. apply Hblock. reflexivity.
Defined.
