(* ===== verification/IntExchange.v ===== *)
(** [ws-ipc/ipc-solutions/main-02.cpp]: a thread pushes consecutive integers into a
    [std::queue] and another takes integers out, both under a mutex. The threads
    are a step relation with one step per access to the shared variables. *)

From S2P Require Import Prelude Words Fsfw.

(** * The program *)

Inductive owner := sender | receiver.
#[export] Instance owner_eq_dec : EqDecision owner.
Proof. solve_decision. Defined.

(** [intSender]: at the lock, inside it with the push to do, to unlock, to print,
    asleep. *)
Inductive sender_pc := SLock | SPush | SUnlock | SPrint | SSleep.
(** [intReceiver], with the local [optInt] where it is live: at the lock, inside it
    with the test to do, to pop the value just read, to unlock, to print, asleep. *)
Inductive receiver_pc :=
| RLock | RTest | RPop (optInt : Z) | RUnlock (optInt : option Z) | RPrint (optInt : option Z) | RSleep.

Record exchange := Exchange {
  QUEUE_MUTEX : option owner;
  INT_QUEUE : list Z;                (* front first *)
  SENT_INTS : Z;
  sender_at : sender_pc;
  receiver_at : receiver_pc;
  sent_lines : list Z;
  received_lines : list Z;
}.
#[export] Instance exchange_settable : Settable exchange := λ s,
  Exchange (QUEUE_MUTEX s) (INT_QUEUE s) (SENT_INTS s) (sender_at s) (receiver_at s)
    (sent_lines s) (received_lines s).

Definition exchange_start : exchange := Exchange None [] 0 SLock RLock [] [].

Definition intSender_step (s : exchange) : option exchange :=
  match sender_at s with
  | SLock =>
      match QUEUE_MUTEX s with
      | None => Some (s <| QUEUE_MUTEX := Some sender |> <| sender_at := SPush |>)
      | Some _ => None
      end
  | SPush =>
      let n := uint32 (SENT_INTS s + 1) in
      Some (s <| SENT_INTS := n |> <| INT_QUEUE := INT_QUEUE s ++ [int_of_uint32 n] |>
              <| sender_at := SUnlock |>)
  | SUnlock => Some (s <| QUEUE_MUTEX := None |> <| sender_at := SPrint |>)
  | SPrint => Some (s <| sent_lines := sent_lines s ++ [SENT_INTS s] |> <| sender_at := SSleep |>)
  | SSleep => Some (s <| sender_at := SLock |>)
  end.

(** [INT_QUEUE.back()] is the last element of the queue, [INT_QUEUE.pop()] removes
    the first. *)
Definition intReceiver_step (s : exchange) : option exchange :=
  match receiver_at s with
  | RLock =>
      match QUEUE_MUTEX s with
      | None => Some (s <| QUEUE_MUTEX := Some receiver |> <| receiver_at := RTest |>)
      | Some _ => None
      end
  | RTest =>
      match list.last (INT_QUEUE s) with
      | Some back => Some (s <| receiver_at := RPop back |>)
      | None => Some (s <| receiver_at := RUnlock None |>)
      end
  | RPop optInt =>
      Some (s <| INT_QUEUE := tail (INT_QUEUE s) |> <| receiver_at := RUnlock (Some optInt) |>)
  | RUnlock optInt => Some (s <| QUEUE_MUTEX := None |> <| receiver_at := RPrint optInt |>)
  | RPrint optInt =>
      Some (s <| received_lines := received_lines s ++ option_list optInt |>
              <| receiver_at := RSleep |>)
  | RSleep => Some (s <| receiver_at := RLock |>)
  end.

Inductive exchange_step : exchange → exchange → Prop :=
| step_sender s s' : intSender_step s = Some s' → exchange_step s s'
| step_receiver s s' : intReceiver_step s = Some s' → exchange_step s s'.

Definition exchange_reachable (s : exchange) : Prop := rtc exchange_step exchange_start s.

(** * The invariant *)

Definition sender_inside (p : sender_pc) : bool :=
  match p with SPush | SUnlock => true | _ => false end.
Definition receiver_inside (p : receiver_pc) : bool :=
  match p with RTest | RPop _ | RUnlock _ => true | _ => false end.

(** How many values have been pushed and popped, from the lines printed and what the
    threads still have to print. *)
Definition pushes (s : exchange) : Z :=
  (Z.of_nat (length (sent_lines s))
   + match sender_at s with SUnlock | SPrint => 1 | _ => 0 end)%Z.

(** The value popped and not yet printed. *)
Definition in_flight (s : exchange) : list Z :=
  match receiver_at s with RUnlock o | RPrint o => option_list o | _ => [] end.
Definition received (s : exchange) : list Z := received_lines s ++ in_flight s.
Definition pops (s : exchange) : Z := Z.of_nat (length (received s)).

(** The [n]th value the sender pushes. *)
Definition sent_value (n : Z) : Z := int_of_uint32 (uint32 n).

Record exchange_inv (s : exchange) : Prop := {
  inv_sender : sender_inside (sender_at s) = true ↔ QUEUE_MUTEX s = Some sender;
  inv_receiver : receiver_inside (receiver_at s) = true ↔ QUEUE_MUTEX s = Some receiver;
  inv_counter : SENT_INTS s = uint32 (pushes s);
  inv_bounds : (0 ≤ pops s ≤ pushes s)%Z;
  inv_queue : INT_QUEUE s = sent_value <$> seqZ (pops s + 1) (pushes s - pops s);
  inv_back b : receiver_at s = RPop b → b = sent_value (pushes s) ∧ (pops s < pushes s)%Z;
}.

Ltac run_exchange :=
  lazy beta iota zeta delta [set_field settable_eta exchange_settable QUEUE_MUTEX INT_QUEUE
    SENT_INTS sender_at receiver_at sent_lines received_lines].

Lemma last_seqZ m n : (0 < n)%Z → list.last (sent_value <$> seqZ m n) = Some (sent_value (m + n - 1)).
Proof.
  intros Hn. replace n with ((n - 1) + 1)%Z at 1 by lia.
  rewrite seqZ_app, fmap_app, last_app by lia.
  rewrite (seqZ_cons _ 1) by lia. simpl. f_equal. f_equal. lia.
Qed.

Lemma tail_seqZ m n : (0 < n)%Z → tail (sent_value <$> seqZ m n) = sent_value <$> seqZ (m + 1) (n - 1).
Proof. intros Hn. rewrite seqZ_cons by lia. cbn [fmap list_fmap tail]. by replace (Z.pred n) with (n - 1)%Z by lia. Qed.

Lemma push_seqZ m n :
  (0 ≤ n)%Z → (sent_value <$> seqZ m n) ++ [sent_value (m + n)] = sent_value <$> seqZ m (n + 1).
Proof.
  intros Hn. rewrite (seqZ_app m n 1), fmap_app by lia. by rewrite (seqZ_cons (m + n) 1) by lia.
Qed.


Lemma sender_step_inv s s' : exchange_inv s → intSender_step s = Some s' → exchange_inv s'.
Proof.
  intros [Hs Hr Hc Hb Hq Hback]. unfold intSender_step.
  destruct s as [mutex queue sent spc rpc out inn].
  unfold pushes, pops, received, in_flight in *. simpl in *.
  destruct spc; [destruct mutex; [done|]|..]; intros [= <-]; run_exchange; simpl in *;
    (split; unfold pushes, pops, received, in_flight; simpl;
     [ naive_solver | naive_solver | rewrite ?length_app; simpl
     | rewrite ?length_app in *; simpl in *; try lia
     | rewrite ?length_app in *; simpl in *
     | rewrite ?length_app in *; simpl in * ]).
  all: try (rewrite Hc; f_equal; lia).
  all: try (rewrite Hq; f_equal; f_equal; lia).
  all: try (intros b Hp; destruct (Hback b Hp); split; [congruence || (subst; f_equal; lia)|lia]).
  - rewrite Hc, Z.add_0_r. unfold uint32. by autorewrite with words.
  - rewrite ?length_app in Hq. set (k := Z.of_nat (_ + length _)) in *.
    assert (uint32 (sent + 1) = uint32 (Z.of_nat (length out) + 1)) as ->.
    { rewrite Hc, Z.add_0_r. unfold uint32. by autorewrite with words. }
    rewrite Hq. fold (sent_value (Z.of_nat (length out) + 1)).
    replace (Z.of_nat (length out) + 1)%Z
      with ((k + 1) + (Z.of_nat (length out) + 0 - k))%Z at 1 by lia.
    rewrite push_seqZ by lia. do 2 f_equal. lia.
  - intros b ->. simpl in Hr. assert (mutex = Some sender) as -> by (by apply Hs). naive_solver.
Qed.

Lemma receiver_step_inv s s' : exchange_inv s → intReceiver_step s = Some s' → exchange_inv s'.
Proof.
  intros [Hs Hr Hc Hb Hq Hback]. unfold intReceiver_step.
  destruct s as [mutex queue sent spc rpc out inn].
  unfold pushes, pops, received, in_flight in *. simpl in *.
  set (n := (Z.of_nat (length out) + _)%Z) in *.
  destruct rpc as [| |b|o|o|]; simpl in *; rewrite ?app_nil_r in *.
  - destruct mutex; [done|]. intros [= <-]. run_exchange.
    split; unfold pushes, pops, received, in_flight; simpl; rewrite ?app_nil_r; naive_solver.
  - rewrite Hq. destruct (decide (Z.of_nat (length inn) < n)%Z) as [Hlt|Hge].
    + rewrite last_seqZ by lia. intros [= <-]. run_exchange.
      split; unfold pushes, pops, received, in_flight; simpl; rewrite ?app_nil_r; try done.
      intros b [= <-]. split; [|done]. f_equal. fold n. lia.
    + replace (n - Z.of_nat (length inn))%Z with 0%Z by lia. simpl. intros [= <-]. run_exchange.
      split; unfold pushes, pops, received, in_flight; simpl; rewrite ?app_nil_r; try done.
      by replace (_ - Z.of_nat (length inn))%Z with 0%Z by lia.
  - destruct (Hback b eq_refl) as [-> Hlt]. intros [= <-]. run_exchange.
    split; unfold pushes, pops, received, in_flight; simpl; rewrite ?length_app; simpl; try done;
      [lia|].
    rewrite Hq, tail_seqZ by lia. do 2 f_equal; lia.
  - intros [= <-]. run_exchange.
    split; unfold pushes, pops, received, in_flight; simpl; try done; naive_solver.
  - intros [= <-]. run_exchange.
    split; unfold pushes, pops, received, in_flight; simpl; rewrite ?app_nil_r; done.
  - intros [= <-]. run_exchange.
    split; unfold pushes, pops, received, in_flight; simpl; rewrite ?app_nil_r; done.
Qed.

Lemma start_inv : exchange_inv exchange_start.
Proof. by split. Qed.

Lemma exchange_step_inv s s' : exchange_inv s → exchange_step s s' → exchange_inv s'.
Proof. intros Hinv Hstep. destruct Hstep; eauto using sender_step_inv, receiver_step_inv. Qed.

Lemma exchange_reachable_inv s : exchange_reachable s → exchange_inv s.
Proof.
  unfold exchange_reachable. intros Hr. pose proof start_inv as H0.
  induction Hr as [|s1 s2 s3 Hstep _ IH]; eauto using exchange_step_inv.
Qed.

(** What a step does to the values received: nothing, or it takes the newest value
    out of a queue that is not empty. *)
Lemma step_received s s' :
  exchange_inv s → exchange_step s s' →
  (pushes s ≤ pushes s')%Z ∧
  (received s' = received s
   ∨ (received s' = received s ++ [sent_value (pushes s)] ∧ pushes s' = pushes s
      ∧ (pops s < pushes s)%Z ∧ INT_QUEUE s' = tail (INT_QUEUE s))).
Proof.
  intros [Hs Hr Hc Hb Hq Hback] Hstep. destruct Hstep as [s s' Hstep|s s' Hstep].
  - unfold intSender_step in Hstep. unfold received, in_flight, pushes.
    destruct s as [mutex queue sent spc rpc out inn]. simpl in *.
    destruct spc; [destruct mutex; [done|]|..]; injection Hstep as <-; run_exchange;
      simpl; rewrite ?length_app; simpl; (split; [lia|by left]).
  - unfold intReceiver_step in Hstep. destruct s as [mutex queue sent spc rpc out inn].
    destruct rpc as [| |b|o|o|]; simpl in *;
      [destruct mutex; [done|]|destruct (list.last queue)|..]; injection Hstep as <-; run_exchange;
      unfold received, in_flight, pushes in *; simpl; rewrite ?app_nil_r; (split; [done|]);
      try (by left).
    right. destruct (Hback b eq_refl) as [-> Hlt]. unfold pops, received, in_flight in *. simpl in *.
    by rewrite app_nil_r in Hlt |- *.
Qed.

(** (C38) Whatever the interleaving, the queue is only touched under the mutex, the
    values in it are exactly those pushed after the first so many as were popped,
    and as many values have been taken as elements have left the queue; and some
    thread can always take a step. *)
Theorem exchange_invariant s :
  exchange_reachable s →
  (sender_inside (sender_at s) = true → receiver_inside (receiver_at s) = true → False)
  ∧ INT_QUEUE s = sent_value <$> seqZ (pops s + 1) (pushes s - pops s)
  ∧ (0 ≤ pops s ≤ pushes s)%Z
  ∧ ∃ s', exchange_step s s'.
Proof.
  intros Hr%exchange_reachable_inv. destruct Hr as [Hs Hr Hc Hb Hq Hback].
  split; [intros H1%Hs H2%Hr; congruence|]. split; [done|]. split; [done|].
  destruct (intSender_step s) as [s'|] eqn:Hsend; [by exists s'; apply step_sender|].
  destruct (intReceiver_step s) as [s'|] eqn:Hrecv; [by exists s'; apply step_receiver|].
  exfalso. unfold intSender_step, intReceiver_step in *.
  destruct (sender_at s); try done. destruct (QUEUE_MUTEX s) as [[]|]; [|..|done].
  - by assert (sender_inside SLock = true) by (by apply Hs).
  - destruct (receiver_at s); simpl in *; try done; try by assert (false = true) by (by apply Hr).
    by destruct (list.last (INT_QUEUE s)).
Qed.

(** The numbers of the values taken so far: never decreasing, and the [i]th one
    between the [i]th and the last value pushed. *)
Definition taken_numbers (numbers : list Z) (last : Z) : Prop :=
  (∀ i j a b, i ≤ j → numbers !! i = Some a → numbers !! j = Some b → (a ≤ b)%Z)
  ∧ (∀ i n, numbers !! i = Some n → (Z.of_nat i + 1 ≤ n ≤ last)%Z).

Lemma taken_numbers_snoc numbers last :
  taken_numbers numbers last → (Z.of_nat (length numbers) < last)%Z →
  taken_numbers (numbers ++ [last]) last.
Proof.
  intros [Hmono Hb] Hlen. split.
  - intros i j a b Hij [Hi|[Hi Ha]]%lookup_app_Some [Hj|[Hj Hb']]%lookup_app_Some; [by eauto|..].
    + apply list_lookup_singleton_Some in Hb' as [_ ?]. apply Hb in Hi. lia.
    + apply lookup_lt_Some in Hj. lia.
    + apply list_lookup_singleton_Some in Ha as [_ ?]. apply list_lookup_singleton_Some in Hb' as [_ ?]. lia.
  - intros i n [Hi|[Hi Hn]]%lookup_app_Some; [by apply Hb|].
    apply list_lookup_singleton_Some in Hn as [Hi0 <-]. lia.
Qed.

Lemma taken_numbers_le numbers last last' :
  taken_numbers numbers last → (last ≤ last')%Z → taken_numbers numbers last'.
Proof. intros [Hmono Hb] Hle. split; [done|]. intros i n Hi. specialize (Hb i n Hi). lia. Qed.

Lemma reachable_numbers s :
  exchange_reachable s → ∃ numbers, received s = sent_value <$> numbers ∧ taken_numbers numbers (pushes s).
Proof.
  apply (rtc_ind_r (λ s, ∃ numbers, received s = sent_value <$> numbers
                           ∧ taken_numbers numbers (pushes s)) exchange_start).
  - by exists [].
  - intros s1 s2 Hr Hstep (numbers & Hrec & Hnum). destruct (step_received s1 s2 (exchange_reachable_inv s1 Hr)) as [Hle [Heq|(Heq & Hp & Hlt & _)]];
      [done|..]; rewrite Heq, Hrec.
    + exists numbers. eauto using taken_numbers_le.
    + exists (numbers ++ [pushes s1]). split; [by rewrite fmap_app|]. rewrite Hp.
      apply taken_numbers_snoc; [done|]. unfold pops in Hlt. by rewrite Hrec, length_fmap in Hlt.
Qed.

(** The values printed by the receiver are values the sender pushed, in an order
    that never goes back; the [i]th one is at least the [i]th value pushed, because
    the receiver always takes the newest. They may skip values and repeat them. *)
Theorem received_values_monotone s :
  exchange_reachable s →
  ∃ numbers, received_lines s = sent_value <$> numbers ∧ taken_numbers numbers (pushes s).
Proof.
  intros (numbers & Hrec & Hmono & Hb)%reachable_numbers.
  exists (take (length (received_lines s)) numbers). split.
  - rewrite fmap_take, <- Hrec. unfold received. by rewrite take_app_length.
  - split; intros i j; [intros a b Hij [Hi _]%lookup_take_Some [Hj _]%lookup_take_Some; eauto|].
    intros [Hi _]%lookup_take_Some. by apply Hb.
Qed.

(** A step that never lets more than one value wait. *)
Definition drained_step (s s' : exchange) : Prop := exchange_step s s' ∧ (length (INT_QUEUE s') ≤ 1)%nat.

(** (C39) As long as the receiver keeps up, so that never more than one value waits in
    the queue, the exchange is the intended message passing: the values received are
    exactly the values sent, in order, without loss or repetition. *)
Theorem drained_exchange_is_fifo s :
  rtc drained_step exchange_start s →
  received_lines s = sent_value <$> seqZ 1 (Z.of_nat (length (received_lines s))).
Proof.
  intros Hr.
  assert (exchange_inv s ∧ received s = sent_value <$> seqZ 1 (pops s)
          ∧ (length (INT_QUEUE s) ≤ 1)%nat) as (_ & Hrec & _).
  { revert Hr. apply (rtc_ind_r (λ s, exchange_inv s ∧ received s = sent_value <$> seqZ 1 (pops s)
        ∧ (length (INT_QUEUE s) ≤ 1)%nat) exchange_start).
    - split; [apply start_inv|]. split; [done|simpl; lia].
    - intros s1 s2 _ [Hstep Hlen2] (Hinv & Hrec & Hlen). split; [by eapply exchange_step_inv|].
      split; [|done].
      destruct (step_received s1 s2 Hinv Hstep) as [_ [Heq|(Heq & Hp & Hlt & _)]]; unfold pops;
        rewrite Heq; [done|].
      rewrite (inv_queue _ Hinv), length_fmap, length_seqZ in Hlen.
      destruct (inv_bounds _ Hinv) as [? _].
      rewrite length_app, Nat2Z.inj_add. fold (pops s1). rewrite Hrec at 1. simpl.
      rewrite <- push_seqZ by done. do 3 f_equal. lia. }
  unfold pops, received in Hrec. rewrite length_app, Nat2Z.inj_add in Hrec.
  rewrite seqZ_app, fmap_app in Hrec by lia.
  apply app_inj_1 in Hrec as [Hrec _]; [done|]. rewrite length_fmap, length_seqZ. lia.
Qed.

(** * Schedules *)

Fixpoint exchange_run_schedule (schedule : list owner) (s : exchange) : option exchange :=
  match schedule with
  | [] => Some s
  | o :: schedule =>
      s' ← match o with sender => intSender_step s | receiver => intReceiver_step s end;
      exchange_run_schedule schedule s'
  end.

(** The same, stopping when more than one value would wait. *)
Fixpoint run_drained (schedule : list owner) (s : exchange) : option exchange :=
  match schedule with
  | [] => Some s
  | o :: schedule =>
      s' ← match o with sender => intSender_step s | receiver => intReceiver_step s end;
      if decide (length (INT_QUEUE s') ≤ 1)%nat then run_drained schedule s' else None
  end.

Lemma run_drained_rtc schedule s s' : run_drained schedule s = Some s' → rtc drained_step s s'.
Proof.
  revert s. induction schedule as [|o schedule IH]; intros s; simpl; [by intros [= ->]|].
  destruct o; [destruct (intSender_step s) as [s1|] eqn:Hs|destruct (intReceiver_step s) as [s1|] eqn:Hs];
    simpl; try done; case_decide; try done; intros Hrun;
    (eapply rtc_l; [split; [by constructor|done]|by apply IH]).
Qed.

Lemma exchange_run_schedule_rtc schedule s s' : exchange_run_schedule schedule s = Some s' → rtc exchange_step s s'.
Proof.
  revert s. induction schedule as [|o schedule IH]; intros s; simpl; [by intros [= ->]|].
  destruct o; [destruct (intSender_step s) as [s1|] eqn:Hs|destruct (intReceiver_step s) as [s1|] eqn:Hs];
    simpl; try done; intros Hrun; (eapply rtc_l; [|by apply IH]); by constructor.
Qed.

(** Two values are pushed before the receiver takes anything. *)
Definition overtaking_schedule : list owner :=
  replicate 10 sender ++ replicate 12 receiver.

(** (C40) When the receiver does not keep up, messages are lost and delivered twice:
    there is a run in which 1 and 2 are sent, 2 is received twice, 1 never, and the
    queue is empty again, because the newest element is read and the oldest one
    removed. *)
Theorem exchange_loses_and_repeats :
  ∃ s, exchange_reachable s ∧ sent_lines s = [1; 2]%Z ∧ received_lines s = [2; 2]%Z ∧ INT_QUEUE s = [].
Proof.
  destruct (exchange_run_schedule overtaking_schedule exchange_start) as [s|] eqn:Hrun; [|done].
  exists s. split; [by eapply exchange_run_schedule_rtc|].
  vm_compute in Hrun. injection Hrun as <-. done.
Qed.

(** * A concrete run *)

Definition example_exchange : exchange :=
  default exchange_start (exchange_run_schedule overtaking_schedule exchange_start).

Lemma example_exchange_reachable : exchange_reachable example_exchange.
Proof. apply (exchange_run_schedule_rtc overtaking_schedule). by vm_compute. Qed.

Theorem exchange_invariant_witness :
  INT_QUEUE example_exchange = sent_value <$> seqZ 3 0 ∧ ∃ s', exchange_step example_exchange s'.
Proof.
  destruct (exchange_invariant example_exchange example_exchange_reachable) as (_ & Hq & _ & Hstep).
  split; [exact Hq|exact Hstep].
Defined.

Theorem received_values_monotone_witness :
  ∃ numbers, [2; 2]%Z = sent_value <$> numbers ∧ taken_numbers numbers 2.
Proof. exact (received_values_monotone example_exchange example_exchange_reachable). Defined.

(** The sender pushes and unlocks, then the receiver takes the value and prints it. *)
Definition drained_schedule : list owner := replicate 3 sender ++ replicate 5 receiver.
Definition example_drained : exchange := default exchange_start (run_drained drained_schedule exchange_start).

Lemma example_drained_run : rtc drained_step exchange_start example_drained.
Proof. apply (run_drained_rtc drained_schedule). by vm_compute. Qed.

Theorem drained_exchange_is_fifo_witness :
  received_lines example_drained = sent_value <$> seqZ 1 1.
Proof. exact (drained_exchange_is_fifo example_drained example_drained_run). Defined.
