(* ===== verification/Mission.v ===== *)
(** Assembly of the mission: the communication interface and the cookie
    ([mission/webcam/WebcamComIF.cpp], [WebcamCookie.cpp]), the object factory
    ([mission/ObjectFactory.cpp]) and the command loop of [main.cpp]. *)

From S2P Require Import Prelude Words Fsfw FsfwModel WebcamDefinitions.
From S2P Require Import WebcamCommandingService TmtcInfrastructure TmtcProperties.

(** * WebcamComIF: a communication interface without a device behind it *)

Section ComIF.
Context `{FsfwConstants} {Cookie : Type}.

Definition initializeInterface (cookie : Cookie) : ReturnValue_t := OK.
Definition sendMessage (cookie : Cookie) (data : option (list byte)) (len : Z) : ReturnValue_t := OK.
Definition getSendSuccess (cookie : Cookie) : ReturnValue_t := OK.
Definition requestReceiveMessage (cookie : Cookie) (requestLen : Z) : ReturnValue_t := OK.

(** The new contents of what [buffer] and [size] point at: a null pointer, and 0. *)
Definition readReceivedMessage (cookie : Cookie) (buffer : option (option (list byte)))
    (size : option Z) : ReturnValue_t * option (option (list byte)) * option Z :=
  (OK, assign_if buffer None, assign_if size 0%Z).

(** The class: a [SystemObject] with these overrides, which neither read nor write it. *)
Record ComIF := mkComIF { comIF_objectId : object_id_t }.
Definition WebcamComIF (objectId : object_id_t) : ComIF := mkComIF objectId.

#[export] Instance WebcamComIF_overrides {W} : DeviceCommunicationIF ComIF Cookie W := {|
  com_initializeInterface cookie := mret (initializeInterface cookie);
  com_sendMessage cookie data len := mret (sendMessage cookie data len);
  com_getSendSuccess cookie := mret (getSendSuccess cookie);
  com_requestReceiveMessage cookie requestLen := mret (requestReceiveMessage cookie requestLen);
  com_readReceivedMessage cookie buffer size := mret (readReceivedMessage cookie buffer size);
|}.

(** To the device handler there is always a device, and never any data: whatever is sent
    is accepted, and every read succeeds with an empty buffer. *)
Lemma com_accepts_and_answers_nothing {W} cookie data len (b : option (list byte)) (n : Z) (e : env ComIF W) :
  (rv1 ← com_sendMessage cookie data len; rv2 ← com_getSendSuccess cookie;
   rv3 ← com_requestReceiveMessage cookie len; r ← com_readReceivedMessage cookie (Some b) (Some n);
   mret (rv1, rv2, rv3, r)) e
  = Done ((OK, OK, OK, (OK, Some None, Some 0%Z)), e).
Proof. done. Qed.
End ComIF.

(** * WebcamCookie *)

Record Cookie := mkCookie {
  cookie_objectId : object_id_t; devicePath : string; initialFrameRate : double
}.
Definition WebcamCookie (devicePath : string) (initialFrameRate : double) : Cookie :=
  mkCookie objectIdWebcamCookie devicePath initialFrameRate.
Definition getDevicePath (c : Cookie) : string := devicePath c.
Definition getInitialFrameRate (c : Cookie) : double := initialFrameRate c.

(** [30.0] *)
Definition double_30 : double := Double 0x403e000000000000.
(** [24.0] *)
Definition double_24 : double := Double 0x4038000000000000.

(** * ObjectFactory *)

(** The objects the factory makes, with the arguments of their constructors. [P] is
    the type of pointers to framework objects. *)
Inductive mission_object (P : Type) :=
| NewLocalPool (id : object_id_t) (config : list (Z * Z))
| NewCdsShortTimeStamper (id : object_id_t)
| NewStubVerificationReceiver (id : object_id_t)
| NewVerificationReporter (id : object_id_t)
| NewStubTelemetrySink (id : object_id_t)
| NewStubPusDistributor (id : object_id_t)
| NewWebcamComIF (id : object_id_t)
| NewWebcamCookie (cookie : Cookie)
| NewWebcamDeviceHandler (id comIF : object_id_t) (cookie : P) (cmdQueueSize : Z)
| NewWebcamCommandingService (id : object_id_t) (reporter : option P).
Arguments NewLocalPool {_} _ _.
Arguments NewCdsShortTimeStamper {_} _.
Arguments NewStubVerificationReceiver {_} _.
Arguments NewVerificationReporter {_} _.
Arguments NewStubTelemetrySink {_} _.
Arguments NewStubPusDistributor {_} _.
Arguments NewWebcamComIF {_} _.
Arguments NewWebcamCookie {_} _.
Arguments NewWebcamDeviceHandler {_} _ _ _ _.
Arguments NewWebcamCommandingService {_} _ _.

(** Construction, which registers the object with the object manager and returns a
    pointer to it, and the framework's setters. *)
Class MissionObjectsIF (W P : Type) := {
  construct : mission_object P → W → P * W;
  setReceiver : P → P → W → W;
  setPacketSource : P → object_id_t → W → W;
  setPacketDestination : P → object_id_t → W → W;
}.

(** The global variables of [ObjectFactory.cpp]. The distributor is an object of the
    mission and kept with its state. *)
Record Globals (P Store : Type) := mkGlobals {
  g_ipcStore : option P;
  g_tcStore : option P;
  g_tmStore : option P;
  g_timeStamper : option P;
  g_verificationReporter : option P;
  g_telemetrySink : option P;
  g_verificationReceiver : option P;
  g_pusDistributor : option (P * Distributor P Store);
  g_webcamComIF : option P;
  g_webcamCookie : option P;
  g_webcamHandler : option P;
  g_webcamService : option P;
  g_serviceRegistered : bool;
}.
Arguments mkGlobals {_ _} _ _ _ _ _ _ _ _ _ _ _ _ _.
Arguments g_ipcStore {_ _} _.
Arguments g_tcStore {_ _} _.
Arguments g_tmStore {_ _} _.
Arguments g_timeStamper {_ _} _.
Arguments g_verificationReporter {_ _} _.
Arguments g_telemetrySink {_ _} _.
Arguments g_verificationReceiver {_ _} _.
Arguments g_pusDistributor {_ _} _.
Arguments g_webcamComIF {_ _} _.
Arguments g_webcamCookie {_ _} _.
Arguments g_webcamHandler {_ _} _.
Arguments g_webcamService {_ _} _.
Arguments g_serviceRegistered {_ _} _.

#[export] Instance Globals_settable P Store : Settable (Globals P Store) := λ g,
  mkGlobals (g_ipcStore g) (g_tcStore g) (g_tmStore g) (g_timeStamper g)
    (g_verificationReporter g) (g_telemetrySink g) (g_verificationReceiver g)
    (g_pusDistributor g) (g_webcamComIF g) (g_webcamCookie g) (g_webcamHandler g)
    (g_webcamService g) (g_serviceRegistered g).

Definition no_globals {P Store} : Globals P Store :=
  mkGlobals None None None None None None None None None None None None false.

Definition ipcCfg : list (Z * Z) := [(40, 32); (20, 64); (10, 128)]%Z.
Definition tcCfg : list (Z * Z) := [(20, 256); (10, 512)]%Z.
Definition tmCfg : list (Z * Z) := [(20, 256); (10, 512)]%Z.

Section Factory.
Context `{FsfwConstants} {W P Store TimeReader : Type}.
Context `{!MissionObjectsIF W P, !AcceptsTelecommandsIF W P, !ObjectManagerIF W Store TimeReader}.

(** [if (global == nullptr) { global = std::make_unique<T>(...); }] *)
Definition make_unique_if_null (global : Globals P Store → option P)
    `{!Setter global} (object : mission_object P) : M (env (Globals P Store) W) unit :=
  g ← this;
  match global g with
  | None => p ← call (construct object); global ::= (Some p)
  | Some _ => mret ()
  end.

Definition create_reporter : M (env (Globals P Store) W) unit :=
  g ← this;
  match g_verificationReporter g with
  | None =>
      p ← call (construct (NewVerificationReporter VERIFICATION_REPORTER));
      g_verificationReporter ::= (Some p);;
      match g_verificationReceiver g with
      | Some receiver => call_void (setReceiver p receiver)
      | None => mret ()
      end
  | Some _ => mret ()
  end.

Definition create_distributor : M (env (Globals P Store) W) unit :=
  g ← this;
  match g_pusDistributor g with
  | None =>
      p ← call (construct (NewStubPusDistributor objectIdWebcamTcDistributor));
      g_pusDistributor ::= (Some (p, StubPusDistributor))
  | Some _ => mret ()
  end.

(** The cookie is made only for a handler that does not exist yet, and the handler
    takes it over ([webcamCookie.release()]). *)
Definition create_handler : M (env (Globals P Store) W) unit :=
  g ← this;
  (if decide (g_webcamCookie g = None ∧ g_webcamHandler g = None) then
     p ← call (construct (NewWebcamCookie (WebcamCookie "/dev/video0" double_30)));
     g_webcamCookie ::= (Some p)
   else mret ());;
  g ← this;
  match g_webcamHandler g, g_webcamCookie g with
  | None, Some cookie =>
      g_webcamCookie ::= None;;
      p ← call (construct (NewWebcamDeviceHandler objectIdWebcamHandler objectIdWebcamComIF cookie 20));
      g_webcamHandler ::= (Some p)
  | _, _ => mret ()
  end.

Definition create_service : M (env (Globals P Store) W) unit :=
  g ← this;
  match g_webcamService g with
  | None =>
      service ← call (construct (NewWebcamCommandingService objectIdWebcamCommandingService
                                   (g_verificationReporter g)));
      g_webcamService ::= (Some service);;
      call_void (setPacketSource service objectIdWebcamTcDistributor);;
      call_void (setPacketDestination service objectIdWebcamTelemetrySink)
  | Some _ => mret ()
  end.

(** [pusDistributor->registerService(webcamService.get())] *)
Definition register_service : M (env (Globals P Store) W) unit :=
  g ← this;
  match g_pusDistributor g, g_webcamService g with
  | Some (p, d), Some service =>
      if g_serviceRegistered g then mret ()
      else
        d' ← (λ e, match registerService (Some service) (Env d (console e) (world e)) with
                   | Done (_, e') => Done (self e', Env (self e) (console e') (world e'))
                   | Undefined => Undefined
                   | OutOfFuel => OutOfFuel
                   end);
        g_pusDistributor ::= (Some (p, d'));;
        g_serviceRegistered ::= true
  | _, _ => mret ()
  end.

Definition createMissionObjects : M (env (Globals P Store) W) unit :=
  make_unique_if_null g_ipcStore (NewLocalPool IPC_STORE ipcCfg);;
  make_unique_if_null g_tcStore (NewLocalPool TC_STORE tcCfg);;
  make_unique_if_null g_tmStore (NewLocalPool TM_STORE tmCfg);;
  make_unique_if_null g_timeStamper (NewCdsShortTimeStamper TIME_STAMPER);;
  make_unique_if_null g_verificationReceiver
    (NewStubVerificationReceiver objectIdWebcamVerificationSink);;
  create_reporter;;
  make_unique_if_null g_telemetrySink (NewStubTelemetrySink objectIdWebcamTelemetrySink);;
  create_distributor;;
  make_unique_if_null g_webcamComIF (NewWebcamComIF objectIdWebcamComIF);;
  create_handler;;
  create_service;;
  register_service.
End Factory.

(** * main *)

Section Main.
Context `{FsfwConstants} {W P Queue Store TimeReader TC : Type} `{!EqDecision P}.
Context `{!StorageManagerIF W Store, !MessageQueueIF W Queue, !PusIF TC TimeReader}.
Context (host : byte_order).

Abbreviation main_send := (sendCommand (W:=W) (Queue:=Queue) (TC:=TC) (TimeReader:=TimeReader)
                             (Store:=Store) (Service:=P)).

Definition queue_commands : M (env (Distributor P Store) W) unit :=
  main_send (Subservice_raw COMMAND_SET_FRAME_RATE) (Some (bytes_of_double host double_24)) 8;;
  main_send (Subservice_raw COMMAND_GET_FRAME_RATE) None 0;;
  main_send (Subservice_raw PARAMETER_DUMP) None 0;;
  mret ().

(** [pusDistributor->...]: a computation on the object that the pointer points at. There
    is one distributor, that of the factory, and its state is kept with its pointer. *)
Definition on_distributor {A} (pusDistributor : P) (m : M (env (Distributor P Store) W) A)
    : M (env (Globals P Store) W) A := λ e,
  match g_pusDistributor (self e) with
  | Some (p, d) =>
      if decide (p = pusDistributor) then
        match m (Env d (console e) (world e)) with
        | Done (a, e') =>
            Done (a, Env ((self e) <| g_pusDistributor := Some (p, self e') |>) (console e') (world e'))
        | Undefined => Undefined
        | OutOfFuel => OutOfFuel
        end
      else Undefined
  | None => Undefined
  end.

(** The body of [while (true)], with the local variable [commandsQueued] before and after
    it. [activity] is what the tasks of the framework do during [sleep_for(1s)]. *)
Definition main_iteration (pusDistributor : option P) (activity : W → W) (commandsQueued : bool)
    : M (env (Globals P Store) W) bool :=
  commandsQueued ←
    (match commandsQueued, pusDistributor with
     | false, Some p => on_distributor p queue_commands;; mret true
     | _, _ => mret commandsQueued
     end);
  call_void activity;;
  mret commandsQueued.

(** The first iterations of the loop. *)
Fixpoint main_loop (pusDistributor : option P) (activities : list (W → W)) (commandsQueued : bool)
    : M (env (Globals P Store) W) bool :=
  match activities with
  | [] => mret commandsQueued
  | activity :: activities =>
      commandsQueued ← main_iteration pusDistributor activity commandsQueued;
      main_loop pusDistributor activities commandsQueued
  end.
End Main.

(** * Properties of the factory *)

Definition exists_ {A} (o : option A) : bool := match o with Some _ => true | None => false end.

(** Which of the objects exist, in the order of their creation, and whether the
    service is registered. *)
Definition slots {P Store} (g : Globals P Store) : list bool :=
  [exists_ (g_ipcStore g); exists_ (g_tcStore g);
   exists_ (g_tmStore g); exists_ (g_timeStamper g);
   exists_ (g_verificationReceiver g); exists_ (g_verificationReporter g);
   exists_ (g_telemetrySink g); exists_ (g_pusDistributor g);
   exists_ (g_webcamComIF g); exists_ (g_webcamHandler g);
   exists_ (g_webcamService g); g_serviceRegistered g].

(** The first [n] slots are filled. *)
Definition made {P Store} (n : nat) (g : Globals P Store) : Prop :=
  take n (slots g) = replicate n true.

Section FactoryProofs.
Context `{FsfwConstants} {W P Store TimeReader : Type}.
Context `{!MissionObjectsIF W P, !AcceptsTelecommandsIF W P, !ObjectManagerIF W Store TimeReader}.

Abbreviation factory_env := (env (Globals P Store) W).

(** A step of the factory fills the next slot. *)
Definition fills (n : nat) (m : M factory_env unit) : Prop :=
  ∀ e, made n (self e) → wp m e (λ _ e', made (S n) (self e')).

Ltac run_factory :=
  lazy beta iota zeta delta [fills make_unique_if_null create_reporter create_distributor
    create_handler create_service register_service registerService
    assign_member this update call call_void ask print self console world mbind M_bind
    mret M_ret set_field settable_eta wp Globals_settable Distributor_settable
    g_ipcStore g_tcStore g_tmStore g_timeStamper g_verificationReporter g_telemetrySink
    g_verificationReceiver g_pusDistributor g_webcamComIF g_webcamCookie g_webcamHandler
    g_webcamService g_serviceRegistered].

(** Closes the slot conditions that the hypothesis or the new object give. *)
Ltac solve_slots :=
  unfold made, slots in *; run_factory; cbn [take replicate g_ipcStore g_tcStore g_tmStore g_timeStamper
    g_verificationReporter g_telemetrySink g_verificationReceiver g_pusDistributor
    g_webcamComIF g_webcamCookie g_webcamHandler g_webcamService g_serviceRegistered self] in *;
  cbn [exists_] in *; congruence.

Lemma fills_unique n global `{!Setter global} object :
  (∀ g, made n g → is_Some (global g) → made (S n) g) →
  (∀ g p, made n g → made (S n) (g <| global := Some p |>)) →
  fills n (make_unique_if_null (W:=W) (Store:=Store) global object).
Proof.
  intros Hsome Hset e Hmade. unfold make_unique_if_null. apply wp_bind, wp_this.
  destruct (global (self e)) as [p|] eqn:Hg; [apply wp_ret; by apply Hsome|].
  apply wp_bind. destruct (construct object (world e)) as [p w'] eqn:Hc.
  apply (wp_call _ p w'); [done|]. apply wp_update. by apply Hset.
Qed.

Lemma fills_bind n (m1 m2 : M factory_env unit) Q e :
  fills n m1 → made n (self e) →
  (∀ e', made (S n) (self e') → wp m2 e' Q) → wp (m1;; m2) e Q.
Proof.
  intros H1 Hmade H2. apply wp_bind. eapply wp_mono; [by apply H1|]. auto.
Qed.

Ltac solve_unique :=
  apply fills_unique; [intros [] Hmade [p Hp]; simpl in Hp; subst|intros [] p Hmade]; solve_slots.

Lemma fills_ipcStore : fills 0 (make_unique_if_null g_ipcStore (NewLocalPool IPC_STORE ipcCfg)).
Proof. solve_unique. Qed.
Lemma fills_tcStore : fills 1 (make_unique_if_null g_tcStore (NewLocalPool TC_STORE tcCfg)).
Proof. solve_unique. Qed.
Lemma fills_tmStore : fills 2 (make_unique_if_null g_tmStore (NewLocalPool TM_STORE tmCfg)).
Proof. solve_unique. Qed.
Lemma fills_timeStamper :
  fills 3 (make_unique_if_null g_timeStamper (NewCdsShortTimeStamper TIME_STAMPER)).
Proof. solve_unique. Qed.
Lemma fills_receiver : fills 4 (make_unique_if_null g_verificationReceiver
  (NewStubVerificationReceiver objectIdWebcamVerificationSink)).
Proof. solve_unique. Qed.
Lemma fills_sink : fills 6 (make_unique_if_null g_telemetrySink
  (NewStubTelemetrySink objectIdWebcamTelemetrySink)).
Proof. solve_unique. Qed.
Lemma fills_comIF : fills 8 (make_unique_if_null g_webcamComIF (NewWebcamComIF objectIdWebcamComIF)).
Proof. solve_unique. Qed.

Lemma fills_reporter : fills 5 create_reporter.
Proof.
  intros [[ip tc tm ts [reporter|] ts' [receiver|] pd cif ck wh ws sr] c w] Hmade; run_factory;
    [solve_slots..| |]; destruct (construct _ w) as [p w']; run_factory; solve_slots.
Qed.

Lemma fills_distributor : fills 7 create_distributor.
Proof.
  intros [[ip tc tm ts vr ts' rc [[p d]|] cif ck wh ws sr] c w] Hmade; run_factory; [solve_slots|].
  destruct (construct _ w) as [p w']. run_factory. solve_slots.
Qed.

Lemma fills_handler : fills 9 create_handler.
Proof.
  intros [[ip tc tm ts vr ts' rc pd cif ck wh ws sr] c w] Hmade. unfold create_handler.
  destruct wh as [h|].
  - run_factory. rewrite decide_False by naive_solver. run_factory. solve_slots.
  - destruct ck as [k|]; run_factory.
    + rewrite decide_False by naive_solver. run_factory.
      destruct (construct _ w) as [p w']. run_factory. solve_slots.
    + rewrite decide_True by done. run_factory.
      destruct (construct _ w) as [k w1]. run_factory.
      destruct (construct _ w1) as [p w']. run_factory. solve_slots.
Qed.

Lemma fills_service : fills 10 create_service.
Proof.
  intros [[ip tc tm ts vr ts' rc pd cif ck wh [s|] sr] c w] Hmade; run_factory; [solve_slots|].
  destruct (construct _ w) as [p w']. run_factory. solve_slots.
Qed.

Lemma fills_registration : fills 11 register_service.
Proof.
  intros [[ip tc tm ts vr ts' rc [[p d]|] cif ck wh [s|] [|]] c w] Hmade; run_factory;
    try solve_slots; unfold made, slots in Hmade; simpl in Hmade; congruence.
Qed.

(** With everything made, the factory has nothing to do. *)
Lemma create_nothing (e : factory_env) : made 12 (self e) → createMissionObjects e = Done ((), e).
Proof.
  destruct e as [[ip tc tm ts vr ts' rc pd cif ck wh ws sr] c w].
  unfold made, slots. cbn. intros Hmade.
  repeat match type of Hmade with
    context [exists_ ?o] => destruct o; [cbn [exists_] in Hmade|discriminate Hmade]
  end.
  destruct sr; [|discriminate Hmade]. repeat match goal with p : _ * _ |- _ => destruct p end.
  unfold createMissionObjects, create_handler. run_factory.
  rewrite decide_False by naive_solver. by run_factory.
Qed.

Lemma create_all (e : factory_env) :
  wp createMissionObjects e (λ _ e', made 12 (self e')).
Proof.
  unfold createMissionObjects.
  eapply fills_bind; [apply fills_ipcStore|done|intros e1 H1].
  eapply fills_bind; [apply fills_tcStore|done|intros e2 H2].
  eapply fills_bind; [apply fills_tmStore|done|intros e3 H3].
  eapply fills_bind; [apply fills_timeStamper|done|intros e4 H4].
  eapply fills_bind; [apply fills_receiver|done|intros e5 H5].
  eapply fills_bind; [apply fills_reporter|done|intros e6 H6].
  eapply fills_bind; [apply fills_sink|done|intros e7 H7].
  eapply fills_bind; [apply fills_distributor|done|intros e8 H8].
  eapply fills_bind; [apply fills_comIF|done|intros e9 H9].
  eapply fills_bind; [apply fills_handler|done|intros e10 H10].
  eapply fills_bind; [apply fills_service|done|intros e11 H11].
  by apply fills_registration.
Qed.

(** (C25) Creating the mission objects is idempotent: from any state of the factory the
    call returns with every object made and the service registered, and calling it
    again constructs nothing, registers nothing and changes nothing, although the
    cookie's pointer is null again once the handler has taken the cookie over. *)
Theorem createMissionObjects_idempotent (e : factory_env) :
  wp createMissionObjects e (λ _ e',
    made 12 (self e') ∧ createMissionObjects e' = Done ((), e')).
Proof.
  eapply wp_mono; [apply create_all|]. intros u e' Hmade. split; [done|by apply create_nothing].
Qed.
End FactoryProofs.

(** * What the factory builds *)

(** The calls of the factory to the framework; a construction with the pointer it returned. *)
Inductive factory_call (P : Type) :=
| CallConstruct (object : mission_object P) (pointer : P)
| CallSetReceiver (reporter receiver : P)
| CallSetPacketSource (service : P) (id : object_id_t)
| CallSetPacketDestination (service : P) (id : object_id_t).
Arguments CallConstruct {_} _ _.
Arguments CallSetReceiver {_} _ _.
Arguments CallSetPacketSource {_} _ _.
Arguments CallSetPacketDestination {_} _ _.

Section Assembly.
Context `{FsfwConstants} {W P Store TimeReader : Type}.
Context `{!MissionObjectsIF W P, !AcceptsTelecommandsIF W P, !ObjectManagerIF W Store TimeReader}.

(** The call brings the framework from the first state to the second. *)
Definition performs (c : factory_call P) (w w' : W) : Prop :=
  match c with
  | CallConstruct o p => construct o w = (p, w')
  | CallSetReceiver reporter receiver => w' = setReceiver reporter receiver w
  | CallSetPacketSource service id => w' = setPacketSource service id w
  | CallSetPacketDestination service id => w' = setPacketDestination service id w
  end.

Fixpoint performs_all (cs : list (factory_call P)) (w w' : W) : Prop :=
  match cs with
  | [] => w' = w
  | c :: cs => ∃ w1, performs c w w1 ∧ performs_all cs w1 w'
  end.

(** Runs a step of the factory up to the next construction, and names its result. *)
Ltac run_factory :=
  lazy beta iota zeta delta [make_unique_if_null create_reporter create_distributor
    create_handler create_service register_service registerService StubPusDistributor
    assign_member this update call call_void ask self console world mbind M_bind
    mret M_ret set_field settable_eta Globals_settable Distributor_settable
    g_ipcStore g_tcStore g_tmStore g_timeStamper g_verificationReporter g_telemetrySink
    g_verificationReceiver g_pusDistributor g_webcamComIF g_webcamCookie g_webcamHandler
    g_webcamService g_serviceRegistered
    registeredService serviceRequestQueue registeredServiceId tcStore sequenceCounter apid].
Ltac run_construct :=
  run_factory; try rewrite decide_True by done;
  match goal with
  | |- context [construct ?o ?w] =>
      let p := fresh "p" in let w' := fresh "w" in destruct (construct o w) as [p w'] eqn:?
  end.
Ltac performs_them :=
  repeat match goal with |- performs_all (_ :: _) _ _ => eexists; split; [first [eassumption|exact eq_refl]|] end;
  exact eq_refl.

End Assembly.

(** * Properties of main *)

Section MainProofs.
Context `{FsfwConstants} {W P Queue Store TimeReader TC : Type} `{!EqDecision P}.
Context `{!StorageManagerIF W Store, !StorageView W Store, !StorageManagerLaws W Store}.
Context `{!MessageQueueIF W Queue, !PusIF TC TimeReader, !PusLaws TC TimeReader}.
Context (host : byte_order).

Abbreviation loop := (main_loop (W:=W) (P:=P) (Queue:=Queue) (Store:=Store)
                        (TimeReader:=TimeReader) (TC:=TC) host).

Definition boot_commands : list (Z * option (list byte) * Z) :=
  [(2, Some (bytes_of_double host double_24), 8); (3, None, 0); (4, None, 0)]%Z.

(** The code sends these commands, one after the other. *)
Lemma queue_commands_sends (e : env (Distributor P Store) W) :
  queue_commands (Queue:=Queue) (TC:=TC) host e
  = (send_all (Queue:=Queue) (TC:=TC) boot_commands;; mret ()) e.
Proof.
  unfold boot_commands. cbn [send_all]. unfold queue_commands, mbind, M_bind.
  repeat (destruct (sendCommand _ _ _ _) as [[??]| |]; [|done..]). done.
Qed.

Lemma queue_commands_run v st (e : env (Distributor P Store) W) :
  registeredService (self e) = Some v → tcStore (self e) = Some st →
  (0 ≤ sequenceCounter (self e) < 2 ^ 16)%Z →
  wp (queue_commands (Queue:=Queue) (TC:=TC) host) e (λ _ e',
    self e' = (self e) <| sequenceCounter := uint16 (sequenceCounter (self e) + 3) |>
    ∧ ∃ rvs, send_all (Queue:=Queue) (TC:=TC) boot_commands e = Done (rvs, e')).
Proof.
  intros Hv Hst Hk.
  assert (Forall (λ c, buffer_ok c.1.2 c.2) boot_commands) as Hall.
  { unfold boot_commands. repeat constructor. simpl. by rewrite length_bytes_of_double. }
  destruct (wp_inv _ _ _ (send_all_run (Queue:=Queue) (TC:=TC) boot_commands v st e Hv Hst Hk Hall))
    as (rvs & e' & Hrun & _ & Hself).
  unfold wp. rewrite queue_commands_sends. unfold mbind, M_bind. rewrite Hrun.
  split; [exact Hself|by exists rvs].
Qed.

Lemma queued_idle p activities queued (g : Globals P Store) c (w : W) :
  p = None ∨ queued = true →
  loop p activities queued (Env g c w) = Done (queued, Env g c (foldl (λ w f, f w) w activities)).
Proof.
  intros Hp. revert w. induction activities as [|f fs IH]; intros w; [done|].
  cbn [main_loop foldl]. destruct Hp as [-> | ->]; [destruct queued|]; apply IH.
Qed.

Lemma on_distributor_run {A} p (m : M (env (Distributor P Store) W) A) g d c (w : W) a e' :
  g_pusDistributor g = Some (p, d) → m (Env d c w) = Done (a, e') →
  on_distributor p m (Env g c w)
  = Done (a, Env (g <| g_pusDistributor := Some (p, self e') |>) (console e') (world e')).
Proof.
  intros Hg Hm. unfold on_distributor. cbn [self console world]. rewrite Hg.
  by rewrite decide_True, Hm.
Qed.

(** The first iteration of the loop sends the commands, the others nothing. *)
Lemma loop_run p f fs g d c (w : W) e' :
  g_pusDistributor g = Some (p, d) →
  queue_commands (Queue:=Queue) (TC:=TC) host (Env d c w) = Done ((), e') →
  loop (Some p) (f :: fs) false (Env g c w)
  = Done (true, Env (g <| g_pusDistributor := Some (p, self e') |>) (console e')
                  (foldl (λ w f, f w) (world e') (f :: fs))).
Proof.
  intros Hg Hq. cbn [main_loop foldl]. unfold main_iteration at 1, mbind, M_bind.
  rewrite (on_distributor_run p _ g d c w () e' Hg Hq). apply queued_idle. by right.
Qed.

(** However long [main] runs and whatever the other tasks do in between, the three
    commands at start-up are sent exactly once, in the first iteration: after any
    number of iterations the distributor has used up three sequence counts and the
    framework has otherwise seen only the tasks' activity. Without a distributor
    nothing is ever sent. *)
Theorem main_queues_commands_once (f : W → W) fs p g d c (w : W) :
  g_pusDistributor g = Some (p, d) →
  (∀ v st, registeredService d = Some v → tcStore d = Some st →
   (0 ≤ sequenceCounter d < 2 ^ 16)%Z →
   ∃ e', queue_commands (Queue:=Queue) (TC:=TC) host (Env d c w) = Done ((), e')
     ∧ self e' = d <| sequenceCounter := uint16 (sequenceCounter d + 3) |>
     ∧ loop (Some p) (f :: fs) false (Env g c w)
       = Done (true, Env (g <| g_pusDistributor := Some (p, self e') |>) (console e')
                       (foldl (λ w f, f w) (world e') (f :: fs))))
  ∧ loop None (f :: fs) false (Env g c w)
    = Done (false, Env g c (foldl (λ w f, f w) w (f :: fs))).
Proof.
  intros Hg. split; [|by apply queued_idle; left].
  intros v st Hv Hst Hk.
  destruct (wp_inv _ _ _ (queue_commands_run v st (Env d c w) Hv Hst Hk)) as ([] & e' & Hrun & Hself & _).
  exists e'. split_and!; [done|done|by apply (loop_run p f fs g d)].
Qed.
End MainProofs.

Theorem main_queues_commands_once_witness :
  let g := no_globals <| g_pusDistributor := Some (1%Z, self example_distributor) |> in
  ∃ e', queue_commands (Queue:=Z) (TC:=tc_params) LittleEndian example_distributor = Done ((), e')
    ∧ main_loop (Queue:=Z) (TC:=tc_params) LittleEndian (Some 1%Z) [id; id] false (Env g [] model_init)
      = Done (true, Env (g <| g_pusDistributor := Some (1%Z, self e') |>) (console e') (world e')).
Proof.
  set (g := no_globals <| g_pusDistributor := Some (1%Z, self example_distributor) |>).
  assert (g_pusDistributor g = Some (1%Z, self example_distributor)) as Hg by reflexivity.
  assert (0 ≤ sequenceCounter (self example_distributor) < 2 ^ 16)%Z as Hk by by vm_compute.
  destruct (proj1 (main_queues_commands_once (Queue:=Z) (TC:=tc_params) LittleEndian id [id] 1%Z g
    (self example_distributor) [] model_init Hg) 7%Z 11%Z eq_refl eq_refl Hk)
    as (e' & Hrun & _ & Hloop).
  exists e'. split; [exact Hrun|exact Hloop].
Defined.
