(* ===== verification/StartUp.v ===== *)
(** The three telecommands that [main.cpp] sends at start-up - set the frame rate to 24,
    query it, dump the parameter - on their way through the service and the handler. *)

From S2P Require Import Prelude Words Fsfw FsfwModel WebcamDefinitions MessageTypes.
From S2P Require Import WebcamDeviceHandler CommandArbiter HandlerRefinement DeviceCycles.
From S2P Require Import WebcamCommandingService CommandingProperties EndToEnd.
From S2P Require Import CommandPath CommandPathSteps CommandPathProperties Mission.

Section StartUp.
Context `{FsfwConstantsLaws} {W Store TimeReader Msg PW : Type}.
Context `{CommandMessageLaws Msg, !StorageManagerIF W Store, !StorageView W Store}.
Context `{!StorageManagerLaws W Store, !CommandingServiceBaseIF W Store}.
Context `{!ObjectManagerIF W Store TimeReader}.
Context `{!ParameterWrapperIF PW, !DeviceHandlerBaseIF W Msg PW, !ActionHelperIF Handler W Msg}.
Context `{!DeviceHandlerBaseLaws W Msg PW Store}.
Context (host : byte_order) (ipc : Store) `{!ActionHelperLaws host ipc}.
Context (telemetry_kept : telemetry_preserves (W:=W) ipc).

Abbreviation link_env := (env (Link Store Msg) W).
Abbreviation calls := (link_call W Msg PW).
Abbreviation handler_of e := (sys_handler (link_system (self e))).

(** The telecommands of a run with their results. *)
Definition telecommands (trace : list (calls * answer))
    : list ((Z * option (list byte) * Z) * ReturnValue_t) :=
  omap (λ call, match call with
                | (Telecommand _ subservice data len, Result rv) => Some ((subservice, data, len), rv)
                | _ => None
                end) trace.

Definition accepted_of (tc : (Z * option (list byte) * Z) * ReturnValue_t) : option (Z * option double) :=
  let '((subservice, data, len), rv) := tc in
  if decide (rv = OK) then
    command ← subservice_command subservice;
    Some (CommandId_raw command, telecommand_rate host command data)
  else None.

Lemma accepted_telecommands (trace : list (calls * answer)) :
  accepted host trace = omap accepted_of (telecommands trace).
Proof.
  induction trace as [|[c a] trace IH]; [done|].
  unfold accepted, telecommands in *.
  destruct c, a; cbn [omap list_omap fst snd accepted_command accepted_of]; try exact IH.
  case_decide; [|exact IH].
  destruct (subservice_command subservice); cbn; [by f_equal|exact IH].
Qed.

(** What is accepted of the first commands of [main]. *)
Lemma accepted_at_startup tcs : tcs.*1 `prefix_of` boot_commands host →
  let set := (2%Z, Some double_24) in
  let query := (3%Z, telecommand_rate host commandGetFrameRate None) in
  let accepted := omap accepted_of tcs in
  accepted = [] ∨ accepted = [set] ∨ accepted = [query] ∨ accepted = [set; query].
Proof.
  intros Hpre set query accepted. unfold accepted, set, query. clear accepted set query. unfold boot_commands in Hpre.
  assert (telecommand_rate host commandSetFrameRate (Some (bytes_of_double host double_24))
          = Some double_24) as Hrate by by apply telecommand_rate_bytes.
  destruct tcs as [|[tc1 r1] tcs]; [by left|]. rewrite fmap_cons in Hpre.
  apply prefix_cons_inv_1 in Hpre as Htc1. apply prefix_cons_inv_2 in Hpre. simpl in Htc1. subst tc1.
  destruct tcs as [|[tc2 r2] tcs].
  { cbn -[telecommand_rate]. rewrite Hrate. case_decide; cbn -[telecommand_rate]; auto. }
  rewrite fmap_cons in Hpre.
  apply prefix_cons_inv_1 in Hpre as Htc2. apply prefix_cons_inv_2 in Hpre. simpl in Htc2. subst tc2.
  destruct tcs as [|[tc3 r3] tcs].
  { cbn -[telecommand_rate]. rewrite Hrate. repeat case_decide; cbn -[telecommand_rate]; auto. }
  rewrite fmap_cons in Hpre.
  apply prefix_cons_inv_1 in Hpre as Htc3. apply prefix_cons_inv_2 in Hpre. simpl in Htc3. subst tc3.
  apply prefix_nil_inv in Hpre. destruct tcs; [|done].
  cbn -[telecommand_rate]. rewrite Hrate. repeat case_decide; cbn -[telecommand_rate]; auto.
Qed.

(** The frame rate that [main] commands is the one the device reports. In every run of
    a new handler in which the telecommands so far are the first of those of [main],
    whatever their results, and in which rates come from telecommands alone, when a poll
    issues the get-frame-rate command the current frame rate is 24, if the set-frame-rate
    command was accepted; otherwise it is still 0. *)
Theorem startup_rate_reported base e0 (trace : list (calls * answer)) e :
  handler_of e0 = WebcamDeviceHandler base → idle ipc e0 →
  link_run host ipc e0 (trace ++ [(HandlerCall EvPoll, Outputs [Issued 3%Z])]) e →
  Forall commanded_only trace → (telecommands trace).*1 `prefix_of` boot_commands host →
  currentFrameRate (handler_of e)
  = if decide (2%Z ∈ (accepted host trace).*1) then double_24 else double_zero.
Proof.
  intros Hnew Hidle Hrun Hall Hpre.
  destruct (served_rate host ipc telemetry_kept base e0 trace e 3 Hnew Hidle Hrun Hall)
    as (Hd & Hin & ->); [done|].
  pose proof (accepted_at_startup _ Hpre) as Hacc. rewrite <- accepted_telecommands in Hacc.
  clear Hd. revert Hin Hacc. generalize (deliveries trace) (accepted host trace).
  intros n acc Hin Hacc. cbv zeta in Hacc.
  destruct Hacc as [-> | [-> | [-> | ->]]], n as [|[|n]]; rewrite ?take_nil in *;
    cbn -[telecommand_rate] in Hin |- *; rewrite ?elem_of_cons, ?elem_of_nil in Hin; try tauto.
  all: try (exfalso; naive_solver lia).
  by rewrite take_nil.
Qed.
End StartUp.

Theorem startup_rate_reported_witness : ∃ e,
  link_run LittleEndian 10%Z start_link
    (zip startup_calls startup_answers ++ [(HandlerCall EvPoll, Outputs [Issued 3%Z])]) e
  ∧ currentFrameRate (sys_handler (link_system (self e))) = double_24.
Proof.
  destruct (startup_ends (startup_calls ++ [HandlerCall EvPoll]) (startup_answers ++ [Outputs [Issued 3%Z]]))
    as (e & _ & Hrun).
  { vm_compute. split_and!; by intuition congruence. }
  { by vm_compute. }
  exists e. split; [exact Hrun|].
  pose proof (startup_rate_reported LittleEndian 10%Z (model_telemetry_preserves 10%Z)
    {| base_communicationInterface := Some objectIdWebcamComIF;
       base_rawPacket := None; base_rawPacketLen := 0 |}
    start_link (zip startup_calls startup_answers) e eq_refl start_idle Hrun) as Hrate.
  rewrite Hrate; [by vm_compute|by repeat constructor|]. by exists [].
Defined.
