(* ===== verification/Telecommanding.v ===== *)
(** The whole way of telecommands, from [sendCommand] of [mission/tmtc/TmtcInfrastructure.cpp]
    to the frame rate of the device: the distributor, the service and the handler over one
    framework. A run interleaves the calls of [Uplink] and of [CommandPath]; it is a run of
    either when looked at from there, so what is known of the two holds together. *)

From S2P Require Import Prelude Words Fsfw FsfwModel WebcamDefinitions MessageTypes.
From S2P Require Import WebcamDeviceHandler CommandArbiter HandlerRefinement DeviceCycles.
From S2P Require Import WebcamCommandingService CommandingProperties.
From S2P Require Import TmtcInfrastructure TmtcProperties Uplink.
From S2P Require Import EndToEnd CommandPath CommandPathSteps CommandPathProperties Mission StartUp.

(** * The distributor, the service and the handler, with the handler's message queue *)

Record Chain (V Store Msg : Type) := mkChain {
  chain_distributor : Distributor V Store;
  chain_link : Link Store Msg;
}.
Arguments mkChain {_ _ _} _ _.
Arguments chain_distributor {_ _ _} _.
Arguments chain_link {_ _ _} _.

(** What is seen of a run: a call of [sendCommand]; the service handling a packet with
    [prepareCommand], for the subservice and the data in it; the service rejecting one,
    because of its contents or because it is busy; any other call of [CommandPath]. *)
Inductive chain_event (W Msg PW : Type) :=
| Send (subservice : Z) (data : option (list byte)) (dataLen : Z) (rv : ReturnValue_t)
| Handled (m : Msg) (subservice : Z) (data : list byte) (rv : ReturnValue_t)
| Rejected (bytes : list byte)
| Call (c : link_call W Msg PW) (a : answer).
Arguments Send {_ _ _} _ _ _ _.
Arguments Handled {_ _ _} _ _ _ _.
Arguments Rejected {_ _ _} _.
Arguments Call {_ _ _} _ _.

Section Chain.
Context `{FsfwConstantsLaws} {W Queue Store TimeReader TC V Msg PW : Type}.
Context `{!StorageManagerIF W Store, !StorageView W Store, !StorageManagerLaws W Store}.
Context `{!StoreSeparation W Store}.
Context `{!MessageQueueIF W Queue, !QueueView W Queue, !MessageQueueLaws W Queue Store}.
Context `{!StoreQueueLaws W Queue Store, !PusIF TC TimeReader, !PusLaws TC TimeReader}.
Context `{!PusTcReaderIF, !PusTcReaderLaws TC TimeReader}.
Context `{CommandMessageLaws Msg, !CommandingServiceBaseIF W Store}.
Context `{!ObjectManagerIF W Store TimeReader}.
Context `{!ParameterWrapperIF PW, !DeviceHandlerBaseIF W Msg PW, !ActionHelperIF Handler W Msg}.
Context `{!DeviceHandlerBaseLaws W Msg PW Store}.
Context (host : byte_order) (queue : Queue) (tc ipc : Store).
Context `{!ActionHelperLaws host ipc} (telemetry_kept : telemetry_preserves (W:=W) ipc).
Context (stores_differ : tc ≠ ipc).

Abbreviation chain_env := (env (Chain V Store Msg) W).
Abbreviation event := (chain_event W Msg PW).
Abbreviation calls := (link_call W Msg PW).
Abbreviation send := (sendCommand (W:=W) (Queue:=Queue) (TC:=TC) (TimeReader:=TimeReader)
                        (Store:=Store) (Service:=V)).
Abbreviation uplink_run := (uplink_run (TC:=TC) (TimeReader:=TimeReader) (Service:=V) queue tc).

(** The system as either end sees it. *)
Definition at_distributor (e : chain_env) : env (Distributor V Store) W :=
  Env (chain_distributor (self e)) (console e) (world e).
Definition at_link (e : chain_env) : env (Link Store Msg) W :=
  Env (chain_link (self e)) (console e) (world e).
Abbreviation handler_of e := (sys_handler (link_system (chain_link (self e)))).

(** The service's request queue and the TC store are as they were. *)
Definition uplink_kept (w w' : W) : Prop :=
  tm_messages w' queue = tm_messages w queue ∧ contents w' tc = contents w tc.

Inductive chain_step : chain_env → event → chain_env → Prop :=
| chain_send subservice data dataLen rv e e1 :
    (0 ≤ subservice < 256)%Z → buffer_ok data dataLen →
    send subservice data dataLen (at_distributor e) = Done (rv, e1) →
    chain_step e (Send subservice data dataLen rv)
      (Env (mkChain (self e1) (chain_link (self e))) (console e1) (world e1))
| chain_handled a rest bytes m subservice data rv e w1 e2 w3 :
    (* the base class takes the packet out of the queue and reads it *)
    tm_messages (world e) queue = a :: rest → contents (world e) tc !! a = Some bytes →
    read_telecommand bytes = Some (subservice, data) →
    tm_messages w1 queue = rest → contents w1 tc = contents (world e) tc →
    contents w1 ipc = contents (world e) ipc →
    link_step host (Telecommand m subservice (Some data) (Z.of_nat (length data)))
      (Env (chain_link (self e)) (console e) w1) = Done (Result rv, e2) →
    (* it releases the packet *)
    tm_messages w3 queue = tm_messages (world e2) queue →
    contents w3 tc = delete a (contents (world e2) tc) →
    contents w3 ipc = contents (world e2) ipc →
    chain_step e (Handled m subservice data rv)
      (Env (mkChain (chain_distributor (self e)) (self e2)) (console e2) w3)
| chain_rejected a rest bytes e w' :
    tm_messages (world e) queue = a :: rest → contents (world e) tc !! a = Some bytes →
    tm_messages w' queue = rest → contents w' tc = delete a (contents (world e) tc) →
    contents w' ipc = contents (world e) ipc →
    chain_step e (Rejected bytes) (Env (self e) (console e) w')
| chain_call c a e e2 :
    (if c is Telecommand _ _ _ _ then False else True) → call_ok ipc c (at_link e) →
    link_step host c (at_link e) = Done (a, e2) → uplink_kept (world e) (world e2) →
    chain_step e (Call c a)
      (Env (mkChain (chain_distributor (self e)) (self e2)) (console e2) (world e2)).

Inductive chain_run (e0 : chain_env) : list event → chain_env → Prop :=
| chain_start : chain_run e0 [] e0
| chain_next trace e ev e' :
    chain_run e0 trace e → chain_step e ev e' → chain_run e0 (trace ++ [ev]) e'.

(** Before the first command. *)
Definition chain_ready (e : chain_env) : Prop :=
  uplink_ready queue tc (at_distributor e) ∧ idle ipc (at_link e).

(** ** What is read off a run *)

(** The subservice and application data of the commands sent with success, of all the
    packets the service has taken, of those waiting, and of those that were accepted as
    device commands. *)
Definition sent_commands (trace : list event) : list (Z * list byte) :=
  omap (λ ev, match ev with
              | Send subservice data dataLen rv =>
                  if decide (rv = OK) then Some (subservice, default [] (app_data data dataLen)) else None
              | _ => None
              end) trace.
Definition taken_commands (trace : list event) : list (option (Z * list byte)) :=
  omap (λ ev, match ev with
              | Handled _ subservice data _ => Some (Some (subservice, data))
              | Rejected bytes => Some (read_telecommand bytes)
              | _ => None
              end) trace.
Definition waiting_commands (w : W) : list (option (Z * list byte)) :=
  (λ a, bytes ← contents w tc !! a; read_telecommand bytes) <$> tm_messages w queue.
Definition accepted_commands (trace : list event) : list (Z * list byte) :=
  omap (λ ev, match ev with
              | Handled _ subservice data rv =>
                  if decide (rv = OK ∧ is_Some (subservice_command subservice))
                  then Some (subservice, data) else None
              | _ => None
              end) trace.

(** What a device command asks of the handler. *)
Definition device_request (command : Z * list byte) : option (Z * option double) :=
  c ← subservice_command command.1; Some (CommandId_raw c, telecommand_rate host c (Some command.2)).

(** The service has accepted every packet it took. *)
Definition packet_accepted (ev : event) : Prop :=
  match ev with Rejected _ => False | Handled _ _ _ rv => rv = OK | _ => True end.

(** The calls of [CommandPath] among the events. *)
Definition link_trace (trace : list event) : list (calls * answer) :=
  omap (λ ev, match ev with
              | Handled m subservice data rv =>
                  Some (Telecommand m subservice (Some data) (Z.of_nat (length data)), Result rv)
              | Call c a => Some (c, a)
              | _ => None
              end) trace.
End Chain.
