(* ===== verification/TelecommandingProperties.v ===== *)
(** What holds of telecommands on their whole way ([Telecommanding]): they are handled in
    the order in which they were sent, with the data they were sent with, and the frame
    rate of the device is the one sent last. *)

From S2P Require Import Prelude Words Fsfw FsfwModel WebcamDefinitions MessageTypes.
From S2P Require Import WebcamDeviceHandler CommandArbiter HandlerRefinement DeviceCycles.
From S2P Require Import WebcamCommandingService CommandingProperties.
From S2P Require Import TmtcInfrastructure TmtcProperties Uplink.
From S2P Require Import EndToEnd CommandPath CommandPathSteps CommandPathProperties Mission StartUp.
From S2P Require Import Telecommanding.

Section ChainProofs.
Context `{FsfwConstantsLaws} {W Queue Store TimeReader TC V Msg PW : Type}.
Context `{!StorageManagerIF W Store, !StorageView W Store, !StorageManagerLaws W Store}.
Context `{!StoreSeparation W Store}.
Context `{!MessageQueueIF W Queue, !QueueView W Queue, !MessageQueueLaws W Queue Store}.
Context `{!StoreQueueLaws W Queue Store, !PusIF TC TimeReader, !PusLaws TC TimeReader}.
Context `{!PusTcReaderIF, !PusTcReaderLaws TC TimeReader}.
Context `{CommandMessageLaws Msg, !CommandingServiceBaseIF W Store}.
Context `{!ObjectManagerIF W Store TimeReader}.
Context `{!ParameterWrapperIF PW, !DeviceHandlerBaseIF W Msg PW, !ActionHelperIF Handler W Msg}.
Context `{!DeviceHandlerBaseLaws W Msg PW Store}.
Context (host : byte_order) (queue : Queue) (tc ipc : Store).
Context `{!ActionHelperLaws host ipc} (telemetry_kept : telemetry_preserves (W:=W) ipc).
Context (stores_differ : tc ≠ ipc).

Abbreviation chain_env := (env (Chain V Store Msg) W).
Abbreviation event := (chain_event W Msg PW).
Abbreviation calls := (link_call W Msg PW).
Abbreviation send := (sendCommand (W:=W) (Queue:=Queue) (TC:=TC) (TimeReader:=TimeReader)
                        (Store:=Store) (Service:=V)).
Abbreviation uplink_run := (uplink_run (TC:=TC) (TimeReader:=TimeReader) (Service:=V) queue tc).
Abbreviation chain_step := (chain_step (TC:=TC) (TimeReader:=TimeReader) (V:=V) (Msg:=Msg) (PW:=PW)
                              host queue tc ipc).
Abbreviation chain_run := (chain_run (TC:=TC) (TimeReader:=TimeReader) (V:=V) (Msg:=Msg) (PW:=PW)
                             host queue tc ipc).
Abbreviation chain_ready := (chain_ready (V:=V) (Msg:=Msg) queue tc ipc).
Abbreviation handler_of e := (sys_handler (link_system (chain_link (self e)))).

(** ** What the two ends do to each other's stores *)

(** [sendCommand] leaves the console and the IPC store alone. *)
Lemma send_elsewhere subservice data dataLen (e : env (Distributor V Store) W) :
  is_Some (registeredService (self e)) → tcStore (self e) = Some tc → buffer_ok data dataLen →
  wp (send subservice data dataLen) e (λ rv e',
    console e' = console e ∧ contents (world e') ipc = contents (world e) ipc
    ∧ (rv = OK → let packet := command_packet (TC:=TC) (self e) subservice data dataLen in
         (serializeBe packet (getSerializedSize packet)).1 = OK)).
Proof.
  intros [v Hv] Hst Hbuf. eapply wp_mono; [by eapply sendCommand_run|].
  intros rv e' (_ & Hcons & Hcase). split; [done|]. cbv zeta in Hcase.
  set (packet := command_packet (TC:=TC) (self e) subservice data dataLen) in *.
  pose proof (getFreeElement_elsewhere tc ipc (getSerializedSize packet) (world e)) as Hc1.
  destruct (getFreeElement tc (getSerializedSize packet) (world e)) as [[got a] w1].
  specialize (Hc1 (not_eq_sym stores_differ)). simpl in Hc1. case_decide as Hgot.
  2: { destruct Hcase as (-> & _ & ->). by split. }
  destruct Hcase as [_ Hcase]. cbv zeta.
  destruct (serializeBe packet (getSerializedSize packet)) as [ser bytes].
  pose proof (fillElement_elsewhere tc ipc a bytes w1 (not_eq_sym stores_differ)) as Hc2.
  case_decide as Hser.
  - destruct Hcase as (_ & _ & Hsend). split; [|done].
    pose proof (send_TmTc_stores (serviceRequestQueue (self e)) a (fillElement tc a bytes w1) ipc) as Hc3.
    assert (send_TmTcMessage (serviceRequestQueue (self e)) a (fillElement tc a bytes w1)
            = (rv, world e')) as Heq by (rewrite Hsend; by destruct (self e)).
    rewrite Heq in Hc3. simpl in Hc3. congruence.
  - destruct Hcase as (-> & _ & ->). split; [|done].
    rewrite deleteData_elsewhere by auto. congruence.
Qed.

(** [prepareCommand] leaves the TC store and the queues alone. *)
Lemma prepare_store_elsewhere (m : Msg) command buffer n (e : env (Service Store) W) :
  ipcStore (self e) = Some ipc →
  wp (prepareDeviceCommand_store (Some m) command buffer n) e (λ _ e',
    uplink_kept queue tc (world e) (world e')).
Proof.
  destruct e as [[s] c w]. simpl. intros ->. unfold prepareDeviceCommand_store, uplink_kept. run_service.
  pose proof (getFreeElement_elsewhere ipc tc (Z.of_nat n) w stores_differ) as Hc1.
  pose proof (getFreeElement_queues ipc (Z.of_nat n) w queue) as Hq1.
  destruct (getFreeElement ipc (Z.of_nat n) w) as [[rv a] w']. simpl in *.
  destruct (decide (rv = OK)) as [-> | Hrv]; eval_tests; run_service; [|done].
  case_decide; run_service; [|done].
  by rewrite fillElement_queues, fillElement_elsewhere.
Qed.

Lemma prepareCommand_elsewhere (m : Msg) s tcData tcDataLen (e : env (Service Store) W) :
  ipcStore (self e) = Some ipc → valid_tc_data tcData tcDataLen →
  wp (prepareCommand (Some m) s tcData tcDataLen) e (λ _ e',
    uplink_kept queue tc (world e) (world e')).
Proof.
  intros Hipc Hbuf. destruct (subservice_command s) as [c|] eqn:Hs.
  2: { eapply wp_mono; [by apply (prepareCommand_rest host ipc)|]. by intros r e' [-> _]. }
  rewrite (prepareCommand_device m s c) by done. unfold prepareDeviceCommand.
  repeat case_decide; try (by apply wp_ret); try (by apply prepare_store_elsewhere).
  destruct tcData as [bs|]; [|naive_solver]. apply wp_bind, (wp_read_prefix _ bs); [done| |].
  - simpl in Hbuf. destruct (decide (tcDataLen = Z.of_nat sizeof_double)); [lia|]. naive_solver.
  - by apply prepare_store_elsewhere.
Qed.

Lemma telecommand_elsewhere (m : Msg) s data (e : env (Link Store Msg) W) :
  ipcStore (sys_service (link_system (self e))) = Some ipc →
  wp (link_step (PW:=PW) host (Telecommand m s (Some data) (Z.of_nat (length data)))) e (λ _ e',
    uplink_kept queue tc (world e) (world e')).
Proof.
  intros Hipc. cbn [link_step]. apply wp_bind, wp_on_system, wp_on_service.
  eapply wp_mono; [by apply prepareCommand_elsewhere|].
  intros [r message] e' Hkept. apply wp_bind, wp_this, wp_bind.
  case_decide; [apply wp_update|apply wp_ret]; by apply wp_ret.
Qed.

(** ** A run is one of either end *)

(** The packet of a command reads back as its subservice and data. *)
Lemma packet_read (d : Distributor V Store) subservice data dataLen :
  (0 ≤ subservice < 256)%Z →
  let packet := command_packet (TC:=TC) d subservice data dataLen in
  (serializeBe packet (getSerializedSize packet)).1 = OK →
  read_telecommand (packet_bytes packet) = Some (subservice, default [] (app_data data dataLen)).
Proof.
  intros Hs packet Hok.
  pose proof (read_serialized {| tc_apid := apid d; tc_sequenceCount := sequenceCounter d;
    tc_service := registeredServiceId d; tc_subservice := subservice;
    tc_appData := app_data data dataLen |} Hs) as Hread.
  cbv zeta in Hread. unfold packet_bytes. fold (command_packet d subservice data dataLen) in Hread.
  fold packet in Hread. destruct (serializeBe packet (getSerializedSize packet)). by apply Hread.
Qed.

(** Runs of [CommandPath] that differ in the framework's activity alone. *)
Record link_view (lt lt' : list (calls * answer)) : Prop := {
  view_accepted : accepted host lt = accepted host lt';
  view_deliveries : deliveries lt = deliveries lt';
  view_commanded : Forall commanded_only lt' → Forall commanded_only lt;
}.

Lemma link_view_snoc lt lt' call : link_view lt lt' → link_view (lt ++ [call]) (lt' ++ [call]).
Proof.
  intros [Ha Hd Hc]. split.
  - by rewrite !accepted_snoc, Ha.
  - by rewrite !deliveries_snoc, Hd.
  - rewrite !list_relations.list.Forall_app. naive_solver.
Qed.

Lemma link_view_framework lt lt' f : link_view lt lt' →
  link_view (lt ++ [(Framework f, NoAnswer)]) lt'.
Proof.
  intros [Ha Hd Hc]. split.
  - by rewrite accepted_snoc, Ha, app_nil_r.
  - rewrite deliveries_snoc, Hd. simpl. lia.
  - rewrite list_relations.list.Forall_app. intros Hall. split; [by apply Hc|by repeat constructor].
Qed.

(** Activity that leaves the IPC store alone. *)
Lemma link_run_framework l0 lt l c (w w' : W) :
  link_run host ipc l0 (lt : list (calls * answer)) (Env l c w) →
  contents w' ipc = contents w ipc →
  link_run host ipc l0 (lt ++ [(Framework (λ _, w'), NoAnswer)]) (Env l c w').
Proof.
  intros Hrun Hc. eapply run_call; [exact Hrun| |done]. intros a _. simpl. by rewrite Hc.
Qed.

(** What a run is to either end. *)
Record projected (e0 : chain_env) (trace : list event) (e : chain_env)
    (ut : list (uplink_event TC)) (lt : list (calls * answer)) : Prop := {
  to_uplink : uplink_run (at_distributor e0) ut (at_distributor e);
  to_link : link_run host ipc (at_link e0) lt (at_link e);
  to_sent : read_telecommand <$> sent ut = Some <$> sent_commands trace;
  to_taken : read_telecommand <$> taken ut = taken_commands trace;
  to_view : link_view lt (link_trace trace);
}.

Lemma sent_commands_snoc (trace : list event) ev :
  sent_commands (trace ++ [ev]) = sent_commands trace ++ sent_commands [ev].
Proof. apply omap_app. Qed.
Lemma taken_commands_snoc (trace : list event) ev :
  taken_commands (trace ++ [ev]) = taken_commands trace ++ taken_commands [ev].
Proof. apply omap_app. Qed.
Lemma link_trace_snoc (trace : list event) ev :
  link_trace (trace ++ [ev]) = link_trace trace ++ link_trace [ev].
Proof. apply omap_app. Qed.

(** A step that takes a packet, or none, and sends none. *)
Lemma projected_uplink e0 trace e ut lt ev e' uev :
  projected e0 trace e ut lt →
  uplink_step (TC:=TC) (TimeReader:=TimeReader) queue tc (at_distributor e) uev (at_distributor e') →
  sent [uev] = [] → sent_commands [ev] = [] → read_telecommand <$> taken [uev] = taken_commands [ev] →
  ∀ lt', link_run host ipc (at_link e0) lt' (at_link e') → link_view lt' (link_trace (trace ++ [ev])) →
  projected e0 (trace ++ [ev]) e' (ut ++ [uev]) lt'.
Proof.
  intros [Hu Hl Hs Ht Hv] Hstep Hs1 Hs2 Ht1 lt' Hl' Hv'. split; [by econstructor|done| | |done].
  - unfold sent in *. rewrite omap_app, Hs1, sent_commands_snoc, Hs2, !app_nil_r. exact Hs.
  - unfold taken in *. by rewrite omap_app, fmap_app, Ht, Ht1, taken_commands_snoc.
Qed.

Lemma projected_send e0 trace e ut lt subservice data dataLen rv e1 :
  chain_ready e0 → projected e0 trace e ut lt → (0 ≤ subservice < 256)%Z → buffer_ok data dataLen →
  send subservice data dataLen (at_distributor e) = Done (rv, e1) →
  ∃ ut' lt', projected e0 (trace ++ [Send subservice data dataLen rv])
    (Env (mkChain (self e1) (chain_link (self e))) (console e1) (world e1)) ut' lt'.
Proof.
  intros [Hready _] [Hu Hl Hs Ht Hv] Hsub Hbuf Hrun.
  destruct (uplink_run_inv _ _ _ _ _ Hready Hu) as [lost [Hreg Hst _ _ _ _]].
  pose proof (send_elsewhere subservice data dataLen (at_distributor e) Hreg Hst Hbuf) as Helse.
  unfold wp in Helse. rewrite Hrun in Helse. destruct Helse as (Hcons & Hipc & Hser).
  eexists (ut ++ [_]), (lt ++ [(Framework (λ _, world e1), NoAnswer)]). split.
  - econstructor; [exact Hu|]. destruct e1. by eapply step_send.
  - unfold at_link. cbn [self console world chain_link]. rewrite Hcons.
    eapply link_run_framework; [exact Hl|done].
  - unfold sent in *. rewrite omap_app, fmap_app, Hs, sent_commands_snoc, fmap_app. f_equal. simpl.
    case_decide as Hrv; simpl; [|done]. by rewrite packet_read by auto.
  - unfold taken in *. rewrite omap_app, fmap_app, Ht, taken_commands_snoc. f_equal. by case_decide.
  - rewrite link_trace_snoc, app_nil_r. by apply link_view_framework.
Qed.

Lemma projected_handled e0 trace e ut lt a rest bytes m subservice data rv w1 e2 w3 :
  chain_ready e0 → projected e0 trace e ut lt →
  tm_messages (world e) queue = a :: rest → contents (world e) tc !! a = Some bytes →
  read_telecommand bytes = Some (subservice, data) →
  tm_messages w1 queue = rest → contents w1 tc = contents (world e) tc →
  contents w1 ipc = contents (world e) ipc →
  link_step host (Telecommand m subservice (Some data) (Z.of_nat (length data)) : calls)
    (Env (chain_link (self e)) (console e) w1) = Done (Result rv, e2) →
  tm_messages w3 queue = tm_messages (world e2) queue →
  contents w3 tc = delete a (contents (world e2) tc) → contents w3 ipc = contents (world e2) ipc →
  ∃ ut' lt', projected e0 (trace ++ [Handled m subservice data rv])
    (Env (mkChain (chain_distributor (self e)) (self e2)) (console e2) w3) ut' lt'.
Proof.
  intros [_ Hidle] Hp Hq Ha Hread Hq1 Hc1 Hi1 Hstep Hq3 Hc3 Hi3. pose proof Hp as [_ Hl _ _ Hv].
  pose proof (link_run_framework _ _ _ _ _ w1 Hl Hi1) as Hl1.
  destruct (run_related host ipc telemetry_kept _ _ _ Hidle Hl1) as (s & _ & Hrel).
  pose proof (telecommand_elsewhere m subservice data (Env (chain_link (self e)) (console e) w1)
    (rel_ipc _ _ _ _ Hrel)) as Hkept.
  unfold wp in Hkept. rewrite Hstep in Hkept. destruct Hkept as [Hq2 Hc2]. cbn [world] in Hq2, Hc2.
  set (c := Telecommand m subservice (Some data) (Z.of_nat (length data)) : calls) in *.
  assert (call_ok ipc c (Env (chain_link (self e)) (console e) w1)) as Hok
    by (split; [by eapply read_telecommand_byte|done]).
  pose proof (run_call host ipc _ _ _ _ _ _ Hl1 Hok Hstep) as Hl2.
  destruct e2 as [l2 c2 w2]. cbn [self console world] in *.
  pose proof (link_run_framework _ _ _ _ _ w3 Hl2 Hi3) as Hl3.
  eexists _, _. eapply (projected_uplink _ _ _ _ _ _ _ (Taken bytes)); [exact Hp| |done|done| |exact Hl3|].
  - apply (step_take queue tc a (tm_messages w3 queue)); cbn [world at_distributor]; congruence.
  - simpl. by rewrite Hread.
  - rewrite link_trace_snoc. by apply link_view_framework, link_view_snoc, link_view_framework.
Qed.

Lemma chain_projects e0 trace e : chain_ready e0 → chain_run e0 trace e →
  ∃ ut lt, projected e0 trace e ut lt.
Proof.
  intros Hready Hrun. induction Hrun as [|trace e ev e' Hrun (ut & lt & Hp) Hstep].
  { exists [], []. by repeat constructor. }
  pose proof Hp as [_ Hl _ _ Hv].
  destruct Hstep as [sub data len rv e e1 Hsub Hbuf Hsend
    |a rest bytes m sub data rv e w1 e2 w3 Hq Ha Hread Hq1 Hc1 Hi1 Hstep Hq3 Hc3 Hi3
    |a rest bytes e w' Hq Ha Hq' Hc' Hi'
    |c a e e2 _ Hok Hstep [Hq Hc]].
  - by eapply projected_send.
  - by eapply projected_handled.
  - eexists _, _. eapply (projected_uplink _ _ _ _ _ _ _ (Taken bytes));
      [exact Hp| |done|done|done|by eapply link_run_framework|].
    + by eapply step_take.
    + rewrite link_trace_snoc, app_nil_r. by apply link_view_framework.
  - eexists _, _. eapply (projected_uplink _ _ _ _ _ _ _ Elsewhere);
      [exact Hp| |done|done|done| |].
    + by apply step_elsewhere.
    + destruct e2. by eapply run_call.
    + rewrite link_trace_snoc. by apply link_view_snoc.
Qed.

(** ** Telecommands arrive in order *)

Lemma accepted_commands_snoc (trace : list event) ev :
  accepted_commands (trace ++ [ev]) = accepted_commands trace ++ accepted_commands [ev].
Proof. apply omap_app. Qed.

(** What is accepted on the way of [CommandPath] is what the accepted packets ask for. *)
Lemma accepted_requests e0 trace e : chain_run e0 trace e →
  accepted host (link_trace trace) = omap (device_request host) (accepted_commands trace).
Proof.
  intros Hrun. induction Hrun as [|trace e ev e' _ IH Hstep]; [done|].
  rewrite link_trace_snoc, accepted_commands_snoc, omap_app, <- IH.
  unfold accepted. rewrite omap_app. f_equal.
  destruct Hstep as [| a rest bytes m sub data rv| |c a e e2 Hc _ _ _]; [done| |done|].
  - simpl. destruct (decide (rv = OK)) as [Hrv|Hrv].
    + destruct (subservice_command sub) as [c|] eqn:Hs.
      * rewrite decide_True by eauto. simpl. unfold device_request. simpl. by rewrite Hs.
      * rewrite decide_False; [done|]. by intros [_ [? ?]].
    + by rewrite decide_False by naive_solver.
  - by destruct c, a.
Qed.

(** Accepted commands are among those taken, in order. *)
Lemma accepted_taken (trace : list event) :
  Some <$> accepted_commands trace `sublist_of` taken_commands trace.
Proof.
  induction trace as [|ev trace IH]; [done|]. destruct ev; simpl; [done| | |done].
  - case_decide; simpl; by constructor.
  - by constructor.
Qed.

Lemma commands_in_order e0 trace e : chain_ready e0 → chain_run e0 trace e →
  Some <$> sent_commands trace = taken_commands trace ++ waiting_commands queue tc (world e).
Proof.
  intros Hready Hrun. destruct (chain_projects _ _ _ Hready Hrun) as (ut & lt & [Hu _ Hs Ht _]).
  destruct (uplink_run_inv _ _ _ _ _ (proj1 Hready) Hu) as [lost [_ _ _ _ Hfifo _]].
  apply fmap_app_inv in Hfifo as (l1 & l2 & Ht1 & Hw & Hsent). apply (inj (fmap Some)) in Ht1. subst l1.
  rewrite <- Hs, Hsent, fmap_app, Ht. f_equal. unfold waiting_commands.
  assert (waiting_commands queue tc (world e)
          = (λ b, b ≫= read_telecommand) <$> waiting queue tc (world e)) as Hwait.
  { unfold waiting, waiting_commands. by rewrite <- list_fmap_compose. }
  unfold waiting_commands in Hwait. rewrite Hwait. cbn [at_distributor world] in Hw.
  rewrite Hw, <- list_fmap_compose. done.
Qed.


Lemma accepted_sent e0 trace e : chain_ready e0 → chain_run e0 trace e →
  accepted_commands trace `sublist_of` sent_commands trace.
Proof.
  intros Hready Hrun. apply sublist_fmap_Some. rewrite (commands_in_order _ _ _ Hready Hrun).
  apply sublist_inserts_r, accepted_taken.
Qed.

(** (C3) Telecommands arrive in the order in which they were sent. In every run of the
    distributor, the service and the handler, the subservices and data of the packets the
    service has taken, handled or not, followed by those of the packets waiting for it, are
    exactly those of the calls of [sendCommand] that returned [OK]; every packet reads back.
    So the device commands accepted by the service are sent commands, in order and each at
    most once; what the handler's queue gets is what they ask for. *)
Theorem telecommands_in_order e0 trace e : chain_ready e0 → chain_run e0 trace e →
  Some <$> sent_commands trace = taken_commands trace ++ waiting_commands queue tc (world e)
  ∧ accepted_commands trace `sublist_of` sent_commands trace
  ∧ accepted host (link_trace trace) = omap (device_request host) (accepted_commands trace).
Proof.
  intros Hready Hrun. split_and!;
    [by eapply commands_in_order|by eapply accepted_sent|by eapply accepted_requests].
Qed.

Lemma chain_run_inv e0 trace ev e : chain_run e0 (trace ++ [ev]) e →
  ∃ e1, chain_run e0 trace e1 ∧ chain_step e1 ev e.
Proof.
  intros Hrun. inversion Hrun as [Hnil|trace' e1 ev' e' Hrun' Hstep Heq]; subst.
  - by destruct trace.
  - apply app_inj_tail in Heq as [-> ->]. by exists e1.
Qed.

Lemma accepted_are_requests (trace : list event) :
  Forall (λ c, is_Some (device_request host c)) (accepted_commands trace).
Proof.
  induction trace as [|ev trace IH]; [by constructor|]. destruct ev; try exact IH.
  unfold accepted_commands. simpl. case_decide as Hc; [|exact IH]. constructor; [|exact IH].
  destruct Hc as [_ [c Hc]]. unfold device_request. simpl. rewrite Hc. by eexists.
Qed.

(** When every packet was accepted, the commands sent are those accepted and waiting, apart
    from those that ask nothing of the handler. *)
Lemma all_accepted (trace : list event) : Forall packet_accepted trace →
  omap (λ o, o ≫= device_request host) (taken_commands trace)
  = omap (device_request host) (accepted_commands trace).
Proof.
  induction 1 as [|ev trace Hev _ IH]; [done|].
  destruct ev as [|m s data rv| |]; try done. simpl in Hev. subst rv.
  assert (device_request host (s, data) = c ← subservice_command s;
          Some (CommandId_raw c, telecommand_rate host c (Some data))) as Hr by done.
  unfold taken_commands, accepted_commands in *. cbn [omap list_omap mbind option_bind].
  destruct (subservice_command s) as [c|].
  - rewrite decide_True by eauto. cbn [omap list_omap]. by rewrite Hr, IH.
  - rewrite decide_False by (by intros [_ [? ?]]). by rewrite Hr.
Qed.

Lemma all_sent_accepted e0 trace e : chain_ready e0 → chain_run e0 trace e →
  Forall packet_accepted trace → tm_messages (world e) queue = [] →
  omap (device_request host) (sent_commands trace)
  = omap (device_request host) (accepted_commands trace).
Proof.
  intros Hready Hrun Hall Hnil. pose proof (commands_in_order _ _ _ Hready Hrun) as Horder.
  rewrite <- all_accepted by done. unfold waiting_commands in Horder.
  rewrite Hnil, app_nil_r in Horder. rewrite <- Horder.
  clear Horder. generalize (sent_commands trace). intros l.
  induction l as [|x l IH]; [done|]. cbn. by rewrite IH.
Qed.

Lemma poll_transit ev a (e e2 : env (Link Store Msg) W) :
  link_step host (HandlerCall ev : calls) e = Done (a, e2) → in_transit (self e2) = in_transit (self e).
Proof.
  cbn [link_step]. unfold mbind, M_bind, on_system.
  destruct (on_handler _ _) as [[outs e1]| |]; [|done..]. by intros [= _ <-].
Qed.

Lemma sent_rate base e0 trace e c :
  handler_of e0 = WebcamDeviceHandler base → chain_ready e0 →
  chain_run e0 (trace ++ [Call (HandlerCall EvPoll) (Outputs [Issued c])]) e →
  Forall commanded_only (link_trace trace) → c ≠ 1%Z →
  let commands := take (deliveries (link_trace trace)) (accepted_commands trace) in
  let delivered := omap (device_request host) commands in
  commands `sublist_of` sent_commands trace
  ∧ c ∈ delivered.*1 ∧ currentFrameRate (handler_of e) = latest_rate double_zero delivered
  ∧ (Forall packet_accepted trace → tm_messages (world e) queue = [] →
     in_transit (chain_link (self e)) = [] →
     delivered = omap (device_request host) (sent_commands trace)).
Proof.
  intros Hnew Hready Hrun Hall Hc commands delivered.
  destruct (chain_run_inv _ _ _ _ Hrun) as (e1 & Hrun1 & Hstep).
  inversion Hstep as [| | |? ? ? e2 _ Hok Hlink Hkept]; subst.
  destruct (chain_projects _ _ _ Hready Hrun1) as (ut & lt & [_ Hl _ _ [Hacc Hdel Hcom]]).
  pose proof (run_call host ipc _ _ _ _ _ _ Hl Hok Hlink) as Hl2.
  rewrite (accepted_requests _ _ _ Hrun1) in Hacc.
  assert (delivered = take (deliveries lt) (accepted host lt)) as Hd.
  { unfold delivered, commands. rewrite Hacc, Hdel. apply omap_take_Some, accepted_are_requests. }
  destruct (served_rate host ipc telemetry_kept base (at_link e0) _ _ c Hnew (proj2 Hready) Hl2 (Hcom Hall) Hc)
    as (_ & Hin & Hrate). cbv zeta in Hin, Hrate. rewrite <- Hd in Hin, Hrate.
  split_and!; [|exact Hin|exact Hrate|].
  - etrans; [apply sublist_take|]. by eapply accepted_sent.
  - intros Haccepted Hq Hnil. rewrite (all_sent_accepted _ _ _ Hready Hrun1 Haccepted), <- Hacc.
    + rewrite Hd. apply take_ge.
      assert (deliveries lt = length (accepted host lt)) as ->; [|done].
      apply (all_delivered host ipc telemetry_kept base (at_link e0) _ _ Hnew (proj2 Hready) Hl (Hcom Hall)).
      by rewrite <- (poll_transit _ _ _ _ Hlink).
    + cbn [world] in Hq. by rewrite <- (proj1 Hkept).
Qed.

(** (C2) The device works with the frame rate sent last. In every run from a new handler in
    which frame rates come from telecommands, when a poll issues the set-frame-rate or the
    get-frame-rate command, that command is among the first so many accepted commands as
    messages were delivered. These are sent commands, in order, and the current frame
    rate is the last one they ask for, byte for byte that given to [sendCommand]. When the
    service has taken and accepted all packets and their messages are delivered, they ask
    for all that was sent. *)
Theorem sent_rate_is_served base e0 trace e c :
  handler_of e0 = WebcamDeviceHandler base → chain_ready e0 →
  chain_run e0 (trace ++ [Call (HandlerCall EvPoll) (Outputs [Issued c])]) e →
  Forall commanded_only (link_trace trace) → c ≠ 1%Z →
  let commands := take (deliveries (link_trace trace)) (accepted_commands trace) in
  let delivered := omap (device_request host) commands in
  commands `sublist_of` sent_commands trace
  ∧ c ∈ delivered.*1 ∧ currentFrameRate (handler_of e) = latest_rate double_zero delivered
  ∧ (Forall packet_accepted trace → tm_messages (world e) queue = [] →
     in_transit (chain_link (self e)) = [] →
     delivered = omap (device_request host) (sent_commands trace)).
Proof. intros. by eapply sent_rate. Qed.

(** ** Runs of given calls *)

(** A service that works like this: it takes a packet, reads it, prepares the command, and
    deletes the packet. *)
Definition serve_packet (m : Msg) : M chain_env event := λ e,
  let '((_, a), w1) := receive_TmTcMessage queue (world e) in
  match contents (world e) tc !! a ≫= read_telecommand with
  | Some (subservice, data) =>
      match link_step (PW:=PW) host (Telecommand m subservice (Some data) (Z.of_nat (length data)))
              (Env (chain_link (self e)) (console e) w1) with
      | Done (Result rv, e2) =>
          Done (Handled m subservice data rv,
            Env (mkChain (chain_distributor (self e)) (self e2)) (console e2)
              (deleteData tc a (world e2)).2)
      | _ => Undefined
      end
  | None => Undefined
  end.

Lemma serve_packet_step m e ev e' : tm_messages (world e) queue ≠ [] →
  serve_packet m e = Done (ev, e') → chain_step e ev e'.
Proof.
  intros Hq Hserve. unfold serve_packet in Hserve.
  destruct (tm_messages (world e) queue) as [|a rest] eqn:Hmsgs; [done|].
  pose proof (receive_TmTc_cons queue (world e) a rest Hmsgs) as Ha.
  pose proof (receive_TmTc_rest queue (world e)) as Hrest. rewrite Hmsgs in Hrest.
  pose proof (receive_TmTc_stores queue (world e) tc) as Htc.
  pose proof (receive_TmTc_stores queue (world e) ipc) as Hipc.
  destruct (receive_TmTcMessage queue (world e)) as [r w1]. simpl in Ha, Hrest, Htc, Hipc. subst r.
  destruct (contents (world e) tc !! a) as [bytes|] eqn:Hbytes; [|done]. cbn [mbind option_bind] in Hserve.
  destruct (read_telecommand bytes) as [[s data]|] eqn:Hread; [|done].
  destruct (link_step _ _ _) as [[[rv| |] e2]| |] eqn:Hstep; simplify_eq.
  eapply (chain_handled _ _ _ _ a); try done.
  - apply deleteData_queues.
  - apply deleteData_contents.
  - by apply deleteData_elsewhere, not_eq_sym.
Qed.

(** The packet at the head of the queue can be read, since it was sent. *)
Lemma waiting_packet_reads e0 trace e a rest : chain_ready e0 → chain_run e0 trace e →
  tm_messages (world e) queue = a :: rest →
  ∃ c, contents (world e) tc !! a ≫= read_telecommand = Some c.
Proof.
  intros Hready Hrun Hq. pose proof (commands_in_order _ _ _ Hready Hrun) as Horder.
  unfold waiting_commands in Horder. rewrite Hq, fmap_cons in Horder.
  apply fmap_app_inv in Horder as (l1 & l2 & _ & Hl2 & _). destruct l2 as [|c l2]; [done|].
  exists c. by injection Hl2.
Qed.

Lemma serve_packet_returns e0 trace e m : chain_ready e0 → chain_run e0 trace e →
  tm_messages (world e) queue ≠ [] →
  ∃ subservice data rv e', serve_packet m e = Done (Handled m subservice data rv, e').
Proof.
  intros Hready Hrun Hq. destruct (tm_messages (world e) queue) as [|a rest] eqn:Hmsgs; [done|].
  destruct (waiting_packet_reads _ _ _ _ _ Hready Hrun Hmsgs) as [[sub data] Hread].
  destruct (chain_projects _ _ _ Hready Hrun) as (ut & lt & [_ Hl _ _ _]).
  pose proof (receive_TmTc_cons queue (world e) a rest Hmsgs) as Ha.
  pose proof (receive_TmTc_stores queue (world e) ipc) as Hipc.
  unfold serve_packet. destruct (receive_TmTcMessage queue (world e)) as [r w1].
  simpl in Ha, Hipc. subst r. rewrite Hread.
  pose proof (link_run_framework _ _ _ _ _ w1 Hl Hipc) as Hl1.
  destruct (run_related host ipc telemetry_kept _ _ _ (proj2 Hready) Hl1) as (s & _ & Hrel).
  set (c := Telecommand m sub (Some data) (Z.of_nat (length data)) : calls).
  assert (call_ok ipc c (Env (chain_link (self e)) (console e) w1)) as Hok.
  { split; [|done]. destruct (contents (world e) tc !! a) as [bytes|]; [|done].
    by eapply read_telecommand_byte. }
  destruct (wp_inv _ _ _ (link_call_post host ipc telemetry_kept c _ s Hrel Hok))
    as ([rv| |] & e2 & Hstep & (s' & Hspec & _)); [|done..].
  eexists sub, data, rv, _. cbn [chain_link self console] in Hstep. by rewrite Hstep.
Qed.

(** (C5) The system goes on. In every state a run can reach, any call of [sendCommand] returns
    with a result; a waiting packet can be read, and a service that handles it gets a result
    from [prepareCommand]; and every other call that the framework may make returns. None
    runs into undefined behaviour. *)
Theorem chain_never_stuck e0 trace e : chain_ready e0 → chain_run e0 trace e →
  (∀ subservice data dataLen, (0 ≤ subservice < 256)%Z → buffer_ok data dataLen →
     ∃ rv e', chain_run e0 (trace ++ [Send subservice data dataLen rv]) e')
  ∧ (∀ m, tm_messages (world e) queue ≠ [] → ∃ subservice data rv e',
       serve_packet m e = Done (Handled m subservice data rv, e')
       ∧ chain_run e0 (trace ++ [Handled m subservice data rv]) e')
  ∧ (∀ c, call_ok ipc c (at_link e) → ∃ a e2, link_step host (c : calls) (at_link e) = Done (a, e2)).
Proof.
  intros Hready Hrun. destruct (chain_projects _ _ _ Hready Hrun) as (ut & lt & [Hu Hl _ _ _]).
  destruct (uplink_run_inv _ _ _ _ _ (proj1 Hready) Hu) as [lost [Hreg Hst _ _ _ _]].
  split_and!.
  - intros sub data len Hsub Hbuf.
    destruct (wp_inv _ _ _ (send_elsewhere sub data len _ Hreg Hst Hbuf)) as (rv & e1 & Hsend & _).
    eexists rv, _. eapply chain_next; [exact Hrun|]. by eapply chain_send.
  - intros m Hq.
    destruct (serve_packet_returns _ _ _ m Hready Hrun Hq) as (sub & data & rv & e' & Hserve).
    exists sub, data, rv, e'. split; [done|]. eapply chain_next; [exact Hrun|]. by eapply serve_packet_step.
  - intros c Hok. destruct (run_related host ipc telemetry_kept _ _ _ (proj2 Hready) Hl) as (s & _ & Hrel).
    destruct (wp_inv _ _ _ (link_call_post host ipc telemetry_kept c _ s Hrel Hok)) as (a & e2 & Hstep & _).
    by exists a, e2.
Qed.

(** What is done next, and the event and state it leads to. *)
Inductive chain_input :=
| DoSend (subservice : Z) (data : option (list byte)) (dataLen : Z)
| DoServe (m : Msg)
| DoCall (c : calls).

Definition chain_do (i : chain_input) : M chain_env event := λ e,
  match i with
  | DoSend subservice data dataLen =>
      match send subservice data dataLen (at_distributor e) with
      | Done (rv, e1) => Done (Send subservice data dataLen rv,
          Env (mkChain (self e1) (chain_link (self e))) (console e1) (world e1))
      | _ => Undefined
      end
  | DoServe m => serve_packet m e
  | DoCall c =>
      match link_step host c (at_link e) with
      | Done (a, e2) => Done (Call c a,
          Env (mkChain (chain_distributor (self e)) (self e2)) (console e2) (world e2))
      | _ => Undefined
      end
  end.

Definition input_ok (i : chain_input) (e e' : chain_env) : Prop :=
  match i with
  | DoSend subservice data dataLen => (0 ≤ subservice < 256)%Z ∧ buffer_ok data dataLen
  | DoServe m => tm_messages (world e) queue ≠ []
  | DoCall c => (if c is Telecommand _ _ _ _ then False else True) ∧ call_ok ipc c (at_link e)
      ∧ uplink_kept queue tc (world e) (world e')
  end.

(** The events of the inputs, when all go well; and where they lead to. *)
Fixpoint chain_events (ins : list chain_input) (e : chain_env) : option (list event * chain_env) :=
  match ins with
  | [] => Some ([], e)
  | i :: ins => match chain_do i e with
               | Done (ev, e') => '(evs, e'') ← chain_events ins e'; Some (ev :: evs, e'')
               | _ => None
               end
  end.
Fixpoint inputs_ok (ins : list chain_input) (e : chain_env) : Prop :=
  match ins with
  | [] => True
  | i :: ins => match chain_do i e with
               | Done (_, e') => input_ok i e e' ∧ inputs_ok ins e'
               | _ => False
               end
  end.

Lemma chain_do_step i e ev e' : chain_do i e = Done (ev, e') → input_ok i e e' → chain_step e ev e'.
Proof.
  destruct i as [s data len|m|c]; cbn [chain_do input_ok].
  - destruct (send s data len (at_distributor e)) as [[rv e1]| |] eqn:Hrun; [|done..].
    intros [= <- <-] [Hs Hb]. by apply chain_send.
  - intros Hs Hq. by eapply serve_packet_step.
  - destruct (link_step host c (at_link e)) as [[a e2]| |] eqn:Hrun; [|done..].
    intros [= <- <-] (Hc & Hok & Hk). by apply chain_call.
Qed.

Lemma chain_events_run ins : ∀ e0 trace e evs e',
  chain_run e0 trace e → inputs_ok ins e → chain_events ins e = Some (evs, e') →
  chain_run e0 (trace ++ evs) e'.
Proof.
  induction ins as [|i ins IH]; intros e0 trace e evs e' Hrun Hok Hevs; simpl in *.
  - injection Hevs as <- <-. by rewrite app_nil_r.
  - destruct (chain_do i e) as [[ev e1]| |] eqn:Hdo; [|done..]. destruct Hok as [Hi Hok].
    destruct (chain_events ins e1) as [[evs1 e2]|] eqn:Hevs1; [|done]. injection Hevs as <- <-.
    rewrite cons_middle, app_assoc. eapply IH; [|done|done].
    econstructor; [done|]. by eapply chain_do_step.
Qed.
End ChainProofs.
Arguments chain_input : clear implicits.

(** * The commands of [main], all the way *)

Definition example_chain : env (Chain Z Z model_msg) model_world :=
  Env (mkChain (self example_distributor) (self start_link)) [] model_init.

Abbreviation model_input := (chain_input model_world model_msg model_wrapper).
Abbreviation model_event := (chain_event model_world model_msg model_wrapper).

(** Set the frame rate to 24, query it, dump the parameter; the service takes the packets,
    the messages are delivered, the handler polled and its replies fetched. *)
Definition example_inputs : list model_input :=
  [DoSend 2 (Some (bytes_of_double LittleEndian rate_24)) 8; DoSend 3 None 0; DoSend 4 None 0;
   DoServe (ModelMsg 0 0 0); DoServe (ModelMsg 0 0 0); DoServe (ModelMsg 0 0 0);
   DoCall Deliver; DoCall Deliver; DoCall (HandlerCall EvPoll); DoCall (HandlerCall EvReply);
   DoCall (HandlerCall EvPoll)]%Z.

Abbreviation model_events := (chain_events (TC:=tc_params) (V:=Z) (TimeReader:=unit) (PW:=model_wrapper)
                                LittleEndian 7%Z 11%Z).
Abbreviation model_run := (chain_run (TC:=tc_params) (V:=Z) (TimeReader:=unit) (PW:=model_wrapper)
                             LittleEndian 7%Z 11%Z 10%Z).

(** The events up to the last poll. *)
Definition example_trace : list model_event :=
  default [] (fst <$> model_events (take 10 example_inputs) example_chain).

Lemma example_chain_ready : chain_ready (V:=Z) 7%Z 11%Z 10%Z example_chain.
Proof. split; split_and!; by try eexists. Qed.

Lemma example_run : ∃ e,
  model_run example_chain (example_trace ++ [Call (HandlerCall EvPoll) (Outputs [Issued 3%Z])]) e
  ∧ tm_messages (world e) 7%Z = [] ∧ in_transit (chain_link (self e)) = [].
Proof.
  destruct (model_events example_inputs example_chain) as [[evs e]|] eqn:Hevs; [|by vm_compute in Hevs].
  assert (evs = example_trace ++ [Call (HandlerCall EvPoll) (Outputs [Issued 3%Z])]
          ∧ tm_messages (world e) 7%Z = [] ∧ in_transit (chain_link (self e)) = []) as (<- & Hrest).
  { vm_compute in Hevs. injection Hevs as <- <-. by vm_compute. }
  exists e. split; [|exact Hrest].
  apply (chain_events_run (TC:=tc_params) (TimeReader:=unit) LittleEndian 7%Z 11%Z 10%Z ltac:(done)
    example_inputs example_chain [] example_chain); [constructor| |exact Hevs].
  vm_compute. by split_and!.
Qed.

Theorem telecommands_in_order_witness : ∃ e,
  model_run example_chain (example_trace ++ [Call (HandlerCall EvPoll) (Outputs [Issued 3%Z])]) e
  ∧ taken_commands (example_trace ++ [Call (HandlerCall EvPoll) (Outputs [Issued 3%Z])])
    = [Some (2%Z, bytes_of_double LittleEndian rate_24); Some (3%Z, []); Some (4%Z, [])].
Proof.
  destruct example_run as (e & Hrun & Hq & _). exists e. split; [exact Hrun|].
  destruct (telecommands_in_order (TC:=tc_params) LittleEndian 7%Z 11%Z 10%Z (model_telemetry_preserves 10%Z)
    ltac:(done) example_chain _ e example_chain_ready Hrun) as [Horder _].
  unfold waiting_commands in Horder. rewrite Hq, app_nil_r in Horder. rewrite <- Horder. by vm_compute.
Defined.

Theorem sent_rate_is_served_witness : ∃ e,
  model_run example_chain (example_trace ++ [Call (HandlerCall EvPoll) (Outputs [Issued 3%Z])]) e
  ∧ currentFrameRate (sys_handler (link_system (chain_link (self e)))) = rate_24.
Proof.
  destruct example_run as (e & Hrun & Hq & Hnil). exists e. split; [exact Hrun|].
  destruct (sent_rate_is_served (TC:=tc_params) LittleEndian 7%Z 11%Z 10%Z (model_telemetry_preserves 10%Z)
    ltac:(done) {| base_communicationInterface := Some objectIdWebcamComIF;
                   base_rawPacket := None; base_rawPacketLen := 0 |}
    example_chain example_trace e 3%Z eq_refl example_chain_ready Hrun) as (_ & _ & Hrate & Hall).
  { vm_compute. by repeat constructor. }
  { done. }
  rewrite Hrate, Hall; [by vm_compute| |exact Hq|exact Hnil]. vm_compute. by repeat constructor.
Defined.

(** After [main]'s commands a snapshot can be commanded, and the packet handled. *)
Theorem chain_never_stuck_witness : ∃ e rv e',
  model_run example_chain (example_trace ++ [Call (HandlerCall EvPoll) (Outputs [Issued 3%Z])]) e
  ∧ model_run example_chain ((example_trace ++ [Call (HandlerCall EvPoll) (Outputs [Issued 3%Z])])
                             ++ [Send 1 None 0 rv]) e'.
Proof.
  destruct example_run as (e & Hrun & _).
  destruct (chain_never_stuck (TC:=tc_params) LittleEndian 7%Z 11%Z 10%Z (model_telemetry_preserves 10%Z)
    ltac:(done) example_chain _ e example_chain_ready Hrun) as (Hsend & _ & _).
  destruct (Hsend 1%Z None 0%Z ltac:(done) I) as (rv & e' & Hrun').
  exists e, rv, e'. by split.
Defined.
