(* ===== verification/MainCommands.v ===== *)
(** The commands that [main.cpp] sends, on their whole way ([Telecommanding]): what the device
    makes of [newFrameRate = 24.0]. *)

From S2P Require Import Prelude Words Fsfw FsfwModel WebcamDefinitions MessageTypes.
From S2P Require Import WebcamDeviceHandler CommandArbiter HandlerRefinement DeviceCycles.
From S2P Require Import WebcamCommandingService CommandingProperties.
From S2P Require Import TmtcInfrastructure TmtcProperties Uplink.
From S2P Require Import EndToEnd CommandPath CommandPathSteps CommandPathProperties Mission StartUp.
From S2P Require Import Telecommanding TelecommandingProperties.

Section MainCommands.
Context `{FsfwConstantsLaws} {W Queue Store TimeReader TC V Msg PW : Type}.
Context `{!StorageManagerIF W Store, !StorageView W Store, !StorageManagerLaws W Store}.
Context `{!StoreSeparation W Store}.
Context `{!MessageQueueIF W Queue, !QueueView W Queue, !MessageQueueLaws W Queue Store}.
Context `{!StoreQueueLaws W Queue Store, !PusIF TC TimeReader, !PusLaws TC TimeReader}.
Context `{!PusTcReaderIF, !PusTcReaderLaws TC TimeReader}.
Context `{CommandMessageLaws Msg, !CommandingServiceBaseIF W Store}.
Context `{!ObjectManagerIF W Store TimeReader}.
Context `{!ParameterWrapperIF PW, !DeviceHandlerBaseIF W Msg PW, !ActionHelperIF Handler W Msg}.
Context `{!DeviceHandlerBaseLaws W Msg PW Store}.
Context (host : byte_order) (queue : Queue) (tc ipc : Store).
Context `{!ActionHelperLaws host ipc} (telemetry_kept : telemetry_preserves (W:=W) ipc).
Context (stores_differ : tc ≠ ipc).

Abbreviation chain_env := (env (Chain V Store Msg) W).
Abbreviation event := (chain_event W Msg PW).
Abbreviation calls := (link_call W Msg PW).
Abbreviation send := (sendCommand (W:=W) (Queue:=Queue) (TC:=TC) (TimeReader:=TimeReader)
                        (Store:=Store) (Service:=V)).
Abbreviation uplink_run := (uplink_run (TC:=TC) (TimeReader:=TimeReader) (Service:=V) queue tc).
Abbreviation chain_step := (chain_step (TC:=TC) (TimeReader:=TimeReader) (V:=V) (Msg:=Msg) (PW:=PW)
                              host queue tc ipc).
Abbreviation chain_run := (chain_run (TC:=TC) (TimeReader:=TimeReader) (V:=V) (Msg:=Msg) (PW:=PW)
                             host queue tc ipc).
Abbreviation chain_ready := (chain_ready (V:=V) (Msg:=Msg) queue tc ipc).
Abbreviation handler_of e := (sys_handler (link_system (chain_link (self e)))).

(** The calls of [sendCommand] in a run. *)
Definition sends (trace : list event) : list (Z * option (list byte) * Z) :=
  omap (λ ev, match ev with Send subservice data dataLen _ => Some (subservice, data, dataLen)
                       | _ => None end) trace.

(** The code of [main] sends [boot_commands]. *)
Lemma main_sends e0 trace e e1 : chain_run e0 trace e →
  queue_commands (Queue:=Queue) (TC:=TC) host (at_distributor e) = Done ((), e1) →
  ∃ evs, sends evs = boot_commands host
    ∧ chain_run e0 (trace ++ evs) (Env (mkChain (self e1) (chain_link (self e))) (console e1) (world e1)).
Proof.
  intros Hrun Hmain. unfold queue_commands, mbind, M_bind in Hmain.
  destruct (sendCommand _ _ _ (at_distributor e)) as [[r1 [s1 c1 w1]]| |] eqn:Hd1; [|done..].
  destruct (sendCommand _ _ _ (Env s1 c1 w1)) as [[r2 [s2 c2 w2]]| |] eqn:Hd2; [|done..].
  destruct (sendCommand _ _ _ (Env s2 c2 w2)) as [[r3 d3]| |] eqn:Hd3; [|done..]. injection Hmain as <-.
  exists ([Send 2 (Some (bytes_of_double host double_24)) 8 r1] ++ [Send 3 None 0 r2]
          ++ [Send 4 None 0 r3])%Z. split; [done|]. rewrite !app_assoc.
  eapply chain_next; [eapply chain_next; [eapply chain_next; [exact Hrun|]|]|].
  - apply chain_send; [done| |exact Hd1]. unfold buffer_ok. by rewrite length_bytes_of_double.
  - by apply (chain_send host queue tc ipc 3 None 0 r2 (Env (mkChain s1 (chain_link (self e))) c1 w1)).
  - by apply (chain_send host queue tc ipc 4 None 0 r3 (Env (mkChain s2 (chain_link (self e))) c2 w2)).
Qed.

(** What of a call of [sendCommand] is in the packet. *)
Definition command_sent (call : Z * option (list byte) * Z) : Z * list byte :=
  let '(subservice, data, dataLen) := call in (subservice, default [] (app_data data dataLen)).

(** Only these can be accepted, in order. *)
Lemma sent_of_sends (trace : list event) :
  sent_commands trace `sublist_of` command_sent <$> sends trace.
Proof.
  induction trace as [|ev trace IH]; [done|]. destruct ev; try exact IH.
  unfold sent_commands. simpl. case_decide; by constructor.
Qed.

Lemma accepted_of_main (l : list (Z * list byte)) :
  Forall (λ c, is_Some (device_request host c)) l →
  l `sublist_of` [(2, bytes_of_double host double_24); (3, []); (4, [])]%Z →
  let set := (2, bytes_of_double host double_24)%Z in
  let query := (3, [])%Z in
  l = [] ∨ l = [set] ∨ l = [query] ∨ l = [set; query].
Proof.
  intros Hreq Hsub set query.
  assert (∀ l' : list (Z * list byte), l' `sublist_of` [(4, [])]%Z →
          Forall (λ c, is_Some (device_request host c)) l' → l' = []) as Hlast.
  { intros l' Hl' Hr. apply sublist_cons_r in Hl' as [Hn | (l4 & -> & _)].
    - by apply sublist_nil_r in Hn.
    - apply Forall_cons_1 in Hr as [[? Hr] _]. done. }
  apply sublist_cons_r in Hsub as [Hsub | (l1 & -> & Hsub)];
    apply sublist_cons_r in Hsub as [Hsub | (l2 & -> & Hsub)].
  - left. by apply Hlast.
  - right. right. left. apply Forall_cons_1 in Hreq as [_ Hreq]. by rewrite (Hlast l2).
  - right. left. apply Forall_cons_1 in Hreq as [_ Hreq]. by rewrite (Hlast l1).
  - right. right. right. apply Forall_cons_1 in Hreq as [_ [_ Hreq]%Forall_cons_1]. by rewrite (Hlast l2).
Qed.

(** (C4) The device reports the frame rate that [main] commands. In every run from a new
    handler in which the commands sent so far are the first of those of [main], whatever
    their results and whatever the service rejects, and in which frame rates come from
    telecommands alone (nobody writes the handler's parameter or commands the handler
    past its queue), when a poll issues the get-frame-rate command, the current frame
    rate is 24 if the service accepted the set-frame-rate command, and otherwise still 0. *)
Theorem main_rate_is_served base e0 trace e :
  handler_of e0 = WebcamDeviceHandler base → chain_ready e0 →
  chain_run e0 (trace ++ [Call (HandlerCall EvPoll) (Outputs [Issued 3%Z])]) e →
  Forall commanded_only (link_trace trace) → sends trace `prefix_of` boot_commands host →
  currentFrameRate (handler_of e)
  = if decide (2%Z ∈ (accepted_commands trace).*1) then double_24 else double_zero.
Proof.
  intros Hnew Hready Hrun Hall Hpre.
  destruct (chain_run_inv _ _ _ _ _ _ _ _ Hrun) as (e1 & Hrun1 & _).
  destruct (sent_rate (TC:=TC) host queue tc ipc telemetry_kept stores_differ base e0 trace e 3
    Hnew Hready Hrun Hall) as (_ & Hin & -> & _); [done|].
  assert (accepted_commands trace `sublist_of`
    [(2, bytes_of_double host double_24); (3, []); (4, [])]%Z) as Hsub.
  { etrans; [by eapply (accepted_sent (TC:=TC) host queue tc ipc)|]. etrans; [apply sent_of_sends|].
    destruct Hpre as [rest Hpre].
    etrans; [by apply sublist_inserts_r with (k := command_sent <$> rest)|].
    by rewrite <- fmap_app, <- Hpre. }
  pose proof (accepted_of_main _ (accepted_are_requests host trace) Hsub) as Hacc.
  revert Hin Hacc. generalize (deliveries (link_trace trace)) (accepted_commands trace).
  intros n acc Hin Hacc. cbv zeta in Hin, Hacc.
  assert (telecommand_rate host commandSetFrameRate (Some (bytes_of_double host double_24))
          = Some double_24) as Hrate by by apply telecommand_rate_bytes.
  destruct Hacc as [-> | [-> | [-> | ->]]], n as [|[|n]]; rewrite ?take_nil in *;
    cbn -[telecommand_rate] in Hin |- *; rewrite ?take_nil, ?Hrate in *; cbn -[telecommand_rate] in Hin |- *;
    rewrite ?elem_of_cons, ?elem_of_nil in Hin; try tauto; try (exfalso; naive_solver lia).
Qed.
End MainCommands.

Theorem main_rate_is_served_witness : ∃ e,
  model_run example_chain (example_trace ++ [Call (HandlerCall EvPoll) (Outputs [Issued 3%Z])]) e
  ∧ currentFrameRate (sys_handler (link_system (chain_link (self e)))) = double_24.
Proof.
  destruct example_run as (e & Hrun & _). exists e. split; [exact Hrun|].
  pose proof (main_rate_is_served (TC:=tc_params) LittleEndian 7%Z 11%Z 10%Z (model_telemetry_preserves 10%Z)
    ltac:(done) {| base_communicationInterface := Some objectIdWebcamComIF;
                   base_rawPacket := None; base_rawPacketLen := 0 |}
    example_chain example_trace e eq_refl example_chain_ready Hrun) as Hrate.
  rewrite Hrate; [by vm_compute|vm_compute; by repeat constructor|].
  replace (sends example_trace) with (boot_commands LittleEndian) by by vm_compute.
  by exists [].
Defined.
