(* ===== verification/MainProgram.v ===== *)
(** [main.cpp] from its first line: the object manager, the look-ups, the two periodic
    tasks, and then the loop of [Mission]. [ObjectManager::initialize] calls
    [initialize()] of every registered object in an order of its own; it is a
    parameter, of which only what it does to the distributor is assumed. *)

From S2P Require Import Prelude Words Fsfw FsfwModel WebcamDefinitions.
From S2P Require Import WebcamCommandingService TmtcInfrastructure TmtcProperties Mission FrameworkTasks.

(** * The program *)

(** [ObjectManager::get<T>], for the types the objects have. *)
Class ObjectLookupIF (W P : Type) := get_pointer : object_id_t → W → option P.

Section Program.
Context `{FsfwConstants} {W P Store TimeReader Task Queue TC : Type}.
Context `{!MissionObjectsIF W P, !AcceptsTelecommandsIF W P, !ObjectManagerIF W Store TimeReader}.
Context `{!ObjectLookupIF W P, !TaskFactoryIF W Task P}.
Context (objectManager_initialize : M (env (Globals P Store) W) unit).
Abbreviation prog := (M (env (Globals P Store) W)).

(** [if (object != nullptr) {task->addComponent(id);}] *)
Definition add_if_found (object : option P) (task : option Task) (id : object_id_t) : prog unit :=
  match object with
  | Some _ => t ← deref task; call (addComponent (Exec:=P) t (inr id));; mret ()
  | None => mret ()
  end.

(** The scheduling; the result is unused. *)
Definition schedule (webcamService telemetrySink verificationSink : option P)
    : prog (option Task * option Task) :=
  webcamTask ← call (createPeriodicTask (Exec:=P) "WEBCAM_TASK" 0 (MINIMUM_STACK_SIZE (Exec:=P)) double_1_0);
  t ← deref webcamTask; call (addComponent (Exec:=P) t (inr objectIdWebcamHandler));;
  t ← deref webcamTask; call (startTask (Exec:=P) t);;
  tmtcTask ← call (createPeriodicTask (Exec:=P) "TMTC_TASK" 0 (MINIMUM_STACK_SIZE (Exec:=P)) double_1_0);
  add_if_found webcamService tmtcTask objectIdWebcamCommandingService;;
  add_if_found telemetrySink tmtcTask objectIdWebcamTelemetrySink;;
  add_if_found verificationSink tmtcTask objectIdWebcamVerificationSink;;
  t ← deref tmtcTask; call (startTask (Exec:=P) t);;
  mret (webcamTask, tmtcTask).

(** [main] before its loop; the result is the pointer to the distributor. *)
Definition main_setup : prog (option P) :=
  createMissionObjects;;
  objectManager_initialize;;
  webcamHandler ← ask (get_pointer objectIdWebcamHandler);
  webcamService ← ask (get_pointer objectIdWebcamCommandingService);
  telemetrySink ← ask (get_pointer objectIdWebcamTelemetrySink);
  verificationSink ← ask (get_pointer objectIdWebcamVerificationSink);
  pusDistributor ← ask (get_pointer objectIdWebcamTcDistributor);
  schedule webcamService telemetrySink verificationSink;;
  mret pusDistributor.

Context `{!EqDecision P, !StorageManagerIF W Store, !MessageQueueIF W Queue, !PusIF TC TimeReader}.

(** The whole of [main], for as many iterations of its loop as there are activities; the
    result is the local variable [commandsQueued]. *)
Definition main_program (host : byte_order) (activities : list (W → W)) : prog bool :=
  pusDistributor ← main_setup;
  main_loop (Queue:=Queue) (TC:=TC) (TimeReader:=TimeReader) host pusDistributor activities false.
End Program.

(** * What it relies on *)

(** The identifier under which an object is registered; the cookie is none. *)
Definition registered_id `{FsfwConstants} {P} (o : mission_object P) : option object_id_t :=
  match o with
  | NewLocalPool i _ | NewCdsShortTimeStamper i | NewStubVerificationReceiver i
  | NewVerificationReporter i | NewStubTelemetrySink i | NewStubPusDistributor i
  | NewWebcamComIF i | NewWebcamDeviceHandler i _ _ _ | NewWebcamCommandingService i _ => Some i
  | NewWebcamCookie _ => None
  end.

Class ObjectLookupLaws W P `{FsfwConstants, MissionObjectsIF W P, ObjectLookupIF W P} : Prop := {
  construct_registers o w p w' i : construct o w = (p, w') →
    get_pointer i w' = if decide (registered_id o = Some i) then Some p else get_pointer i w;
  setReceiver_registered p q w i : get_pointer i (setReceiver p q w) = get_pointer i w;
  setPacketSource_registered p j w i : get_pointer i (setPacketSource p j w) = get_pointer i w;
  setPacketDestination_registered p j w i : get_pointer i (setPacketDestination p j w) = get_pointer i w;
}.

(** The framework's own identifiers are not the mission's. *)
Definition framework_ids `{FsfwConstants} : list object_id_t :=
  [IPC_STORE; TC_STORE; TM_STORE; TIME_STAMPER; VERIFICATION_REPORTER].
Definition ids_apart `{FsfwConstants} : Prop :=
  ∀ i, i ∈ framework_ids → i ∉ webcam_object_ids.

(** Finds an element of a list that is written out. *)
Ltac find_elem :=
  first [exact (list_elem_of_here _ _) | apply list_elem_of_further; find_elem].

Section Setup.
Context `{FsfwConstants} {W P Store TimeReader Task : Type}.
Context `{!MissionObjectsIF W P, !AcceptsTelecommandsIF W P, !ObjectManagerIF W Store TimeReader}.
Context `{!ObjectLookupIF W P, !ObjectLookupLaws W P}.

(** The mission as it stands after the factory: every object that [main] looks up is
    there, and the distributor serves the service. *)
Record mission_ready (g : Globals P Store) (w : W) (pd service : P) (d : Distributor P Store) : Prop := {
  ready_distributor : g_pusDistributor g = Some (pd, d);
  ready_service : g_webcamService g = Some service;
  ready_registered : registeredService d = Some service;
  ready_counter : sequenceCounter d = 0%Z;
  ready_get_distributor : get_pointer objectIdWebcamTcDistributor w = Some pd;
  ready_get_service : get_pointer objectIdWebcamCommandingService w = Some service;
  ready_get_sink : is_Some (get_pointer objectIdWebcamTelemetrySink w);
  ready_get_receiver : is_Some (get_pointer objectIdWebcamVerificationSink w);
  ready_get_tcStore : is_Some (get_pointer TC_STORE w);
}.

Lemma wp_construct {Self} o (e : env Self W) (Q : P → env Self W → Prop) :
  (∀ p w', (∀ i, get_pointer i w'
                 = if decide (registered_id o = Some i) then Some p else get_pointer i (world e)) →
     Q p (Env (self e) (console e) w')) → wp (call (construct o)) e Q.
Proof.
  intros HQ. destruct (construct o (world e)) as [p w'] eqn:Hc.
  eapply wp_call; [exact Hc|]. apply HQ. intros i. by apply construct_registers.
Qed.

Lemma wp_make_unique global `{!Setter global} o (e : env (Globals P Store) W)
    (Q : unit → env (Globals P Store) W → Prop) : global (self e) = None →
  (∀ p w', (∀ i, get_pointer i w'
                 = if decide (registered_id o = Some i) then Some p else get_pointer i (world e)) →
     Q () (Env (set_field global (λ _, Some p) (self e)) (console e) w')) →
  wp (make_unique_if_null global o) e Q.
Proof.
  intros Hg HQ. unfold make_unique_if_null. apply wp_bind, wp_this. rewrite Hg.
  apply wp_bind, wp_construct. intros p w' Hreg. apply wp_update. by apply HQ.
Qed.

(** Reduces the record of globals after an assignment. *)
Ltac clean := lazy beta iota zeta delta [set_field settable_eta Globals_settable
  Distributor_settable]; cbn [self console world
  g_ipcStore g_tcStore g_tmStore g_timeStamper g_verificationReporter g_telemetrySink
  g_verificationReceiver g_pusDistributor g_webcamComIF g_webcamCookie g_webcamHandler
  g_webcamService g_serviceRegistered] in *.

(** Rewrites a look-up of an object by the effect of the call that registered it. *)
Ltac look R := rewrite R; cbn [registered_id];
  first [rewrite decide_True by done | rewrite decide_False by (by intros [= ?]) | rewrite decide_False by done].

Lemma create_from_nothing c w : ids_apart →
  wp (createMissionObjects (Store:=Store) (P:=P)) (Env no_globals c w) (λ _ e',
    ∃ pd service d, mission_ready (self e') (world e') pd service d).
Proof.
  intros Hids. unfold createMissionObjects, no_globals.
  do 5 (apply wp_bind, wp_make_unique; [done|]; intros ? ? ?; clean).
  apply wp_bind. unfold create_reporter. apply wp_bind, wp_this. clean.
  apply wp_bind, wp_construct. intros reporter w6 R6. clean.
  apply wp_bind, wp_update. clean. apply wp_call_void. clean.
  apply wp_bind, wp_make_unique; [done|]; intros sink w7 R7; clean.
  apply wp_bind. unfold create_distributor. apply wp_bind, wp_this. clean.
  apply wp_bind, wp_construct. intros pd w8 R8. clean. apply wp_update. clean.
  apply wp_bind, wp_make_unique; [done|]; intros comIF w9 R9; clean.
  apply wp_bind. unfold create_handler. apply wp_bind, wp_this. clean.
  rewrite decide_True by done.
  apply wp_bind, wp_bind, wp_construct. intros cookie w10 R10. clean. apply wp_update. clean.
  apply wp_bind, wp_this. clean. apply wp_bind, wp_update. clean.
  apply wp_bind, wp_construct. intros handler w11 R11. clean. apply wp_update. clean.
  apply wp_bind. unfold create_service. apply wp_bind, wp_this. clean.
  apply wp_bind, wp_construct. intros service w12 R12. clean.
  apply wp_bind, wp_update. clean. apply wp_bind, wp_call_void, wp_call_void. clean.
  unfold register_service. apply wp_bind, wp_this. clean.
  apply wp_bind. eapply wp_done; [by run_tmtc|]. clean.
  apply wp_bind, wp_update. clean. apply wp_update. clean.
  assert (Hrep : VERIFICATION_REPORTER ≠ objectIdWebcamVerificationSink).
  { intros Heq. apply (Hids VERIFICATION_REPORTER); [unfold framework_ids; find_elem|].
    rewrite Heq. unfold webcam_object_ids. find_elem. }
  exists pd, service. eexists. split; cbn [self world]; try done;
    rewrite setPacketDestination_registered, setPacketSource_registered.
  5: { repeat match goal with R : ∀ i, get_pointer i ?w = _ |- is_Some (get_pointer _ ?w) =>
         rewrite R, ?setReceiver_registered; case_decide; [by eexists|] end; done. }
  all: look R12; try done;
    look R11; look R10; look R9; look R8; try done; look R7; try (by eexists).
  rewrite setReceiver_registered. rewrite R6; cbn [registered_id].
  rewrite decide_False by congruence. look H4. by eexists.
Qed.

Context `{!TaskFactoryIF W Task P, !TaskView W Task P, !TaskFactoryLaws W Task P}.

(** The two tasks of the mission. *)
Definition scheduled (w : W) : Prop := ∃ t0 t1, t0 ≠ t1 ∧
  tasks_of w t0 = Some (PeriodicTask double_1_0 [inr objectIdWebcamHandler] true) ∧
  tasks_of w t1 = Some (PeriodicTask double_1_0
    [inr objectIdWebcamCommandingService; inr objectIdWebcamTelemetrySink;
     inr objectIdWebcamVerificationSink] true).

Lemma schedule_run service sink receiver (e : env (Globals P Store) W) : tasks_available W Task P →
  wp (schedule (Task:=Task) (Some service) (Some sink) (Some receiver)) e (λ _ e',
    self e' = self e ∧ scheduled (world e')).
Proof.
  intros Ha. unfold schedule, add_if_found.
  apply wp_bind, wp_createPeriodicTask; [done|]. intros t0 w1 _ H1 O1. cbn [self console world] in *.
  apply wp_bind, (wp_deref _ t0); [done|].
  apply wp_bind. eapply wp_addComponent; [done|exact H1|]. intros w2 H2 O2. cbn [self console world] in *.
  apply wp_bind, (wp_deref _ t0); [done|].
  apply wp_bind. eapply wp_startTask; [done|exact H2|]. intros w3 H3 O3. cbn [self console world] in *.
  apply wp_bind, wp_createPeriodicTask; [done|]. intros t1 w4 N4 H4 O4. cbn [self console world] in *.
  assert (t0 ≠ t1) as Hne by congruence.
  do 3 (apply wp_bind, wp_bind, (wp_deref _ t1); [done|];
    apply wp_bind; eapply wp_addComponent; [done|eassumption|]; intros ? ? ?; cbn [self console world] in *;
    apply wp_ret).
  apply wp_bind, (wp_deref _ t1); [done|].
  apply wp_bind. eapply wp_startTask; [done|eassumption|]. intros w5 Hlast Olast. cbn [self console world] in *.
  apply wp_ret. split; [done|]. exists t0, t1. cbn [world].
  split_and!; [done| |done]. rewrite Olast by done.
  repeat match goal with O : ∀ t', t' ≠ t1 → tasks_of ?w t' = _ |- tasks_of ?w t0 = _ =>
    rewrite O by done end. exact H3.
Qed.

(** What is assumed of [ObjectManager::initialize]: among other things it initialises the
    distributor, and it registers and replaces nothing. *)
Definition initializes_distributor (initialize : M (env (Globals P Store) W) unit) : Prop :=
  ∀ e pd d, g_pusDistributor (self e) = Some (pd, d) →
    wp initialize e (λ _ e', (∀ i, get_pointer i (world e') = get_pointer i (world e)) ∧
      ∃ c w, (∀ i, get_pointer i w = get_pointer i (world e)) ∧
        wp StubPusDistributor_initialize (Env d c w) (λ _ e1,
          self e' = (self e) <| g_pusDistributor := Some (pd, self e1) |>)).

(** A store that is registered is found as a store. *)
Definition tc_store_found : Prop :=
  ∀ w : W, is_Some (get_pointer TC_STORE w) → is_Some (get_StorageManagerIF TC_STORE w).

Lemma main_setup_run initialize c w :
  ids_apart → tasks_available W Task P → initializes_distributor initialize → tc_store_found →
  wp (main_setup (Task:=Task) initialize) (Env no_globals c w) (λ p e',
    ∃ pd service d, p = Some pd ∧ g_webcamService (self e') = Some service ∧
      g_pusDistributor (self e') = Some (pd, d) ∧ registeredService d = Some service ∧
      is_Some (tcStore d) ∧ sequenceCounter d = 0%Z ∧ scheduled (world e')).
Proof.
  intros Hids Ha Hinit Hstore. unfold main_setup. apply wp_bind.
  eapply wp_mono; [by apply create_from_nothing|]. intros [] e1 (pd & service & d & Hready).
  apply wp_bind. eapply wp_mono; [apply Hinit; by eapply ready_distributor|].
  intros [] e2 (Hreg & c' & w' & Hreg' & Hd).
  destruct (wp_inv _ _ _ Hd) as (rv & e3 & Hrun & Hself). clear Hd.
  do 5 (apply wp_bind, wp_ask).
  rewrite !Hreg, (ready_get_service _ _ _ _ _ Hready), (ready_get_distributor _ _ _ _ _ Hready).
  destruct (ready_get_sink _ _ _ _ _ Hready) as [sink ->].
  destruct (ready_get_receiver _ _ _ _ _ Hready) as [receiver ->].
  apply wp_bind. eapply wp_mono; [by apply schedule_run|]. intros _ e4 [Hs Hsched].
  apply wp_ret. rewrite Hs, Hself. unfold StubPusDistributor_initialize in Hrun.
  destruct (Hstore w') as [st Hst]; [rewrite Hreg'; by eapply ready_get_tcStore|].
  assert (Hd3 : self e3 = d <| tcStore := Some st |>).
  { revert Hrun. unfold mbind, M_bind, ask, assign_member, update, call. cbn [self console world].
    rewrite Hst. destruct (SystemObject_initialize w') as [rv' w3]. by intros [= _ <-]. }
  exists pd, service, (self e3). clean. rewrite Hd3.
  destruct Hready as [R1 R2 R3 R4 _ _ _ _ _]. destruct d. cbn in *. by split_and!.
Qed.

Context {Queue TC : Type}.
Context `{!StorageManagerIF W Store, !StorageView W Store, !StorageManagerLaws W Store}.
Context `{!MessageQueueIF W Queue, !PusIF TC TimeReader, !PusLaws TC TimeReader}.

End Setup.

(** * A world to run the set-up in *)

(** The calls of the factory, recorded, the tasks, and the model framework with its stores
    and queues. *)
Record boot_world := BootWorld {
  boot_calls : list (factory_call nat); boot_tasks : scheduler nat; boot_framework : model_world;
}.

#[export] Instance boot_objects : MissionObjectsIF boot_world nat := {|
  construct o w := (length (boot_calls w), BootWorld (boot_calls w ++ [CallConstruct o (length (boot_calls w))]) (boot_tasks w) (boot_framework w));
  setReceiver p q w := BootWorld (boot_calls w ++ [CallSetReceiver p q]) (boot_tasks w) (boot_framework w);
  setPacketSource p i w := BootWorld (boot_calls w ++ [CallSetPacketSource p i]) (boot_tasks w) (boot_framework w);
  setPacketDestination p i w := BootWorld (boot_calls w ++ [CallSetPacketDestination p i]) (boot_tasks w) (boot_framework w);
|}.
#[export] Instance boot_service : AcceptsTelecommandsIF boot_world nat := {|
  getIdentifier p w := SERVICE_ID;
  getRequestQueue p w := Z.of_nat p;
|}.

(** The object registered last under an identifier. *)
Definition note_registered (i : object_id_t) (found : option nat) (call : factory_call nat) : option nat :=
  match call with
  | CallConstruct o p => if decide (registered_id o = Some i) then Some p else found
  | _ => found
  end.
#[export] Instance boot_lookup : ObjectLookupIF boot_world nat :=
  λ i w, foldl (note_registered i) None (boot_calls w).

#[export] Instance boot_lookup_laws : ObjectLookupLaws boot_world nat.
Proof.
  split; unfold get_pointer, boot_lookup; cbn.
  - intros o w p w' i [= <- <-]. cbn [boot_calls]. by rewrite foldl_snoc.
  - intros p q w i. by rewrite foldl_snoc.
  - intros p j w i. by rewrite foldl_snoc.
  - intros p j w i. by rewrite foldl_snoc.
Qed.

(** A store is known by its identifier. *)
#[export] Instance boot_manager : ObjectManagerIF boot_world Z unit := {|
  get_DeviceHandlerIF i w := None;
  get_ReceivesParameterMessagesIF i w := None;
  get_StorageManagerIF i w := (λ _, i) <$> get_pointer i w;
  get_TimeReaderIF i w := None;
  SystemObject_initialize w := (OK, w);
|}.

#[export] Instance boot_task_factory : TaskFactoryIF boot_world nat nat := {|
  MINIMUM_STACK_SIZE := 4096;
  createPeriodicTask name prio stack period w :=
    let '(t, s) := createPeriodicTask (Exec:=nat) name prio stack period (boot_tasks w) in
    (t, BootWorld (boot_calls w) s (boot_framework w));
  addComponent t c w :=
    let '(r, s) := addComponent (Exec:=nat) t c (boot_tasks w) in (r, BootWorld (boot_calls w) s (boot_framework w));
  startTask t w :=
    let '(r, s) := startTask (Exec:=nat) t (boot_tasks w) in (r, BootWorld (boot_calls w) s (boot_framework w));
|}.
#[export] Instance boot_task_view : TaskView boot_world nat nat := λ w t, tasks_of (boot_tasks w) t.
#[export] Instance boot_task_laws : TaskFactoryLaws boot_world nat nat.
Proof.
  split.
  - intros name prio stack period w t w' Hc. cbn in Hc. injection Hc as <- <-.
    exact (createPeriodicTask_new name prio stack period (boot_tasks w) _ _ eq_refl).
  - intros t c w t' info. exact (addComponent_tasks t c (boot_tasks w) t' info).
  - intros t w t' info. exact (startTask_tasks t (boot_tasks w) t' info).
Qed.

Lemma boot_available : tasks_available boot_world nat nat.
Proof. split; [by eexists|done..]. Qed.

(** The manager initialises the distributor, the only object whose state is modelled with
    the globals. *)
Definition boot_initialize : M (env (Globals nat Z) boot_world) unit := λ e,
  match g_pusDistributor (self e) with
  | Some (pd, d) =>
      match StubPusDistributor_initialize (Env d (console e) (world e)) with
      | Done (_, e1) => Done ((), Env ((self e) <| g_pusDistributor := Some (pd, self e1) |>) (console e1) (world e1))
      | Undefined => Undefined
      | OutOfFuel => OutOfFuel
      end
  | None => Done ((), e)
  end.

Lemma boot_initializes : initializes_distributor boot_initialize.
Proof.
  intros e pd d Hd. unfold wp, boot_initialize. rewrite Hd. cbn. split; [done|].
  exists (console e), (world e). done.
Qed.

Lemma boot_ids_apart : ids_apart.
Proof.
  intros i. unfold framework_ids, webcam_object_ids. rewrite !elem_of_cons, !elem_of_nil.
  intros Hi. repeat destruct Hi as [-> |Hi]; vm_compute; naive_solver.
Qed.

(** The stores and queues are those of the model framework. *)
Definition lift {A} (f : model_world → A * model_world) (w : boot_world) : A * boot_world :=
  let '(a, m) := f (boot_framework w) in (a, BootWorld (boot_calls w) (boot_tasks w) m).

#[export] Instance boot_stores : StorageManagerIF boot_world Z := {|
  getFreeElement st n := lift (getFreeElement st n);
  fillElement st a bs w :=
    BootWorld (boot_calls w) (boot_tasks w) (fillElement st a bs (boot_framework w));
  getData st a := lift (getData st a);
  deleteData st a := lift (deleteData st a);
|}.
#[export] Instance boot_store_view : StorageView boot_world Z := λ w, contents (boot_framework w).

Lemma lift_world {A} (f : model_world → A * model_world) w :
  boot_framework (lift f w).2 = (f (boot_framework w)).2 ∧ (lift f w).1 = (f (boot_framework w)).1.
Proof. unfold lift. by destruct (f (boot_framework w)). Qed.

#[export] Instance boot_stores_laws : StorageManagerLaws boot_world Z.
Proof.
  assert (Hlift : ∀ A (f : model_world → A * model_world) w a w', lift f w = (a, w') →
    f (boot_framework w) = (a, boot_framework w')).
  { intros A f w a w' Hf. pose proof (lift_world f w) as [H1 H2]. rewrite Hf in H1, H2. simpl in *.
    destruct (f (boot_framework w)); simpl in *; congruence. }
  split; unfold contents, boot_store_view; cbn [getFreeElement fillElement getData deleteData boot_stores].
  - intros st n w a w' Hf%Hlift. by apply getFreeElement_OK.
  - intros st n w rv a w' Hf%Hlift. by eapply getFreeElement_error.
  - intros st a bs old w. apply fillElement_contents.
  - intros st a w. destruct (lift_world (getData st a) w) as [-> _]. apply getData_contents.
  - intros st a w bs. destruct (lift_world (getData st a) w) as [_ ->]. apply getData_OK.
  - intros st a w. destruct (lift_world (getData st a) w) as [_ ->]. apply getData_error.
  - intros st a w. destruct (lift_world (deleteData st a) w) as [-> _]. apply deleteData_contents.
Qed.

#[export] Instance boot_queues : MessageQueueIF boot_world Z := {|
  createMessageQueue depth size := lift (createMessageQueue depth size);
  deleteMessageQueue q w :=
    BootWorld (boot_calls w) (boot_tasks w) (deleteMessageQueue q (boot_framework w));
  queue_getId q := queue_getId (W:=model_world) q;
  receive_TmTcMessage q := lift (receive_TmTcMessage q);
  receive_PusVerificationMessage q := lift (receive_PusVerificationMessage q);
  send_TmTcMessage q a := lift (send_TmTcMessage q a);
|}.

